(* ===== verification/_CoqProject ===== *)
-Q . S2P
Prelude.v
RateLimit.v
AdminStore.v
Schema.v
Statements.v
Invariants.v
World.v
Threads.v
Pool.v
GoStrings.v
Utf8Facts.v
GoJson.v
Decimal.v
JsonFacts.v
Sha256.v
Float.v
Runs.v
Samples.v
Repo.v
RepoFacts.v
Auth.v
AuthFacts.v
Redeem.v
Http.v
Middleware.v
MiddlewareFacts.v
AuthHandlers.v
FedRepo.v
Ingest.v
IngestFacts.v
Search.v
SearchFacts.v
ProfileFacts.v
TalentFacts.v
GoTime.v
AdminHandlers.v
AdminFacts.v
Outbox.v
OutboxFacts.v
Federation.v
FederationFacts.v
Ledger.v
WebUI.v
Mcp.v
McpFacts.v
Config.v
Router.v
RouterFacts.v
Store.v
Startup.v
Onboarding.v
DeviceFlow.v
System.v
Interleaving.v
Styled.v
RedocBase.v
RedocPage.v
RedocFacts.v
Theme.v
