(* ===== verification/Prelude.v ===== *)
(** * HireBridge: a verification library for the server under src/

    HireBridge connects nodes that publish signed career packets with recruiters who search
    them.  A node gets a token through the device flow (internal/auth), pushes snapshots
    (internal/service/ingest.go), recruiters search and ask for introductions over MCP
    (internal/mcp), and a worker delivers those to the candidate's own server
    (internal/outbox).  Instances exchange snapshots (internal/federation).  An operator
    approves peers (the admin pages).  Everything is kept in one SQLite database reached
    through a pool of one connection (internal/store).

    ** How the code is modelled

    A Go function is a function of the [world] it finds (World.v): the database, the pooled
    connection, the in-memory stores, the wake channel and what was mailed or sent.  The clock,
    the random bytes and the failures of statements, mails and requests come from [Env],
    indexed by the number of effects so far, so that the theorems hold for every clock, draw
    and pattern of failures unless they say otherwise.  A run ends as a value, an error, a
    panic, or blocked forever on the pool.  A handler is a function of a request's context and
    the request; a middleware maps handlers to handlers (Http.v, Middleware.v).

    ** The files, in order

    - Prelude: strings, booleans, lists, options; the hints and tactics the rest shares.
    - RateLimit, AdminStore: the rate limiter and the admin's session and link stores
      (httpapi/middleware/ratelimit.go, admin.go), each a map changed by atomic steps.
    - Schema, Statements, Invariants: the tables of store/schema/migrations, the writing SQL
      statements as [stmt] with [exec_stmt] and the constraints of the schema, and what every
      statement preserves under every interleaving.
    - World, Runs, Samples: the monad, with the evidence of what a program is made of (its
      single effects, and where it takes the connection); its inversion lemmas; a concrete
      environment for the witnesses.
    - Threads, Pool: that evidence run one effect at a time, so that goroutines interleave on
      one world; a program run alone is its function again.
    - GoStrings, Utf8Facts, GoJson, Decimal, JsonFacts, GoTime, Sha256, Float: what is used of
      Go's libraries (strings, hex, UTF-8, JSON, decimal and calendar text, SHA-256 and HMAC,
      IEEE numbers), all executable; JSON written is JSON read back, for whole trees.
    - Repo, RepoFacts: store/repo, one definition per function.
    - Auth, AuthFacts: auth/mailer.go and service.go: magic links, device flow, polling.
    - Redeem: goroutines that race for one magic link, and for one device code.
    - Http, Middleware, MiddlewareFacts, AuthHandlers: httpapi/middleware and
      handler/auth.go.
    - FedRepo, AdminHandlers, AdminFacts: federation/repo.go and handler/admin.go.
    - Ingest, IngestFacts, Search, SearchFacts, ProfileFacts, TalentFacts: crypto/verify.go,
      service/ingest.go, handler/ingest.go; store/repo/search.go, service/search.go.
    - Outbox, OutboxFacts: outbox/outbox.go.
    - Federation, FederationFacts: identity, signed client, gate and endpoints, discovery and
      the syncer (federation/).
    - Ledger: the abstract specification: one-shot links, grants, tokens and introductions.
    - WebUI, Mcp, McpFacts: handler/webui.go and mcp/server.go.
    - Config: config/config.go and federation/config.go with [time.ParseDuration].
    - Router, RouterFacts: httpapi/server.go, every route with its middleware.
    - Store, Startup: opening the data file, the migrations up and down, the connection's
      settings and the virtual tables (store/store.go, migrate.go, vec0.go, schema/migrations);
      main with every way it gives up, and the life of a data file across runs
      (cmd/hirebridge/main.go).
    - Onboarding, DeviceFlow: a total-correctness calculus of steps over Auth, and with it the
      device flow end to end through the server's routes.
    - System: everything main leaves running, as one step relation over requests, peers'
      requests and the ticks of the workers, and its histories.
    - Interleaving: the same as goroutines that arrive at any time and take turns statement by
      statement.
    - Styled, RedocBase, RedocPage, RedocFacts, Theme: the stylesheets of the documentation
      page (static/redoc.js) and the theme scripts (static/theme.js, templates/docs.html).

    ** What the theorems show

    - Concurrency: in every interleaving of any number of requests, peers and workers, effect
      by effect and with any failures, the connection is held by one goroutine or by none, the
      database keeps its keys, references and life cycles, its tickets move by the ledger's
      transitions, and every order of steps comes to an end with everything answered, unless a
      sync pass has met an active peer; that freezes the database for good (Interleaving).
      However many clicks race for one magic link, one is signed in (Redeem).
    - The database: every handler and worker, the syncer included, whatever fails, refines the
      ledger, which is the promise of the database without its rows: the statements a run
      leaves, seen as events (a link redeemed at a time, a grant approved or exchanged, a token
      revoked, an introduction tried, delivered or given up), are a run of an abstract machine
      in which each is one-shot and in time (Ledger).
    - Composition: every request to the server is answered, never left waiting for the pool;
      a cross-site page changes nothing but the sign-out of the cookie it carries; the revoke
      button is confined to its user's nodes (RouterFacts).  A node nobody knows that follows the device flow through the server ends
      with a working token of its own and its first signed snapshot stored (DeviceFlow).  What
      the MCP tool queues is what the worker delivers (McpFacts, OutboxFacts); what is ingested
      is what is served and verifies (ProfileFacts), and what a search for its words finds
      (TalentFacts); what an instance announces is what its
      peer stores, always pending (FederationFacts).
    - The outbox: a drain does its turns on the rows it loaded and nothing else; over the whole
      life of the worker no request is posted more than MaxAttempts times but for the posts no
      statement could record, and one whose node keeps failing is given up with exactly
      MaxAttempts posts (OutboxFacts).
    - Search: what is answered first has the higher sum of reciprocal places, computed exactly,
      or the lower bm25 score; and what is left out beats nothing of a full answer
      (SearchFacts).
    - Configuration: each setting is read from its own variable, as it was written, and
      anything else leaves its default (Config).
    - The whole process: over any history of requests, peers, drains, reapers and sync passes
      no background goroutine panics, the database keeps its promises, and everything is
      answered until the syncer first finds an active peer (System).
    - Across restarts: the migrations create what the statements assume and keep every row,
      what a run promised the next run still promises, and a data file opened again shows what
      it showed (Startup).
    - One-shot tickets: links and device codes are redeemed once, a token is bound to who
      approved it, a revoked token stays out (RepoFacts, AuthFacts, MiddlewareFacts).
    - Errors: rejected snapshots, failed tools and failed revocations leave the database as it
      was; the answer of each branch is stated exactly where a client depends on it.
    - Bounds: rate limits over sliding windows, attempts of the outbox, the fused score in
      float64 against the exact one, UTF-8 previews.
    - The documentation page: every component's rules close what they open, but for four
      templates with a stray brace (RedocFacts).
    - What does not hold, as theorems too: a sync pass with an active peer blocks the pool for
      good, and with it the server; two polls that overlap both get a token for one device
      code; registration trusts the key in its body; the key button looks at no scope; the
      sign-out answers other sites.

    ** Fuel and bounds

    Recursion is structural except for four readers of text, whose fuel grows with it: the JSON
    parser ([parse_fuel], three units a byte and three more, each call reading a byte or
    closing a value), its strings, durations (one unit a byte, each term reading at least
    one) and the blanks that JavaScript's parseInt skips (the same).  Running out is a parse error, and JsonFacts proves that written objects are read
    back.  Integers are kept at their width where the code computes with them: 32-bit words of
    SHA-256, 24-bit user codes, 64-bit durations modulo 2^64, float64 and float32 through
    [spec_float].

    ** Parameters

    What is not under src/ is a class with the laws the code relies on, each with a concrete
    instance in a witness: ed25519 ([Ed25519], [Ed25519Keys]), the rows FTS5 and sqlite-vec
    answer ([Engine], [SearchEngine] with FTS5's promise [Fts5], [FedEngine]), the order
    [sort.Slice] leaves ties in ([Sorter]), Unicode tables outside ASCII ([Unicode]), decimal
    text of floats ([FloatText]), net/url ([Urls]), mcp-go ([McpGo]), chi's matching ([Chi], and for paths without
    parameters [ChiLiteral]), the time zone ([Zone]), the sqlite3 driver with sqlite-vec
    ([Driver]), golang-migrate ([GoMigrate]), the machine main starts on ([Host]).

    ** Not modelled

    Logging, embedding and template execution have no logic of their own; listening,
    certificates and the draining of connections at shutdown are net/http and autocert.  The
    tickers that call the reapers, the drain, the syncer and the discovery are represented by
    the step they repeat.  The theorems on single handlers, and the histories of System, run
    one handler or worker from its start to its end; Interleaving and Redeem speak of
    overlapping ones, where an operation on an in-memory store is one step, as its mutex makes
    it.  The rest of redoc.js (its React components, its
    OpenAPI parser and the libraries bundled with them) is vendored code for the browser. *)

From stdpp Require Export base tactics list option strings gmap sorting relations.
From Stdlib Require Export ZArith Lia.
From Stdlib Require Export Ascii.

#[global] Set Default Goal Selector "!".

(** The development's own scope and hint databases. *)
Declare Scope hb_scope.
Delimit Scope hb_scope with hb.

Create HintDb hb discriminated.
Create HintDb runs discriminated.

#[global] Arguments String.append !_ _ / : simpl nomatch.

(** ** Byte strings

    A Go [string] or [[]byte] is a sequence of bytes: Rocq's [string], a list of 8-bit
    [ascii]. *)

Notation "a ++s b" := (String.append a b) (at level 60, right associativity) : hb_scope.
#[global] Open Scope hb_scope.

(** The double quote, which a string literal of this development never holds. *)
Definition dq : string := String (ascii_of_nat 34) EmptyString.

Definition quoted (s : string) : string := dq ++s s ++s dq.

(** Go's [s == ""] and [s != ""]. *)
Definition is_empty (s : string) : bool :=
  match s with EmptyString => true | _ => false end.

Lemma is_empty_true s : is_empty s = true <-> s = EmptyString.
Proof. by destruct s. Qed.

Lemma is_empty_false s : is_empty s = false <-> s <> EmptyString.
Proof. by destruct s. Qed.

(** Byte-wise equality as the code's [==] on strings. *)
Definition str_eqb (a b : string) : bool := bool_decide (a = b).

Lemma str_eqb_true a b : str_eqb a b = true <-> a = b.
Proof. apply bool_decide_eq_true. Qed.

Lemma str_eqb_false a b : str_eqb a b = false <-> a <> b.
Proof. apply bool_decide_eq_false. Qed.

Lemma str_eqb_refl a : str_eqb a a = true.
Proof. by apply str_eqb_true. Qed.


(** Evidence for each element of a list. *)
Fixpoint each {A} (P : A -> Type) (l : list A) : Type :=
  match l with [] => unit | x :: l' => P x * each P l' end.

Lemma each_app {A} (P : A -> Type) l1 l2 : each P l1 -> each P l2 -> each P (l1 ++ l2).
Proof. induction l1 as [|x l1 IH]; [done|]. intros [Hx Hl] Hl2. split; [exact Hx|by apply IH]. Defined.

Lemma each_lookup {A} (P : A -> Type) l i x : each P l -> l !! i = Some x -> P x.
Proof.
  revert i. induction l as [|y l IH]; intros i He Hi; [discriminate Hi|]. destruct He as [Hy He], i as [|i]; simpl in Hi.
  - injection Hi as <-. exact Hy.
  - by eapply IH.
Defined.

(** Strings as lists of bytes. *)
Definition bytes_of (s : string) : list ascii := Stdlib.Strings.String.list_ascii_of_string s.
Definition of_bytes (l : list ascii) : string := Stdlib.Strings.String.string_of_list_ascii l.

Lemma append_assoc (a b c : string) : (a ++s b) ++s c = a ++s (b ++s c).
Proof. induction a as [|x a IH]; simpl; [done|by rewrite IH]. Qed.

Lemma append_nil_r (a : string) : a ++s EmptyString = a.
Proof. induction a as [|x a IH]; simpl; [done|by rewrite IH]. Qed.

Lemma length_append (a b : string) :
  String.length (a ++s b) = (String.length a + String.length b)%nat.
Proof. induction a as [|x a IH]; simpl; [done|by rewrite IH]. Qed.

Lemma append_inj_l (p a b : string) : p ++s a = p ++s b -> a = b.
Proof. induction p as [|x p IH]; simpl; [done|]. intros H; injection H; auto. Qed.

(** [strings.HasPrefix] and [strings.TrimPrefix]. *)
Fixpoint has_prefix (s p : string) {struct p} : bool :=
  match p, s with
  | EmptyString, _ => true
  | String x p', String y s' => if decide (x = y) then has_prefix s' p' else false
  | String _ _, EmptyString => false
  end.

Fixpoint trim_prefix_go (s p : string) {struct p} : string :=
  match p, s with
  | String _ p', String _ s' => trim_prefix_go s' p'
  | _, _ => s
  end.

Definition trim_prefix (s p : string) : string :=
  if has_prefix s p then trim_prefix_go s p else s.

Lemma has_prefix_iff s p : has_prefix s p = true <-> exists t, s = p ++s t.
Proof.
  revert s; induction p as [|x p IH]; intros s; simpl.
  - split; [intros _; by exists s|done].
  - destruct s as [|y s]; simpl.
    + split; [done|]. intros [t Ht]; discriminate.
    + case_decide as Hxy.
      * rewrite IH. subst y. split; intros [t Ht]; exists t; congruence.
      * split; [done|]. intros [t Ht]; congruence.
Qed.

Lemma trim_prefix_append p t : trim_prefix (p ++s t) p = t.
Proof.
  unfold trim_prefix.
  assert (has_prefix (p ++s t) p = true) as -> by (apply has_prefix_iff; eauto).
  induction p as [|x p IH]; simpl; [by destruct t|exact IH].
Qed.

Lemma has_prefix_refl s : has_prefix s s = true.
Proof. apply has_prefix_iff. exists EmptyString. by rewrite append_nil_r. Qed.

(** ** Options as SQL's NULL and Go's [sql.NullString] / [sql.NullInt64] *)

Definition is_null {A} (o : option A) : bool :=
  match o with None => true | Some _ => false end.

(** SQL's three-valued [col = v] used as a filter: NULL never matches. *)
Definition col_is (o : option string) (v : string) : bool :=
  match o with Some x => str_eqb x v | None => false end.

Lemma col_is_true o v : col_is o v = true <-> o = Some v.
Proof.
  destruct o as [x|]; simpl; [|by split].
  rewrite str_eqb_true. split; congruence.
Qed.

(** ** Lists *)

Lemma NoDup_fmap_filter {A B} (f : A -> B) (P : A -> Prop) `{!forall x, Decision (P x)} (l : list A) :
  NoDup (f <$> l) -> NoDup (f <$> filter P l).
Proof.
  induction l as [|x l IH]; simpl; [done|].
  rewrite NoDup_cons. intros [Hx Hl].
  rewrite filter_cons. case_decide; [|by apply IH].
  simpl. apply NoDup_cons. split; [|by apply IH].
  intros Hin. apply Hx. apply list_elem_of_fmap in Hin as (y & -> & Hy).
  apply list_elem_of_filter in Hy as [_ Hy]. apply list_elem_of_fmap. eauto.
Qed.

Lemma NoDup_fmap_inj_on {A B} (f : A -> B) (l : list A) x y :
  NoDup (f <$> l) -> x ∈ l -> y ∈ l -> f x = f y -> x = y.
Proof.
  induction l as [|z l IH]; simpl; [by intros _ ?%elem_of_nil|].
  rewrite NoDup_cons. intros [Hz Hl] Hx Hy E.
  apply elem_of_cons in Hx as [->|Hx]; apply elem_of_cons in Hy as [->|Hy].
  - done.
  - exfalso. apply Hz. rewrite E. apply list_elem_of_fmap. eauto.
  - exfalso. apply Hz. rewrite <- E. apply list_elem_of_fmap. eauto.
  - auto.
Qed.

(** ** Tactics *)

(** Membership in a list of constants. *)
Ltac in_list := apply (bool_decide_unpack _); vm_compute; exact I.

(** Case analysis on the first [match] scrutinee or boolean test of the goal. *)
Ltac split_match :=
  match goal with
  | |- context [match ?x with _ => _ end] =>
      lazymatch x with
      | context [match _ with _ => _ end] => fail
      | _ => let E := fresh "E" in destruct x eqn:E
      end
  end.

Ltac split_match_in H :=
  match type of H with
  | context [match ?x with _ => _ end] =>
      lazymatch x with
      | context [match _ with _ => _ end] => fail
      | _ => let E := fresh "E" in destruct x eqn:E
      end
  end.

(** Boolean hypotheses to propositions. *)
Ltac bool_prop :=
  repeat match goal with
  | H : (_ && _)%bool = true |- _ => apply andb_true_iff in H as [? ?]
  | H : (_ || _)%bool = false |- _ => apply orb_false_iff in H as [? ?]
  | H : negb _ = true |- _ => apply negb_true_iff in H
  | H : negb _ = false |- _ => apply negb_false_iff in H
  | H : str_eqb _ _ = true |- _ => apply str_eqb_true in H
  | H : str_eqb _ _ = false |- _ => apply str_eqb_false in H
  | H : col_is _ _ = true |- _ => apply col_is_true in H
  | H : is_empty _ = true |- _ => apply is_empty_true in H
  | H : is_empty _ = false |- _ => apply is_empty_false in H
  | H : bool_decide _ = true |- _ => apply bool_decide_eq_true in H
  | H : bool_decide _ = false |- _ => apply bool_decide_eq_false in H
  | H : (_ <=? _)%Z = true |- _ => apply Z.leb_le in H
  | H : (_ <=? _)%Z = false |- _ => apply Z.leb_gt in H
  | H : (_ <? _)%Z = true |- _ => apply Z.ltb_lt in H
  | H : (_ <? _)%Z = false |- _ => apply Z.ltb_ge in H
  | H : (_ =? _)%Z = true |- _ => apply Z.eqb_eq in H
  | H : (_ =? _)%Z = false |- _ => apply Z.eqb_neq in H
  end.
