(* ===== verification/RateLimit.v ===== *)
(** * The in-memory rate limiter (src/internal/httpapi/middleware/ratelimit.go)

    [RateLimiter] is a map from keys to fixed windows guarded by a mutex, so each
    [Allow] and each pass of the reaper is one atomic step on the map.  Times are
    nanoseconds ([time.Time] and [time.Duration] as [Z]).  The theorems bound what a key
    can get through, show that keys do not interfere, and show that the reaper is
    invisible: it never changes a decision. *)

From S2P Require Import Prelude.

Open Scope Z_scope.

(** [time.Second], [time.Minute], [time.Hour] in nanoseconds. *)
Definition second : Z := 1000000000.
Definition minute : Z := 60 * second.
Definition hour : Z := 60 * minute.

Module RateLimit.

Record rateEntry := RateEntry { count : Z; resetAt : Z }.

#[global] Instance rateEntry_eq_dec : EqDecision rateEntry.
Proof. solve_decision. Defined.

Abbreviation entries := (gmap string rateEntry).

(** [now.After(e.resetAt)] *)
Definition expired (now : Z) (e : rateEntry) : bool := resetAt e <? now.

(** [RateLimiter.Allow]: the decision and the updated map. *)
Definition Allow (key : string) (maxReqs window now : Z) (rl : entries) : bool * entries :=
  match rl !! key with
  | None => (true, <[key := RateEntry 1 (now + window)]> rl)
  | Some e =>
      if expired now e then (true, <[key := RateEntry 1 (now + window)]> rl)
      else if maxReqs <=? count e then (false, rl)
      else (true, <[key := RateEntry (count e + 1) (resetAt e)]> rl)
  end.

(** One tick of [reapLoop]. *)
Definition reap (now : Z) (rl : entries) : entries :=
  filter (fun kv => expired now kv.2 = false) rl.

(** [RateLimiter.Handler]: [true] means the request is passed on, [false] that it is
    answered with 429. *)
Definition Handler {R : Type} (maxReqs window : Z) (keyFn : R -> string)
    (r : R) (now : Z) (rl : entries) : bool * entries :=
  Allow (keyFn r) maxReqs window now rl.

(** ** Traces: requests and reaper passes, in time order *)

Inductive event :=
| Request (key : string) (maxReqs window : Z)
| ReapTick.

Definition step (now : Z) (ev : event) (rl : entries) : option bool * entries :=
  match ev with
  | Request key maxReqs window =>
      let r := Allow key maxReqs window now rl in (Some r.1, r.2)
  | ReapTick => (None, reap now rl)
  end.

Fixpoint run (evs : list (Z * event)) (rl : entries) : list (option bool) * entries :=
  match evs with
  | [] => ([], rl)
  | (now, ev) :: evs' =>
      let r := step now ev rl in
      let rs := run evs' r.2 in
      (r.1 :: rs.1, rs.2)
  end.

Definition is_request (tev : Z * event) : bool :=
  match tev.2 with Request _ _ _ => true | ReapTick => false end.

(** The decisions of a trace, one per request. *)
Definition decisions (evs : list (Z * event)) (rl : entries) : list bool :=
  omap id (run evs rl).1.

(** Events carry non-decreasing times, none before [t]. *)
Fixpoint chronological (t : Z) (evs : list (Z * event)) : Prop :=
  match evs with
  | [] => True
  | (now, _) :: evs' => t <= now /\ chronological now evs'
  end.

(** ** The observational equivalence of limiter states at a time

    Two maps are equivalent from [t] on when every key has the same window in both, or a
    window that is over (or none) in both. *)
Definition dead (t : Z) (o : option rateEntry) : Prop :=
  forall e, o = Some e -> expired t e = true.

Definition equiv_at (t : Z) (a b : entries) : Prop :=
  forall k, a !! k = b !! k \/ (dead t (a !! k) /\ dead t (b !! k)).

#[export] Instance equiv_at_equivalence t : Equivalence (equiv_at t).
Proof.
  split.
  - intros a k; by left.
  - intros a b H k. destruct (H k) as [->|[? ?]]; [by left|by right].
  - intros a b c Hab Hbc k.
    destruct (Hab k) as [E1|[? ?]], (Hbc k) as [E2|[? ?]].
    + left; congruence.
    + right; by rewrite E1.
    + right; by rewrite <- E2.
    + by right.
Qed.

Lemma expired_mono t t' e : t <= t' -> expired t e = true -> expired t' e = true.
Proof. unfold expired. intros ? ?%Z.ltb_lt. apply Z.ltb_lt. lia. Qed.

Lemma dead_mono t t' o : t <= t' -> dead t o -> dead t' o.
Proof. intros ? H e ->. eapply expired_mono; eauto. Qed.

Lemma equiv_at_mono t t' a b : t <= t' -> equiv_at t a b -> equiv_at t' a b.
Proof.
  intros Ht H k. destruct (H k) as [?|[? ?]]; [by left|right].
  split; by eapply dead_mono.
Qed.

Lemma lookup_reap now rl k :
  reap now rl !! k = (e ← rl !! k; if expired now e then None else Some e).
Proof.
  unfold reap. rewrite map_lookup_filter.
  destruct (rl !! k) as [e|]; simpl; [|done].
  case_guard as H; simpl in *; [by rewrite H|].
  by destruct (expired now e).
Qed.

(** The reaper only removes windows that are over. *)
Lemma reap_equiv now rl : equiv_at now (reap now rl) rl.
Proof.
  intros k. rewrite lookup_reap. destruct (rl !! k) as [e|]; simpl; [|by left].
  destruct (expired now e) eqn:E; [right|by left].
  split; intros e' [= <-]; done.
Qed.

Lemma Allow_dead key m w now rl :
  dead now (rl !! key) ->
  Allow key m w now rl = (true, <[key := RateEntry 1 (now + w)]> rl).
Proof.
  unfold Allow, dead. destruct (rl !! key) as [e|]; [|done].
  intros H. by rewrite H.
Qed.

Lemma equiv_at_insert t k v a b : equiv_at t a b -> equiv_at t (<[k := v]> a) (<[k := v]> b).
Proof.
  intros H j. destruct (decide (k = j)) as [->|?].
  - left. by rewrite !lookup_insert_eq.
  - rewrite !lookup_insert_ne by done. apply H.
Qed.

(** Equivalent states decide alike and stay equivalent. *)
Lemma Allow_equiv key m w now a b :
  equiv_at now a b ->
  (Allow key m w now a).1 = (Allow key m w now b).1 /\
  equiv_at now (Allow key m w now a).2 (Allow key m w now b).2.
Proof.
  intros H. destruct (H key) as [E|[Da Db]].
  - unfold Allow. rewrite E. destruct (b !! key) as [e|]; simpl.
    + repeat case_match; simpl; auto using equiv_at_insert.
    + auto using equiv_at_insert.
  - rewrite !Allow_dead by done. simpl. auto using equiv_at_insert.
Qed.

Lemma decisions_cons now ev evs rl :
  decisions ((now, ev) :: evs) rl =
  match (step now ev rl).1 with Some b => [b] | None => [] end ++ decisions evs (step now ev rl).2.
Proof. unfold decisions; simpl. by destruct (step now ev rl).1. Qed.

Lemma decisions_equiv evs : forall t a b,
  chronological t evs -> equiv_at t a b ->
  decisions evs a = decisions (filter (fun tev => is_request tev = true) evs) b.
Proof.
  induction evs as [|[now ev] evs IH]; intros t a b Hc Hab; [done|].
  destruct Hc as [Ht Hc]. apply (equiv_at_mono t now) in Hab; [|done].
  rewrite decisions_cons, filter_cons. destruct ev as [key m w|].
  - destruct (Allow_equiv key m w now a b Hab) as [E1 E2].
    rewrite decide_True by done. rewrite decisions_cons. simpl. rewrite E1.
    f_equal. eapply IH; eauto.
  - rewrite decide_False by done. simpl. eapply IH; [done|].
    transitivity a; [apply reap_equiv|done].
Qed.

(** C36: the reaper is invisible.  Over any trace of requests and reaper passes in time
    order, the decisions are those of the same requests with no reaper at all. *)
Theorem reaper_invisible evs t rl :
  chronological t evs ->
  decisions evs rl = decisions (filter (fun tev => is_request tev = true) evs) rl.
Proof. intros Hc. by eapply decisions_equiv. Qed.

(** ** How much a key can get through *)

(** Whether an event is a request of [key] at a time in [[lo, hi]] that is allowed. *)
Definition admitted (key : string) (lo hi now : Z) (ev : event) (rl : entries) : bool :=
  match ev with
  | Request k m w => str_eqb k key && (lo <=? now) && (now <=? hi) && (Allow k m w now rl).1
  | ReapTick => false
  end.

Fixpoint admitted_count (key : string) (lo hi : Z) (evs : list (Z * event)) (rl : entries) : Z :=
  match evs with
  | [] => 0
  | (now, ev) :: evs' =>
      (if admitted key lo hi now ev rl then 1 else 0)
      + admitted_count key lo hi evs' (step now ev rl).2
  end.

(** Every request of [key] carries the limit [m] and the window [w]: in the code each key
    prefix ([ip:], [email:], [admin-login:]) has one call site. *)
Definition uses (key : string) (m w : Z) (evs : list (Z * event)) : Prop :=
  Forall (fun tev => match tev.2 with
                     | Request k m' w' => k = key -> m' = m /\ w' = w
                     | ReapTick => True
                     end) evs.

Definition counts_positive (rl : entries) : Prop :=
  forall k e, rl !! k = Some e -> 1 <= count e.

Section Bound.
Context (key : string) (m w lo hi : Z) (Hm : 1 <= m) (Hw : 0 <= w) (Hlen : hi <= lo + w).

Lemma admitted_count_late evs : forall t rl,
  chronological t evs -> hi < t -> admitted_count key lo hi evs rl = 0.
Proof.
  induction evs as [|[now ev] evs IH]; intros t rl Hc Ht; simpl; [done|].
  destruct Hc as [? Hc].
  assert (admitted key lo hi now ev rl = false) as ->.
  { destruct ev as [k m' w'|]; simpl; [|done].
    replace (now <=? hi) with false by (symmetry; apply Z.leb_gt; lia).
    by rewrite andb_false_r. }
  rewrite (IH now) by (done || lia). done.
Qed.

(** What one event does to the window of [key]. *)
Lemma step_other now ev rl :
  match ev with Request k _ _ => k <> key | ReapTick => False end ->
  (step now ev rl).2 !! key = rl !! key /\ admitted key lo hi now ev rl = false.
Proof.
  destruct ev as [k m' w'|]; [|done]. intros Hk. simpl. split.
  - unfold Allow. destruct (rl !! k) as [e|]; simpl; [|by rewrite lookup_insert_ne].
    repeat case_match; simpl; rewrite ?lookup_insert_ne by done; done.
  - by apply str_eqb_false in Hk as ->.
Qed.

(** Inside a window that outlasts [hi], only what is left of the window gets through. *)
Lemma admitted_in_window evs : forall t rl e,
  chronological t evs -> uses key m w evs -> rl !! key = Some e -> hi <= resetAt e ->
  admitted_count key lo hi evs rl <= Z.max 0 (m - count e).
Proof.
  induction evs as [|[now ev] evs IH]; intros t rl e Hc Hu He Hhi; simpl; [lia|].
  destruct Hc as [Ht Hc]. apply Forall_cons in Hu as [Hev Hu]. simpl in Hev.
  destruct ev as [k m' w'|].
  - destruct (decide (k = key)) as [->|Hk].
    + destruct (Hev eq_refl) as [-> ->]. simpl. unfold Allow. rewrite He.
      destruct (expired now e) eqn:Ee; simpl.
      { unfold expired in Ee. bool_prop.
        rewrite (admitted_count_late evs now) by (done || lia).
        replace (now <=? hi) with false by (symmetry; apply Z.leb_gt; lia).
        rewrite andb_false_r. simpl. lia. }
      destruct (m <=? count e) eqn:Em; simpl; rewrite ?andb_false_r; bool_prop.
      * specialize (IH now rl e Hc Hu He Hhi). lia.
      * specialize (IH now (<[key := RateEntry (count e + 1) (resetAt e)]> rl) _ Hc Hu
          (lookup_insert_eq _ _ _) Hhi). simpl in IH. split_match; lia.
    + destruct (step_other now (Request k m' w') rl) as [El Ea]; [done|].
      rewrite Ea. rewrite He in El. specialize (IH now _ e Hc Hu El Hhi). lia.
  - simpl. destruct (expired now e) eqn:Ee.
    + unfold expired in Ee. bool_prop. rewrite (admitted_count_late evs now) by (done || lia). lia.
    + specialize (IH now (reap now rl) e Hc Hu). rewrite lookup_reap, He in IH. simpl in IH.
      rewrite Ee in IH. specialize (IH eq_refl Hhi). lia.
Qed.

(** A window opened inside [[lo, hi]] outlasts [hi]. *)
Lemma admitted_fresh t evs rl :
  chronological t evs -> lo <= t -> uses key m w evs ->
  admitted_count key lo hi evs (<[key := RateEntry 1 (t + w)]> rl) <= m - 1.
Proof.
  intros Hc Ht Hu.
  pose proof (admitted_in_window evs t (<[key := RateEntry 1 (t + w)]> rl) (RateEntry 1 (t + w)) Hc Hu
    (lookup_insert_eq _ _ _)) as H.
  simpl in H. specialize (H ltac:(lia)). lia.
Qed.

Definition left_in (o : option rateEntry) : Z :=
  match o with Some e => Z.max 0 (m - count e) | None => 0 end.

Lemma left_in_nonneg o : 0 <= left_in o.
Proof. destruct o; simpl; lia. Qed.

(** From a time in [[lo, hi]] on: what is left of the current window, and one more. *)
Lemma admitted_two_windows evs : forall t rl,
  chronological t evs -> lo <= t -> uses key m w evs ->
  admitted_count key lo hi evs rl <= left_in (rl !! key) + m.
Proof.
  induction evs as [|[now ev] evs IH]; intros t rl Hc Hlo Hu; simpl.
  { pose proof (left_in_nonneg (rl !! key)). lia. }
  destruct Hc as [Ht Hc]. apply Forall_cons in Hu as [Hev Hu]. simpl in Hev.
  pose proof (left_in_nonneg (rl !! key)).
  destruct ev as [k m' w'|].
  - destruct (decide (k = key)) as [->|Hk].
    + destruct (Hev eq_refl) as [-> ->].
      pose proof (admitted_fresh now evs rl Hc ltac:(lia) Hu).
      simpl. unfold Allow. destruct (rl !! key) as [e|] eqn:He; simpl in *; [|split_match; lia].
      destruct (expired now e); simpl; [split_match; lia|].
      destruct (m <=? count e) eqn:Em; simpl; bool_prop; rewrite ?andb_false_r.
      * specialize (IH now rl Hc ltac:(lia) Hu). rewrite He in IH. simpl in IH. lia.
      * specialize (IH now (<[key := RateEntry (count e + 1) (resetAt e)]> rl) Hc ltac:(lia) Hu).
        rewrite lookup_insert_eq in IH. simpl in IH. split_match; lia.
    + destruct (step_other now (Request k m' w') rl) as [El Ea]; [done|].
      rewrite Ea, <- El. specialize (IH now (step now (Request k m' w') rl).2 Hc ltac:(lia) Hu). lia.
  - simpl. specialize (IH now (reap now rl) Hc ltac:(lia) Hu). rewrite lookup_reap in IH.
    destruct (rl !! key) as [e|]; simpl in *; [|lia]. destruct (expired now e); simpl in IH; lia.
Qed.

Lemma counts_positive_step now ev rl : counts_positive rl -> counts_positive (step now ev rl).2.
Proof.
  intros Hp. destruct ev as [k m' w'|]; simpl.
  - unfold Allow. intros j e. destruct (rl !! k) as [e0|] eqn:E.
    + repeat case_match; simpl; [| by apply Hp |];
        rewrite lookup_insert_Some; intros [[<- <-]|[_ ?]]; simpl; eauto; [lia|].
      apply Hp in E. lia.
    + simpl. rewrite lookup_insert_Some. intros [[<- <-]|[_ ?]]; simpl; [lia|eauto].
  - intros j e. rewrite lookup_reap. destruct (rl !! j) as [e0|] eqn:E; simpl; [|done].
    destruct (expired now e0); [done|]. intros [= <-]. eauto.
Qed.

Lemma admitted_count_bound evs : forall t rl,
  chronological t evs -> uses key m w evs -> counts_positive rl ->
  admitted_count key lo hi evs rl <= 2 * m.
Proof.
  induction evs as [|[now ev] evs IH]; intros t rl Hc Hu Hp; [simpl; lia|].
  destruct (decide (lo <= now)) as [Hn|Hn].
  - transitivity (left_in (rl !! key) + m).
    + apply (admitted_two_windows _ now); [|done|done]. simpl in *. split; [lia|apply Hc].
    + unfold left_in. destruct (rl !! key) as [e|] eqn:E; [apply Hp in E|]; lia.
  - simpl. destruct Hc as [_ Hc]. apply Forall_cons in Hu as [_ Hu].
    assert (admitted key lo hi now ev rl = false) as ->.
    { destruct ev as [k m' w'|]; simpl; [|done].
      replace (lo <=? now) with false by (symmetry; apply Z.leb_gt; lia).
      by rewrite andb_false_r. }
    apply (IH now); [done|done|by apply counts_positive_step].
Qed.

End Bound.

(** C35: fixed windows bound a sliding interval.  Whatever else runs (other keys, the reaper),
    a key with limit [m] and window [w] gets at most [2 * m] requests through in any time
    interval of length [w]. *)
Theorem sliding_bound key m w lo t evs :
  1 <= m -> 0 <= w -> chronological t evs -> uses key m w evs ->
  admitted_count key lo (lo + w) evs ∅ <= 2 * m.
Proof.
  intros. eapply admitted_count_bound; eauto; [lia|]. intros k e. by rewrite lookup_empty.
Qed.

Lemma sliding_bound_witness :
  admitted_count "ip:1.2.3.4" 0 (0 + 15 * minute)
    [(0, Request "ip:1.2.3.4" 10 (15 * minute)); (1, ReapTick)] ∅ <= 2 * 10.
Proof.
  apply (sliding_bound "ip:1.2.3.4" 10 (15 * minute) 0 0).
  - lia.
  - vm_compute; discriminate.
  - simpl; lia.
  - repeat constructor.
Defined.

Lemma reaper_invisible_witness :
  decisions [(0, Request "k" 1 second); (3 * second, ReapTick); (3 * second, Request "k" 1 second)] ∅
  = [true; true].
Proof.
  rewrite (reaper_invisible _ 0); [by vm_compute|]. vm_compute. repeat split; discriminate.
Defined.

(** The bound is reached: five requests at the end of a window, five at the start of the
    next one, all within one second. *)
Example sliding_bound_tight :
  let req t := (t, Request "email:a" 5 (15 * minute)) in
  let evs := req 0 :: replicate 4 (req (15 * minute)) ++ replicate 6 (req (15 * minute + second)) in
  admitted_count "email:a" second (second + 15 * minute) evs ∅ = 9 /\
  decisions evs ∅ = replicate 10 true ++ [false].
Proof. by vm_compute. Qed.

End RateLimit.
