(* ===== verification/AdminStore.v ===== *)
(** * The admin's in-memory stores (src/internal/httpapi/middleware/admin.go)

    [AdminSessions] (post-login cookies) and [AdminPendingLinks] (one-shot login tokens) are
    both a mutex-guarded map from a string to an expiry time with a periodic reaper.  The
    state of either is the map; the random session token is an argument of [NewToken], read
    by the caller from [crypto/rand]. *)

From S2P Require Import Prelude RateLimit.

Open Scope Z_scope.

Module AdminStore.

Abbreviation store := (gmap string Z) (only parsing).

(** The defaults of [NewAdminSessions] and [NewAdminPendingLinks]. *)
Definition sessions_ttl (ttl : Z) : Z := if ttl <=? 0 then 2 * hour else ttl.
Definition links_ttl (ttl : Z) : Z := if ttl <=? 0 then 15 * minute else ttl.

(** One tick of either [reapLoop]: entries with [now.After(exp)] are deleted. *)
Definition reap (now : Z) (m : store) : store := filter (fun kv => (kv.2 <? now) = false) m.

(** [AdminSessions.NewToken], once the token is drawn. *)
Definition NewToken (tok : string) (ttl now : Z) (sessions : store) : store :=
  <[tok := now + ttl]> sessions.

(** [AdminSessions.Valid]: a lookup that deletes what it finds expired. *)
Definition Valid (tok : string) (now : Z) (sessions : store) : bool * store :=
  if is_empty tok then (false, sessions)
  else match sessions !! tok with
       | None => (false, sessions)
       | Some exp => if exp <? now then (false, delete tok sessions) else (true, sessions)
       end.

(** [AdminSessions.Revoke] *)
Definition Revoke (tok : string) (sessions : store) : store :=
  if is_empty tok then sessions else delete tok sessions.

(** [AdminPendingLinks.Put] *)
Definition Put (tokenHash : string) (ttl now : Z) (links : store) : store :=
  <[tokenHash := now + ttl]> links.

(** [AdminPendingLinks.Consume]: deletes on lookup, whether or not the link was valid. *)
Definition Consume (tokenHash : string) (now : Z) (links : store) : bool * store :=
  if is_empty tokenHash then (false, links)
  else match links !! tokenHash with
       | None => (false, links)
       | Some exp => (negb (exp <? now), delete tokenHash links)
       end.

(** ** The abstract contract both stores promise: a set of keys alive at a time *)

Definition alive (now : Z) (m : store) (k : string) : Prop :=
  exists exp, m !! k = Some exp /\ now <= exp.

#[export] Instance alive_dec now m k : Decision (alive now m k).
Proof.
  unfold alive. destruct (m !! k) as [e|].
  - destruct (decide (now <= e)).
    + left. eauto.
    + right. intros (e' & [= <-] & ?). done.
  - right. by intros (e' & ? & _).
Defined.

Lemma lookup_link_reap now m k :
  reap now m !! k = (e ← m !! k; if e <? now then None else Some e).
Proof.
  unfold reap. rewrite map_lookup_filter. destruct (m !! k) as [e|]; simpl; [|done].
  case_guard as H; simpl in *; [by rewrite H|]. by destruct (e <? now).
Qed.

Lemma alive_mono now now' m k : now <= now' -> alive now' m k -> alive now m k.
Proof. intros ? (e & ? & ?). exists e. split; [done|lia]. Qed.

(** The reaper removes nothing that is alive, now or later. *)
Lemma alive_reap now now' m k : now <= now' -> alive now' (reap now m) k <-> alive now' m k.
Proof.
  intros Hn. unfold alive. setoid_rewrite lookup_link_reap.
  destruct (m !! k) as [e|]; simpl; [|done].
  destruct (e <? now) eqn:E; [|done]. bool_prop.
  split; intros (e' & [= <-] & ?); lia.
Qed.

Lemma Valid_alive tok now m : (Valid tok now m).1 = true <-> tok <> EmptyString /\ alive now m tok.
Proof.
  unfold Valid, alive. destruct (is_empty tok) eqn:Et; bool_prop.
  - split; [done|]. by intros [? _].
  - destruct (m !! tok) as [e|]; simpl.
    + destruct (e <? now) eqn:E; simpl; bool_prop.
      * split; [done|]. intros (_ & e' & [= <-] & ?); lia.
      * split; [eauto|done].
    + split; [done|]. by intros (_ & e' & ? & _).
Qed.

(** Validating changes no key's liveness. *)
Lemma alive_Valid tok now now' m k :
  now <= now' -> alive now' (Valid tok now m).2 k <-> alive now' m k.
Proof.
  intros Hn. unfold Valid. destruct (is_empty tok); simpl; [done|].
  destruct (m !! tok) as [e|] eqn:Em; simpl; [|done].
  destruct (e <? now) eqn:E; simpl; [|done]. bool_prop.
  unfold alive. destruct (decide (tok = k)) as [->|].
  - rewrite lookup_delete_eq, Em. split; intros (e' & [= <-] & ?); lia.
  - by rewrite lookup_delete_ne.
Qed.

Lemma alive_Revoke tok now m k : alive now (Revoke tok m) k <-> alive now m k /\ (k = EmptyString \/ k <> tok).
Proof.
  unfold Revoke, alive. destruct (is_empty tok) eqn:E; bool_prop.
  - subst. split; [intros H; split; [done|destruct (decide (k = EmptyString)); auto]|by intros [? _]].
  - destruct (decide (tok = k)) as [->|].
    + rewrite lookup_delete_eq. split; [by intros (? & ? & _)|]. by intros [_ [?|?]].
    + rewrite lookup_delete_ne by done. split; [auto|by intros [? _]].
Qed.

Lemma alive_insert k exp now m j :
  alive now (<[k := exp]> m) j <-> (j = k /\ now <= exp) \/ (j <> k /\ alive now m j).
Proof.
  unfold alive. destruct (decide (k = j)) as [->|].
  - rewrite lookup_insert_eq. split.
    + intros (e & [= <-] & ?). by left.
    + intros [[_ ?]|[? _]]; [eauto|done].
  - rewrite lookup_insert_ne by done. split; [by right|].
    intros [[? _]|[_ ?]]; [congruence|done].
Qed.

Lemma Consume_alive h now m : (Consume h now m).1 = true <-> h <> EmptyString /\ alive now m h.
Proof.
  unfold Consume, alive. destruct (is_empty h) eqn:Et; bool_prop.
  - split; [done|]. by intros [? _].
  - destruct (m !! h) as [e|]; simpl.
    + rewrite negb_true_iff, Z.ltb_ge. split; [eauto|]. by intros (_ & e' & [= <-] & ?).
    + split; [done|]. by intros (_ & e' & ? & _).
Qed.

Lemma alive_Consume h now now' m k :
  alive now' (Consume h now m).2 k <-> alive now' m k /\ (k = EmptyString \/ k <> h).
Proof.
  rewrite <- (alive_Revoke h now' m k).
  unfold Consume, Revoke. destruct (is_empty h); [done|].
  destruct (m !! h) eqn:E; [done|]. simpl. by rewrite delete_id.
Qed.

(** ** Histories of the pending-link store *)

Inductive link_event :=
| LPut (h : string)
| LConsume (h : string)
| LReap.

#[global] Instance link_event_eq_dec : EqDecision link_event.
Proof. solve_decision. Defined.

Definition link_step (ttl now : Z) (ev : link_event) (m : store) : bool * store :=
  match ev with
  | LPut h => (false, Put h ttl now m)
  | LConsume h => Consume h now m
  | LReap => (false, reap now m)
  end.

(** The successes of [Consume h] along a history. *)
Fixpoint redemptions (ttl : Z) (h : string) (evs : list (Z * link_event)) (m : store) : nat :=
  match evs with
  | [] => 0
  | (now, ev) :: evs' =>
      let r := link_step ttl now ev m in
      ((if r.1 then match ev with LConsume h' => if decide (h' = h) then 1 else 0 | _ => 0 end else 0)
       + redemptions ttl h evs' r.2)%nat
  end.

Definition puts (h : string) (evs : list (Z * link_event)) : nat :=
  length (filter (fun tev => tev.2 = LPut h) evs).

Definition present (h : string) (m : store) : nat := if decide (is_Some (m !! h)) then 1 else 0.

Lemma link_step_budget ttl h now ev m :
  ((if (link_step ttl now ev m).1
    then match ev with LConsume h' => if decide (h' = h) then 1 else 0 | _ => 0 end else 0)
   + present h (link_step ttl now ev m).2
   <= (if decide (ev = LPut h) then 1 else 0) + present h m)%nat.
Proof.
  unfold present. destruct ev as [h'|h'|]; simpl.
  - unfold Put. repeat case_decide; simpl in *; simplify_eq; try lia.
    rewrite lookup_insert_ne in * by congruence. done.
  - unfold Consume. destruct (is_empty h') eqn:E; simpl; [repeat case_decide; lia|].
    destruct (m !! h') as [e|] eqn:Em; simpl; [|repeat case_decide; lia].
    destruct (decide (h' = h)) as [->|Hne].
    + rewrite lookup_delete_eq, Em. destruct (negb _); repeat case_decide; simpl;
        try done; try lia; exfalso; eauto using is_Some_None.
    + rewrite lookup_delete_ne by done. destruct (negb _); repeat case_decide; lia.
  - rewrite lookup_link_reap. destruct (m !! h) as [e|]; simpl; [destruct (e <? now)|];
      repeat case_decide; simpl; try lia; exfalso; eauto using is_Some_None.
Qed.

Lemma redemptions_le_puts ttl h evs m :
  (redemptions ttl h evs m <= puts h evs + present h m)%nat.
Proof.
  revert m; induction evs as [|[now ev] evs IH]; intros m; simpl; [lia|].
  specialize (IH (link_step ttl now ev m).2).
  pose proof (link_step_budget ttl h now ev m) as Hb.
  unfold puts in *. rewrite filter_cons. simpl.
  destruct (decide (ev = LPut h)); simpl; lia.
Qed.

(** An admin link is one-shot.  Along any history of puts, redemptions and reaper passes
    from the empty store, a token hash is redeemed at most as often as it was put. *)
Theorem link_single_use ttl h evs : (redemptions ttl h evs ∅ <= puts h evs)%nat.
Proof.
  pose proof (redemptions_le_puts ttl h evs ∅) as H.
  unfold present in H. rewrite lookup_empty in H.
  rewrite decide_False in H by apply is_Some_None. lia.
Qed.

End AdminStore.
