(* ===== verification/Schema.v ===== *)
(** * The database (src/internal/store/schema/migrations, src/internal/store/vec0.go)

    One record per table, in the state the migrations 001-004 and [CreateVirtualTables]
    leave; a table is the list of its rows in rowid order.  NULL is [None], a BLOB is a byte
    string, a Unix timestamp is a [Z].  The statements that write these tables, with the
    constraints of the schema, are in Statements.v. *)

From S2P Require Import Prelude.

Open Scope Z_scope.

(** ** Rows *)

Record user := User { u_id : string; u_email : string; u_created : Z }.

Record node := Node {
  n_id : string;
  n_user : option string;
  n_type : string;
  n_endpoint : string;
  n_ping : option Z;
  n_active : bool;
  n_token : option string;
  n_pubkey : option string;
  n_display : option string;
  n_created : option Z;
  n_revoked : option Z;
  n_secret : option string }.

Record snapshot := Snapshot {
  s_id : string;
  s_node : string;
  s_cand : string;
  s_payload : string;
  s_sig : option string;
  s_at : Z }.

Record magic_token := MagicToken {
  m_hash : string;
  m_user : option string;
  m_device : option string;
  m_expires : Z;
  m_used : option Z }.

Record api_token := APIToken {
  t_hash : string;
  t_user : string;
  t_node : option string;
  t_label : option string;
  t_scope : option string;
  t_created : Z;
  t_last : option Z;
  t_revoked : option Z }.

(** The values the CHECK of [device_sessions.status] admits. *)
Inductive dev_status := DPending | DApproved | DDenied | DExpired | DConsumed.

Record device_session := DeviceSession {
  d_hash : string;
  d_ucode : string;
  d_user : option string;
  d_status : dev_status;
  d_node : option string;
  d_created : Z;
  d_expires : Z;
  d_approved : option Z;
  d_consumed : option Z;
  d_interval : Z;
  d_lastpoll : option Z }.

(** The literals the code writes to [introduction_requests.status]. *)
Inductive intro_status := IQueued | IRetrying | IDelivered | IFailed | IUndeliverable.

Record intro := Intro {
  i_id : string;
  i_cand : string;
  i_recruiter : string;
  i_node : string;
  i_status : intro_status;
  i_created : Z;
  i_delivered : option Z;
  i_name : string;
  i_email : string;
  i_company : option string;
  i_attempts : Z;
  i_error : option string;
  i_next : option Z }.

Record audit := Audit {
  a_id : string;
  a_actor : option string;
  a_action : string;
  a_target : string;
  a_ts : Z }.

Record fed_instance := FedInstance {
  f_id : string;
  f_name : string;
  f_endpoint : string;
  f_pubkey : string;
  f_key : string;
  f_seen : option Z;
  f_active : bool;
  f_created : Z;
  f_revoked : option Z }.

Record fed_snapshot := FedSnapshot {
  fs_id : string;
  fs_peer : string;
  fs_cand : string;
  fs_preview : string;
  fs_node : string;
  fs_endpoint : string;
  fs_at : Z }.

(** Rows of [snapshots_fts], [fed_snapshots_fts] (candidate, content) and [candidate_vec]
    (candidate, embedding blob). *)
Abbreviation fts_row := (string * string)%type.
Abbreviation vec_row := (string * string)%type.

Record db := DB {
  users : list user;
  nodes : list node;
  snapshots : list snapshot;
  magic_tokens : list magic_token;
  api_tokens : list api_token;
  device_sessions : list device_session;
  introduction_requests : list intro;
  audit_log : list audit;
  federated_instances : list fed_instance;
  federated_snapshots : list fed_snapshot;
  snapshots_fts : list fts_row;
  (** [None]: creating the table failed at start-up, which is only logged. *)
  fed_snapshots_fts : option (list fts_row);
  candidate_vec : option (list vec_row) }.

Definition empty_db : db := DB [] [] [] [] [] [] [] [] [] [] [] (Some []) (Some []).

#[global] Instance dev_status_eq_dec : EqDecision dev_status.
Proof. solve_decision. Defined.
#[global] Instance intro_status_eq_dec : EqDecision intro_status.
Proof. solve_decision. Defined.
#[global] Instance user_eq_dec : EqDecision user.
Proof. solve_decision. Defined.
#[global] Instance node_eq_dec : EqDecision node.
Proof. solve_decision. Defined.
#[global] Instance snapshot_eq_dec : EqDecision snapshot.
Proof. solve_decision. Defined.
#[global] Instance magic_token_eq_dec : EqDecision magic_token.
Proof. solve_decision. Defined.
#[global] Instance api_token_eq_dec : EqDecision api_token.
Proof. solve_decision. Defined.
#[global] Instance device_session_eq_dec : EqDecision device_session.
Proof. solve_decision. Defined.
#[global] Instance intro_eq_dec : EqDecision intro.
Proof. solve_decision. Defined.
#[global] Instance fed_instance_eq_dec : EqDecision fed_instance.
Proof. solve_decision. Defined.
#[global] Instance fed_snapshot_eq_dec : EqDecision fed_snapshot.
Proof. solve_decision. Defined.

(** ** Tables: SELECT, UPDATE, DELETE with a WHERE clause *)

Section Table.
Context {A : Type}.
Implicit Types (p : A -> bool) (f : A -> A) (t : list A).

Definition sel p t : list A := filter (fun r => p r = true) t.
Definition del p t : list A := filter (fun r => p r = false) t.
Definition upd p f t : list A := (fun r => if p r then f r else r) <$> t.
Definition has p t : bool := existsb p t.

Lemma elem_of_sel p t r : r ∈ sel p t <-> p r = true /\ r ∈ t.
Proof. apply (list_elem_of_filter (fun r => p r = true)). Qed.

Lemma elem_of_del p t r : r ∈ del p t <-> p r = false /\ r ∈ t.
Proof. apply (list_elem_of_filter (fun r => p r = false)). Qed.

Lemma elem_of_upd p f t r : r ∈ upd p f t <-> exists r0, r0 ∈ t /\ r = if p r0 then f r0 else r0.
Proof.
  unfold upd. rewrite list_elem_of_fmap. split; intros (r0 & H1 & H2); eauto.
Qed.

Lemma has_true p t : has p t = true <-> exists r, r ∈ t /\ p r = true.
Proof.
  unfold has. rewrite existsb_exists. by setoid_rewrite list_elem_of_In.
Qed.

Lemma has_false p t : has p t = false <-> forall r, r ∈ t -> p r = false.
Proof.
  split.
  - intros H r Hr. destruct (p r) eqn:E; [|done].
    assert (has p t = true) by (apply has_true; eauto). congruence.
  - intros H. destruct (has p t) eqn:E; [|done].
    apply has_true in E as (r & Hr & E). by rewrite H in E.
Qed.

Lemma sel_nil_iff p t : sel p t = [] <-> has p t = false.
Proof.
  rewrite has_false. split.
  - intros H r Hr. destruct (p r) eqn:E; [|done].
    assert (r ∈ sel p t) as Hin by (by apply elem_of_sel). rewrite H in Hin. by apply elem_of_nil in Hin.
  - intros H. apply elem_of_nil_inv. intros r [E Hr]%elem_of_sel. rewrite H in E; done.
Qed.

(** An update that keeps a column keeps the column's list of values. *)
Lemma fmap_upd {B} (g : A -> B) p f t : (forall r, g (f r) = g r) -> g <$> upd p f t = g <$> t.
Proof.
  intros H. unfold upd. rewrite <- list_fmap_compose. apply list_fmap_ext.
  intros _ r _. simpl. destruct (p r); auto.
Qed.

Lemma upd_id p f t : has p t = false -> upd p f t = t.
Proof.
  rewrite has_false. intros H. unfold upd. rewrite <- (list_fmap_id t) at 2.
  apply list_fmap_ext. intros i r Hr. rewrite H; [done|]. eapply list_elem_of_lookup_2, Hr.
Qed.

End Table.

(** ** Setters *)

Definition set_users f (d : db) := DB (f (users d)) (nodes d) (snapshots d) (magic_tokens d) (api_tokens d) (device_sessions d) (introduction_requests d) (audit_log d) (federated_instances d) (federated_snapshots d) (snapshots_fts d) (fed_snapshots_fts d) (candidate_vec d).
Definition set_nodes f (d : db) := DB (users d) (f (nodes d)) (snapshots d) (magic_tokens d) (api_tokens d) (device_sessions d) (introduction_requests d) (audit_log d) (federated_instances d) (federated_snapshots d) (snapshots_fts d) (fed_snapshots_fts d) (candidate_vec d).
Definition set_snapshots f (d : db) := DB (users d) (nodes d) (f (snapshots d)) (magic_tokens d) (api_tokens d) (device_sessions d) (introduction_requests d) (audit_log d) (federated_instances d) (federated_snapshots d) (snapshots_fts d) (fed_snapshots_fts d) (candidate_vec d).
Definition set_magic f (d : db) := DB (users d) (nodes d) (snapshots d) (f (magic_tokens d)) (api_tokens d) (device_sessions d) (introduction_requests d) (audit_log d) (federated_instances d) (federated_snapshots d) (snapshots_fts d) (fed_snapshots_fts d) (candidate_vec d).
Definition set_api f (d : db) := DB (users d) (nodes d) (snapshots d) (magic_tokens d) (f (api_tokens d)) (device_sessions d) (introduction_requests d) (audit_log d) (federated_instances d) (federated_snapshots d) (snapshots_fts d) (fed_snapshots_fts d) (candidate_vec d).
Definition set_devices f (d : db) := DB (users d) (nodes d) (snapshots d) (magic_tokens d) (api_tokens d) (f (device_sessions d)) (introduction_requests d) (audit_log d) (federated_instances d) (federated_snapshots d) (snapshots_fts d) (fed_snapshots_fts d) (candidate_vec d).
Definition set_intros f (d : db) := DB (users d) (nodes d) (snapshots d) (magic_tokens d) (api_tokens d) (device_sessions d) (f (introduction_requests d)) (audit_log d) (federated_instances d) (federated_snapshots d) (snapshots_fts d) (fed_snapshots_fts d) (candidate_vec d).
Definition set_audit f (d : db) := DB (users d) (nodes d) (snapshots d) (magic_tokens d) (api_tokens d) (device_sessions d) (introduction_requests d) (f (audit_log d)) (federated_instances d) (federated_snapshots d) (snapshots_fts d) (fed_snapshots_fts d) (candidate_vec d).
Definition set_fed f (d : db) := DB (users d) (nodes d) (snapshots d) (magic_tokens d) (api_tokens d) (device_sessions d) (introduction_requests d) (audit_log d) (f (federated_instances d)) (federated_snapshots d) (snapshots_fts d) (fed_snapshots_fts d) (candidate_vec d).
Definition set_fedsnaps f (d : db) := DB (users d) (nodes d) (snapshots d) (magic_tokens d) (api_tokens d) (device_sessions d) (introduction_requests d) (audit_log d) (federated_instances d) (f (federated_snapshots d)) (snapshots_fts d) (fed_snapshots_fts d) (candidate_vec d).
Definition set_fts f (d : db) := DB (users d) (nodes d) (snapshots d) (magic_tokens d) (api_tokens d) (device_sessions d) (introduction_requests d) (audit_log d) (federated_instances d) (federated_snapshots d) (f (snapshots_fts d)) (fed_snapshots_fts d) (candidate_vec d).
Definition set_fedfts o (d : db) := DB (users d) (nodes d) (snapshots d) (magic_tokens d) (api_tokens d) (device_sessions d) (introduction_requests d) (audit_log d) (federated_instances d) (federated_snapshots d) (snapshots_fts d) o (candidate_vec d).
Definition set_vec o (d : db) := DB (users d) (nodes d) (snapshots d) (magic_tokens d) (api_tokens d) (device_sessions d) (introduction_requests d) (audit_log d) (federated_instances d) (federated_snapshots d) (snapshots_fts d) (fed_snapshots_fts d) o.
