(* ===== verification/Statements.v ===== *)
(** * The SQL statements the code executes (src/internal/store/repo, src/internal/federation)

    [stmt] has one constructor per writing statement; the arguments are the statement's
    [?] placeholders in the order the code binds them.  [exec_stmt] is SQLite's documented
    effect of the statement on the tables of Schema.v. *)

From S2P Require Import Prelude Schema.

Open Scope Z_scope.

(** What the code relies on of sqlite-vec's [vec0] tables: an INSERT OR REPLACE either
    fails (wrong dimension) or yields a table. *)
Class Engine := {
  vec_insert_or_replace : string -> string -> list vec_row -> option (list vec_row)
}.

Inductive stmt :=
(* users.go *)
| InsertUser (id email : string) (now : Z)
(* nodes.go, devices.go *)
| InsertNode (id ntype endpoint : string) (now : Z) (pubkey : option string)
| SetNodeTokenHash (tokenHash nodeID : string)
| SetNodeUserIfNull (userID nodeID : string)
| SetNodeSecret (secret nodeID : string)
| DeactivateNode (now : Z) (nodeID : string)
| SetNodePublicKey_ (pub : option string) (nodeID : string)
| SetNodePing (now : Z) (nodeID : string)
(* snapshots.go, nodes.go *)
| UpsertSnapshot_ (id nodeID candidateID payload : string) (sig : option string) (now : Z)
| DeleteSnapshotsOfNode (nodeID : string)
| DeleteFts (candidateID : string)
| InsertFts (candidateID content : string)
| DeleteVec (candidateID : string)
| ReplaceVec (candidateID blob : string)
(* tokens.go *)
| InsertMagic (hash : string) (userID deviceCodeHash : option string) (expiresAt : Z)
| UseMagic (now : Z) (hash : string)
(* api_tokens.go *)
| InsertAPI (hash userID : string) (nodeID : option string) (label scope : string) (now : Z)
| TouchAPI (now : Z) (hash : string)
| RevokeAPI (now : Z) (hash : string)
(* devices.go *)
| InsertDevice (codeHash userCode : string) (nodeID : option string) (now expiresAt : Z)
| ApproveDevice (userID : string) (now : Z) (codeHash : string)
| ConsumeDevice (now : Z) (codeHash : string)
| SetLastPoll (now : Z) (codeHash : string)
(* intros.go *)
| InsertIntro (id candidateID recruiterUserID nodeID : string) (now : Z)
    (name email : string) (company : option string)
| IntroDelivered (now : Z) (id : string)
| IntroRetrying (lastErr : string) (nextAttemptAt : Z) (id : string)
| IntroFailed (lastErr id : string)
| IntroUndeliverable (reason id : string)
(* audit.go, admin.go *)
| InsertAudit (id : string) (actor : option string) (action target : string) (ts : Z)
(* federation *)
| ReplaceFedInstance (id name endpoint pubkey key : string) (active : bool) (now : Z)
| FedHeartbeat (now : Z) (key : string)
| FedSeen (now : Z) (id : string)
| FedApprove (id : string)
| FedRevoke (now : Z) (id : string)
| ReplaceFedSnapshot (id peer candidateID preview nodeID endpoint : string) (at_ : Z)
| InsertFedFts (candidateID content : string).

(** ** WHERE clauses and SET clauses *)

Definition node_is (id : string) (n : node) : bool := str_eqb (n_id n) id.
Definition has_user (id : string) (d : db) : bool := has (fun u => str_eqb (u_id u) id) (users d).
Definition has_node (id : string) (d : db) : bool := has (node_is id) (nodes d).
Definition has_peer (id : string) (d : db) : bool :=
  has (fun f => str_eqb (f_id f) id) (federated_instances d).

(** A nullable REFERENCES column. *)
Definition fk_opt (check : string -> db -> bool) (o : option string) (d : db) : bool :=
  match o with Some id => check id d | None => true end.

(** CHECK (node_type IN ('JobOps','LivingCV')) *)
Definition node_type_ok (t : string) : bool := str_eqb t "JobOps" || str_eqb t "LivingCV".

(** [status IN ('queued','retrying')] and the wider set of MarkIntroUndeliverable. *)
Definition pending_status (s : intro_status) : bool :=
  match s with IQueued | IRetrying => true | _ => false end.
Definition undeliverable_from (s : intro_status) : bool :=
  match s with IQueued | IRetrying | IDelivered => true | _ => false end.

Definition intro_is (id : string) (from : intro_status -> bool) (i : intro) : bool :=
  str_eqb (i_id i) id && from (i_status i).

Definition with_token h n := Node (n_id n) (n_user n) (n_type n) (n_endpoint n) (n_ping n) (n_active n) (Some h) (n_pubkey n) (n_display n) (n_created n) (n_revoked n) (n_secret n).
Definition with_user u n := Node (n_id n) (Some u) (n_type n) (n_endpoint n) (n_ping n) (n_active n) (n_token n) (n_pubkey n) (n_display n) (n_created n) (n_revoked n) (n_secret n).
Definition with_secret s n := Node (n_id n) (n_user n) (n_type n) (n_endpoint n) (n_ping n) (n_active n) (n_token n) (n_pubkey n) (n_display n) (n_created n) (n_revoked n) (Some s).
Definition with_pubkey k n := Node (n_id n) (n_user n) (n_type n) (n_endpoint n) (n_ping n) (n_active n) (n_token n) k (n_display n) (n_created n) (n_revoked n) (n_secret n).
Definition with_ping t n := Node (n_id n) (n_user n) (n_type n) (n_endpoint n) (Some t) (n_active n) (n_token n) (n_pubkey n) (n_display n) (n_created n) (n_revoked n) (n_secret n).
Definition deactivated t n := Node (n_id n) (n_user n) (n_type n) (n_endpoint n) (n_ping n) false (n_token n) (n_pubkey n) (n_display n) (n_created n) (Some t) (n_secret n).

Definition reingested p sg t s := Snapshot (s_id s) (s_node s) (s_cand s) p sg t.

Definition magic_used t m := MagicToken (m_hash m) (m_user m) (m_device m) (m_expires m) (Some t).

Definition touched t a := APIToken (t_hash a) (t_user a) (t_node a) (t_label a) (t_scope a) (t_created a) (Some t) (t_revoked a).
Definition revoked t a := APIToken (t_hash a) (t_user a) (t_node a) (t_label a) (t_scope a) (t_created a) (t_last a) (Some t).

Definition dev_approved u t s := DeviceSession (d_hash s) (d_ucode s) (Some u) DApproved (d_node s) (d_created s) (d_expires s) (Some t) (d_consumed s) (d_interval s) (d_lastpoll s).
Definition dev_consumed t s := DeviceSession (d_hash s) (d_ucode s) (d_user s) DConsumed (d_node s) (d_created s) (d_expires s) (d_approved s) (Some t) (d_interval s) (Some t).
Definition dev_polled t s := DeviceSession (d_hash s) (d_ucode s) (d_user s) (d_status s) (d_node s) (d_created s) (d_expires s) (d_approved s) (d_consumed s) (d_interval s) (Some t).

Definition intro_delivered t i := Intro (i_id i) (i_cand i) (i_recruiter i) (i_node i) IDelivered (i_created i) (Some t) (i_name i) (i_email i) (i_company i) (i_attempts i) None None.
Definition intro_retrying e t i := Intro (i_id i) (i_cand i) (i_recruiter i) (i_node i) IRetrying (i_created i) (i_delivered i) (i_name i) (i_email i) (i_company i) (i_attempts i + 1) (Some e) (Some t).
Definition intro_failed e i := Intro (i_id i) (i_cand i) (i_recruiter i) (i_node i) IFailed (i_created i) (i_delivered i) (i_name i) (i_email i) (i_company i) (i_attempts i + 1) (Some e) None.
Definition intro_undeliverable e i := Intro (i_id i) (i_cand i) (i_recruiter i) (i_node i) IUndeliverable (i_created i) (i_delivered i) (i_name i) (i_email i) (i_company i) (i_attempts i) (Some e) None.

Definition fed_seen t f := FedInstance (f_id f) (f_name f) (f_endpoint f) (f_pubkey f) (f_key f) (Some t) (f_active f) (f_created f) (f_revoked f).
Definition fed_approved f := FedInstance (f_id f) (f_name f) (f_endpoint f) (f_pubkey f) (f_key f) (f_seen f) true (f_created f) None.
Definition fed_revoked t f := FedInstance (f_id f) (f_name f) (f_endpoint f) (f_pubkey f) (f_key f) (f_seen f) false (f_created f) (Some t).

(** WHERE token_hash = ? AND used_at IS NULL AND expires_at >= ? *)
Definition magic_usable (hash : string) (now : Z) (m : magic_token) : bool :=
  str_eqb (m_hash m) hash && is_null (m_used m) && (now <=? m_expires m).

(** WHERE device_code_hash=? AND status='pending' AND expires_at >= ? *)
Definition dev_approvable (codeHash : string) (now : Z) (s : device_session) : bool :=
  str_eqb (d_hash s) codeHash && bool_decide (d_status s = DPending) && (now <=? d_expires s).

Definition dev_consumable (codeHash : string) (s : device_session) : bool :=
  str_eqb (d_hash s) codeHash && bool_decide (d_status s = DApproved).

(** ** Effects *)

Section Effects.
Context {A : Type}.

(** An UPDATE or DELETE on one table, with its affected-row count. *)
Definition updating (get : db -> list A) (set_ : (list A -> list A) -> db -> db)
    (p : A -> bool) (f : A -> A) (d : db) : option (db * nat) :=
  Some (set_ (upd p f) d, length (sel p (get d))).

Definition deleting (get : db -> list A) (set_ : (list A -> list A) -> db -> db)
    (p : A -> bool) (d : db) : option (db * nat) :=
  Some (set_ (del p) d, length (sel p (get d))).

(** An INSERT guarded by its constraints. *)
Definition inserting (set_ : (list A -> list A) -> db -> db) (ok : bool) (r : A) (d : db)
    : option (db * nat) :=
  if ok then Some (set_ (fun t => t ++ [r]) d, 1%nat) else None.

End Effects.

(** The rows of [federated_snapshots] all have their parent. *)
Definition fed_fk_ok (d : db) : bool :=
  forallb (fun s => has_peer (fs_peer s) d) (federated_snapshots d).

Definition exec_stmt `{Engine} (s : stmt) (d : db) : option (db * nat) :=
  match s with
  | InsertUser id email now =>
      if has (fun u => str_eqb (u_id u) id) (users d) then None
      else if has (fun u => str_eqb (u_email u) email) (users d) then Some (d, 1%nat)
      else Some (set_users (fun t => t ++ [User id email now]) d, 1%nat)
  | InsertNode id ty ep now pk =>
      inserting set_nodes (negb (has_node id d) && node_type_ok ty)
        (Node id None ty ep None true None pk None (Some now) None None) d
  | SetNodeTokenHash h id => updating nodes set_nodes (node_is id) (with_token h) d
  | SetNodeUserIfNull u id =>
      let p := fun n => node_is id n && is_null (n_user n) in
      if has p (nodes d) && negb (has_user u d) then None
      else updating nodes set_nodes p (with_user u) d
  | SetNodeSecret sec id => updating nodes set_nodes (node_is id) (with_secret sec) d
  | DeactivateNode now id => updating nodes set_nodes (node_is id) (deactivated now) d
  | SetNodePublicKey_ pk id => updating nodes set_nodes (node_is id) (with_pubkey pk) d
  | SetNodePing now id => updating nodes set_nodes (node_is id) (with_ping now) d
  | UpsertSnapshot_ id nid cid p sg now =>
      let same := fun s => str_eqb (s_node s) nid && str_eqb (s_cand s) cid in
      if has (fun s => str_eqb (s_id s) id) (snapshots d) then None
      else if has same (snapshots d) then updating snapshots set_snapshots same (reingested p sg now) d
      else inserting set_snapshots (has_node nid d) (Snapshot id nid cid p sg now) d
  | DeleteSnapshotsOfNode nid =>
      deleting snapshots set_snapshots (fun s => str_eqb (s_node s) nid) d
  | DeleteFts cid => deleting snapshots_fts set_fts (fun r => str_eqb r.1 cid) d
  | InsertFts cid c => inserting set_fts true (cid, c) d
  | DeleteVec cid =>
      match candidate_vec d with
      | Some t => Some (set_vec (Some (del (fun r => str_eqb r.1 cid) t)) d,
                        length (sel (fun r => str_eqb r.1 cid) t))
      | None => None
      end
  | ReplaceVec cid blob =>
      match candidate_vec d with
      | Some t => match vec_insert_or_replace cid blob t with
                  | Some t' => Some (set_vec (Some t') d, 1%nat)
                  | None => None
                  end
      | None => None
      end
  | InsertMagic h u dc exp =>
      inserting set_magic (negb (has (fun m => str_eqb (m_hash m) h) (magic_tokens d)))
        (MagicToken h u dc exp None) d
  | UseMagic now h => updating magic_tokens set_magic (magic_usable h now) (magic_used now) d
  | InsertAPI h u nid lbl sc now =>
      inserting set_api
        (negb (has (fun a => str_eqb (t_hash a) h) (api_tokens d))
         && has_user u d && fk_opt has_node nid d)
        (APIToken h u nid (Some lbl) (Some sc) now None None) d
  | TouchAPI now h => updating api_tokens set_api (fun a => str_eqb (t_hash a) h) (touched now) d
  | RevokeAPI now h => updating api_tokens set_api (fun a => str_eqb (t_hash a) h) (revoked now) d
  | InsertDevice h uc nid now exp =>
      inserting set_devices
        (negb (has (fun s => str_eqb (d_hash s) h) (device_sessions d))
         && negb (has (fun s => str_eqb (d_ucode s) uc) (device_sessions d))
         && fk_opt has_node nid d)
        (DeviceSession h uc None DPending nid now exp None None 5 None) d
  | ApproveDevice u now h =>
      if has (dev_approvable h now) (device_sessions d) && negb (has_user u d) then None
      else updating device_sessions set_devices (dev_approvable h now) (dev_approved u now) d
  | ConsumeDevice now h =>
      updating device_sessions set_devices (dev_consumable h) (dev_consumed now) d
  | SetLastPoll now h =>
      updating device_sessions set_devices (fun s => str_eqb (d_hash s) h) (dev_polled now) d
  | InsertIntro id cid ru nid now name email comp =>
      inserting set_intros
        (negb (has (fun i => str_eqb (i_id i) id) (introduction_requests d))
         && has_user ru d && has_node nid d)
        (Intro id cid ru nid IQueued now None name email comp 0 None None) d
  | IntroDelivered now id =>
      updating introduction_requests set_intros (intro_is id pending_status) (intro_delivered now) d
  | IntroRetrying e next id =>
      updating introduction_requests set_intros (intro_is id pending_status) (intro_retrying e next) d
  | IntroFailed e id =>
      updating introduction_requests set_intros (intro_is id pending_status) (intro_failed e) d
  | IntroUndeliverable e id =>
      updating introduction_requests set_intros (intro_is id undeliverable_from) (intro_undeliverable e) d
  | InsertAudit id actor act tgt ts =>
      inserting set_audit
        (negb (has (fun a => str_eqb (a_id a) id) (audit_log d)) && fk_opt has_user actor d)
        (Audit id actor act tgt ts) d
  | ReplaceFedInstance id name ep pk key act now =>
      let clash := fun f => str_eqb (f_id f) id || str_eqb (f_key f) key in
      let d' := set_fed (fun t => del clash t ++ [FedInstance id name ep pk key (Some now) act now None]) d in
      if fed_fk_ok d' then Some (d', 1%nat) else None
  | FedHeartbeat now key =>
      updating federated_instances set_fed (fun f => str_eqb (f_key f) key) (fed_seen now) d
  | FedSeen now id =>
      updating federated_instances set_fed (fun f => str_eqb (f_id f) id) (fed_seen now) d
  | FedApprove id =>
      updating federated_instances set_fed (fun f => str_eqb (f_id f) id) fed_approved d
  | FedRevoke now id =>
      updating federated_instances set_fed (fun f => str_eqb (f_id f) id) (fed_revoked now) d
  | ReplaceFedSnapshot id peer cid prev nid ep at_ =>
      let clash := fun s => str_eqb (fs_id s) id || (str_eqb (fs_peer s) peer && str_eqb (fs_cand s) cid) in
      if has_peer peer d then
        Some (set_fedsnaps (fun t => del clash t ++ [FedSnapshot id peer cid prev nid ep at_]) d, 1%nat)
      else None
  | InsertFedFts cid c =>
      match fed_snapshots_fts d with
      | Some t => Some (set_fedfts (Some (t ++ [(cid, c)])) d, 1%nat)
      | None => None
      end
  end.

(** One statement succeeding, and any sequence of them: however the handlers, the outbox
    worker and the federation workers interleave, the database moves along [evolves]. *)
Definition stmt_step `{Engine} (d d' : db) : Prop := exists s n, exec_stmt s d = Some (d', n).
Definition evolves `{Engine} : relation db := rtc stmt_step.
