(* ===== verification/Invariants.v ===== *)
(** * What every statement preserves

    [db_wf] is the integrity of the database: the keys and foreign keys of the schema, and
    the life cycles the code keeps in its status columns (introduction requests, device
    sessions, magic tokens, node revocation, federation trust).  [exec_stmt_wf] proves it of
    each statement and [evolves_wf] of every interleaving of statements.  The monotone facts
    at the end (what is spent stays spent) hold of every interleaving too. *)

From S2P Require Import Prelude Schema Statements.

Open Scope Z_scope.

(** ** Life cycles *)

Definition intro_lifecycle (i : intro) : Prop :=
  match i_status i with
  | IQueued => i_attempts i = 0 /\ i_error i = None /\ i_next i = None /\ i_delivered i = None
  | IRetrying => 1 <= i_attempts i /\ i_error i <> None /\ i_next i <> None /\ i_delivered i = None
  | IDelivered => 0 <= i_attempts i /\ i_error i = None /\ i_next i = None /\ i_delivered i <> None
  | IFailed => 1 <= i_attempts i /\ i_error i <> None /\ i_next i = None /\ i_delivered i = None
  | IUndeliverable => 0 <= i_attempts i /\ i_error i <> None /\ i_next i = None
  end.

Definition device_lifecycle (s : device_session) : Prop :=
  match d_status s with
  | DPending => d_user s = None /\ d_approved s = None /\ d_consumed s = None
  | DApproved => d_user s <> None /\ (exists t, d_approved s = Some t /\ t <= d_expires s) /\ d_consumed s = None
  | DConsumed => d_user s <> None /\ (exists t, d_approved s = Some t /\ t <= d_expires s) /\ d_consumed s <> None
  | DDenied | DExpired => False
  end.

(** ** Rows *)

Definition wf_node (d : db) (n : node) : Prop :=
  fk_opt has_user (n_user n) d = true /\ node_type_ok (n_type n) = true /\
  (n_revoked n <> None -> n_active n = false).
Definition wf_snapshot (d : db) (s : snapshot) : Prop := has_node (s_node s) d = true.
Definition wf_magic (m : magic_token) : Prop := forall t, m_used m = Some t -> t <= m_expires m.
Definition wf_api (d : db) (t : api_token) : Prop :=
  has_user (t_user t) d = true /\ fk_opt has_node (t_node t) d = true /\ t_scope t <> None.
Definition wf_device (d : db) (s : device_session) : Prop :=
  fk_opt has_user (d_user s) d = true /\ fk_opt has_node (d_node s) d = true /\ device_lifecycle s.
Definition wf_intro (d : db) (i : intro) : Prop :=
  has_user (i_recruiter i) d = true /\ has_node (i_node i) d = true /\ intro_lifecycle i.
Definition wf_audit (d : db) (a : audit) : Prop := fk_opt has_user (a_actor a) d = true.
Definition wf_fed (f : fed_instance) : Prop := f_active f = true -> f_revoked f = None.
Definition wf_fedsnap (d : db) (s : fed_snapshot) : Prop := has_peer (fs_peer s) d = true.

(** ** Tables *)

Definition key2 {A} (f g : A -> string) (r : A) : string * string := (f r, g r).

Record db_wf (d : db) : Prop := {
  wf_users_id : NoDup (u_id <$> users d);
  wf_users_email : NoDup (u_email <$> users d);
  wf_nodes_id : NoDup (n_id <$> nodes d);
  wf_nodes_rows : forall r, r ∈ nodes d -> wf_node d r;
  wf_snapshots_id : NoDup (s_id <$> snapshots d);
  wf_snapshots_key : NoDup (key2 s_node s_cand <$> snapshots d);
  wf_snapshots_rows : forall r, r ∈ snapshots d -> wf_snapshot d r;
  wf_magic_id : NoDup (m_hash <$> magic_tokens d);
  wf_magic_rows : forall r, r ∈ magic_tokens d -> wf_magic r;
  wf_api_id : NoDup (t_hash <$> api_tokens d);
  wf_api_rows : forall r, r ∈ api_tokens d -> wf_api d r;
  wf_devices_id : NoDup (d_hash <$> device_sessions d);
  wf_devices_code : NoDup (d_ucode <$> device_sessions d);
  wf_devices_rows : forall r, r ∈ device_sessions d -> wf_device d r;
  wf_intros_id : NoDup (i_id <$> introduction_requests d);
  wf_intros_rows : forall r, r ∈ introduction_requests d -> wf_intro d r;
  wf_audit_id : NoDup (a_id <$> audit_log d);
  wf_audit_rows : forall r, r ∈ audit_log d -> wf_audit d r;
  wf_fed_id : NoDup (f_id <$> federated_instances d);
  wf_fed_key : NoDup (f_key <$> federated_instances d);
  wf_fed_rows : forall r, r ∈ federated_instances d -> wf_fed r;
  wf_fedsnaps_id : NoDup (fs_id <$> federated_snapshots d);
  wf_fedsnaps_key : NoDup (key2 fs_peer fs_cand <$> federated_snapshots d);
  wf_fedsnaps_rows : forall r, r ∈ federated_snapshots d -> wf_fedsnap d r }.

(** ** Rows stay well-formed while parents are only added *)

Definition grows (d d' : db) : Prop :=
  (forall u, has_user u d = true -> has_user u d' = true) /\
  (forall n, has_node n d = true -> has_node n d' = true).

Lemma has_app {A} p (t t' : list A) : has p (t ++ t') = has p t || has p t'.
Proof. apply existsb_app. Qed.

Lemma has_upd_same {A} (p q : A -> bool) f (t : list A) :
  (forall r, p (f r) = p r) -> has p (upd q f t) = has p t.
Proof.
  intros H. induction t as [|r t IH]; [done|].
  change (upd q f (r :: t)) with ((if q r then f r else r) :: upd q f t).
  unfold has in *. simpl. rewrite IH. destruct (q r); [by rewrite H|done].
Qed.

Lemma fk_opt_grows check o (d d' : db) :
  (forall x, check x d = true -> check x d' = true) -> fk_opt check o d = true -> fk_opt check o d' = true.
Proof. destruct o; simpl; auto. Qed.

Section Grow.
Context {d d' : db} (G : grows d d').

Lemma wf_node_grows n : wf_node d n -> wf_node d' n.
Proof. destruct G. intros (? & ? & ?). split_and!; [by eapply fk_opt_grows|done|done]. Qed.
Lemma wf_snapshot_grows s : wf_snapshot d s -> wf_snapshot d' s.
Proof. destruct G. unfold wf_snapshot. auto. Qed.
Lemma wf_api_grows t : wf_api d t -> wf_api d' t.
Proof. destruct G. intros (? & ? & ?). split_and!; [auto|by eapply fk_opt_grows|done]. Qed.
Lemma wf_device_grows s : wf_device d s -> wf_device d' s.
Proof. destruct G. intros (? & ? & ?). split_and!; [by eapply fk_opt_grows|by eapply fk_opt_grows|done]. Qed.
Lemma wf_intro_grows i : wf_intro d i -> wf_intro d' i.
Proof. destruct G. intros (? & ? & ?). split_and!; auto. Qed.
Lemma wf_audit_grows a : wf_audit d a -> wf_audit d' a.
Proof. destruct G. unfold wf_audit. intros. by eapply fk_opt_grows. Qed.

End Grow.

#[export] Hint Resolve wf_node_grows wf_snapshot_grows wf_api_grows wf_device_grows
  wf_intro_grows wf_audit_grows : hb.

(** ** Tables under INSERT, UPDATE and DELETE *)

Lemma NoDup_snoc_key {A B} (g : A -> B) (t : list A) r :
  NoDup (g <$> t) -> (forall r', r' ∈ t -> g r' <> g r) -> NoDup (g <$> t ++ [r]).
Proof.
  intros Ht Hr. rewrite fmap_app. apply NoDup_app. split_and!; [done| |apply NoDup_singleton].
  simpl. intros x (r' & -> & Hin)%list_elem_of_fmap [E|[]%elem_of_nil]%elem_of_cons. by eapply Hr.
Qed.

Lemma has_key_fresh {A} (g : A -> string) (t : list A) k :
  has (fun r => str_eqb (g r) k) t = false -> forall r, r ∈ t -> g r <> k.
Proof. rewrite has_false. intros H r Hr. by apply str_eqb_false, H. Qed.

Lemma NoDup_del {A B} (g : A -> B) p (t : list A) : NoDup (g <$> t) -> NoDup (g <$> del p t).
Proof. apply NoDup_fmap_filter. Qed.

Lemma rows_upd {A} (P Q : A -> Prop) p f (t : list A) :
  (forall r, r ∈ t -> P r) -> (forall r, P r -> Q r) ->
  (forall r, r ∈ t -> p r = true -> Q r -> Q (f r)) -> forall r, r ∈ upd p f t -> Q r.
Proof.
  intros HP HQ Hf r (r0 & Hr0 & ->)%elem_of_upd. destruct (p r0) eqn:E; eauto.
Qed.

Lemma rows_snoc {A} (P Q : A -> Prop) (t : list A) x :
  (forall r, r ∈ t -> P r) -> (forall r, P r -> Q r) -> Q x -> forall r, r ∈ t ++ [x] -> Q r.
Proof. intros HP HQ Hx r [?|?%list_elem_of_singleton]%elem_of_app; [auto|by subst]. Qed.

Lemma rows_del {A} (P Q : A -> Prop) p (t : list A) :
  (forall r, r ∈ t -> P r) -> (forall r, P r -> Q r) -> forall r, r ∈ del p t -> Q r.
Proof. intros HP HQ r [_ ?]%elem_of_del. auto. Qed.

(** ** Each UPDATE keeps its rows well-formed *)

Section Updates.
Context (d : db).

Lemma wf_node_with_token h n : wf_node d n -> wf_node d (with_token h n).
Proof. done. Qed.
Lemma wf_node_with_user u n : has_user u d = true -> wf_node d n -> wf_node d (with_user u n).
Proof. intros ? (? & ? & ?). by split_and!. Qed.
Lemma wf_node_with_secret x n : wf_node d n -> wf_node d (with_secret x n).
Proof. done. Qed.
Lemma wf_node_deactivated t n : wf_node d n -> wf_node d (deactivated t n).
Proof. intros (? & ? & ?). by split_and!. Qed.
Lemma wf_node_with_pubkey k n : wf_node d n -> wf_node d (with_pubkey k n).
Proof. done. Qed.
Lemma wf_node_with_ping t n : wf_node d n -> wf_node d (with_ping t n).
Proof. done. Qed.

Lemma wf_magic_used h t m : magic_usable h t m = true -> wf_magic (magic_used t m).
Proof. unfold magic_usable. intros ?. bool_prop. by intros t' [= <-]. Qed.

Lemma wf_device_approved h u t s :
  dev_approvable h t s = true -> has_user u d = true -> wf_device d s -> wf_device d (dev_approved u t s).
Proof.
  unfold dev_approvable, wf_device, device_lifecycle. intros ? ? (? & ? & L). bool_prop.
  match goal with E : d_status s = _ |- _ => rewrite E in L end. destruct L as (? & ? & ?). simpl. split_and!; eauto.
Qed.
Lemma wf_device_consumed h t s :
  dev_consumable h s = true -> wf_device d s -> wf_device d (dev_consumed t s).
Proof.
  unfold dev_consumable, wf_device, device_lifecycle. intros ? (? & ? & L). bool_prop.
  match goal with E : d_status s = _ |- _ => rewrite E in L end. destruct L as (? & ? & ?). simpl. by split_and!.
Qed.
Lemma wf_device_polled t s : wf_device d s -> wf_device d (dev_polled t s).
Proof. done. Qed.

Lemma wf_intro_step f id from i :
  intro_is id from i = true -> wf_intro d i ->
  i_recruiter (f i) = i_recruiter i -> i_node (f i) = i_node i ->
  (from (i_status i) = true -> intro_lifecycle i -> intro_lifecycle (f i)) ->
  wf_intro d (f i).
Proof.
  unfold intro_is, wf_intro. intros ? (? & ? & ?) -> -> Hf. bool_prop. split_and!; auto.
Qed.

(** Case analysis on the status a transition leaves. *)
Ltac lifecycle :=
  unfold intro_lifecycle; simpl; intros;
  repeat match goal with H : context [match i_status ?i with _ => _ end] |- _ => destruct (i_status i) end;
  destruct_and?; try done; split_and!; try done; try lia.

Lemma wf_intro_delivered t id i :
  intro_is id pending_status i = true -> wf_intro d i -> wf_intro d (intro_delivered t i).
Proof. intros E W. eapply wf_intro_step; eauto. destruct i as [? ? ? ? []]; lifecycle. Qed.
Lemma wf_intro_retrying e t id i :
  intro_is id pending_status i = true -> wf_intro d i -> wf_intro d (intro_retrying e t i).
Proof. intros E W. eapply wf_intro_step; eauto. destruct i as [? ? ? ? []]; lifecycle. Qed.
Lemma wf_intro_failed e id i :
  intro_is id pending_status i = true -> wf_intro d i -> wf_intro d (intro_failed e i).
Proof. intros E W. eapply wf_intro_step; eauto. destruct i as [? ? ? ? []]; lifecycle. Qed.
Lemma wf_intro_undeliverable e id i :
  intro_is id undeliverable_from i = true -> wf_intro d i -> wf_intro d (intro_undeliverable e i).
Proof. intros E W. eapply wf_intro_step; eauto. destruct i as [? ? ? ? []]; lifecycle. Qed.

Lemma wf_fed_seen t f : wf_fed f -> wf_fed (fed_seen t f).
Proof. done. Qed.
Lemma wf_fed_approved f : wf_fed (fed_approved f).
Proof. done. Qed.
Lemma wf_fed_revoked t f : wf_fed (fed_revoked t f).
Proof. done. Qed.

End Updates.

#[export] Hint Resolve wf_node_with_token wf_node_with_user wf_node_with_secret wf_node_deactivated
  wf_node_with_pubkey wf_node_with_ping wf_magic_used wf_device_approved wf_device_consumed
  wf_device_polled wf_intro_delivered wf_intro_retrying wf_intro_failed wf_intro_undeliverable
  wf_fed_seen wf_fed_approved wf_fed_revoked : hb.

(** ** Each statement preserves the invariant *)

Lemma grows_refl d : grows d d.
Proof. by split. Qed.

Section Preservation.
Context `{Engine}.

Lemma exec_stmt_grows s d d' n : exec_stmt s d = Some (d', n) -> grows d d'.
Proof.
  intros E. destruct s; simpl in E; unfold updating, inserting, deleting in E;
    repeat (case_match; try discriminate);
    simplify_eq; try apply grows_refl; split; unfold has_user, has_node; simpl; intros x Hx;
    try done; try (rewrite has_app, Hx; done); by rewrite has_upd_same.
Qed.

(** A nullable foreign key checked only when the UPDATE touches a row. *)
Lemma guarded_fk {A} (p : A -> bool) t (ok : bool) r :
  has p t && negb ok = false -> r ∈ t -> p r = true -> ok = true.
Proof.
  intros E Hr Hp. assert (has p t = true) as Hh by (apply has_true; eauto).
  rewrite Hh in E. by destruct ok.
Qed.

Lemma key2_clash {A} (f g : A -> string) r a b :
  str_eqb (f r) a && str_eqb (g r) b = false -> key2 f g r <> (a, b).
Proof.
  intros E [= E1 E2]. rewrite E1, E2, !str_eqb_refl in E. done.
Qed.

Lemma key2_fresh {A} (f g : A -> string) t a b :
  has (fun r => str_eqb (f r) a && str_eqb (g r) b) t = false ->
  forall r, r ∈ t -> key2 f g r <> (a, b).
Proof. rewrite has_false. intros Hf r Hr. by apply key2_clash, Hf. Qed.

(** Children of [federated_instances] under an UPDATE that keeps its ids. *)
Ltac fed_child W :=
  let r := fresh in let Hr := fresh in
  intros r Hr; unfold wf_fedsnap, has_peer; simpl; rewrite has_upd_same by done;
  apply (wf_fedsnaps_rows _ W r Hr).

(** A key column of the table the statement touches. *)
Ltac key_goal W :=
  first
  [ exact (wf_users_id _ W) | exact (wf_users_email _ W) | exact (wf_nodes_id _ W)
  | exact (wf_snapshots_id _ W) | exact (wf_snapshots_key _ W) | exact (wf_magic_id _ W)
  | exact (wf_api_id _ W) | exact (wf_devices_id _ W) | exact (wf_devices_code _ W)
  | exact (wf_intros_id _ W) | exact (wf_audit_id _ W) | exact (wf_fed_id _ W)
  | exact (wf_fed_key _ W) | exact (wf_fedsnaps_id _ W) | exact (wf_fedsnaps_key _ W)
  | rewrite fmap_upd by done; apply W
  | apply NoDup_del, W ].

(** The rows of a table the statement does not touch. *)
Ltac row_goal W G :=
  first
  [ exact (wf_magic_rows _ W) | exact (wf_fed_rows _ W) | exact (wf_fedsnaps_rows _ W)
  | intros r Hr; eapply wf_node_grows; [exact G|by apply W]
  | intros r Hr; eapply wf_snapshot_grows; [exact G|by apply W]
  | intros r Hr; eapply wf_api_grows; [exact G|by apply W]
  | intros r Hr; eapply wf_device_grows; [exact G|by apply W]
  | intros r Hr; eapply wf_intro_grows; [exact G|by apply W]
  | intros r Hr; eapply wf_audit_grows; [exact G|by apply W] ].

Lemma exec_stmt_wf s d d' n : exec_stmt s d = Some (d', n) -> db_wf d -> db_wf d'.
Proof.
  intros E W. pose proof (exec_stmt_grows _ _ _ _ E) as G.
  destruct s; simpl in E; unfold updating, inserting, deleting in E;
    repeat (case_match; try discriminate); simplify_eq; try done;
    constructor; simpl; try solve [key_goal W]; try solve [row_goal W G].
  all: bool_prop.
  all: try (apply NoDup_snoc_key; [by key_goal W|by eapply has_key_fresh]).
  all: try (eapply rows_upd; [apply W|eauto with hb|]; intros r _ Hp Hr; eauto with hb; fail).
  all: try (eapply rows_del; [apply W|eauto with hb]; fail).
  all: try (eapply rows_snoc; [apply W|eauto with hb|]; repeat split; by (simpl; eauto)).
  - (* SetNodeUserIfNull *)
    eapply rows_upd; [apply W|eauto with hb|]. intros r Hin Hp Hr.
    eapply wf_node_with_user; [|done].
    match goal with G : has _ _ && negb _ = false |- _ => exact (guarded_fk _ _ _ _ G Hin Hp) end.
  - (* UpsertSnapshot_ *)
    apply NoDup_snoc_key; [apply W|]. eapply key2_fresh. eassumption.
  - (* ApproveDevice *)
    eapply rows_upd; [apply W|eauto with hb|]. intros r Hin Hp Hr.
    eapply wf_device_approved; [done| |done].
    match goal with G : has _ _ && negb _ = false |- _ => exact (guarded_fk _ _ _ _ G Hin Hp) end.
  - (* ReplaceFedInstance *)
    apply NoDup_snoc_key; [apply NoDup_del, W|]. intros r [? ?]%elem_of_del. by bool_prop.
  - apply NoDup_snoc_key; [apply NoDup_del, W|]. intros r [? ?]%elem_of_del. by bool_prop.
  - intros r [Hr|Hr%list_elem_of_singleton]%elem_of_app; [|by subst].
    apply elem_of_del in Hr as [_ ?]. by apply (wf_fed_rows _ W).
  - intros r Hr. unfold fed_fk_ok in *. eapply forallb_forall in H0; [done|].
    by apply list_elem_of_In.
  - by fed_child W.
  - by fed_child W.
  - by fed_child W.
  - by fed_child W.
  - (* ReplaceFedSnapshot *)
    apply NoDup_snoc_key; [apply NoDup_del, W|]. intros r [? ?]%elem_of_del. by bool_prop.
  - apply NoDup_snoc_key; [apply NoDup_del, W|]. intros r [Hr _]%elem_of_del.
    apply orb_false_iff in Hr as [_ Hr]. by apply (key2_clash _ _ _ _ _ Hr).
  - intros r [Hr|Hr%list_elem_of_singleton]%elem_of_app; [|by subst].
    apply elem_of_del in Hr as [_ ?]. by apply (wf_fedsnaps_rows _ W).
Qed.

(** From a well-formed database, any sequence of the code's writing statements, with whatever
    arguments, leads to a well-formed database: keys stay unique, references stay resolved and
    the status columns stay in the life cycles. *)
Lemma evolves_preserves_wf d d' : evolves d d' -> db_wf d -> db_wf d'.
Proof. induction 1 as [|d1 d2 d3 (s & n & E) _ IH]; eauto using exec_stmt_wf. Qed.

Lemma empty_db_wf : db_wf empty_db.
Proof. by constructor; simpl; first [apply NoDup_nil_2 | intros r []%elem_of_nil]. Qed.

End Preservation.

(** ** What is spent stays spent *)

Section Tracks.
Context {A : Type} (key : A -> string) (R : A -> A -> Prop).

(** Every row of [t] is still in [t'] under its key, related by [R]. *)
Definition tracks (t t' : list A) : Prop :=
  forall r, r ∈ t -> exists r', r' ∈ t' /\ key r' = key r /\ R r r'.

Lemma tracks_refl `{!Reflexive R} t : tracks t t.
Proof. intros r Hr. eauto. Qed.

Lemma tracks_trans `{!Transitive R} t1 t2 t3 : tracks t1 t2 -> tracks t2 t3 -> tracks t1 t3.
Proof.
  intros H12 H23 r (r2 & H2 & E2 & R2)%H12. apply H23 in H2 as (r3 & H3 & E3 & R3).
  exists r3. split_and!; [done|congruence|by etrans].
Qed.

Lemma tracks_snoc `{!Reflexive R} t x : tracks t (t ++ [x]).
Proof. intros r Hr. exists r. split_and!; [by apply elem_of_app; left|done|done]. Qed.

Lemma tracks_upd `{!Reflexive R} p f t :
  (forall r, key (f r) = key r) -> (forall r, p r = true -> R r (f r)) -> tracks t (upd p f t).
Proof.
  intros Hk Hf r Hr. exists (if p r then f r else r). split_and!.
  - apply elem_of_upd. eauto.
  - destruct (p r); auto.
  - destruct (p r) eqn:E; auto.
Qed.

End Tracks.

Definition node_fate (n n' : node) : Prop :=
  n_type n' = n_type n /\ n_endpoint n' = n_endpoint n /\ n_created n' = n_created n /\
  (n_user n <> None -> n_user n' = n_user n) /\
  (n_active n = false -> n_active n' = false) /\ (n_revoked n <> None -> n_revoked n' <> None).

Definition magic_fate (m m' : magic_token) : Prop :=
  m_user m' = m_user m /\ m_device m' = m_device m /\ m_expires m' = m_expires m /\
  (m_used m <> None -> m_used m' = m_used m).

Definition api_fate (t t' : api_token) : Prop :=
  t_user t' = t_user t /\ t_node t' = t_node t /\ t_scope t' = t_scope t /\
  (t_revoked t <> None -> t_revoked t' <> None).

Definition dev_rank (s : dev_status) : nat :=
  match s with DPending => 0 | DApproved => 1 | _ => 2 end.

Definition device_fate (s s' : device_session) : Prop :=
  d_ucode s' = d_ucode s /\ d_node s' = d_node s /\ d_expires s' = d_expires s /\
  (dev_rank (d_status s) <= dev_rank (d_status s'))%nat /\
  (d_status s <> DPending -> d_user s' = d_user s) /\
  (dev_rank (d_status s) = 2%nat -> d_status s' = d_status s /\ d_consumed s' = d_consumed s).

(** The transitions of an introduction request, closed under sequencing.  [delivered] can
    only be left for [undeliverable]. *)
Definition intro_reaches (s s' : intro_status) : bool :=
  match s, s' with
  | IQueued, _ => true
  | IRetrying, (IRetrying | IDelivered | IFailed | IUndeliverable) => true
  | IDelivered, (IDelivered | IUndeliverable) => true
  | IFailed, IFailed | IUndeliverable, IUndeliverable => true
  | _, _ => false
  end.

Definition intro_final (s : intro_status) : bool :=
  match s with IFailed | IUndeliverable => true | _ => false end.

Definition intro_fate (i i' : intro) : Prop :=
  i_cand i' = i_cand i /\ i_recruiter i' = i_recruiter i /\ i_node i' = i_node i /\
  i_created i' = i_created i /\ i_name i' = i_name i /\ i_email i' = i_email i /\
  i_company i' = i_company i /\
  intro_reaches (i_status i) (i_status i') = true /\ i_attempts i <= i_attempts i' /\
  (intro_final (i_status i) = true -> i' = i).

(** The database only moves forward. *)
Record forward (d d' : db) : Prop := {
  fw_users : tracks u_id eq (users d) (users d');
  fw_nodes : tracks n_id node_fate (nodes d) (nodes d');
  fw_magic : tracks m_hash magic_fate (magic_tokens d) (magic_tokens d');
  fw_api : tracks t_hash api_fate (api_tokens d) (api_tokens d');
  fw_devices : tracks d_hash device_fate (device_sessions d) (device_sessions d');
  fw_intros : tracks i_id intro_fate (introduction_requests d) (introduction_requests d');
  fw_audit : exists l, audit_log d' = audit_log d ++ l }.

#[export] Instance node_fate_preorder : PreOrder node_fate.
Proof.
  split; [by intros n|]. unfold node_fate. intros a b c Hab Hbc. destruct_and?.
  split_and!; try congruence; auto.
  intros Hu. transitivity (n_user b); auto. match goal with H : _ -> n_user c = _ |- _ => apply H end.
  match goal with H : _ -> n_user b = _ |- _ => by rewrite H end.
Qed.

#[export] Instance magic_fate_preorder : PreOrder magic_fate.
Proof.
  split; [by intros m|]. unfold magic_fate. intros a b c Hab Hbc. destruct_and?.
  split_and!; try congruence.
  intros Hu. transitivity (m_used b); auto. match goal with H : _ -> m_used c = _ |- _ => apply H end.
  match goal with H : _ -> m_used b = _ |- _ => by rewrite H end.
Qed.

#[export] Instance api_fate_preorder : PreOrder api_fate.
Proof.
  split; [by intros t|]. unfold api_fate. intros a b c Hab Hbc. destruct_and?.
  split_and!; try congruence; auto.
Qed.

Lemma dev_rank_pending s : (1 <= dev_rank s)%nat <-> s <> DPending.
Proof. destruct s; simpl; split; try done; lia. Qed.

#[export] Instance device_fate_preorder : PreOrder device_fate.
Proof.
  split; [by intros s; repeat split|]. unfold device_fate. intros a b c Hab Hbc. destruct_and?.
  split_and!; try congruence; [lia| |].
  - intros Ha. transitivity (d_user b); auto. match goal with H : _ -> d_user c = _ |- _ => apply H end.
    apply dev_rank_pending. apply dev_rank_pending in Ha. lia.
  - intros Ha. match goal with H : dev_rank (d_status a) = _ -> _ |- _ => destruct (H Ha) as [E1 E2] end.
    rewrite <- E1, <- E2. match goal with H : dev_rank (d_status b) = _ -> _ |- _ => apply H end. congruence.
Qed.

#[export] Instance intro_fate_preorder : PreOrder intro_fate.
Proof.
  split.
  - intros i. unfold intro_fate. split_and!; try done; [by destruct (i_status i)].
  - unfold intro_fate. intros a b c Hab Hbc. destruct_and?.
    split_and!; try congruence; [|lia|].
    + by destruct (i_status a), (i_status b), (i_status c).
    + intros Ha. match goal with H : intro_final (i_status a) = _ -> _ |- _ => specialize (H Ha) as -> end.
      auto.
Qed.

#[export] Instance forward_preorder : PreOrder forward.
Proof.
  split.
  - intros d. constructor; try apply tracks_refl; try apply _. exists []. by rewrite app_nil_r.
  - intros a b c Hab Hbc. constructor; try (eapply tracks_trans; [apply _|apply Hab|apply Hbc]).
    destruct (fw_audit _ _ Hab) as [l1 E1], (fw_audit _ _ Hbc) as [l2 E2].
    exists (l1 ++ l2). by rewrite E2, E1, app_assoc.
Qed.

(** One updated row at a time. *)
Lemma node_fate_with_user u n : is_null (n_user n) = true -> node_fate n (with_user u n).
Proof. unfold node_fate. by destruct (n_user n). Qed.

Lemma magic_fate_used h t m : magic_usable h t m = true -> magic_fate m (magic_used t m).
Proof.
  unfold magic_usable, magic_fate. intros ?. bool_prop.
  by destruct (m_used m).
Qed.

Lemma device_fate_approved h u t s : dev_approvable h t s = true -> device_fate s (dev_approved u t s).
Proof.
  unfold dev_approvable, device_fate. intros ?. bool_prop.
  match goal with E : d_status s = _ |- _ => rewrite E end. simpl. split_and!; try done; lia.
Qed.

Lemma device_fate_consumed h t s : dev_consumable h s = true -> device_fate s (dev_consumed t s).
Proof.
  unfold dev_consumable, device_fate. intros ?. bool_prop.
  match goal with E : d_status s = _ |- _ => rewrite E end. simpl. split_and!; try done; lia.
Qed.

Lemma intro_fate_from (from : intro_status -> bool) f id i :
  intro_is id from i = true ->
  (forall s, from s = true -> intro_reaches s (i_status (f i)) = true /\ intro_final s = false) ->
  i_cand (f i) = i_cand i -> i_recruiter (f i) = i_recruiter i -> i_node (f i) = i_node i ->
  i_created (f i) = i_created i -> i_name (f i) = i_name i -> i_email (f i) = i_email i ->
  i_company (f i) = i_company i -> i_attempts i <= i_attempts (f i) -> intro_fate i (f i).
Proof.
  unfold intro_is, intro_fate. intros Hi Hf. bool_prop.
  destruct (Hf (i_status i)) as [? E]; [done|]. intros. rewrite E. by split_and!.
Qed.

Lemma intro_fate_delivered t id i : intro_is id pending_status i = true -> intro_fate i (intro_delivered t i).
Proof. intros Hi. eapply (intro_fate_from _ (intro_delivered t)); simpl; eauto; [by intros []|lia]. Qed.
Lemma intro_fate_retrying e t id i : intro_is id pending_status i = true -> intro_fate i (intro_retrying e t i).
Proof. intros Hi. eapply (intro_fate_from _ (intro_retrying e t)); simpl; eauto; [by intros []|lia]. Qed.
Lemma intro_fate_failed e id i : intro_is id pending_status i = true -> intro_fate i (intro_failed e i).
Proof. intros Hi. eapply (intro_fate_from _ (intro_failed e)); simpl; eauto; [by intros []|lia]. Qed.
Lemma intro_fate_undeliverable e id i :
  intro_is id undeliverable_from i = true -> intro_fate i (intro_undeliverable e i).
Proof. intros Hi. eapply (intro_fate_from _ (intro_undeliverable e)); simpl; eauto; [by intros []|lia]. Qed.

#[export] Hint Resolve magic_fate_used device_fate_approved device_fate_consumed intro_fate_delivered
  intro_fate_retrying intro_fate_failed intro_fate_undeliverable : hb.

Section Forward.
Context `{Engine}.

Lemma exec_stmt_forward s d d' n : exec_stmt s d = Some (d', n) -> forward d d'.
Proof.
  intros E. destruct s; simpl in E; unfold updating, inserting, deleting in E;
    repeat (case_match; try discriminate); simplify_eq; try reflexivity; constructor; simpl.
  all: try (apply tracks_refl; apply _).
  all: try (apply tracks_snoc; apply _).
  all: try (by exists []; rewrite app_nil_r).
  all: try (by eexists).
  all: apply tracks_upd; [apply _|done|]; intros r Hp; try done; eauto with hb.
  apply node_fate_with_user. by apply andb_true_iff in Hp as [_ ?].
Qed.

Lemma evolves_moves_forward d d' : evolves d d' -> forward d d'.
Proof.
  induction 1 as [|d1 d2 d3 (s & n & E) _ IH]; [reflexivity|].
  transitivity d2; [by eapply exec_stmt_forward|done].
Qed.

(** The database only moves forward, under every interleaving: rows of users, nodes,
    tokens, device sessions and introduction requests are never lost, the audit log is only
    appended to, and what is spent stays spent (a used magic link, a revoked token, a
    consumed device session, a deactivated node, a failed or undeliverable request). *)
Theorem interleavings_move_forward d d' : evolves d d' -> forward d d'.
Proof. apply evolves_moves_forward. Qed.

End Forward.

(** ** A concrete history *)

(** Statements run one after another. *)
Fixpoint run_stmts `{Engine} (l : list stmt) (d : db) : option db :=
  match l with
  | [] => Some d
  | s :: l' => match exec_stmt s d with Some (d', _) => run_stmts l' d' | None => None end
  end.

Lemma run_stmts_evolves `{Engine} l d d' : run_stmts l d = Some d' -> evolves d d'.
Proof.
  revert d. induction l as [|s l IH]; intros d; simpl; [intros [= ->]; apply rtc_refl|].
  destruct (exec_stmt s d) as [[d1 n]|] eqn:E; [|done]. intros Hl.
  eapply rtc_l; [by exists s, n|by apply IH].
Qed.

(** Registration, two sessions, a device approval raced by an expiry, a revocation. *)
Definition sample_history : list stmt :=
  [ InsertUser "u1" "ada@example.com" 10; InsertNode "n1" "LivingCV" "https://cv.example" 11 None;
    InsertDevice "dev" "AAAAAAAA" (Some "n1") 12 900; ApproveDevice "u1" 20 "dev"; ConsumeDevice 21 "dev";
    InsertAPI "tok" "u1" None "recruiter" "recruiter" 22; RevokeAPI 23 "tok"; DeactivateNode 24 "n1" ]%string.

#[local] Instance no_vectors : Engine := {| vec_insert_or_replace _ _ _ := None |}.

Definition sample_db : db := match run_stmts sample_history empty_db with Some d => d | None => empty_db end.

Example sample_db_wf : db_wf sample_db.
Proof.
  apply (evolves_preserves_wf empty_db sample_db); [|apply empty_db_wf]. apply (run_stmts_evolves sample_history). vm_compute. reflexivity.
Qed.

Theorem interleavings_move_forward_witness : forward empty_db sample_db.
Proof.
  apply (interleavings_move_forward empty_db sample_db).
  apply (run_stmts_evolves sample_history). vm_compute. reflexivity.
Defined.
