(* ===== verification/World.v ===== *)
(** * The world a handler runs in, and the monad of its effects

    Go code is modelled as a function of the [world] it finds: the database, the one pooled
    connection ([SetMaxOpenConns(1)] in src/internal/store/store.go), the in-memory stores,
    the outbox wake channel and what was sent.  What the code cannot choose (the clock, the
    random bytes, failures of SQL statements, of the mailer and of HTTP requests) comes from
    [Env], indexed by the number of effects performed so far, so a theorem quantifies over
    every clock, every draw and every pattern of failures.

    A call ends as a value, an error, a panic, or blocked forever waiting for the pool's
    connection. *)

From S2P Require Import Prelude RateLimit AdminStore Schema Statements Invariants.

Open Scope Z_scope.

(** ** Errors *)

Inductive goerr :=
| ErrNoRows                        (* sql.ErrNoRows *)
| ErrNotFound                      (* repo.ErrNotFound *)
| ErrConstraint                    (* a constraint error of SQLite *)
| ErrIO                            (* any other failure of a statement *)
| ErrRand                          (* crypto/rand *)
| ErrEmbedDimMismatch              (* service.ErrEmbedDimMismatch *)
| ErrSend (msg : string)           (* the mailer *)
| ErrText (msg : string)           (* errors.New, fmt.Errorf without %w *)
| ErrWrap (ctx : string) (e : goerr).  (* fmt.Errorf("ctx: %w", e) *)

#[global] Instance goerr_eq_dec : EqDecision goerr.
Proof. solve_decision. Defined.

(** [errors.Is] *)
Fixpoint err_is (e target : goerr) : bool :=
  bool_decide (e = target) || match e with ErrWrap _ e' => err_is e' target | _ => false end.

Inductive outcome (A : Type) :=
| Ok (a : A)
| Err (e : goerr)
| Panic (msg : string)
| Blocked.
Arguments Ok {A}. Arguments Err {A}. Arguments Panic {A}. Arguments Blocked {A}.

(** ** State *)

Record http_request := HttpRequest {
  rq_method : string;
  rq_url : string;
  rq_headers : list (string * string);
  rq_body : string }.

Record world := World {
  w_db : db;
  (** the pool's connection is free *)
  w_conn : bool;
  (** effects performed so far *)
  w_tick : nat;
  w_limiter : gmap string RateLimit.rateEntry;
  w_sessions : gmap string Z;
  w_links : gmap string Z;
  (** the one-slot wake channel of the outbox holds a signal *)
  w_wake : bool;
  (** e-mails handed to SMTP, (address, message), latest first *)
  w_mail : list (string * string);
  (** outgoing HTTP requests, latest first *)
  w_sent : list http_request }.

Definition set_db d w := World d (w_conn w) (w_tick w) (w_limiter w) (w_sessions w) (w_links w) (w_wake w) (w_mail w) (w_sent w).
Definition set_conn b w := World (w_db w) b (w_tick w) (w_limiter w) (w_sessions w) (w_links w) (w_wake w) (w_mail w) (w_sent w).
Definition set_tick n w := World (w_db w) (w_conn w) n (w_limiter w) (w_sessions w) (w_links w) (w_wake w) (w_mail w) (w_sent w).
Definition set_limiter m w := World (w_db w) (w_conn w) (w_tick w) m (w_sessions w) (w_links w) (w_wake w) (w_mail w) (w_sent w).
Definition set_sessions m w := World (w_db w) (w_conn w) (w_tick w) (w_limiter w) m (w_links w) (w_wake w) (w_mail w) (w_sent w).
Definition set_links m w := World (w_db w) (w_conn w) (w_tick w) (w_limiter w) (w_sessions w) m (w_wake w) (w_mail w) (w_sent w).
Definition set_wake b w := World (w_db w) (w_conn w) (w_tick w) (w_limiter w) (w_sessions w) (w_links w) b (w_mail w) (w_sent w).
Definition add_mail x w := World (w_db w) (w_conn w) (w_tick w) (w_limiter w) (w_sessions w) (w_links w) (w_wake w) (x :: w_mail w) (w_sent w).
Definition add_sent x w := World (w_db w) (w_conn w) (w_tick w) (w_limiter w) (w_sessions w) (w_links w) (w_wake w) (w_mail w) (x :: w_sent w).

Definition start_world : world := World empty_db true 0 ∅ ∅ ∅ false [] [].

(** ** The environment *)

Class Env := {
  (** the reading of [time.Now()], in nanoseconds since 1970 *)
  clock : nat -> Z;
  (** [rand.Read] of so many bytes; [None] is an error *)
  entropy : nat -> nat -> option string;
  (** the statement fails for a reason outside the schema *)
  sql_fails : nat -> bool;
  (** the SMTP error for (address, message), if any *)
  mail_fails : nat -> string * string -> option string;
  (** the answer to an HTTP request: a transport error, or a status code and a body *)
  http_answer : nat -> http_request -> string + Z * string }.

(** ** The monad *)

Definition M (A : Type) : Type := world -> outcome A * world.

#[global] Instance M_ret : MRet M := fun A a w => (Ok a, w).

#[global] Instance M_bind : MBind M := fun A B f m w =>
  match m w with
  | (Ok a, w') => f a w'
  | (Err e, w') => (Err e, w')
  | (Panic p, w') => (Panic p, w')
  | (Blocked, w') => (Blocked, w')
  end.

#[global] Instance M_fmap : FMap M := fun A B f m => x ← m; mret (f x).

Definition throw {A} (e : goerr) : M A := fun w => (Err e, w).
Definition panic {A} (msg : string) : M A := fun w => (Panic msg, w).

(** [x, err := m] with both results kept. *)
Definition try_ {A} (m : M A) : M (goerr + A) := fun w =>
  match m w with
  | (Ok a, w') => (Ok (inr a), w')
  | (Err e, w') => (Ok (inl e), w')
  | (Panic p, w') => (Panic p, w')
  | (Blocked, w') => (Blocked, w')
  end.

(** [_ = m] *)
Definition ignore {A} (m : M A) : M unit := _ ← try_ m; mret tt.

(** [if err := m; err != nil { return fmt.Errorf("ctx: %w", err) }] *)
Definition wrap {A} (ctx : string) (m : M A) : M A :=
  r ← try_ m; match r with inr a => mret a | inl e => throw (ErrWrap ctx e) end.

Fixpoint for_each {A} (l : list A) (f : A -> M unit) : M unit :=
  match l with [] => mret tt | x :: l' => f x ;; for_each l' f end.

(** ** Effects *)

Section Effects.
Context `{Env, Engine}.

Definition next_tick : M nat := fun w => (Ok (w_tick w), set_tick (S (w_tick w)) w).

Definition time_now : M Z := k ← next_tick; mret (clock k).
(** [t.Unix()] *)
Definition unix (ns : Z) : Z := ns / second.
Definition unix_now : M Z := ns ← time_now; mret (unix ns).

Definition rand_read (n : nat) : M string :=
  k ← next_tick; match entropy k n with Some b => mret b | None => throw ErrRand end.

(** What the number of effects decides: whether a context is cancelled by now. *)
Definition peek {A} (f : nat -> A) : M A := fun w => (Ok (f (w_tick w)), w).

Definition get_db : M db := fun w => (Ok (w_db w), w).

(** One statement on a connection already held. *)
Definition sql_stmt (s : stmt) : M nat := fun w =>
  let w' := set_tick (S (w_tick w)) w in
  if sql_fails (w_tick w) then (Err ErrIO, w')
  else match exec_stmt s (w_db w) with
       | Some (d, n) => (Ok n, set_db d w')
       | None => (Err ErrConstraint, w')
       end.

Definition sql_read {A} (f : db -> A) : M A := fun w =>
  let w' := set_tick (S (w_tick w)) w in
  if sql_fails (w_tick w) then (Err ErrIO, w') else (Ok (f (w_db w)), w').

(** Take the pool's only connection, run, give it back.  Whoever asks while it is taken
    waits; a goroutine that waits for the connection it holds itself waits forever. *)
Definition with_conn {A} (m : M A) : M A := fun w =>
  if w_conn w then
    let r := m (set_conn false w) in
    match r.1 with Blocked => r | _ => (r.1, set_conn true r.2) end
  else (Blocked, w).

Definition db_exec (s : stmt) : M nat := with_conn (sql_stmt s).
Definition db_query {A} (f : db -> A) : M A := with_conn (sql_read f).

(** [QueryRow(...).Scan(...)]: no row is [sql.ErrNoRows]. *)
Definition scan_row {A} (o : option A) : M A :=
  match o with Some a => mret a | None => throw ErrNoRows end.
Definition db_query_row {A} (f : db -> option A) : M A :=
  with_conn (o ← sql_read f; scan_row o).

(** [rows, err := db.Query(...); defer rows.Close(); for rows.Next() { body }]: the
    connection is held until the loop ends. *)
Definition db_rows {A} (f : db -> list A) (body : A -> M unit) : M unit :=
  with_conn (rows ← sql_read f; for_each rows body).

(** How a transaction's function ends without an error: after [tx.Commit()], or by an early
    return that leaves the deferred [tx.Rollback()] to undo its writes. *)
Inductive tx_end (A : Type) := Commit (a : A) | Rollback (a : A).
#[global] Arguments Commit {A}.
#[global] Arguments Rollback {A}.

(** [tx, err := db.Begin(); defer tx.Rollback(); ...; tx.Commit()] *)
Definition run_tx {A} (body : M (tx_end A)) : M A := fun w =>
  match body w with
  | (Ok (Commit a), w2) =>
      match sql_read (fun _ => tt) w2 with
      | (Ok _, w3) => (Ok a, w3)
      | (_, w3) => (Err ErrIO, set_db (w_db w) w3)
      end
  | (Ok (Rollback a), w2) => (Ok a, set_db (w_db w) w2)
  | (Err e, w2) => (Err e, set_db (w_db w) w2)
  | (Panic p, w2) => (Panic p, set_db (w_db w) w2)
  | (Blocked, w2) => (Blocked, w2)
  end.
Definition with_tx {A} (body : M (tx_end A)) : M A :=
  with_conn (_ ← sql_read (fun _ => tt); run_tx body).

Definition send_mail (email message : string) : M unit := fun w =>
  let w' := add_mail (email, message) (set_tick (S (w_tick w)) w) in
  match mail_fails (w_tick w) (email, message) with
  | Some msg => (Err (ErrSend msg), w')
  | None => (Ok tt, w')
  end.

(** [client.Do(req)]: the transport error's text, or the status and the body. *)
Definition http_send (rq : http_request) : M (string + Z * string) := fun w =>
  (Ok (http_answer (w_tick w) rq), add_sent rq (set_tick (S (w_tick w)) w)).

(** [select { case wake <- struct{}{}: default: }] *)
Definition signal_wake : M unit := fun w => (Ok tt, set_wake true w).

(** In-memory stores, each operation under its mutex. *)
Definition on_limiter {A} (f : gmap string RateLimit.rateEntry -> A * gmap string RateLimit.rateEntry) : M A :=
  fun w => let r := f (w_limiter w) in (Ok r.1, set_limiter r.2 w).
Definition on_sessions {A} (f : gmap string Z -> A * gmap string Z) : M A :=
  fun w => let r := f (w_sessions w) in (Ok r.1, set_sessions r.2 w).
Definition on_links {A} (f : gmap string Z -> A * gmap string Z) : M A :=
  fun w => let r := f (w_links w) in (Ok r.1, set_links r.2 w).

End Effects.

(** ** Pool discipline and the evolution of the database

    The structure of a program, as evidence that Threads.v runs step by step: the single
    effects it is made of, and where it takes the pool's connection.  [code n p m] says that
    [m] is written for the place [p]: [Outside] of a session it may take the connection;
    [Inside] one it may issue statements and run a transaction on it; [Anywhere] code does
    neither.  With [n] a session may also ask the pool for a second connection, as the
    syncer's does; no handler's session may.

    [still] code touches neither the database nor the pool.  [raw] code runs on a connection
    already held: it neither takes nor returns one.  [good] code may find the connection free:
    it gives it back and is never left waiting; found taken, it changes nothing.  Either way
    the database only moves by statements of [stmt] (a rolled-back transaction not at all).
    Every handler of the development is shown [good] by [solve_good]. *)

Section Discipline.
Context `{Env, Engine}.

(** A single effect. *)
Inductive effect : forall A, M A -> Prop :=
| eff_ret A (a : A) : effect A (mret a)
| eff_throw A e : effect A (throw e)
| eff_panic A p : effect A (panic p)
| eff_tick : effect nat next_tick
| eff_peek A (f : nat -> A) : effect A (peek f)
| eff_mail e l : effect unit (send_mail e l)
| eff_http rq : effect (string + Z * string) (http_send rq)
| eff_wake : effect unit signal_wake
| eff_limiter A (f : _ -> A * _) : effect A (on_limiter f)
| eff_sessions A (f : _ -> A * _) : effect A (on_sessions f)
| eff_links A (f : _ -> A * _) : effect A (on_links f).

(** What a session does with its connection. *)
Inductive access : forall A, M A -> Type :=
| acc_stmt s : access nat (sql_stmt s)
| acc_read A (f : db -> A) : access A (sql_read f)
| acc_peek : access db get_db.

Inductive place := Outside | Inside | Anywhere.
#[global] Instance place_eq_dec : EqDecision place.
Proof. solve_decision. Defined.

Inductive code (n : bool) : place -> forall A, M A -> Type :=
| Effect p A m : effect A m -> code n p A m
| Access A m : access A m -> code n Inside A m
| Seq p A B (m : M A) (f : A -> M B) : code n p A m -> (forall a, code n p B (f a)) -> code n p B (m ≫= f)
| Try p A (m : M A) : code n p A m -> code n p (goerr + A) (try_ m)
| Tx A (body : M (tx_end A)) : code n Inside (tx_end A) body -> code n Inside A (run_tx body)
| Conn A (m : M A) : code n Inside A m -> code n Outside A (with_conn m)
| Nested A (m : M A) : n = true -> code n Inside A (with_conn m).

Definition still {A} (m : M A) : Type := code false Anywhere A m.
Definition raw {A} (m : M A) : Type := code false Inside A m.
Definition good {A} (m : M A) : Type := code false Outside A m.

(** Code for anywhere is code for everywhere. *)
Lemma weaken {n p A} {m : M A} q : code n p A m -> p = Anywhere -> code n q A m.
Proof.
  intros c. induction c as [p A m Hm|A m Hm|p A B m f _ IHm _ IHf|p A m _ IHm|A m _ _|A m _ _|A m _]; intros E; try discriminate E.
  - by apply Effect.
  - by apply Seq; auto.
  - by apply Try, IHm.
Defined.

Lemma still_raw {A} (m : M A) : still m -> raw m.
Proof. intros c. exact (weaken Inside c eq_refl). Defined.
Lemma still_good {A} (m : M A) : still m -> good m.
Proof. intros c. exact (weaken Outside c eq_refl). Defined.

(** Handlers' code is also code where nesting is allowed. *)
Lemma allow_nesting {p A} {m : M A} : code false p A m -> code true p A m.
Proof.
  intros c. induction c; [by apply Effect|by apply Access|by apply Seq|by apply Try|by apply Tx|by apply Conn|].
  by apply Nested.
Defined.

(** *** What the evidence is worth *)

Lemma evolves_refl d : evolves d d.
Proof. apply rtc_refl. Qed.
Lemma evolves_trans d1 d2 d3 : evolves d1 d2 -> evolves d2 d3 -> evolves d1 d3.
Proof. unfold evolves. intros. by etrans. Qed.
Lemma evolves_once s d d' n : exec_stmt s d = Some (d', n) -> evolves d d'.
Proof. intros E. apply rtc_once. by exists s, n. Qed.

Lemma blocked_without_conn {A} (m : M A) w : w_conn w = false -> with_conn m w = (Blocked, w).
Proof. unfold with_conn. by intros ->. Qed.

(** The promise of code for a place, from a world [w] that it leaves as [x]. *)
Definition keeps_pool (p : place) {A} (w : world) (x : outcome A * world) : Prop :=
  match p with
  | Anywhere => w_db x.2 = w_db w /\ w_conn x.2 = w_conn w /\ x.1 <> Blocked
  | Inside => evolves (w_db w) (w_db x.2) /\ w_conn x.2 = w_conn w /\ x.1 <> Blocked
  | Outside =>
      if w_conn w then evolves (w_db w) (w_db x.2) /\ w_conn x.2 = true /\ x.1 <> Blocked
      else w_db x.2 = w_db w /\ w_conn x.2 = false
  end.

Lemma keeps_pool_still p {A} w (x : outcome A * world) :
  w_db x.2 = w_db w -> w_conn x.2 = w_conn w -> x.1 <> Blocked -> keeps_pool p w x.
Proof. intros Ed Ec Hb. destruct p; simpl; rewrite Ed, Ec; [destruct (w_conn w)|..]; eauto using evolves_refl. Qed.

Lemma keeps_pool_trans p {A B} w (x : outcome A * world) (y : outcome B * world) :
  keeps_pool p w x -> x.1 <> Blocked -> keeps_pool p x.2 y -> keeps_pool p w y.
Proof.
  intros Hx Hn Hy. destruct p; simpl in *.
  - destruct (w_conn w); destruct Hx as (Ev & Ec); [destruct Ec as [Ec _]|]; rewrite Ec in Hy.
    + destruct Hy as (? & ? & ?). split_and!; [by eapply evolves_trans|done..].
    + destruct Hy. split; congruence.
  - destruct Hx as (? & ? & _), Hy as (? & ? & ?). split_and!; [by eapply evolves_trans|congruence|done].
  - destruct Hx as (? & ? & _), Hy as (? & ? & ?). split_and!; [congruence..|done].
Qed.

Lemma keeps_pool_end p {A B} w (o : outcome A) (o' : outcome B) w' :
  (o' = Blocked -> o = Blocked) -> keeps_pool p w (o, w') -> keeps_pool p w (o', w').
Proof. intros Ho. destruct p; simpl; [destruct (w_conn w)|..]; tauto. Qed.

Lemma effect_keeps_pool p {A} (m : M A) w : effect A m -> keeps_pool p w (m w).
Proof.
  intros []; apply keeps_pool_still; try done; unfold send_mail; by destruct (mail_fails _ _).
Qed.

Lemma access_keeps_pool {A} (m : M A) w : access A m -> keeps_pool Inside w (m w).
Proof.
  intros [s|B f|].
  - unfold sql_stmt. simpl. destruct (sql_fails _); simpl; [eauto using evolves_refl|].
    destruct (exec_stmt s (w_db w)) as [[d n]|] eqn:E; simpl; eauto using evolves_once, evolves_refl.
  - apply keeps_pool_still; unfold sql_read; by destruct (sql_fails _).
  - by apply keeps_pool_still.
Qed.

Lemma bind_keeps_pool p {A B} (m : M A) (f : A -> M B) w :
  keeps_pool p w (m w) -> (forall a w', keeps_pool p w' (f a w')) -> keeps_pool p w ((m ≫= f) w).
Proof.
  intros Hm Hf. unfold mbind, M_bind. destruct (m w) as [[a|e|q|] w']; try by eapply keeps_pool_end; [|exact Hm].
  by eapply keeps_pool_trans.
Qed.

Lemma run_tx_keeps_pool {A} (body : M (tx_end A)) w :
  keeps_pool Inside w (body w) -> keeps_pool Inside w (run_tx body w).
Proof.
  intros (Ev & Ec & Eb). unfold run_tx.
  destruct (body w) as [[[a|a]|e|p|] w2]; simpl in *; try done; try (split_and!; [apply evolves_refl|done|done]).
  unfold sql_read. destruct (sql_fails _); simpl; split_and!; first [done|apply evolves_refl].
Qed.

Lemma with_conn_keeps_pool {A} (m : M A) w :
  (forall w', keeps_pool Inside w' (m w')) -> keeps_pool Outside w (with_conn m w).
Proof.
  intros Hm. simpl. destruct (w_conn w) eqn:Hw; [|by rewrite blocked_without_conn].
  unfold with_conn. rewrite Hw. destruct (Hm (set_conn false w)) as (Ev & Ec & Eb).
  destruct (m (set_conn false w)) as [[a|e|p|] w']; simpl in *; done.
Qed.

Lemma code_keeps_pool {p A} {m : M A} : code false p A m -> forall w, keeps_pool p w (m w).
Proof.
  intros c. induction c as [p A m Hm|A m Hm|p A B m f _ IHm _ IHf|p A m _ IHm|A m _ IHm|A m _ IHm|A m E]; intros w.
  - by apply effect_keeps_pool.
  - by apply access_keeps_pool.
  - by apply bind_keeps_pool.
  - specialize (IHm w). unfold try_. destruct (m w) as [[a|e|q|] w']; by eapply keeps_pool_end; [|exact IHm].
  - by apply run_tx_keeps_pool.
  - by apply with_conn_keeps_pool.
  - discriminate E.
Qed.

Lemma still_run {A} (m : M A) : still m -> forall w,
  w_db (m w).2 = w_db w /\ w_conn (m w).2 = w_conn w /\ (m w).1 <> Blocked.
Proof. exact code_keeps_pool. Qed.

Lemma raw_run {A} (m : M A) : raw m -> forall w,
  evolves (w_db w) (w_db (m w).2) /\ w_conn (m w).2 = w_conn w /\ (m w).1 <> Blocked.
Proof. exact code_keeps_pool. Qed.

Lemma good_run {A} (m : M A) : good m -> forall w, w_conn w = true ->
  evolves (w_db w) (w_db (m w).2) /\ w_conn (m w).2 = true /\ (m w).1 <> Blocked.
Proof. intros c w Hw. pose proof (code_keeps_pool c w) as Hc. unfold keeps_pool in Hc. by rewrite Hw in Hc. Qed.

Lemma good_wait {A} (m : M A) : good m -> forall w, w_conn w = false -> w_db (m w).2 = w_db w /\ w_conn (m w).2 = false.
Proof. intros c w Hw. pose proof (code_keeps_pool c w) as Hc. unfold keeps_pool in Hc. by rewrite Hw in Hc. Qed.

(** *** Evidence for the constructs of the code *)

Lemma still_bind {A B} (m : M A) (f : A -> M B) : still m -> (forall a, still (f a)) -> still (m ≫= f).
Proof. apply Seq. Defined.
Lemma raw_bind {A B} (m : M A) (f : A -> M B) : raw m -> (forall a, raw (f a)) -> raw (m ≫= f).
Proof. apply Seq. Defined.
Lemma good_bind {A B} (m : M A) (f : A -> M B) : good m -> (forall a, good (f a)) -> good (m ≫= f).
Proof. apply Seq. Defined.

Lemma still_try {A} (m : M A) : still m -> still (try_ m).
Proof. apply Try. Defined.
Lemma raw_try {A} (m : M A) : raw m -> raw (try_ m).
Proof. apply Try. Defined.
Lemma good_try {A} (m : M A) : good m -> good (try_ m).
Proof. apply Try. Defined.

Lemma code_ret {n p A} (a : A) : code n p A (mret a).
Proof. apply Effect, eff_ret. Defined.
Lemma code_throw {n p A} e : code n p A (throw e).
Proof. apply Effect, eff_throw. Defined.

Lemma code_ignore {n p A} (m : M A) : code n p A m -> code n p unit (ignore m).
Proof. intros c. apply Seq; [by apply Try|]. intros _. apply code_ret. Defined.
Lemma code_wrap {n p A} ctx (m : M A) : code n p A m -> code n p A (wrap ctx m).
Proof. intros c. apply Seq; [by apply Try|]. intros []; [apply code_throw|apply code_ret]. Defined.
Lemma code_for_each {n p A} (l : list A) f : (forall x, code n p unit (f x)) -> code n p unit (for_each l f).
Proof. intros c. induction l as [|x l IH]; simpl; [apply code_ret|]. by apply Seq. Defined.
Lemma code_db_rows {n A} (f : db -> list A) body : (forall x, code n Inside unit (body x)) -> code n Outside unit (db_rows f body).
Proof. intros c. apply Conn, Seq; [apply Access, acc_read|intros l; by apply code_for_each]. Defined.

Lemma still_wrap {A} c (m : M A) : still m -> still (wrap c m).
Proof. apply code_wrap. Defined.
Lemma raw_wrap {A} c (m : M A) : raw m -> raw (wrap c m).
Proof. apply code_wrap. Defined.
Lemma good_wrap {A} c (m : M A) : good m -> good (wrap c m).
Proof. apply code_wrap. Defined.

Lemma still_ignore {A} (m : M A) : still m -> still (ignore m).
Proof. apply code_ignore. Defined.
Lemma raw_ignore {A} (m : M A) : raw m -> raw (ignore m).
Proof. apply code_ignore. Defined.
Lemma good_ignore {A} (m : M A) : good m -> good (ignore m).
Proof. apply code_ignore. Defined.

Lemma raw_for_each {A} (l : list A) f : (forall x, raw (f x)) -> raw (for_each l f).
Proof. apply code_for_each. Defined.
Lemma good_for_each {A} (l : list A) f : (forall x, good (f x)) -> good (for_each l f).
Proof. apply code_for_each. Defined.

(** *** Evidence for the effects *)

Lemma still_ret {A} (a : A) : still (mret a : M A).
Proof. apply code_ret. Defined.
Lemma still_throw {A} e : still (throw e : M A).
Proof. apply code_throw. Defined.
Lemma still_panic {A} p : still (panic p : M A).
Proof. apply Effect, eff_panic. Defined.
Lemma still_next_tick : still next_tick.
Proof. apply Effect, eff_tick. Defined.
Lemma still_peek {A} (f : nat -> A) : still (peek f).
Proof. apply Effect, eff_peek. Defined.
Lemma still_time_now : still time_now.
Proof. apply still_bind; [apply still_next_tick|intros; apply still_ret]. Defined.
Lemma still_unix_now : still unix_now.
Proof. apply still_bind; [apply still_time_now|intros; apply still_ret]. Defined.
Lemma still_rand_read n : still (rand_read n).
Proof. apply still_bind; [apply still_next_tick|]. intros k. destruct (entropy k n); [apply still_ret|apply still_throw]. Defined.
Lemma still_scan_row {A} (o : option A) : still (scan_row o).
Proof. destruct o; [apply still_ret|apply still_throw]. Defined.
Lemma still_send_mail e l : still (send_mail e l).
Proof. apply Effect, eff_mail. Defined.
Lemma still_http_send rq : still (http_send rq).
Proof. apply Effect, eff_http. Defined.
Lemma still_signal_wake : still signal_wake.
Proof. apply Effect, eff_wake. Defined.
Lemma still_on_limiter {A} (f : _ -> A * _) : still (on_limiter f).
Proof. apply Effect, eff_limiter. Defined.
Lemma still_on_sessions {A} (f : _ -> A * _) : still (on_sessions f).
Proof. apply Effect, eff_sessions. Defined.
Lemma still_on_links {A} (f : _ -> A * _) : still (on_links f).
Proof. apply Effect, eff_links. Defined.

Lemma raw_get_db : raw get_db.
Proof. apply Access, acc_peek. Defined.
Lemma raw_sql_read {A} (f : db -> A) : raw (sql_read f).
Proof. apply Access, acc_read. Defined.
Lemma raw_sql_stmt s : raw (sql_stmt s).
Proof. apply Access, acc_stmt. Defined.

Lemma good_with_conn {A} (m : M A) : raw m -> good (with_conn m).
Proof. apply Conn. Defined.
Lemma good_db_exec s : good (db_exec s).
Proof. apply Conn, raw_sql_stmt. Defined.
Lemma good_db_query {A} (f : db -> A) : good (db_query f).
Proof. apply Conn, raw_sql_read. Defined.
Lemma good_db_query_row {A} (f : db -> option A) : good (db_query_row f).
Proof. apply Conn, raw_bind; [apply raw_sql_read|intros; apply still_raw, still_scan_row]. Defined.
Lemma good_db_rows {A} (f : db -> list A) body : (forall x, raw (body x)) -> good (db_rows f body).
Proof. apply code_db_rows. Defined.
Lemma good_with_tx {A} (body : M (tx_end A)) : raw body -> good (with_tx body).
Proof. intros c. apply Conn, raw_bind; [apply raw_sql_read|]. intros _. by apply Tx. Defined.

End Discipline.

(** A good call runs as promised wherever the connection is free. *)
Coercion still_run : still >-> Funclass.
Coercion raw_run : raw >-> Funclass.
Coercion good_run : good >-> Funclass.

(** A good call is one to which the invariants of Invariants.v apply. *)
Lemma good_wf `{Env, Engine} {A} (m : M A) w :
  good m -> w_conn w = true -> db_wf (w_db w) -> db_wf (w_db (m w).2).
Proof. intros Hm Hw. destruct (Hm w Hw) as (? & _). by apply evolves_preserves_wf. Qed.

Create HintDb good discriminated.

#[export] Hint Resolve still_raw still_good still_ret still_throw still_panic still_next_tick still_peek
  still_time_now still_unix_now still_rand_read still_scan_row still_send_mail still_http_send
  still_signal_wake still_on_limiter still_on_sessions still_on_links raw_get_db raw_sql_read raw_sql_stmt
  good_db_exec good_db_query good_db_query_row : good.

(** Walk down a monadic program, cutting at binds, error handlers, loops and tests; leaves
    are closed by the hints of [good]. *)
Ltac solve_good :=
  repeat (intros;
    first
    [ solve [auto 2 with good nocore]
    | match goal with
      | |- still (try_ _) => apply still_try
      | |- still (ignore _) => apply still_ignore
      | |- still (wrap _ _) => apply still_wrap
      | |- still (_ ≫= _) => apply still_bind
      | |- still (match ?x with _ => _ end) => destruct x
      | |- raw (try_ _) => apply raw_try
      | |- raw (ignore _) => apply raw_ignore
      | |- raw (wrap _ _) => apply raw_wrap
      | |- raw (for_each _ _) => apply raw_for_each
      | |- raw (_ ≫= _) => apply raw_bind
      | |- raw (match ?x with _ => _ end) => destruct x
      | |- good (try_ _) => apply good_try
      | |- good (ignore _) => apply good_ignore
      | |- good (wrap _ _) => apply good_wrap
      | |- good (for_each _ _) => apply good_for_each
      | |- good (with_tx _) => apply good_with_tx
      | |- good (with_conn _) => apply good_with_conn
      | |- good (db_rows _ _) => apply good_db_rows
      | |- good (_ ≫= _) => apply good_bind
      | |- good (match ?x with _ => _ end) => destruct x
      end ]).
