(* ===== verification/Threads.v ===== *)
(** * Goroutines that interleave

    A program with its evidence (World.v), run one effect at a time.  [run] is how far a
    goroutine has come: before some code, with a continuation left to do, inside a
    transaction (with the database to roll back to) or holding the pool's connection.
    [step] does its next effect, or nothing while it waits for the connection.  Run alone, a
    goroutine does what the function it was made from does ([alone_exact]); run among others,
    which may change the world between any two of its steps, it still ends after finitely
    many steps of its own ([run_ends]), and the pool of all goroutines keeps the promises of
    [sound]. *)

From S2P Require Import Prelude RateLimit AdminStore Schema Statements Invariants World.

Open Scope Z_scope.

Section Machine.
Context `{Env, Engine}.

(** ** One goroutine *)

Inductive run (n : bool) : place -> Type -> Type :=
| Begin p A (m : M A) : code n p A m -> run n p A
| Then p A B (f : A -> M B) : run n p A -> (forall a, code n p B (f a)) -> run n p B
| Trying p A : run n p A -> run n p (goerr + A)
| InTx A (d0 : db) : run n Inside (tx_end A) -> run n Inside A
| Ending A (d0 : db) (o : outcome (tx_end A)) : run n Inside A
| Holding A : run n Inside A -> run n Outside A.

#[global] Arguments Begin {n p A m}.
#[global] Arguments Then {n p A B f}.
#[global] Arguments Trying {n p A}.
#[global] Arguments InTx {n A}.
#[global] Arguments Ending {n A}.
#[global] Arguments Holding {n A}.

(** What is left after a step: a result, or more to do. *)
Inductive turn (n : bool) (p : place) (A : Type) :=
| Done (o : outcome A)
| More (r : run n p A).
#[global] Arguments Done {n p A}.
#[global] Arguments More {n p A}.

(** The end of a transaction whose function ended as [o]: COMMIT, or back to [d0]. *)
Definition end_tx {A} (d0 : db) (o : outcome (tx_end A)) : M A := fun w =>
  match o with
  | Ok (Commit a) =>
      match sql_read (fun _ => tt) w with
      | (Ok _, w') => (Ok a, w')
      | (_, w') => (Err ErrIO, set_db d0 w')
      end
  | Ok (Rollback a) => (Ok a, set_db d0 w)
  | Err e => (Err e, set_db d0 w)
  | Panic p => (Panic p, set_db d0 w)
  | Blocked => (Blocked, w)
  end.

(** The end of a session: the connection goes back to the pool. *)
Definition release {A} (x : outcome A * world) : outcome A * world :=
  match x.1 with Blocked => x | _ => (x.1, set_conn true x.2) end.

Definition then_turn {n p A B} {f : A -> M B} (cf : forall a, code n p B (f a)) (x : turn n p A * world) : turn n p B * world :=
  (match x.1 with
   | Done (Ok a) => More (Begin (cf a))
   | Done (Err e) => Done (Err e)
   | Done (Panic q) => Done (Panic q)
   | Done Blocked => Done Blocked
   | More r => More (Then r cf)
   end, x.2).

Definition try_turn {n p A} (x : turn n p A * world) : turn n p (goerr + A) * world :=
  (match x.1 with
   | Done (Ok a) => Done (Ok (inr a))
   | Done (Err e) => Done (Ok (inl e))
   | Done (Panic q) => Done (Panic q)
   | Done Blocked => Done Blocked
   | More r => More (Trying r)
   end, x.2).

Definition tx_turn {n A} (d0 : db) (x : turn n Inside (tx_end A) * world) : turn n Inside A * world :=
  (match x.1 with Done o => More (Ending d0 o) | More r => More (InTx d0 r) end, x.2).

Definition held_turn {n A} (x : turn n Inside A * world) : turn n Outside A * world :=
  match x.1 with
  | Done o => let y := release (o, x.2) in (Done y.1, y.2)
  | More r => (More (Holding r), x.2)
  end.

Definition once {n p A} (x : outcome A * world) : turn n p A * world := (Done x.1, x.2).

(** The first effect of a program; [None] while it waits for the connection.  Whoever asks for
    a second one waits for itself. *)
Fixpoint begin {n p A} {m : M A} (c : code n p A m) (w : world) : option (turn n p A * world) :=
  match c with
  | Effect _ p A m _ => Some (once (m w))
  | Access _ A m _ => Some (once (m w))
  | Seq _ p A B m f cm cf => then_turn cf <$> begin cm w
  | Try _ p A m cm => try_turn <$> begin cm w
  | Tx _ A body cb => Some (More (InTx (w_db w) (Begin cb)), w)
  | Conn _ A m cm => if w_conn w then Some (More (Holding (Begin cm)), set_conn false w) else None
  | Nested _ _ _ _ => None
  end.

Fixpoint step {n p A} (r : run n p A) (w : world) : option (turn n p A * world) :=
  match r with
  | Begin c => begin c w
  | Then r cf => then_turn cf <$> step r w
  | Trying r => try_turn <$> step r w
  | InTx d0 r => tx_turn d0 <$> step r w
  | Ending d0 o => Some (once (end_tx d0 o w))
  | Holding r => held_turn <$> step r w
  end.

(** ** Alone *)

(** The function that is left to run. *)
Fixpoint rest {n p A} (r : run n p A) : M A :=
  match r with
  | @Begin _ _ _ m c => m
  | @Then _ _ _ _ f r _ => rest r ≫= f
  | Trying r => try_ (rest r)
  | InTx d0 r => fun w => let x := rest r w in end_tx d0 x.1 x.2
  | Ending d0 o => end_tx d0 o
  | Holding r => fun w => release (rest r w)
  end.

Definition finish {n p A} (x : turn n p A * world) : outcome A * world :=
  match x.1 with Done o => (o, x.2) | More r => rest r x.2 end.

Lemma finish_then {n p A B} {f : A -> M B} (cf : forall a, code n p B (f a)) x :
  finish (then_turn cf x) =
    match finish x with
    | (Ok a, w') => f a w' | (Err e, w') => (Err e, w') | (Panic q, w') => (Panic q, w') | (Blocked, w') => (Blocked, w')
    end.
Proof. by destruct x as [[[]|r] w]. Qed.

Lemma finish_try {n p A} (x : turn n p A * world) :
  finish (try_turn x) =
    match finish x with
    | (Ok a, w') => (Ok (inr a), w') | (Err e, w') => (Ok (inl e), w')
    | (Panic q, w') => (Panic q, w') | (Blocked, w') => (Blocked, w')
    end.
Proof. by destruct x as [[[]|r] w]. Qed.

(** A step does the first of what is left. *)
Lemma begin_rest {n p A} {m : M A} (c : code n p A m) w x : begin c w = Some x -> m w = finish x.
Proof.
  revert w x. induction c as [p A m Hm|A m Hm|p A B m f cm IHm cf IHf|p A m cm IHm|A m cm IHm|A m cm IHm|A m E]; intros w x Ex; simpl in Ex.
  - injection Ex as <-. unfold once, finish. simpl. by destruct (m w).
  - injection Ex as <-. unfold once, finish. simpl. by destruct (m w).
  - apply fmap_Some in Ex as (y & Ey & ->). rewrite finish_then, <- (IHm _ _ Ey). reflexivity.
  - apply fmap_Some in Ex as (y & Ey & ->). rewrite finish_try, <- (IHm _ _ Ey). reflexivity.
  - injection Ex as <-. unfold finish, run_tx. simpl. by destruct (m w) as [[[]|e|q|] w'].
  - destruct (w_conn w) eqn:Hw; [|discriminate Ex]. injection Ex as <-. unfold with_conn. by rewrite Hw.
  - discriminate Ex.
Qed.

Lemma step_rest {n p A} (r : run n p A) w x : step r w = Some x -> rest r w = finish x.
Proof.
  revert w x. induction r as [p A m c|p A B f r IH cf|p A r IH|A d0 r IH|A d0 o|A r IH]; intros w x Ex; simpl in Ex.
  - by apply begin_rest in Ex.
  - apply fmap_Some in Ex as (y & Ey & ->). rewrite finish_then, <- (IH _ _ Ey). reflexivity.
  - apply fmap_Some in Ex as (y & Ey & ->). rewrite finish_try, <- (IH _ _ Ey). reflexivity.
  - apply fmap_Some in Ex as ([[o|r'] w'] & Ey & ->); simpl; by rewrite (IH _ _ Ey).
  - injection Ex as <-. unfold once, finish. simpl. by destruct (end_tx d0 o w).
  - apply fmap_Some in Ex as ([[o|r'] w'] & Ey & ->); simpl; rewrite (IH _ _ Ey); unfold finish, held_turn; simpl; by destruct (release _).
Qed.

(** ** It ends *)

(** [next r' r]: somewhere, one step leads from [r] to [r']. *)
Definition next {n p A} (r' r : run n p A) : Prop := exists w w', step r w = Some (More r', w').

Abbreviation ends := (Acc next).

(** What a turn leads to, case by case. *)
Ltac take_turn :=
  match goal with E : (_, _) = _ |- _ => cbv [then_turn try_turn tx_turn held_turn fst snd] in E; simplify_eq end.

Lemma then_ends {n p A B} {f : A -> M B} (r : run n p A) (cf : forall a, code n p B (f a)) :
  ends r -> (forall a, ends (Begin (cf a))) -> ends (Then r cf).
Proof.
  intros Hr Hf. induction Hr as [r _ IH]. constructor. intros r' (w & w' & Es). simpl in Es.
  apply fmap_Some in Es as ([[[a|e|q|]|r2] w2] & Ey & E); take_turn; [by apply Hf|]. apply IH. by exists w, w2.
Qed.

Lemma try_ends {n p A} (r : run n p A) : ends r -> ends (Trying r).
Proof.
  induction 1 as [r _ IH]. constructor. intros r' (w & w' & Es). simpl in Es.
  apply fmap_Some in Es as ([[[a|e|q|]|r2] w2] & Ey & E); take_turn. apply IH. by exists w, w2.
Qed.

Lemma ending_ends {n A} d0 (o : outcome (tx_end A)) : ends (Ending (n := n) d0 o).
Proof. constructor. intros r' (w & w' & Es). discriminate Es. Qed.

Lemma tx_ends {n A} d0 (r : run n Inside (tx_end A)) : ends r -> ends (InTx d0 r).
Proof.
  induction 1 as [r _ IH]. constructor. intros r' (w & w' & Es). simpl in Es.
  apply fmap_Some in Es as ([[o|r2] w2] & Ey & E); take_turn; [apply ending_ends|]. apply IH. by exists w, w2.
Qed.

Lemma held_ends {n A} (r : run n Inside A) : ends r -> ends (Holding r).
Proof.
  induction 1 as [r _ IH]. constructor. intros r' (w & w' & Es). simpl in Es.
  apply fmap_Some in Es as ([[o|r2] w2] & Ey & E); take_turn. apply IH. by exists w, w2.
Qed.

Lemma code_ends {n p A} {m : M A} (c : code n p A m) : ends (Begin c).
Proof.
  induction c as [p A m Hm|A m Hm|p A B m f cm IHm cf IHf|p A m cm IHm|A m cm IHm|A m cm IHm|A m E];
    constructor; intros r' (w & w' & Es); simpl in Es; try discriminate Es.
  - apply fmap_Some in Es as ([[[a|e|q|]|r2] w2] & Ey & E); take_turn; [apply IHf|].
    apply then_ends; [|exact IHf]. apply (Acc_inv IHm). by exists w, w2.
  - apply fmap_Some in Es as ([[[a|e|q|]|r2] w2] & Ey & E); take_turn. apply try_ends, (Acc_inv IHm). by exists w, w2.
  - simplify_eq. by apply tx_ends.
  - destruct (w_conn w); simplify_eq. by apply held_ends.
Qed.

Lemma run_ends {n p A} (r : run n p A) : ends r.
Proof.
  induction r as [p A m c|p A B f r IH cf|p A r IH|A d0 r IH|A d0 o|A r IH]; eauto using code_ends, then_ends, try_ends, tx_ends, ending_ends, held_ends.
Qed.

(** ** Who holds the connection, and who waits *)

Fixpoint holding {n p A} (r : run n p A) : bool :=
  match r with
  | Then r _ | Trying r => holding r
  | Holding _ => true
  | _ => false
  end.

(** The next thing to do is to ask for a second connection. *)
Fixpoint wedged_code {n p A} {m : M A} (c : code n p A m) : bool :=
  match c with
  | Seq _ _ _ _ _ _ c _ | Try _ _ _ _ c => wedged_code c
  | Nested _ _ _ _ => true
  | _ => false
  end.
Fixpoint wedged {n p A} (r : run n p A) : bool :=
  match r with
  | Begin c => wedged_code c
  | Then r _ | Trying r | InTx _ r | Holding r => wedged r
  | Ending _ _ => false
  end.

Definition turn_holding {n p A} (t : turn n p A) : bool := match t with Done _ => false | More r => holding r end.

Lemma then_holding {n p A B} {f : A -> M B} (cf : forall a, code n p B (f a)) x :
  turn_holding (then_turn cf x).1 = turn_holding x.1.
Proof. by destruct x as [[[]|r] w]. Qed.
Lemma try_holding {n p A} (x : turn n p A * world) : turn_holding (try_turn x).1 = turn_holding x.1.
Proof. by destruct x as [[[]|r] w]. Qed.

Lemma inside_not_holding {n p A} (r : run n p A) : p <> Outside -> holding r = false.
Proof. induction r; simpl; auto; done. Qed.

Lemma handlers_not_wedged_code {p A} {m : M A} (c : code false p A m) : wedged_code c = false.
Proof. induction c; simpl; auto; discriminate. Qed.
Lemma handlers_not_wedged {p A} (r : run false p A) : wedged r = false.
Proof. induction r; simpl; auto using handlers_not_wedged_code. Qed.

Lemma wedged_code_inside {n p A} {m : M A} (c : code n p A m) : p = Outside -> wedged_code c = false.
Proof. induction c; simpl; auto. discriminate. Qed.
Lemma wedged_holding {n p A} (r : run n p A) : p = Outside -> wedged r = true -> holding r = true.
Proof.
  induction r as [p A m c|p A B f r IH cf|p A r IH|A d0 r IH|A d0 o|A r IH]; simpl; auto; try discriminate.
  intros E. by rewrite wedged_code_inside.
Qed.

(** Inside a session only the second connection is waited for, whatever the world. *)
Lemma begin_inside {n p A} {m : M A} (c : code n p A m) w : p <> Outside -> begin c w = None <-> wedged_code c = true.
Proof.
  intros Hp. induction c; simpl; rewrite ?fmap_None; auto; done.
Qed.
Lemma step_inside {n p A} (r : run n p A) w : p <> Outside -> step r w = None <-> wedged r = true.
Proof.
  intros Hp. induction r; simpl; rewrite ?fmap_None; auto; try done. by apply begin_inside.
Qed.

Lemma begin_waits {n p A} {m : M A} (c : code n p A m) w : p = Outside -> begin c w = None -> w_conn w = false.
Proof.
  intros Hp. induction c; simpl; rewrite ?fmap_None; auto; try discriminate. by destruct (w_conn w).
Qed.

(** A goroutine that cannot go on waits for the connection, or holds it and waits for a second one. *)
Lemma step_waits {n A} (r : run n Outside A) w : step r w = None ->
  wedged r = true \/ (w_conn w = false /\ holding r = false).
Proof.
  assert (forall p (r : run n p A), p = Outside -> step r w = None -> wedged r = true \/ (w_conn w = false /\ holding r = false)) as Hg; [|by apply Hg].
  clear r. intros p r. induction r as [p A m c|p A B f r IH cf|p A r IH|A d0 r IH|A d0 o|A r IH]; simpl; intros Hp; rewrite ?fmap_None; auto; try discriminate.
  - right. split; [by eapply begin_waits|done].
  - intros E. left. by apply step_inside in E.
Qed.

Lemma wedged_stays {n A} (r : run n Outside A) w : wedged r = true -> step r w = None.
Proof.
  assert (forall p (r : run n p A), p = Outside -> wedged r = true -> step r w = None) as Hg; [|by apply Hg].
  clear r. intros p r. induction r as [p A m c|p A B f r IH cf|p A r IH|A d0 r IH|A d0 o|A r IH]; simpl; intros Hp; rewrite ?fmap_None; auto; try discriminate.
  - by rewrite wedged_code_inside.
  - intros E. by apply step_inside.
Qed.

(** ** What a step may change *)

(** [safe r]: every database that [r] may roll back to satisfies [R], and no result of
    [r] is that of one who waits for good. *)
Section Safe.
Context (R : db -> Prop) (HR : forall d d', R d -> evolves d d' -> R d').

Fixpoint safe {n p A} (r : run n p A) : Prop :=
  match r with
  | Begin _ => True
  | Then r _ | Trying r | Holding r => safe r
  | InTx d0 r => R d0 /\ safe r
  | Ending d0 o => R d0 /\ o <> Blocked
  end.

Definition safe_turn {n p A} (x : turn n p A * world) : Prop :=
  R (w_db x.2) /\ match x.1 with Done o => o <> Blocked | More r => safe r end.

Lemma then_safe {n p A B} {f : A -> M B} (cf : forall a, code n p B (f a)) x : safe_turn x -> safe_turn (then_turn cf x).
Proof. destruct x as [[[]|r] w]; by intros [? ?]; split. Qed.
Lemma try_safe {n p A} (x : turn n p A * world) : safe_turn x -> safe_turn (try_turn x).
Proof. destruct x as [[[]|r] w]; by intros [? ?]; split. Qed.

Lemma begin_safe {n p A} {m : M A} (c : code n p A m) w x : R (w_db w) -> begin c w = Some x -> safe_turn x.
Proof.
  revert w x. induction c as [p A m Hm|A m Hm|p A B m f cm IHm cf IHf|p A m cm IHm|A m cm IHm|A m cm IHm|A m E]; intros w x HRw Ex; simpl in Ex.
  - injection Ex as <-. destruct (effect_keeps_pool Anywhere m w Hm) as (Ed & _ & Hb). split; simpl; [by rewrite Ed|done].
  - injection Ex as <-. destruct (access_keeps_pool m w Hm) as (Ev & _ & Hb). split; simpl; [by eapply HR|done].
  - apply fmap_Some in Ex as (y & Ey & ->). by eapply then_safe, IHm.
  - apply fmap_Some in Ex as (y & Ey & ->). by eapply try_safe, IHm.
  - injection Ex as <-. by split_and!.
  - destruct (w_conn w) eqn:Hw; [|discriminate Ex]. by injection Ex as <-.
  - discriminate Ex.
Qed.

Lemma end_tx_safe {A} d0 (o : outcome (tx_end A)) w : R (w_db w) -> R d0 -> o <> Blocked ->
  R (w_db (end_tx d0 o w).2) /\ (end_tx d0 o w).1 <> Blocked.
Proof. intros Hw Hd Ho. destruct o as [[a|a]|e|q|]; simpl; try done. unfold sql_read. by destruct (sql_fails _). Qed.

Lemma step_safe {n p A} (r : run n p A) w x : R (w_db w) -> safe r -> step r w = Some x -> safe_turn x.
Proof.
  revert w x. induction r as [p A m c|p A B f r IH cf|p A r IH|A d0 r IH|A d0 o|A r IH]; intros w x Hw Hr Ex; simpl in Ex, Hr.
  - by eapply begin_safe.
  - apply fmap_Some in Ex as (y & Ey & ->). by eapply then_safe, IH.
  - apply fmap_Some in Ex as (y & Ey & ->). by eapply try_safe, IH.
  - apply fmap_Some in Ex as ([t w'] & Ey & ->). destruct Hr as [Hs Hr]. destruct (IH _ _ Hw Hr Ey) as [Hd Ht].
    split; [done|]. by destruct t.
  - injection Ex as <-. destruct Hr as [Hs Ho]. by apply end_tx_safe.
  - apply fmap_Some in Ex as ([t w'] & Ey & ->). destruct (IH _ _ Hw Hr Ey) as [Hd Ht].
    destruct t as [[a|e|q|]|r']; by split.
Qed.

End Safe.

(** With nothing asked of the databases, what is left of [safe]. *)
Abbreviation unblocked := (safe (fun _ => True)).
Lemma unblocked_step {n p A} (r : run n p A) w x : unblocked r -> step r w = Some x -> safe_turn (fun _ => True) x.
Proof. by apply (step_safe (fun _ => True)). Qed.

Lemma safe_unblocked R {n p A} (r : run n p A) : safe R r -> unblocked r.
Proof. induction r; simpl; try done; intros []; auto. Qed.

(** Outside of a session a step leaves the database alone and may take the connection if it
    is free; in one it may touch the database, and its last step gives the connection back. *)
Definition step_frame (p : place) (held : bool) (w : world) (held' : bool) (w' : world) : Prop :=
  match p with
  | Outside =>
      if held then w_conn w = false -> w_conn w' = negb held'
      else w_db w' = w_db w /\ (held' = false /\ w_conn w' = w_conn w \/ held' = true /\ w_conn w = true /\ w_conn w' = false)
  | Inside => w_conn w' = w_conn w /\ held' = false
  | Anywhere => w_db w' = w_db w /\ w_conn w' = w_conn w /\ held' = false
  end.

Lemma effect_frame p {A} (m : M A) w : effect A m -> step_frame p false w false (m w).2.
Proof. intros Hm. destruct (effect_keeps_pool Anywhere m w Hm) as (Ed & Ec & _). destruct p; simpl; auto. Qed.

Lemma begin_frame {n p A} {m : M A} (c : code n p A m) w x :
  begin c w = Some x -> step_frame p false w (turn_holding x.1) x.2.
Proof.
  revert w x. induction c as [p A m Hm|A m Hm|p A B m f cm IHm cf IHf|p A m cm IHm|A m cm IHm|A m cm IHm|A m E]; intros w x Ex; simpl in Ex.
  - injection Ex as <-. by apply effect_frame.
  - injection Ex as <-. destruct (access_keeps_pool m w Hm) as (_ & Ec & _). by split.
  - apply fmap_Some in Ex as (y & Ey & ->). rewrite then_holding. by apply IHm.
  - apply fmap_Some in Ex as (y & Ey & ->). rewrite try_holding. by apply IHm.
  - by injection Ex as <-.
  - destruct (w_conn w) eqn:Hw; [|discriminate Ex]. injection Ex as <-. simpl. auto.
  - discriminate Ex.
Qed.

Lemma end_tx_conn {A} d0 (o : outcome (tx_end A)) w : w_conn (end_tx d0 o w).2 = w_conn w.
Proof. destruct o as [[a|a]|e|q|]; simpl; try done. unfold sql_read. by destruct (sql_fails _). Qed.

Lemma step_keeps_frame {n p A} (r : run n p A) w x :
  unblocked r -> step r w = Some x -> step_frame p (holding r) w (turn_holding x.1) x.2.
Proof.
  revert w x. induction r as [p A m c|p A B f r IH cf|p A r IH|A d0 r IH|A d0 o|A r IH]; intros w x Hr Ex; simpl in Ex, Hr.
  - by apply begin_frame in Ex.
  - apply fmap_Some in Ex as (y & Ey & ->). rewrite then_holding. by apply IH.
  - apply fmap_Some in Ex as (y & Ey & ->). rewrite try_holding. by apply IH.
  - apply fmap_Some in Ex as ([t w'] & Ey & ->). apply IH in Ey as [Ec _]; [|apply Hr]. split; [done|by destruct t].
  - injection Ex as <-. split; [apply end_tx_conn|done].
  - apply fmap_Some in Ex as ([t w'] & Ey & ->). simpl. intros Hc. apply unblocked_step in Ey as Ht; [|done].
    apply IH in Ey as [Ec _]; [|done]. simpl in Ec. destruct Ht as [_ Ht].
    destruct t as [[a|e|q|]|r']; simpl in *; try done; congruence.
Qed.

(** ** Alone, it is its function *)

Inductive alone {n A} : run n Outside A -> world -> outcome A * world -> Prop :=
| alone_done r w o w' : step r w = Some (Done o, w') -> alone r w (o, w')
| alone_more r w r' w' x : step r w = Some (More r', w') -> alone r' w' x -> alone r w x.

Lemma alone_exact {A} (r : run false Outside A) w :
  unblocked r -> w_conn w = negb (holding r) -> alone r w (rest r w).
Proof.
  revert w. induction (run_ends r) as [r _ IH]. intros w Hr Hc. destruct (step r w) as [[t w']|] eqn:Es.
  - rewrite (step_rest _ _ _ Es). apply step_keeps_frame in Es as Hf; [|done].
    apply unblocked_step in Es as Ht; [|done]. destruct t as [o|r']; [by apply alone_done|].
    eapply alone_more; [exact Es|]. apply IH; [by exists w, w'|apply Ht|]. simpl in Hf. destruct (holding r); simpl in *.
    + by apply Hf.
    + destruct Hf as [_ [[-> Ec]|(-> & _ & Ec)]]; by rewrite Ec.
  - exfalso. destruct (step_waits _ _ Es) as [E|[E1 E2]]; [by rewrite handlers_not_wedged in E|].
    rewrite E1, E2 in Hc. discriminate Hc.
Qed.

(** The goroutine of a handler, run by itself while the connection is free, answers what the
    function answers and leaves the world the function leaves. *)
Lemma handler_alone {A} (m : M A) (c : good m) w : w_conn w = true -> alone (Begin c) w (m w).
Proof. intros Hc. by apply (alone_exact (Begin c)). Qed.

End Machine.
