(* ===== verification/Pool.v ===== *)
(** * Goroutines on one world

    The goroutines of the process share the world and take turns, one effect at a time and in
    any order ([proceeds]), while new ones arrive ([spawns]).  Every state the process can reach
    is [sound]: the connection is held by one goroutine or by none, and the database moved by
    statements only.  Left alone, the goroutines that are there come to an end
    ([sound_settles]) unless one of them waits for itself. *)

From S2P Require Import Prelude RateLimit AdminStore Schema Statements Invariants World Threads.

Open Scope Z_scope.

Section Pool.
Context `{Env, Engine} {X : Type}.

Inductive thread :=
| Live (n : bool) (r : run n Outside X)
| Over (o : outcome X).

Definition pool : Type := list thread * world.

Definition thread_step (t : thread) (w : world) : option (thread * world) :=
  match t with
  | Live n r => (fun x => (match x.1 with Done o => Over o | More r' => Live n r' end, x.2)) <$> step r w
  | Over _ => None
  end.

Definition holds (t : thread) : bool := match t with Live _ r => holding r | Over _ => false end.
Definition waits_for_itself (t : thread) : bool := match t with Live _ r => wedged r | Over _ => false end.

(** Somebody does a step. *)
Inductive proceeds : pool -> pool -> Prop :=
| proceeds_intro ts w i t t' w' : ts !! i = Some t -> thread_step t w = Some (t', w') -> proceeds (ts, w) (<[i := t']> ts, w').

Definition fresh (t : thread) : Prop := exists n m (c : code n Outside X m), t = Live n (Begin c).

(** ** What every reachable state satisfies *)

Fixpoint holders (ts : list thread) : nat :=
  match ts with [] => 0 | t :: ts' => Nat.b2n (holds t) + holders ts' end.

Definition safe_thread (R : db -> Prop) (t : thread) : Prop :=
  match t with Live _ r => safe R r | Over o => o <> Blocked end.

(** [sound R]: the database and those kept for a rollback satisfy [R], nobody was given up,
    and the connection is free exactly when nobody holds it; nobody shares it. *)
Definition sound (R : db -> Prop) (c : pool) : Prop :=
  R (w_db c.2) /\ (forall t, t ∈ c.1 -> safe_thread R t) /\ holders c.1 = if w_conn c.2 then 0%nat else 1%nat.

Lemma holders_insert ts i t t' : ts !! i = Some t ->
  (holders (<[i := t']> ts) + Nat.b2n (holds t) = holders ts + Nat.b2n (holds t'))%nat.
Proof.
  revert i. induction ts as [|x ts IH]; intros [|i] Hi; simpl in *; try discriminate Hi; [injection Hi as ->; lia|].
  apply IH in Hi. lia.
Qed.

Lemma holder_counts ts t : t ∈ ts -> holds t = true -> (1 <= holders ts)%nat.
Proof. induction 1 as [x ts|x y ts Hx IH]; intros Ht; simpl; [rewrite Ht; simpl; lia|apply IH in Ht; lia]. Qed.

Lemma holder_exists ts : (0 < holders ts)%nat -> exists i t, ts !! i = Some t /\ holds t = true.
Proof.
  induction ts as [|t ts IH]; simpl; [lia|]. destruct (holds t) eqn:E; simpl; [intros _; by exists 0%nat, t|].
  intros (i & t' & Hi & Ht)%IH. by exists (S i), t'.
Qed.

Section Sound.
Context (R : db -> Prop) (HR : forall d d', R d -> evolves d d' -> R d').

Lemma sound_proceeds c c' : sound R c -> proceeds c c' -> sound R c'.
Proof.
  intros (Hd & Hs & Hn) Hm. destruct Hm as [ts w i t t' w' Hi Et]. simpl in *.
  pose proof (holders_insert ts i t t' Hi) as Hc. assert (safe_thread R t) as Ht by (by eapply Hs, list_elem_of_lookup_2).
  destruct t as [n r|o]; [|discriminate Et]. simpl in Et, Ht, Hc. apply fmap_Some in Et as ([u w2] & Es & E).
  injection E as -> ->. destruct (step_safe R HR r w _ Hd Ht Es) as [Hd' Hu].
  pose proof (step_keeps_frame r w _ (safe_unblocked R r Ht) Es) as Hf. simpl in Hf, Hd', Hu.
  split_and!; simpl; [done| |].
  - intros x [j Hj]%list_elem_of_lookup. destruct (decide (i = j)) as [->|Hne].
    + rewrite list_lookup_insert_eq in Hj by (by eapply lookup_lt_Some). injection Hj as <-. by destruct u.
    + rewrite list_lookup_insert_ne in Hj by done. by eapply Hs, list_elem_of_lookup_2.
  - assert (holds (match u with Done o => Over o | More r' => Live n r' end) = turn_holding u) as Eh by (by destruct u).
    rewrite Eh in Hc. destruct (holding r) eqn:Hr; simpl in Hc, Hf.
    + pose proof (holder_counts ts (Live n r) (list_elem_of_lookup_2 _ _ _ Hi) Hr) as Hge.
      destruct (w_conn w); [lia|]. rewrite (Hf eq_refl). destruct (turn_holding u); simpl in *; lia.
    + destruct Hf as [_ [[Hu' ->]|(Hu' & Hw & ->)]]; rewrite Hu' in Hc; simpl in Hc; [|rewrite Hw in Hn]; lia.
Qed.

(** While somebody holds the connection, the others leave the database alone. *)
Lemma sound_bystander ts w i j t u t' w' :
  sound R (ts, w) -> ts !! i = Some t -> ts !! j = Some u -> i <> j -> holds u = true ->
  thread_step t w = Some (t', w') -> w_db w' = w_db w.
Proof.
  intros (Hd & Hs & Hn) Hi Hj Hne Hu Et. simpl in *. assert (holds t = false) as Ht.
  { destruct (holds t) eqn:E; [exfalso|done]. pose proof (holders_insert ts i t (Over Blocked) Hi) as Hc. rewrite E in Hc. simpl in Hc.
    assert (u ∈ <[i := Over Blocked]> ts) as Hin. { apply list_elem_of_lookup. exists j. by rewrite list_lookup_insert_ne. }
    pose proof (holder_counts _ _ Hin Hu). destruct (w_conn w); lia. }
  destruct t as [n r|o]; [|discriminate Et]. simpl in Et, Ht. apply fmap_Some in Et as ([x w2] & Es & E). injection E as _ ->.
  pose proof (Hs _ (list_elem_of_lookup_2 _ _ _ Hi)) as Hsr. simpl in Hsr.
  pose proof (step_keeps_frame r w _ (safe_unblocked R r Hsr) Es) as Hf. rewrite Ht in Hf. apply Hf.
Qed.

(** A new goroutine starts outside of a session. *)
Lemma sound_fresh ts w t w' : sound R (ts, w) -> fresh t -> w_db w' = w_db w -> w_conn w' = w_conn w -> sound R (ts ++ [t], w').
Proof.
  intros (Hd & Hs & Hn) (n & m & c & ->) Ed Ec. split_and!; simpl in *; [by rewrite Ed| |].
  - intros t [Ht| ->%list_elem_of_singleton]%elem_of_app; [by apply Hs|done].
  - rewrite Ec, <- Hn. clear. induction ts as [|x ts IH]; simpl; congruence.
Qed.

(** ** Nobody waits for another who waits *)

Definition over (t : thread) : Prop := exists o, t = Over o /\ o <> Blocked.

(** Everything was answered. *)
Definition settled (c : pool) : Prop := Forall over c.1.
(** Somebody holds the connection and waits for a second one. *)
Definition wedged_pool (c : pool) : Prop := exists t, t ∈ c.1 /\ waits_for_itself t = true.

Lemma thread_goes_on t w : safe_thread R t -> (holds t = true \/ w_conn w = true) -> waits_for_itself t = false ->
  over t \/ exists x, thread_step t w = Some x.
Proof.
  intros Hs Hh Hw. destruct t as [n r|o]; [right|left; by exists o]. simpl in *.
  destruct (step r w) as [x|] eqn:Es; [by eexists|exfalso].
  destruct (step_waits _ _ Es) as [E|[E1 E2]]; [congruence|]. destruct Hh; congruence.
Qed.

Lemma sound_progress c : sound R c -> settled c \/ wedged_pool c \/ exists c', proceeds c c'.
Proof.
  destruct c as [ts w]. intros (Hd & Hs & Hn). simpl in *.
  destruct (decide (Exists (fun t => waits_for_itself t = true) ts)) as [(t & Ht & E)%Exists_exists|Hw]; [right; left; by exists t|].
  assert (forall t, t ∈ ts -> waits_for_itself t = false) as Hw'.
  { intros t Ht. destruct (waits_for_itself t) eqn:E; [|done]. exfalso. apply Hw, Exists_exists. by exists t. }
  assert (forall i t x, ts !! i = Some t -> thread_step t w = Some x -> exists c', proceeds (ts, w) c') as Hgo.
  { intros i t [t' w'] Hi Et. eexists. by econstructor. }
  destruct (w_conn w) eqn:Hc.
  - destruct (decide (Exists (fun t => is_Some (thread_step t w)) ts)) as [(t & [i Hi]%list_elem_of_lookup & x & E)%Exists_exists|Hno]; [by eauto|].
    left. apply Forall_forall. intros t Ht. destruct (thread_goes_on t w) as [?|[x E]]; auto.
    exfalso. apply Hno, Exists_exists. exists t. by rewrite E.
  - right. right. destruct (holder_exists ts) as (i & t & Hi & Hh); [lia|]. pose proof (list_elem_of_lookup_2 _ _ _ Hi) as Ht.
    destruct (thread_goes_on t w) as [(o & -> & _)|[x E]]; auto; [discriminate Hh|by eauto].
Qed.

End Sound.
(** ** Everybody ends *)

Definition thread_next (t' t : thread) : Prop := exists w w', thread_step t w = Some (t', w').

Lemma thread_ends t : Acc thread_next t.
Proof.
  assert (forall o, Acc thread_next (Over o)) as Ho by (intros o; constructor; intros t' (w & w' & E); discriminate E).
  destruct t as [n r|o]; [|done]. induction (run_ends r) as [r _ IH]. constructor. intros t' (w & w' & E). simpl in E.
  apply fmap_Some in E as ([[o|r'] w2] & Es & E); injection E as -> ->; [done|]. apply IH. by exists w, w2.
Qed.

(** One of them does a step. *)
Definition list_next (ts' ts : list thread) : Prop :=
  exists i t t', ts !! i = Some t /\ thread_next t' t /\ ts' = <[i := t']> ts.

Lemma list_ends ts : Acc list_next ts.
Proof.
  induction ts as [|t ts IH]; [by constructor; intros ts' (i & t & t' & Hi & _)|].
  revert ts IH. induction (thread_ends t) as [t _ IHt]. intros ts. induction 1 as [ts Hts IHts].
  constructor. intros ts' (i & u & u' & Hi & Hu & ->). destruct i as [|i]; simpl in *.
  - injection Hi as <-. by apply IHt.
  - apply IHts. by exists i, u, u'.
Qed.

Lemma proceeds_list_next c c' : proceeds c c' -> list_next c'.1 c.1.
Proof. intros [ts w i t t' w' Hi Et]. exists i, t, t'. split_and!; [done|by exists w, w'|done]. Qed.

(** Whatever steps are chosen, [P] holds in the end. *)
Inductive inevitable (P : pool -> Prop) (c : pool) : Prop :=
| inevitable_now : P c -> inevitable P c
| inevitable_later : (exists c', proceeds c c') -> (forall c', proceeds c c' -> inevitable P c') -> inevitable P c.

Lemma sound_settles R c : (forall d d', R d -> evolves d d' -> R d') -> sound R c ->
  inevitable (fun c' => sound R c' /\ (settled c' \/ wedged_pool c')) c.
Proof.
  intros HR. remember c.1 as ts eqn:E. revert c E. induction (list_ends ts) as [ts _ IH]. intros c -> Hs.
  destruct (sound_progress R c Hs) as [?|[?|Hm]]; [apply inevitable_now; by auto..|].
  apply inevitable_later; [done|]. intros c' Hc'. eapply IH; [by apply proceeds_list_next|done|by eapply sound_proceeds].
Qed.

(** The last to come does a step. *)
Lemma proceeds_last ts w t t' w' : thread_step t w = Some (t', w') -> proceeds (ts ++ [t], w) (ts ++ [t'], w').
Proof.
  intros Et. replace (ts ++ [t']) with (<[length ts := t']> (ts ++ [t])) by (induction ts; simpl; congruence).
  econstructor; [|exact Et]. clear. induction ts; simpl; congruence.
Qed.

(** A single program on its own is a history of the pool. *)
Lemma alone_reach {n} (r : run n Outside X) w x : alone r w x ->
  forall ts i, ts !! i = Some (Live n r) -> rtc proceeds (ts, w) (<[i := Over x.1]> ts, x.2).
Proof.
  induction 1 as [r w o w' Es|r w r' w' x Es _ IH]; intros ts i Hi;
    (eapply rtc_l; [eapply proceeds_intro; [exact Hi|simpl; rewrite Es; reflexivity]|]).
  - apply rtc_refl.
  - rewrite <- (list_insert_insert_eq ts i (Over x.1) (Live n r')). apply IH.
    apply list_lookup_insert_eq. by eapply lookup_lt_Some.
Qed.

(** So is the first part of a program, up to where its continuation starts. *)
Lemma alone_prefix {n A} (r : run n Outside A) (f : A -> M X) (cf : forall a, code n Outside X (f a)) w a w' :
  alone r w (Ok a, w') -> forall ts i t, ts !! i = Some t -> (forall w, thread_step t w = thread_step (Live n (Then r cf)) w) ->
  rtc proceeds (ts, w) (<[i := Live n (Begin (cf a))]> ts, w').
Proof.
  remember (Ok a, w') as x eqn:Ex. intros Ha. revert Ex. induction Ha as [r w o w1 Es|r w r' w1 x Es _ IH]; intros Ex ts i t Hi Ht.
  - injection Ex as -> ->. eapply rtc_l; [|apply rtc_refl]. eapply proceeds_intro; [exact Hi|]. rewrite Ht. simpl. by rewrite Es.
  - eapply rtc_l; [eapply proceeds_intro; [exact Hi|rewrite Ht; simpl; rewrite Es; reflexivity]|].
    subst x. rewrite <- (list_insert_insert_eq ts i (Live n (Begin (cf a))) (Live n (Then r' cf))). eapply IH; [done| |by intros].
    apply list_lookup_insert_eq. by eapply lookup_lt_Some.
Qed.

(** What every step keeps still holds in the end. *)
Lemma inevitable_kept (P I : pool -> Prop) c :
  (forall c1 c2, I c1 -> proceeds c1 c2 -> I c2) -> inevitable P c -> I c -> inevitable (fun c' => P c' /\ I c') c.
Proof.
  intros HI. induction 1 as [c Hp|c Hm _ IH]; intros Hc; [by apply inevitable_now|].
  apply inevitable_later; [done|]. intros c' Hc'. by eapply IH, HI.
Qed.

Lemma inevitable_weaken (P Q : pool -> Prop) c : (forall c', P c' -> Q c') -> inevitable P c -> inevitable Q c.
Proof. intros HPQ. induction 1 as [c Hp|c Hm _ IH]; [by apply inevitable_now, HPQ|by apply inevitable_later]. Qed.

(** ** Newcomers, and whole histories *)

Section Reach.
Context (spawn : world -> thread -> world -> Prop).
Context (Hspawn : forall w t w', spawn w t w' -> fresh t /\ w_db w' = w_db w /\ w_conn w' = w_conn w).

Inductive pool_step : pool -> pool -> Prop :=
| pool_proceeds c c' : proceeds c c' -> pool_step c c'
| pool_spawns ts w t w' : spawn w t w' -> pool_step (ts, w) (ts ++ [t], w').

Section Kept.
Context (R : db -> Prop) (HR : forall d d', R d -> evolves d d' -> R d').

Lemma sound_step c c' : sound R c -> pool_step c c' -> sound R c'.
Proof.
  intros Hs Hp. destruct Hp as [c c1 Hm|ts w t w' Ht]; [by eapply (sound_proceeds R HR)|]. apply Hspawn in Ht as (Hf & Ed & Ec). by eapply sound_fresh.
Qed.

Lemma sound_reach c c' : sound R c -> rtc pool_step c c' -> sound R c'.
Proof. intros Hs Hr. revert Hs. induction Hr; eauto using sound_step. Qed.

(** Once somebody waits for a second connection, nobody touches the database again. *)
Lemma wedged_step c c' : sound R c -> wedged_pool c -> pool_step c c' ->
  wedged_pool c' /\ w_db c'.2 = w_db c.2.
Proof.
  intros Hs (t & Ht & Hw) Hp. assert (holds t = true) as Hh.
  { destruct t as [n r|o]; [by apply wedged_holding|discriminate Hw]. }
  apply list_elem_of_lookup in Ht as [j Hj]. destruct Hp as [c1 c2 Hm|ts w t2 w' H2]; simpl in *.
  - destruct Hm as [ts w i t2 t2' w' Hi Et]. simpl in *. destruct (decide (i = j)) as [->|Hne].
    + rewrite Hi in Hj. injection Hj as ->. destruct t as [n r|o]; [|discriminate Et]. simpl in Et, Hw.
      rewrite wedged_stays in Et by done. discriminate Et.
    + split; [|by eapply (sound_bystander R ts w i j t2 t)]. exists t. split; [|done]. simpl. apply list_elem_of_lookup. exists j.
      by rewrite list_lookup_insert_ne.
  - apply Hspawn in H2 as (_ & Ed & _). split; [|done]. exists t. split; [|done]. apply elem_of_app. left.
    by eapply list_elem_of_lookup_2.
Qed.

Lemma wedged_taken c : sound R c -> wedged_pool c -> w_conn c.2 = false.
Proof.
  intros (_ & _ & Hn) (t & Ht & Hw). assert (holds t = true) as Hh.
  { destruct t as [n r|o]; [by apply wedged_holding|discriminate Hw]. }
  pose proof (holder_counts _ _ Ht Hh). destruct (w_conn c.2); [lia|done].
Qed.

Lemma wedged_for_good c c' : sound R c -> wedged_pool c -> rtc pool_step c c' ->
  wedged_pool c' /\ w_db c'.2 = w_db c.2.
Proof.
  intros Hs Hw Hr. revert Hs Hw. induction Hr as [c|c c1 c2 Hp _ IH]; intros Hs Hw; [done|].
  destruct (wedged_step _ _ Hs Hw Hp) as [Hw1 Ed]. destruct (IH (sound_step _ _ Hs Hp) Hw1) as [Hw2 Ed2].
  split; [done|congruence].
Qed.

End Kept.

(** ** Goroutines that wait for themselves only in a database they do not like *)

(** From [r], as long as the database satisfies [Q], a second connection is never asked for. *)
Inductive harmless (Q : db -> Prop) {n p A} (r : run n p A) : Prop :=
| harmless_intro : wedged r = false ->
    (forall w r' w', Q (w_db w) -> step r w = Some (More r', w') -> harmless Q r') -> harmless Q r.

Definition harmless_thread (Q : db -> Prop) (t : thread) : Prop := match t with Live _ r => harmless Q r | Over _ => True end.

Lemma harmless_mono (Q Q' : db -> Prop) {n p A} (r : run n p A) : (forall d, Q' d -> Q d) -> harmless Q r -> harmless Q' r.
Proof. intros HQ. induction 1 as [r Hw _ IH]. constructor; [done|]. intros w r' w' Hd Es. eapply IH; [by apply HQ|exact Es]. Qed.

Lemma handlers_harmless Q {p A} (r : run false p A) : harmless Q r.
Proof.
  induction (run_ends r) as [r _ IH]. constructor; [apply handlers_not_wedged|]. intros w r' w' _ Es. apply IH. by exists w, w'.
Qed.

Lemma harmless_proceeds Q c c' :
  Q (w_db c.2) -> (forall t, t ∈ c.1 -> harmless_thread Q t) -> proceeds c c' -> forall t, t ∈ c'.1 -> harmless_thread Q t.
Proof.
  intros HQ Hc Hm. destruct Hm as [ts w i t t' w' Hi Et]. simpl in *. intros x [j Hj]%list_elem_of_lookup. destruct (decide (i = j)) as [->|Hne].
  - rewrite list_lookup_insert_eq in Hj by (by eapply lookup_lt_Some). injection Hj as <-.
    pose proof (Hc _ (list_elem_of_lookup_2 _ _ _ Hi)) as Ht. destruct t as [n r|o]; [|discriminate Et]. simpl in Et, Ht.
    apply fmap_Some in Et as ([[o|r'] w2] & Es & E); injection E as -> ->; [done|]. simpl. destruct Ht as [_ Ht]. by eapply Ht.
  - rewrite list_lookup_insert_ne in Hj by done. by eapply Hc, list_elem_of_lookup_2.
Qed.

Lemma harmless_reach Q c c' :
  (forall w t w', spawn w t w' -> harmless_thread Q t) ->
  rtc (fun c1 c2 => pool_step c1 c2 /\ Q (w_db c1.2)) c c' ->
  (forall t, t ∈ c.1 -> harmless_thread Q t) -> forall t, t ∈ c'.1 -> harmless_thread Q t.
Proof.
  intros Hsp. induction 1 as [c|c c1 c2 [Hp HQ] _ IH]; [done|]. intros Hc. apply IH.
  destruct Hp as [c c1 Hm|ts w t w' Ht]; [by eapply harmless_proceeds|].
  intros x [Hx| ->%list_elem_of_singleton]%elem_of_app; [by apply Hc|by eapply Hsp].
Qed.

Lemma harmless_not_wedged Q c : (forall t, t ∈ c.1 -> harmless_thread Q t) -> ~ wedged_pool c.
Proof. intros Hc (t & Ht & Hw). apply Hc in Ht. destruct t as [n r|o]; [|discriminate Hw]. destruct Ht as [E _]. simpl in Hw. congruence. Qed.

(** Where nobody can wait for itself, everything is answered. *)
Lemma harmless_settles R c : (forall d d', R d -> evolves d d' -> R d') -> sound R c ->
  (forall t, t ∈ c.1 -> harmless_thread (fun _ => True) t) -> inevitable settled c.
Proof.
  intros HR Hs Hh. eapply inevitable_weaken; [|eapply (inevitable_kept _ (fun c => forall t, t ∈ c.1 -> harmless_thread (fun _ => True) t));
    [|by eapply sound_settles|exact Hh]]; simpl.
  - intros c' [[_ [?|Hw]] Hh']; [done|]. by destruct (harmless_not_wedged _ _ Hh').
  - intros c1 c2 Hc. by apply harmless_proceeds.
Qed.

End Reach.
End Pool.
