(* ===== verification/GoStrings.v ===== *)
(** * What the code uses of Go's [strings], [strconv], [encoding/hex] and [unicode/utf8]

    Bytes are [ascii], strings are byte sequences.  The Unicode tables (which runes are
    letters, numbers or white space, and lower-casing) are a parameter for non-ASCII runes,
    [Unicode]; the ASCII range is written out. *)

From S2P Require Import Prelude.
From stdpp Require Import pretty.

Open Scope Z_scope.

Definition byte_val (c : ascii) : Z := Z.of_N (N_of_ascii c).
Definition byte_of (z : Z) : ascii := ascii_of_N (Z.to_N z).

Lemma byte_val_range c : 0 <= byte_val c < 256.
Proof.
  unfold byte_val. split; [lia|]. pose proof (N_ascii_bounded c). lia.
Qed.

Lemma byte_of_val c : byte_of (byte_val c) = c.
Proof. unfold byte_of, byte_val. rewrite N2Z.id. apply ascii_N_embedding. Qed.

Lemma byte_val_of z : 0 <= z < 256 -> byte_val (byte_of z) = z.
Proof. intros. unfold byte_of, byte_val. rewrite N_ascii_embedding; lia. Qed.

Fixpoint str_map (f : ascii -> ascii) (s : string) : string :=
  match s with EmptyString => EmptyString | String c s' => String (f c) (str_map f s') end.

Fixpoint str_all (p : ascii -> bool) (s : string) : bool :=
  match s with EmptyString => true | String c s' => p c && str_all p s' end.

Lemma str_all_app p a b : str_all p (a ++s b) = str_all p a && str_all p b.
Proof. induction a as [|c a IH]; simpl; [done|]. by rewrite IH, andb_assoc. Qed.

(** ** encoding/hex *)

Module Hex.

Definition digit (n : Z) : ascii := byte_of (if n <? 10 then 48 + n else 87 + n).

(** [hex.EncodeToString] *)
Fixpoint encode (s : string) : string :=
  match s with
  | EmptyString => EmptyString
  | String c s' => String (digit (byte_val c / 16)) (String (digit (byte_val c mod 16)) (encode s'))
  end.

Definition undigit (c : ascii) : option Z :=
  let v := byte_val c in
  if (48 <=? v) && (v <=? 57) then Some (v - 48)
  else if (97 <=? v) && (v <=? 102) then Some (v - 87)
  else if (65 <=? v) && (v <=? 70) then Some (v - 55)
  else None.

(** [hex.DecodeString]; [None] for an odd length or a character that is not a digit. *)
Fixpoint decode (s : string) : option string :=
  match s with
  | EmptyString => Some EmptyString
  | String a (String b s') =>
      match undigit a, undigit b, decode s' with
      | Some x, Some y, Some r => Some (String (byte_of (16 * x + y)) r)
      | _, _, _ => None
      end
  | _ => None
  end.

Lemma undigit_digit n : 0 <= n < 16 -> undigit (digit n) = Some n.
Proof.
  intros Hn. unfold undigit, digit.
  destruct (n <? 10) eqn:E; bool_prop; rewrite byte_val_of by lia.
  - replace (48 <=? 48 + n) with true by (symmetry; apply Z.leb_le; lia).
    replace (48 + n <=? 57) with true by (symmetry; apply Z.leb_le; lia).
    simpl. f_equal. lia.
  - replace (87 + n <=? 57) with false by (symmetry; apply Z.leb_gt; lia).
    rewrite andb_false_r.
    replace (97 <=? 87 + n) with true by (symmetry; apply Z.leb_le; lia).
    replace (87 + n <=? 102) with true by (symmetry; apply Z.leb_le; lia).
    simpl. f_equal. lia.
Qed.

Lemma decode_encode s : decode (encode s) = Some s.
Proof.
  induction s as [|c s IH]; [done|]. simpl.
  pose proof (byte_val_range c).
  rewrite !undigit_digit, IH.
  - by rewrite <- Z.div_mod, byte_of_val by lia.
  - pose proof (Z.mod_pos_bound (byte_val c) 16). lia.
  - split; [apply Z.div_pos; lia|apply Z.div_lt_upper_bound; lia].
Qed.

Lemma encode_inj a b : encode a = encode b -> a = b.
Proof. intros E. apply (f_equal decode) in E. rewrite !decode_encode in E. by injection E. Qed.

Lemma length_encode s : String.length (encode s) = (2 * String.length s)%nat.
Proof. induction s as [|c s IH]; simpl; [done|]. rewrite IH. lia. Qed.

Lemma encode_nonempty s : s <> EmptyString -> encode s <> EmptyString.
Proof. by destruct s. Qed.

Lemma encode_is_empty s n : String.length s = S n -> is_empty (encode s) = false.
Proof. by destruct s. Qed.

(** A decoded string is half as long. *)
Lemma length_decode s r : decode s = Some r -> String.length s = (2 * String.length r)%nat.
Proof.
  revert r. induction s as [s IH] using (induction_ltof1 _ String.length). unfold ltof in IH.
  destruct s as [|a [|b s]]; simpl; intros r E; simplify_eq/=; [done|].
  destruct (undigit a), (undigit b); try done.
  destruct (decode s) as [r'|] eqn:Er; [|done]. simplify_eq/=.
  rewrite (IH s) with (r := r'); [lia|simpl; lia|done].
Qed.

End Hex.

(** ** unicode/utf8 *)

Module Utf8.

Definition cont (c : ascii) : bool := let v := byte_val c in (128 <=? v) && (v <=? 191).
Definition between (lo hi : Z) (c : ascii) : bool := let v := byte_val c in (lo <=? v) && (v <=? hi).
Definition low6 (c : ascii) : Z := byte_val c - 128.

(** [utf8.RuneStart]: [b & 0xC0 != 0x80]. *)
Definition RuneStart (c : ascii) : bool := negb (Z.land (byte_val c) 192 =? 128).

(** [utf8.DecodeRuneInString] of a non-empty string: the rune and its width; an invalid
    encoding is U+FFFD of width one, flagged. *)
Definition decode_rune (s : string) : option (Z * nat * bool) :=
  match s with
  | EmptyString => None
  | String a r1 =>
      let v := byte_val a in
      let bad := Some (65533, 1%nat, false) in
      if v <? 128 then Some (v, 1%nat, true)
      else match r1 with
      | EmptyString => bad
      | String b r2 =>
          if between 194 223 a then
            if cont b then Some ((v - 192) * 64 + low6 b, 2%nat, true) else bad
          else match r2 with
          | EmptyString => bad
          | String c r3 =>
              if between 224 239 a then
                let lo := if v =? 224 then 160 else 128 in
                let hi := if v =? 237 then 159 else 191 in
                if between lo hi b && cont c
                then Some ((v - 224) * 4096 + low6 b * 64 + low6 c, 3%nat, true) else bad
              else match r3 with
              | EmptyString => bad
              | String d _ =>
                  if between 240 244 a then
                    let lo := if v =? 240 then 144 else 128 in
                    let hi := if v =? 244 then 143 else 191 in
                    if between lo hi b && cont c && cont d
                    then Some ((v - 240) * 262144 + low6 b * 4096 + low6 c * 64 + low6 d, 4%nat, true)
                    else bad
                  else bad
              end
          end
      end
  end.

Fixpoint str_drop (n : nat) (s : string) : string :=
  match n, s with S n', String _ s' => str_drop n' s' | _, _ => s end.
Fixpoint str_take (n : nat) (s : string) : string :=
  match n, s with S n', String c s' => String c (str_take n' s') | _, _ => EmptyString end.

(** The runes of a string, as a [range] loop sees them: the rune, its bytes, and whether the
    bytes are a valid encoding. *)
Fixpoint runes_go (fuel : nat) (s : string) : list (Z * string * bool) :=
  match fuel with
  | O => []
  | S fuel' =>
      match decode_rune s with
      | None => []
      | Some (r, w, ok) => (r, str_take w s, ok) :: runes_go fuel' (str_drop w s)
      end
  end.
Definition runes (s : string) : list (Z * string * bool) := runes_go (String.length s) s.

(** [utf8.ValidString] *)
Definition valid (s : string) : bool := forallb (fun r => r.2) (runes s).

Lemma take_drop n s : str_take n s ++s str_drop n s = s.
Proof. revert s; induction n as [|n IH]; intros [|c s]; simpl; try done; by rewrite IH. Qed.

Lemma length_drop n s : String.length (str_drop n s) = (String.length s - n)%nat.
Proof. revert s; induction n as [|n IH]; intros [|c s]; simpl; try done; apply IH. Qed.

Lemma length_take n s : String.length (str_take n s) = Nat.min n (String.length s).
Proof. revert s; induction n as [|n IH]; intros [|c s]; simpl; try done; by rewrite IH. Qed.

Lemma decode_rune_width s r w ok : decode_rune s = Some (r, w, ok) -> (1 <= w)%nat /\ (w <= String.length s)%nat.
Proof.
  destruct s as [|a s]; simpl; [done|].
  repeat case_match; intros; simplify_eq; simpl; lia.
Qed.

(** Concatenating the rune encodings gives the string back. *)
Lemma runes_concat s : foldr (fun r acc => r.1.2 ++s acc) EmptyString (runes s) = s.
Proof.
  unfold runes. assert (String.length s <= String.length s)%nat as Hf by done.
  revert Hf. generalize (String.length s) at 2 3. intros fuel; revert s.
  induction fuel as [|fuel IH]; intros s Hf; simpl.
  - destruct s; [done|simpl in Hf; lia].
  - destruct (decode_rune s) as [[[r w] ok]|] eqn:E; simpl.
    + destruct (decode_rune_width _ _ _ _ E).
      rewrite IH; [apply take_drop|]. rewrite length_drop. lia.
    + destruct s as [|a s]; [done|]. simpl in E. exfalso. revert E. repeat (case_match; try discriminate).
Qed.

End Utf8.

(** ** unicode and strings *)

Class Unicode := {
  (** [unicode.IsSpace], [\p{L}] or [\p{N}], and [unicode.ToLower] outside ASCII *)
  space_beyond : Z -> bool;
  word_beyond : Z -> bool;
  lower_beyond : Z -> Z }.

Section Strings.
Context `{Unicode}.

Definition is_space (r : Z) : bool :=
  if r <? 128 then ((9 <=? r) && (r <=? 13)) || (r =? 32) else space_beyond r.

(** The class [[\p{L}\p{N}_]] of SanitizeFTS5Query's regular expression. *)
Definition is_word (r : Z) : bool :=
  if r <? 128 then
    ((48 <=? r) && (r <=? 57)) || ((65 <=? r) && (r <=? 90)) || ((97 <=? r) && (r <=? 122)) || (r =? 95)
  else word_beyond r.

Definition rune_bytes (l : list (Z * string * bool)) : string :=
  foldr (fun r acc => r.1.2 ++s acc) EmptyString l.

Fixpoint drop_spaces (l : list (Z * string * bool)) : list (Z * string * bool) :=
  match l with
  | r :: l' => if is_space r.1.1 then drop_spaces l' else l
  | [] => []
  end.

(** [strings.TrimSpace] *)
Definition trim_space (s : string) : string :=
  rune_bytes (reverse (drop_spaces (reverse (drop_spaces (Utf8.runes s))))).

(** [strings.Fields] *)
Fixpoint fields_go (cur : string) (l : list (Z * string * bool)) : list string :=
  match l with
  | [] => if is_empty cur then [] else [cur]
  | r :: l' =>
      if is_space r.1.1 then
        (if is_empty cur then fields_go EmptyString l' else cur :: fields_go EmptyString l')
      else fields_go (cur ++s r.1.2) l'
  end.
Definition fields (s : string) : list string := fields_go EmptyString (Utf8.runes s).

(** UTF-8 of a rune ([utf8.EncodeRune]). *)
Definition encode_rune (r : Z) : string :=
  let b z := String (byte_of z) EmptyString in
  if r <? 128 then b r
  else if r <? 2048 then b (192 + r / 64) ++s b (128 + r mod 64)
  else if r <? 65536 then b (224 + r / 4096) ++s b (128 + (r / 64) mod 64) ++s b (128 + r mod 64)
  else b (240 + r / 262144) ++s b (128 + (r / 4096) mod 64) ++s b (128 + (r / 64) mod 64) ++s b (128 + r mod 64).

Definition lower_ascii (c : ascii) : ascii :=
  let v := byte_val c in if (65 <=? v) && (v <=? 90) then byte_of (v + 32) else c.

Definition is_ascii (s : string) : bool := str_all (fun c => byte_val c <? 128) s.

(** [strings.ToLower] *)
Definition to_lower (s : string) : string :=
  if is_ascii s then str_map lower_ascii s
  else foldr (fun r acc => encode_rune (if r.1.1 <? 128 then byte_val (lower_ascii (byte_of r.1.1))
                                        else lower_beyond r.1.1) ++s acc) EmptyString (Utf8.runes s).

End Strings.

(** [strings.EqualFold] against an ASCII word none of whose letters folds outside ASCII
    (that is, without [k] and [s]). *)
Definition equal_fold (s word : string) : bool := str_eqb (str_map lower_ascii s) (str_map lower_ascii word).

(** [io.LimitReader]: at most [n] bytes. *)
Definition limit_read (n : Z) (s : string) : string :=
  if Z.of_nat (String.length s) <=? n then s else Utf8.str_take (Z.to_nat n) s.

(** [strings.Join] *)
Fixpoint str_join (sep : string) (l : list string) : string :=
  match l with
  | [] => EmptyString
  | [x] => x
  | x :: l' => x ++s sep ++s str_join sep l'
  end.

(** ** Decimal integers *)

(** [strconv.Itoa], [%d] *)
Definition itoa (z : Z) : string := pretty z.

Example itoa_ex : itoa (-120) = "-120" /\ itoa 0 = "0" /\ itoa 1234567890 = "1234567890".
Proof. by vm_compute. Qed.

Lemma itoa_inj a b : itoa a = itoa b -> a = b.
Proof. apply (inj pretty). Qed.

Definition is_digit (c : ascii) : bool := let v := byte_val c in (48 <=? v) && (v <=? 57).

Fixpoint digits_val (acc : Z) (s : string) : Z :=
  match s with EmptyString => acc | String c s' => digits_val (10 * acc + (byte_val c - 48)) s' end.

(** [strconv.Atoi] on 64-bit platforms: an optional sign and decimal digits within int64. *)
Definition atoi (s : string) : option Z :=
  let '(neg, ds) := match s with
    | String "-" s' => (true, s')
    | String "+" s' => (false, s')
    | _ => (false, s)
    end in
  if is_empty ds || negb (str_all is_digit ds) then None
  else let v := digits_val 0 ds in
       let z := if neg then - v else v in
       if (- 2 ^ 63 <=? z) && (z <? 2 ^ 63) then Some z else None.
