(* ===== verification/Utf8Facts.v ===== *)
(** * Decoding and re-encoding UTF-8

    The runes a string is ranged over can be filtered and joined again: decoding the bytes
    that are left gives exactly the runes that were kept. *)

From S2P Require Import Prelude GoStrings.

Open Scope Z_scope.

Abbreviation rune := (Z * string * bool)%type.

Definition valid_rune (u : rune) : Prop :=
  u.2 = true /\ forall t, Utf8.decode_rune (u.1.2 ++s t) = Some (u.1.1, String.length u.1.2, true).

Lemma str_take_append a t : Utf8.str_take (String.length a) (a ++s t) = a.
Proof. induction a as [|c a IH]; simpl; [by destruct t|by rewrite IH]. Qed.
Lemma str_drop_append a t : Utf8.str_drop (String.length a) (a ++s t) = t.
Proof. induction a as [|c a IH]; simpl; [by destruct t|done]. Qed.

(** A valid encoding is decoded from its own bytes, whatever follows. *)
Lemma decode_rune_local s r w : Utf8.decode_rune s = Some (r, w, true) -> valid_rune (r, Utf8.str_take w s, true).
Proof.
  intros E. split; [done|]. intros t. simpl.
  destruct s as [|a s]; [done|]. cbn [Utf8.decode_rune] in E. destruct (byte_val a <? 128) eqn:E1.
  { simplify_eq/=. by rewrite E1. }
  destruct s as [|b s]; [done|]. destruct (Utf8.between 194 223 a) eqn:E2.
  { destruct (Utf8.cont b) eqn:E3; [|done]. simplify_eq/=. by rewrite E1, E2, E3. }
  destruct s as [|c s]; [done|]. destruct (Utf8.between 224 239 a) eqn:E3.
  { destruct (_ && _) eqn:E4; [|done]. simplify_eq/=. by rewrite E1, E2, E3, E4. }
  destruct s as [|d s]; [done|]. destruct (Utf8.between 240 244 a) eqn:E4; [|done].
  destruct (_ && _) eqn:E5; [|done]. simplify_eq/=. by rewrite E1, E2, E3, E4, E5.
Qed.

(** More fuel than bytes changes nothing. *)
Lemma runes_go_fuel n s : (String.length s <= n)%nat -> Utf8.runes_go n s = Utf8.runes s.
Proof.
  unfold Utf8.runes. revert s. induction n as [n IH] using lt_wf_ind. intros s Hn.
  destruct n as [|n]; [by destruct s; [|simpl in *; lia]|].
  destruct s as [|a s]; [done|]. cbn [Utf8.runes_go String.length].
  destruct (Utf8.decode_rune (String a s)) as [[[r w] ok]|] eqn:E; [|done].
  pose proof (Utf8.decode_rune_width _ _ _ _ E) as [Hw1 Hw2]. simpl in *. f_equal.
  assert (String.length (Utf8.str_drop w (String a s)) <= String.length s)%nat as Hd
    by (rewrite Utf8.length_drop; simpl; lia).
  rewrite (IH n) by lia. symmetry. apply (IH (String.length s)); lia.
Qed.

Lemma runes_step s r w ok :
  Utf8.decode_rune s = Some (r, w, ok) -> Utf8.runes s = (r, Utf8.str_take w s, ok) :: Utf8.runes (Utf8.str_drop w s).
Proof.
  intros E. pose proof (Utf8.decode_rune_width _ _ _ _ E) as [Hw1 Hw2]. unfold Utf8.runes at 1.
  destruct s as [|a s]; [done|]. cbn [Utf8.runes_go String.length]. rewrite E. f_equal.
  apply runes_go_fuel. rewrite Utf8.length_drop. simpl. lia.
Qed.

(** Runes that were valid where they were read are valid anywhere. *)
Lemma runes_valid s u : u ∈ Utf8.runes s -> u.2 = true -> valid_rune u.
Proof.
  unfold Utf8.runes. generalize (String.length s) as n. intros n; revert s.
  induction n as [|n IH]; intros s; simpl; [by intros ?%elem_of_nil|].
  destruct (Utf8.decode_rune s) as [[[r w] ok]|] eqn:E; [|by intros ?%elem_of_nil].
  intros [->|Hu]%elem_of_cons Hok; [|by eapply IH]. simpl in Hok. subst ok. by apply decode_rune_local.
Qed.

(** Joining valid runes and decoding gives them back. *)
Lemma runes_bytes l t :
  Forall valid_rune l -> Utf8.runes (rune_bytes l ++s t) = l ++ Utf8.runes t.
Proof.
  induction 1 as [|u l [Hok Hu] _ IH]; [done|]. destruct u as [[r b] ok]. simpl in *. subst ok.
  rewrite append_assoc. rewrite (runes_step _ _ _ _ (Hu _)), str_take_append, str_drop_append. by rewrite IH.
Qed.

Lemma rune_bytes_app l l' : rune_bytes (l ++ l') = rune_bytes l ++s rune_bytes l'.
Proof. induction l as [|u l IH]; simpl; [done|]. by rewrite IH, append_assoc. Qed.

(** A one-byte rune. *)
Definition ascii_rune (c : ascii) : rune := (byte_val c, String c EmptyString, true).

Lemma ascii_rune_valid c : byte_val c < 128 -> valid_rune (ascii_rune c).
Proof. intros Hc. split; [done|]. intros t. simpl. by rewrite (proj2 (Z.ltb_lt _ _) Hc). Qed.

(** The bytes of a rune beyond ASCII are beyond ASCII. *)
Lemma rune_high_bytes u : valid_rune u -> 128 <= u.1.1 -> str_all (fun c => 128 <=? byte_val c) u.1.2 = true.
Proof.
  intros [_ Hd] Hr. specialize (Hd EmptyString). rewrite append_nil_r in Hd. revert Hd.
  destruct u as [[r s] ok]. simpl in *. destruct s as [|a s]; [done|]. cbn [Utf8.decode_rune].
  destruct (byte_val a <? 128) eqn:E1; [intros; simplify_eq/=; lia|]. bool_prop.
  assert (Ha : (128 <=? byte_val a) = true) by lia.
  assert (Hc : forall c, Utf8.cont c = true -> (128 <=? byte_val c) = true).
  { intros c. unfold Utf8.cont, Utf8.between. intros ?. bool_prop. lia. }
  assert (Hlo' : forall lo hi c, Utf8.between lo hi c = true -> 128 <= lo -> (128 <=? byte_val c) = true).
  { intros lo hi c. unfold Utf8.between. intros ? ?. bool_prop. lia. }
  destruct s as [|b s]; [done|]. destruct (Utf8.between 194 223 a).
  { destruct (Utf8.cont b) eqn:Eb; [|done]. intros [= _ Hs]. destruct s; [|done]. simpl. by rewrite Ha, Hc. }
  destruct s as [|c s]; [done|]. destruct (Utf8.between 224 239 a).
  { destruct (_ && _) eqn:Eb; [|done]. intros [= _ Hs]. destruct s; [|done]. apply andb_true_iff in Eb as [Eb ?].
    simpl. rewrite Ha, (Hc c) by done. rewrite (Hlo' _ _ b Eb) by (case_match; lia). done. }
  destruct s as [|d s]; [done|]. destruct (Utf8.between 240 244 a); [|done].
  destruct (_ && _) eqn:Eb; [|done]. intros [= _ Hs]. destruct s; [|done].
  apply andb_true_iff in Eb as [[Eb ?]%andb_true_iff ?]. simpl. rewrite Ha, (Hc c), (Hc d) by done. rewrite (Hlo' _ _ b Eb) by (case_match; lia). done.
Qed.

Lemma rune_low_bytes u : valid_rune u -> u.1.1 < 128 -> exists c, u.1.2 = String c EmptyString /\ byte_val c = u.1.1.
Proof.
  intros [_ Hd] Hr. specialize (Hd EmptyString). rewrite append_nil_r in Hd. revert Hd.
  destruct u as [[r s] ok]. simpl in *. destruct s as [|a s]; [done|]. cbn [Utf8.decode_rune].
  assert (Hc : forall c, Utf8.cont c = true -> 128 <= byte_val c).
  { intros c. unfold Utf8.cont, Utf8.between. intros ?. bool_prop. lia. }
  destruct (byte_val a <? 128) eqn:E1.
  { intros [= <- Hs]. destruct s; [|done]. by exists a. }
  destruct s as [|b s]; [done|]. unfold Utf8.low6, Utf8.between. destruct (_ && _) eqn:Ea.
  { destruct (Utf8.cont b) eqn:Eb; [|done]. intros [= <- _]. apply Hc in Eb. bool_prop. lia. }
  destruct s as [|c s]; [done|]. destruct ((224 <=? byte_val a) && _) eqn:Ec.
  { destruct (_ && _ && _) eqn:Eb; [|done]. intros [= <- _]. apply andb_true_iff in Eb as [Eb Ed]. apply Hc in Ed.
    destruct (byte_val a =? 224) eqn:E2; bool_prop; lia. }
  destruct s as [|d s]; [done|]. destruct ((240 <=? byte_val a) && _) eqn:Ee; [|done].
  destruct (_ && _ && _ && _) eqn:Eb; [|done]. intros [= <- _].
  apply andb_true_iff in Eb as [[Eb Ed]%andb_true_iff Ef]. apply Hc in Ed, Ef.
  destruct (byte_val a =? 240) eqn:E2; bool_prop; lia.
Qed.

(** ** Where characters start *)

Lemma cont_not_start c : Utf8.cont c = true -> Utf8.RuneStart c = false.
Proof. destruct c as [[] [] [] [] [] [] [] []]; vm_compute; congruence. Qed.

Lemma between_not_start lo hi c : 128 <= lo -> hi <= 191 -> Utf8.between lo hi c = true -> Utf8.RuneStart c = false.
Proof. intros ?? Hb. apply cont_not_start. unfold Utf8.cont, Utf8.between in *. bool_prop. apply andb_true_iff. lia. Qed.

(** Inside a valid encoding no byte starts another. *)
Lemma rune_inside s r w k c :
  Utf8.decode_rune s = Some (r, w, true) -> (0 < k < w)%nat -> String.get k s = Some c -> Utf8.RuneStart c = false.
Proof.
  intros E Hk Hg. destruct s as [|a s]; [done|]. cbn [Utf8.decode_rune] in E.
  destruct (byte_val a <? 128); [simplify_eq; lia|]. destruct s as [|b s]; [done|].
  destruct (Utf8.between 194 223 a).
  { destruct (Utf8.cont b) eqn:E3; [|done]. simplify_eq. destruct k as [|[|k]]; [lia| |lia]. simpl in Hg. simplify_eq.
    by apply cont_not_start. }
  destruct s as [|c' s]; [done|]. destruct (Utf8.between 224 239 a).
  { destruct (_ && _) eqn:E4; [|done]. apply andb_true_iff in E4 as [Eb Ec]. simplify_eq.
    destruct k as [|[|[|k]]]; [lia| | |lia]; simpl in Hg; simplify_eq; [|by apply cont_not_start].
    refine (between_not_start _ _ _ _ _ Eb); split_match; lia. }
  destruct s as [|d s]; [done|]. destruct (Utf8.between 240 244 a); [|done].
  destruct (_ && _) eqn:E5; [|done]. apply andb_true_iff in E5 as [[Eb Ec]%andb_true_iff Ed]. simplify_eq.
  destruct k as [|[|[|[|k]]]]; [lia| | | |lia]; simpl in Hg; simplify_eq; try by apply cont_not_start.
  refine (between_not_start _ _ _ _ _ Eb); split_match; lia.
Qed.

Lemma rune_width s r w ok : Utf8.decode_rune s = Some (r, w, ok) -> (w <= 4)%nat.
Proof. destruct s; simpl; [done|]. repeat case_match; intros; simplify_eq; lia. Qed.

(** A byte that starts no rune, at the front of a string, decodes to no valid one. *)
Lemma valid_start c t r w : Utf8.decode_rune (String c t) = Some (r, w, true) -> Utf8.RuneStart c = true.
Proof.
  destruct (Utf8.RuneStart c) eqn:E; [done|]. intros Hd. exfalso.
  assert (Utf8.RuneStart c || ((128 <=? byte_val c) && (byte_val c <=? 191)) = true) as Hr
    by (clear; by destruct c as [[] [] [] [] [] [] [] []]).
  rewrite E in Hr. simpl in Hr. apply andb_true_iff in Hr as [Hlo%Z.leb_le Hhi%Z.leb_le].
  assert (forall lo hi, 191 < lo -> Utf8.between lo hi c = false) as Hb.
  { intros lo hi Hl. unfold Utf8.between. apply andb_false_iff. left. apply Z.leb_gt. lia. }
  cbn [Utf8.decode_rune] in Hd. rewrite (proj2 (Z.ltb_ge (byte_val c) 128)) in Hd by lia.
  rewrite !Hb in Hd by lia. destruct t as [|b [|b' [|b2 t]]]; discriminate Hd.
Qed.

(** A place where a character starts, the end of the string included. *)
Definition boundary (s : string) (k : nat) : Prop :=
  match String.get k s with Some c => k = O \/ Utf8.RuneStart c = true | None => k = String.length s end.

Lemma valid_cases s : Utf8.valid s = true ->
  s = EmptyString \/ exists r w, Utf8.decode_rune s = Some (r, w, true) /\ Utf8.valid (Utf8.str_drop w s) = true.
Proof.
  destruct s as [|a s]; [by left|right]. destruct (Utf8.decode_rune (String a s)) as [[[r w] ok]|] eqn:E.
  - unfold Utf8.valid in *. rewrite (runes_step _ _ _ _ E) in H. simpl in H. apply andb_true_iff in H as [-> H]. eauto.
  - exfalso. revert E. simpl. repeat (case_match; try discriminate).
Qed.

Lemma valid_cons s r w t :
  Utf8.decode_rune s = Some (r, w, true) -> Utf8.valid t = true -> Utf8.valid (Utf8.str_take w s ++s t) = true.
Proof.
  intros E Ht. destruct (decode_rune_local _ _ _ E) as [_ Hd]. unfold Utf8.valid.
  pose proof (runes_step _ _ _ _ (Hd t)) as Hr. cbn [fst snd] in Hr. rewrite Hr. cbn [forallb snd]. by rewrite str_drop_append.
Qed.

Lemma get_drop n k s : String.get k (Utf8.str_drop n s) = String.get (n + k) s.
Proof. revert s. induction n as [|n IH]; intros [|c s]; simpl; done. Qed.

Lemma take_split n k s : (n <= String.length s)%nat -> Utf8.str_take (n + k) s = Utf8.str_take n s ++s Utf8.str_take k (Utf8.str_drop n s).
Proof. revert s. induction n as [|n IH]; intros [|c s] Hn; simpl in *; try done; [lia|]. rewrite IH; [done|lia]. Qed.

Lemma get_inside k s : (k < String.length s)%nat -> exists c, String.get k s = Some c.
Proof. revert s. induction k as [|k IH]; intros [|c s] Hk; simpl in *; [lia|eauto|lia|apply IH; lia]. Qed.

(** Induction over the characters of a valid string. *)
Lemma valid_ind (P : string -> Prop) :
  P EmptyString ->
  (forall s r w, Utf8.decode_rune s = Some (r, w, true) -> Utf8.valid (Utf8.str_drop w s) = true -> P (Utf8.str_drop w s) -> P s) ->
  forall s, Utf8.valid s = true -> P s.
Proof.
  intros H0 Hs s. induction s as [s IH] using (induction_ltof1 _ String.length). unfold ltof in IH. intros Hv.
  destruct (valid_cases _ Hv) as [->|(r & w & E & Hv')]; [done|].
  eapply Hs; [done..|]. apply IH; [|done]. rewrite Utf8.length_drop. pose proof (Utf8.decode_rune_width _ _ _ _ E). lia.
Qed.

(** Cutting a valid string where a character starts leaves it valid. *)
Lemma take_boundary s : Utf8.valid s = true -> forall k, boundary s k -> Utf8.valid (Utf8.str_take k s) = true.
Proof.
  revert s. apply (valid_ind (fun s => forall k, boundary s k -> Utf8.valid (Utf8.str_take k s) = true)); [by intros []|].
  intros s r w E Hv IH k Hk.
  pose proof (Utf8.decode_rune_width _ _ _ _ E) as [Hw1 Hw2].
  destruct (decide (k = 0)%nat) as [->|Hk0]; [by destruct s|].
  destruct (decide (k < w)%nat) as [Hl|Hl].
  - exfalso. unfold boundary in Hk. destruct (get_inside k s) as [c Hc]; [lia|]. rewrite Hc in Hk.
    assert (Utf8.RuneStart c = false) by (eapply rune_inside; [exact E| |exact Hc]; lia). destruct Hk; congruence.
  - replace k with (w + (k - w))%nat by lia. rewrite take_split by lia. eapply valid_cons; [done|]. apply IH.
    unfold boundary in *. rewrite get_drop, Utf8.length_drop. replace (w + (k - w))%nat with k by lia.
    destruct (String.get k s); [|lia]. right. by destruct Hk.
Qed.

(** Any place is at most three bytes after a boundary. *)
Lemma boundary_near s : Utf8.valid s = true -> forall n, (n < String.length s)%nat ->
  exists k, (k <= n <= k + 3)%nat /\ boundary s k.
Proof.
  revert s. apply (valid_ind (fun s => forall n, (n < String.length s)%nat -> exists k, (k <= n <= k + 3)%nat /\ boundary s k));
    [intros n Hn; simpl in Hn; lia|]. intros s r w E Hv IH n Hn.
  pose proof (Utf8.decode_rune_width _ _ _ _ E) as [Hw1 Hw2]. pose proof (rune_width _ _ _ _ E).
  destruct (decide (n < w)%nat) as [Hl|Hl].
  - exists 0%nat. split; [lia|]. unfold boundary. destruct s; [simpl in Hn; lia|by left].
  - destruct (IH (n - w)%nat) as (k & Hk & Hb); [rewrite Utf8.length_drop; lia|].
    exists (w + k)%nat. split; [lia|]. unfold boundary in *. rewrite get_drop, Utf8.length_drop in Hb.
    destruct (String.get (w + k) s) as [c|] eqn:Ec; [|lia]. right.
    destruct Hb as [->|Hb]; [|done]. rewrite Nat.add_0_r in Ec.
    destruct (valid_cases _ Hv) as [Hd|(r' & w' & E' & _)].
    + apply (f_equal String.length) in Hd. rewrite Utf8.length_drop in Hd. simpl in Hd. lia.
    + assert (String.get 0 (Utf8.str_drop w s) = Some c) as Hc by (by rewrite get_drop, Nat.add_0_r).
      destruct (Utf8.str_drop w s) as [|c' t]; [done|]. simpl in Hc. simplify_eq. revert E'. clear.
      apply valid_start.
Qed.

(** Hexadecimal text is ASCII, so it is valid. *)
Lemma valid_ascii s : str_all (fun c => byte_val c <? 128) s = true -> Utf8.valid s = true.
Proof.
  induction s as [|c s IH]; [done|]. simpl. intros [Hc Hs]%andb_true_iff.
  apply (valid_cons (String c s) (byte_val c) 1 s); [simpl; by rewrite Hc|auto].
Qed.

Lemma valid_hex s : Utf8.valid (Hex.encode s) = true.
Proof.
  apply valid_ascii. induction s as [|c s IH]; [done|]. cbn [Hex.encode str_all]. rewrite IH.
  pose proof (byte_val_range c). assert (forall d, 0 <= d < 16 -> (byte_val (Hex.digit d) <? 128) = true) as Hd.
  { intros d Hd. unfold Hex.digit. destruct (d <? 10) eqn:E; bool_prop; rewrite byte_val_of; apply Z.ltb_lt || idtac; lia. }
  rewrite !Hd; [done| |].
  - pose proof (Z.mod_pos_bound (byte_val c) 16). lia.
  - split; [apply Z.div_pos; lia|apply Z.div_lt_upper_bound; lia].
Qed.
