(* ===== verification/GoJson.v ===== *)
(** * encoding/json, as far as the code uses it

    [encode] is [json.Marshal] (with its HTML escaping); [parse] is the syntax of
    [json.Unmarshal], keeping the source text of every object member for
    [json.RawMessage]; the [*_field] functions are the decoding of one struct field. *)

From S2P Require Import Prelude GoStrings.

Open Scope Z_scope.

#[local] Set Warnings "-register-all".

Definition bs : string := String (ascii_of_nat 92) EmptyString.

(** ** Values to encode *)

Inductive json :=
| JNull
| JBool (b : bool)
| JNum (lit : string)
| JStr (s : string)
| JArr (l : list json)
| JObj (l : list (string * json))
(** [json.RawMessage], already compact *)
| JRaw (text : string).

Definition JInt (z : Z) : json := JNum (itoa z).

(** A Go map: [json.Marshal] sorts its keys. *)
Definition jmap (l : list (string * json)) : json :=
  JObj (merge_sort (fun a b => String.le a.1 b.1) l).

Definition hex4 (r : Z) : string :=
  let d n := String (Hex.digit n) EmptyString in
  d (r / 4096) ++s d ((r / 256) mod 16) ++s d ((r / 16) mod 16) ++s d (r mod 16).

Definition escape_rune (r : Z * string * bool) : string :=
  let '(c, bytes, ok) := r in
  if negb ok then bs ++s "ufffd"
  else if (c =? 34) || (c =? 92) then bs ++s bytes
  else if c =? 8 then bs ++s "b"
  else if c =? 12 then bs ++s "f"
  else if c =? 10 then bs ++s "n"
  else if c =? 13 then bs ++s "r"
  else if c =? 9 then bs ++s "t"
  else if (c <? 32) || (c =? 60) || (c =? 62) || (c =? 38) || (c =? 8232) || (c =? 8233)
  then bs ++s "u" ++s hex4 c
  else bytes.

Definition escape (s : string) : string :=
  foldr (fun r acc => escape_rune r ++s acc) EmptyString (Utf8.runes s).

Fixpoint encode (j : json) : string :=
  match j with
  | JNull => "null"
  | JBool b => if b then "true" else "false"
  | JNum lit => lit
  | JStr s => quoted (escape s)
  | JArr l => "[" ++s str_join "," (map encode l) ++s "]"
  | JObj l => "{" ++s str_join "," (map (fun m => quoted (escape m.1) ++s ":" ++s encode m.2) l) ++s "}"
  | JRaw text => text
  end.

(** ** Values read *)

Inductive jval :=
| VNull
| VBool (b : bool)
| VNum (lit : string)
| VStr (s : string)
| VArr (l : list jval)
(** members in source order: name, source text of the value, value *)
| VObj (l : list (string * string * jval)).

Definition is_ws (c : ascii) : bool :=
  let v := byte_val c in (v =? 32) || (v =? 9) || (v =? 10) || (v =? 13).

Fixpoint skip_ws (s : string) : string :=
  match s with String c s' => if is_ws c then skip_ws s' else s | EmptyString => s end.

Fixpoint hex_val (n : nat) (acc : Z) (s : string) : option (Z * string) :=
  match n, s with
  | O, _ => Some (acc, s)
  | S n', String c s' => match Hex.undigit c with Some d => hex_val n' (16 * acc + d) s' | None => None end
  | _, _ => None
  end.

Definition replacement : string := encode_rune 65533.

(** A [\uXXXX] escape after its [u]: the UTF-8 text and the rest; a surrogate pair is one
    rune, a lone surrogate is U+FFFD. *)
Definition unicode_escape (s : string) : option (string * string) :=
  match hex_val 4 0 s with
  | None => None
  | Some (r, rest) =>
      if (55296 <=? r) && (r <? 57344) then
        match rest with
        | String b (String u rest') =>
            if (byte_val b =? 92) && (byte_val u =? 117) then
              match hex_val 4 0 rest' with
              | Some (r2, rest2) =>
                  if (r <? 56320) && (56320 <=? r2) && (r2 <? 57344)
                  then Some (encode_rune (65536 + (r - 55296) * 1024 + (r2 - 56320)), rest2)
                  else Some (replacement, rest)
              | None => Some (replacement, rest)
              end
            else Some (replacement, rest)
        | _ => Some (replacement, rest)
        end
      else Some (encode_rune r, rest)
  end.

(** The rest of a string literal after its opening quote. *)
Fixpoint parse_string (fuel : nat) (acc s : string) : option (string * string) :=
  match fuel with
  | O => None
  | S fuel' =>
      match s with
      | EmptyString => None
      | String c s' =>
          let v := byte_val c in
          if v =? 34 then Some (acc, s')
          else if v <? 32 then None
          else if v =? 92 then
            match s' with
            | EmptyString => None
            | String e s'' =>
                let k := byte_val e in
                let put z := parse_string fuel' (acc ++s String (byte_of z) EmptyString) s'' in
                if (k =? 34) || (k =? 92) || (k =? 47) then put k
                else if k =? 98 then put 8
                else if k =? 102 then put 12
                else if k =? 110 then put 10
                else if k =? 114 then put 13
                else if k =? 116 then put 9
                else if k =? 117 then
                  match unicode_escape s'' with
                  | Some (t, rest) => parse_string fuel' (acc ++s t) rest
                  | None => None
                  end
                else None
            end
          else match Utf8.decode_rune s with
               | Some (_, w, ok) =>
                   parse_string fuel' (acc ++s (if ok : bool then Utf8.str_take w s else replacement))
                     (Utf8.str_drop w s)
               | None => None
               end
      end
  end.

(** The longest run of digits. *)
Fixpoint span_digits (s : string) : string * string :=
  match s with
  | String c s' => if is_digit c then let '(d, r) := span_digits s' in (String c d, r) else (EmptyString, s)
  | EmptyString => (EmptyString, EmptyString)
  end.

Definition parse_int_part (s : string) : option (string * string) :=
  let '(d, r) := span_digits s in
  match d with
  | EmptyString => None
  | String c EmptyString => Some (d, r)
  | String c _ => if byte_val c =? 48 then None else Some (d, r)
  end.

Definition parse_frac (s : string) : option (string * string) :=
  match s with
  | String "." s' => let '(d, r) := span_digits s' in
                     if is_empty d then None else Some (String "." d, r)
  | _ => Some (EmptyString, s)
  end.

Definition parse_exp (s : string) : option (string * string) :=
  match s with
  | String e s' =>
      if (byte_val e =? 101) || (byte_val e =? 69) then
        let '(sg, s'') := match s' with
          | String "+" t => ("+", t) | String "-" t => ("-", t) | _ => (EmptyString, s') end in
        let '(d, r) := span_digits s'' in
        if is_empty d then None else Some (String e (sg ++s d), r)
      else Some (EmptyString, s)
  | EmptyString => Some (EmptyString, s)
  end.

Definition parse_number (s : string) : option (string * string) :=
  let '(sg, s1) := match s with String "-" t => ("-", t) | _ => (EmptyString, s) end in
  match parse_int_part s1 with
  | None => None
  | Some (i, s2) =>
      match parse_frac s2 with
      | None => None
      | Some (f, s3) =>
          match parse_exp s3 with
          | None => None
          | Some (e, s4) => Some (sg ++s i ++s f ++s e, s4)
          end
      end
  end.

Definition expect (p s : string) : option string :=
  if has_prefix s p then Some (trim_prefix s p) else None.

(** The text of [s] before its suffix [rest]. *)
Definition text_before (s rest : string) : string :=
  Utf8.str_take (String.length s - String.length rest) s.

Fixpoint parse_value (fuel : nat) (s0 : string) : option (jval * string) :=
  match fuel with
  | O => None
  | S fuel' =>
      let s := skip_ws s0 in
      match s with
      | EmptyString => None
      | String c s' =>
          let v := byte_val c in
          if v =? 34 then
            match parse_string (S (String.length s')) EmptyString s' with
            | Some (t, r) => Some (VStr t, r) | None => None end
          else if v =? 91 then
            match skip_ws s' with
            | String "]" r => Some (VArr [], r)
            | _ => match parse_elems fuel' s' with Some (l, r) => Some (VArr l, r) | None => None end
            end
          else if v =? 123 then
            match skip_ws s' with
            | String "}" r => Some (VObj [], r)
            | _ => match parse_members fuel' s' with Some (l, r) => Some (VObj l, r) | None => None end
            end
          else if v =? 110 then match expect "null" s with Some r => Some (VNull, r) | None => None end
          else if v =? 116 then match expect "true" s with Some r => Some (VBool true, r) | None => None end
          else if v =? 102 then match expect "false" s with Some r => Some (VBool false, r) | None => None end
          else match parse_number s with Some (n, r) => Some (VNum n, r) | None => None end
      end
  end
with parse_elems (fuel : nat) (s : string) : option (list jval * string) :=
  match fuel with
  | O => None
  | S fuel' =>
      match parse_value fuel' s with
      | None => None
      | Some (x, r) =>
          match skip_ws r with
          | String "," r' => match parse_elems fuel' r' with
                             | Some (l, r'') => Some (x :: l, r'') | None => None end
          | String "]" r' => Some ([x], r')
          | _ => None
          end
      end
  end
with parse_members (fuel : nat) (s : string) : option (list (string * string * jval) * string) :=
  match fuel with
  | O => None
  | S fuel' =>
      match skip_ws s with
      | String q s1 =>
          if byte_val q =? 34 then
            match parse_string (S (String.length s1)) EmptyString s1 with
            | None => None
            | Some (k, s2) =>
                match skip_ws s2 with
                | String ":" s3 =>
                    match parse_value fuel' s3 with
                    | None => None
                    | Some (x, r) =>
                        let m := (k, text_before (skip_ws s3) r, x) in
                        match skip_ws r with
                        | String "," r' => match parse_members fuel' r' with
                                           | Some (l, r'') => Some (m :: l, r'') | None => None end
                        | String "}" r' => Some ([m], r')
                        | _ => None
                        end
                    end
                | _ => None
                end
            end
          else None
      | EmptyString => None
      end
  end.

(** Every level of nesting and every element spends at least one byte. *)
Definition parse_fuel (s : string) : nat := 3 * String.length s + 3.

(** [json.NewDecoder(r).Decode]: the first value, whatever follows. *)
Definition decode_first (s : string) : option jval :=
  match parse_value (parse_fuel s) s with Some (v, _) => Some v | None => None end.

(** [json.Unmarshal]: one value and nothing after it. *)
Definition parse (s : string) : option jval :=
  match parse_value (parse_fuel s) s with
  | Some (v, r) => if is_empty (skip_ws r) then Some v else None
  | None => None
  end.

(** ** Struct fields *)

(** Case folding of field names: ASCII letters, the long s and the Kelvin sign. *)
Definition fold_name (s : string) : string :=
  foldr (fun r acc =>
    (if r.1.1 =? 383 then "s" else if r.1.1 =? 8490 then "k" else str_map lower_ascii r.1.2) ++s acc)
    EmptyString (Utf8.runes s).

Definition members (v : jval) : list (string * string * jval) :=
  match v with VObj l => l | _ => [] end.

(** The destination is a struct. *)
Definition struct_ok (v : jval) : bool :=
  match v with VObj _ | VNull => true | _ => false end.

Definition field_values (name : string) (v : jval) : list (string * jval) :=
  (fun m => (m.1.2, m.2)) <$> filter (fun m => fold_name m.1.1 = fold_name name) (members v).

(** The string a field of type [string] ends with; a null or a value of another type leaves
    it as it was. *)
Definition string_field (name : string) (v : jval) : string :=
  foldl (fun cur m => match m.2 with VStr s => s | _ => cur end) EmptyString (field_values name v).

Definition string_field_ok (name : string) (v : jval) : bool :=
  forallb (fun m => match m.2 with VStr _ | VNull => true | _ => false end) (field_values name v).

(** A field of type [json.RawMessage]. *)
Definition raw_field (name : string) (v : jval) : string :=
  foldl (fun _ m => m.1) EmptyString (field_values name v).

(** A field of type [int]. *)
Definition int_field (name : string) (v : jval) : Z :=
  foldl (fun cur m => match m.2 with VNum n => default cur (atoi n) | _ => cur end) 0 (field_values name v).

Definition int_field_ok (name : string) (v : jval) : bool :=
  forallb (fun m => match m.2 with VNum n => negb (is_null (atoi n)) | VNull => true | _ => false end)
    (field_values name v).

Example parse_ex :
  parse (" {" ++s quoted "A" ++s " : [1, " ++s quoted ("x" ++s bs ++s "u0041") ++s ", null ], "
         ++s quoted "b" ++s ":-1.5e3}")
  = Some (VObj [("A", "[1, " ++s quoted ("x" ++s bs ++s "u0041") ++s ", null ]",
                 VArr [VNum "1"; VStr "xA"; VNull]); ("b", "-1.5e3", VNum "-1.5e3")]).
Proof. by vm_compute. Qed.

Example encode_ex :
  encode (jmap [("status", JStr "<ok>"); ("n", JInt (-3)); ("l", JArr [JBool true; JNull])])
  = "{" ++s quoted "l" ++s ":[true,null]," ++s quoted "n" ++s ":-3," ++s quoted "status" ++s ":"
    ++s quoted (bs ++s "u003cok" ++s bs ++s "u003e") ++s "}".
Proof. by vm_compute. Qed.
