(* ===== verification/Decimal.v ===== *)
(** * Decimal text: what [itoa] writes, [atoi] and the JSON number syntax read

    [strconv.Itoa] and [%d] write a sign and digits without a leading zero; [strconv.Atoi]
    and encoding/json read them back. *)

From stdpp Require Import pretty.
From S2P Require Import Prelude GoStrings Utf8Facts GoJson.

Open Scope Z_scope.

(** The text of an integer without its sign: digits, the first not a zero unless alone. *)
Definition numeral_text (s : string) : Prop :=
  match s with
  | EmptyString => False
  | String c t => str_all is_digit s = true /\ (byte_val c = 48 -> t = EmptyString)
  end.

Lemma str_all_append p a b : str_all p (a ++s b) = str_all p a && str_all p b.
Proof. induction a as [|c a IH]; [done|]. simpl. rewrite IH. by destruct (p c). Qed.

Lemma digits_val_append acc a b : digits_val acc (a ++s b) = digits_val (digits_val acc a) b.
Proof. revert acc. induction a as [|c a IH]; intros acc; simpl; auto. Qed.

Lemma pretty_char x : (x < 10)%N -> byte_val (pretty_N_char x) = 48 + Z.of_N x.
Proof.
  intros Hx. destruct x as [|x]; [reflexivity|].
  assert (x = 1 \/ x = 2 \/ x = 3 \/ x = 4 \/ x = 5 \/ x = 6 \/ x = 7 \/ x = 8 \/ x = 9)%positive as Hc by lia.
  repeat destruct Hc as [->|Hc]; try reflexivity. by subst.
Qed.

Lemma pretty_char_digit x : (x < 10)%N -> is_digit (pretty_N_char x) = true.
Proof. intros Hx. unfold is_digit. rewrite pretty_char by done. apply andb_true_iff. split; apply Z.leb_le; lia. Qed.

Lemma pretty_go x s :
  (0 < x)%N -> exists c t, pretty_N_go x s = String c t ++s s /\ str_all is_digit (String c t) = true /\
    byte_val c <> 48 /\ digits_val 0 (String c t) = Z.of_N x.
Proof.
  revert s. induction (N.lt_wf_0 x) as [x _ IH]. intros s Hx. rewrite pretty_N_go_step by done.
  pose proof (N.mod_lt x 10 ltac:(done)) as Hm. pose proof (N.div_mod x 10 ltac:(done)) as Hd.
  destruct (decide (x / 10 = 0)%N) as [E|E].
  - rewrite E, pretty_N_go_0. exists (pretty_N_char (x mod 10)), EmptyString.
    pose proof (pretty_char _ Hm) as Hc. simpl. rewrite pretty_char_digit by done. rewrite Hc. split_and!; [done..|lia|lia].
  - destruct (IH (x / 10)%N (N.div_lt x 10 Hx ltac:(done)) (String (pretty_N_char (x mod 10)) s) ltac:(lia))
      as (c & t & E1 & Ht & Hc & Hv).
    exists c, (t ++s String (pretty_N_char (x mod 10)) EmptyString). rewrite E1. split_and!.
    + change (String c (t ++s String (pretty_N_char (x mod 10)) EmptyString))
        with (String c t ++s String (pretty_N_char (x mod 10)) EmptyString). by rewrite append_assoc.
    + change (str_all is_digit (String c t ++s String (pretty_N_char (x mod 10)) EmptyString) = true).
      rewrite str_all_append, Ht. simpl. by rewrite pretty_char_digit.
    + done.
    + change (digits_val 0 (String c t ++s String (pretty_N_char (x mod 10)) EmptyString) = Z.of_N x).
      rewrite digits_val_append, Hv. cbn [digits_val]. rewrite pretty_char by done. lia.
Qed.

Lemma pretty_N_text x :
  exists s, pretty x = s /\ numeral_text s /\ digits_val 0 s = Z.of_N x.
Proof.
  unfold pretty, pretty_N. destruct (decide (x = 0)%N) as [->|Hx]; [by exists "0"|].
  destruct (pretty_go x EmptyString ltac:(lia)) as (c & t & E & Ht & Hc & Hv).
  rewrite append_nil_r in E. exists (String c t). split; [exact E|]. split; [|done]. split; [done|]. by intros.
Qed.

(** The sign and the digits of an integer. *)
Lemma itoa_text z :
  exists s, numeral_text s /\ itoa z = (if z <? 0 then "-" else EmptyString) ++s s /\ digits_val 0 s = Z.abs z.
Proof.
  unfold itoa, pretty, pretty_Z. destruct z as [|p|p].
  - exists "0". by vm_compute.
  - destruct (pretty_N_text (N.pos p)) as (s & E & Hs & Hv). exists s. split_and!; [done|exact E|done].
  - destruct (pretty_N_text (N.pos p)) as (s & E & Hs & Hv). exists s. split_and!; [done| |done].
    cbn [String.append]. f_equal. exact E.
Qed.

(** [strconv.Atoi] reads back what [strconv.Itoa] wrote, within 64 bits. *)
Lemma atoi_itoa z : - 2 ^ 63 <= z < 2 ^ 63 -> atoi (itoa z) = Some z.
Proof.
  intros Hz. destruct (itoa_text z) as (s & Hs & -> & Hv). destruct s as [|c t]; [done|]. destruct Hs as [Hall _].
  assert (is_digit c = true) as Hc by (simpl in Hall; by apply andb_true_iff in Hall as [? _]).
  assert (c <> "-"%char /\ c <> "+"%char) as [Hm Hp] by (split; intros ->; by vm_compute in Hc).
  set (v := String c t) in *. assert (is_empty v = false) as Hne by done.
  assert (forall x, x = z -> (if (- 2 ^ 63 <=? x) && (x <? 2 ^ 63) then Some x else None) = Some z) as Hfit.
  { intros x ->. by rewrite (proj2 (Z.leb_le _ _)), (proj2 (Z.ltb_lt _ _)) by lia. }
  unfold atoi. destruct (z <? 0) eqn:Es; [apply Z.ltb_lt in Es|apply Z.ltb_ge in Es]; cbn [String.append].
  - cbv iota beta. rewrite Hall, Hne, Hv. apply Hfit. lia.
  - replace (match v with String "-" s' => (true, s') | String "+" s' => (false, s') | _ => (false, v) end)
      with (false, v) by (subst v; destruct c as [[] [] [] [] [] [] [] []]; done).
    rewrite Hall, Hne, Hv. apply Hfit. lia.
Qed.

(** ** In JSON *)

(** What may follow a value: nothing, a comma, a closing bracket or white space. *)
Definition stops (rest : string) : Prop :=
  match rest with
  | EmptyString => True
  | String c _ => is_ws c = true \/ c = ","%char \/ c = "]"%char \/ c = "}"%char
  end.

Lemma stops_cases c t : stops (String c t) ->
  is_digit c = false /\ c <> "."%char /\ byte_val c <> 101 /\ byte_val c <> 69.
Proof.
  intros [Hw|Hc].
  - unfold is_ws in Hw. unfold is_digit. rewrite !orb_true_iff, !Z.eqb_eq in Hw.
    split_and!; [apply andb_false_iff; rewrite !Z.leb_gt; lia| |lia..]. intros ->. vm_compute in Hw. lia.
  - destruct Hc as [->|[->| ->]]; by vm_compute.
Qed.

Lemma span_digits_stop rest : stops rest -> span_digits rest = (EmptyString, rest).
Proof. destruct rest as [|c t]; [done|]. intros (Hd & _)%stops_cases. cbn [span_digits]. by rewrite Hd. Qed.

Lemma span_digits_all s rest : str_all is_digit s = true -> stops rest -> span_digits (s ++s rest) = (s, rest).
Proof.
  intros Hs Hr. induction s as [|c s IH]; [by apply span_digits_stop|].
  simpl in Hs. apply andb_true_iff in Hs as [Hc Hs]. cbn [String.append span_digits]. rewrite Hc, IH by done. done.
Qed.

Lemma parse_int_numeral s rest : numeral_text s -> stops rest -> parse_int_part (s ++s rest) = Some (s, rest).
Proof.
  destruct s as [|c t]; [done|]. intros [Hall Hz] Hr. unfold parse_int_part. rewrite span_digits_all by done.
  destruct t as [|c' t]; [done|]. destruct (byte_val c =? 48) eqn:E; [|done]. apply Z.eqb_eq in E. by specialize (Hz E).
Qed.

Lemma parse_frac_stop rest : stops rest -> parse_frac rest = Some (EmptyString, rest).
Proof.
  destruct rest as [|c t]; [done|]. intros (_ & Hc & _)%stops_cases. unfold parse_frac.
  destruct c as [[] [] [] [] [] [] [] []]; done.
Qed.

Lemma parse_exp_stop rest : stops rest -> parse_exp rest = Some (EmptyString, rest).
Proof.
  destruct rest as [|c t]; [done|]. intros (_ & _ & He & HE)%stops_cases. unfold parse_exp.
  by rewrite (proj2 (Z.eqb_neq _ _) He), (proj2 (Z.eqb_neq _ _) HE).
Qed.

(** An integer is read as a number, up to whatever ends it. *)
Lemma parse_number_itoa z rest : stops rest -> parse_number (itoa z ++s rest) = Some (itoa z, rest).
Proof.
  intros Hr. destruct (itoa_text z) as (s & Hs & -> & _).
  assert (Hbody : forall sg, match parse_int_part (s ++s rest) with
    | None => None
    | Some (i, s2) => match parse_frac s2 with
        | None => None
        | Some (f, s3) => match parse_exp s3 with None => None | Some (e, s4) => Some (sg ++s i ++s f ++s e, s4) end
        end
    end = Some (sg ++s s, rest)).
  { intros sg. rewrite parse_int_numeral, parse_frac_stop, parse_exp_stop by done. cbn [String.append]. by rewrite !append_nil_r. }
  unfold parse_number. destruct (z <? 0); cbn [String.append]; [exact (Hbody "-")|].
  destruct s as [|c t]; [done|]. destruct Hs as [Hall Hz]. cbn [String.append].
  replace (match c with "-"%char => _ | _ => _ end) with (EmptyString, String c (t ++s rest)).
  - exact (Hbody EmptyString).
  - simpl in Hall. apply andb_true_iff in Hall as [Hc _]. destruct c as [[] [] [] [] [] [] [] []]; try done.
Qed.

(** The first byte of an integer's text. *)
Lemma itoa_head z : exists c t, itoa z = String c t /\ (is_digit c = true \/ c = "-"%char).
Proof.
  destruct (itoa_text z) as ([|c t] & Hs & -> & _); [done|]. destruct Hs as [Hall _]. simpl in Hall.
  apply andb_true_iff in Hall as [Hc _]. destruct (z <? 0); [by exists "-"%char, (String c t); auto|by exists c, t; auto].
Qed.
