(* ===== verification/JsonFacts.v ===== *)
(** * Reading back what was written as JSON

    The escapes of [json.Marshal] are undone by [json.Unmarshal] on every valid UTF-8 string,
    and an object of strings is read member by member. *)

From S2P Require Import Prelude GoStrings Utf8Facts GoJson Decimal.

Open Scope Z_scope.

#[local] Set Warnings "-register-all".

Lemma hex_val_digit n acc d s : 0 <= d < 16 -> hex_val (S n) acc (String (Hex.digit d) s) = hex_val n (16 * acc + d) s.
Proof. intros Hd. cbn [hex_val]. by rewrite Hex.undigit_digit. Qed.

Lemma hex_val_hex4 r rest : 0 <= r < 65536 -> hex_val 4 0 (hex4 r ++s rest) = Some (r, rest).
Proof.
  intros Hr. unfold hex4. cbn [String.append].
  pose proof (Z.div_pos r 4096). pose proof (Z.div_lt_upper_bound r 4096 16).
  pose proof (Z.mod_pos_bound (r / 256) 16). pose proof (Z.mod_pos_bound (r / 16) 16). pose proof (Z.mod_pos_bound r 16).
  rewrite !hex_val_digit by lia. cbn [hex_val]. do 2 f_equal.
  pose proof (Z.div_mod r 16). pose proof (Z.div_mod (r / 16) 16). pose proof (Z.div_mod (r / 256) 16).
  replace (r / 16 / 16) with (r / 256) in * by (by rewrite Z.div_div).
  replace (r / 256 / 16) with (r / 4096) in * by (by rewrite Z.div_div). lia.
Qed.

Lemma unicode_escape_hex4 r rest : 0 <= r < 55296 -> unicode_escape (hex4 r ++s rest) = Some (encode_rune r, rest).
Proof.
  intros Hr. unfold unicode_escape. rewrite hex_val_hex4 by lia.
  replace (55296 <=? r) with false by (symmetry; apply Z.leb_gt; lia). done.
Qed.

(** The rune a decoding yields. *)
Definition rune_of (o : option (Z * nat * bool)) : Z := match o with Some (r, _, _) => r | None => 0 end.

(** The two line separators are escaped by number; their bytes are known. *)
Lemma separator_bytes u : valid_rune u -> u.1.1 = 8232 \/ u.1.1 = 8233 -> u.1.2 = encode_rune u.1.1.
Proof.
  intros [_ Hd] Hr. specialize (Hd EmptyString). rewrite append_nil_r in Hd. destruct u as [[r s] ok]. simpl in *.
  destruct s as [|a s]; [done|]. cbn [Utf8.decode_rune] in Hd.
  destruct (byte_val a <? 128) eqn:E1; [injection Hd as <- _; bool_prop; lia|].
  destruct s as [|b s]; [done|]. unfold Utf8.low6, Utf8.cont, Utf8.between in Hd. destruct ((194 <=? byte_val a) && _) eqn:E2.
  { revert Hd. match goal with |- (if ?c then Some _ else Some _) = _ -> _ => destruct c eqn:E3 end; [|intros Hd%(f_equal rune_of); simpl in Hd; lia]. intros Hd%(f_equal rune_of). simpl in Hd. bool_prop. lia. }
  destruct s as [|c s]; [done|]. destruct ((224 <=? byte_val a) && _) eqn:E3.
  - revert Hd. match goal with |- (if ?c then Some _ else Some _) = _ -> _ => destruct c eqn:E4 end; [|intros Hd%(f_equal rune_of); simpl in Hd; lia]. intros Hd.
    assert (String.length s = 0)%nat as Hs by (simpl in Hd; congruence). destruct s; [|done].
    apply (f_equal rune_of) in Hd. simpl in Hd.
    apply andb_true_iff in E4 as [Eb Ec].
    assert (128 <= byte_val b <= 191 /\ 128 <= byte_val c <= 191) as [Hb Hc].
    { destruct (byte_val a =? 224), (byte_val a =? 237); bool_prop; lia. }
    assert (byte_val a = 226 /\ byte_val b = 128) as [Ha Hb'] by lia.
    assert (byte_val c = 168 /\ r = 8232 \/ byte_val c = 169 /\ r = 8233) as Hc' by lia.
    rewrite <- (byte_of_val a), <- (byte_of_val b), <- (byte_of_val c), Ha, Hb'.
    destruct Hc' as [[-> ->]|[-> ->]]; vm_compute; reflexivity.
  - destruct s as [|d s]; [done|]. destruct ((240 <=? byte_val a) && _) eqn:E4; [|done].
    revert Hd. match goal with |- (if ?c then Some _ else Some _) = _ -> _ => destruct c eqn:E5 end; [|intros Hd%(f_equal rune_of); simpl in Hd; lia].
    intros Hd%(f_equal rune_of). simpl in Hd.
    apply andb_true_iff in E5 as [[Eb Ec]%andb_true_iff Ed]. exfalso.
    assert (128 <= byte_val b) by (destruct (byte_val a =? 240); bool_prop; lia).
    destruct (byte_val a =? 240) eqn:E6; bool_prop; lia.
Qed.

(** One of the two-character escapes. *)
Ltac short_escape r Hesc k := let E := fresh "E" in
  match goal with |- context [if r =? ?n then _ else _] => destruct (r =? n) eqn:E end;
  [apply Z.eqb_eq in E; rewrite append_assoc; cbn [String.append]; apply (Hesc k _ eq_refl _ eq_refl); [symmetry; exact E|lia]|].

(** One character, escaped or not, is read back. *)
Lemma parse_escape_rune u fuel acc t :
  valid_rune u -> parse_string (S fuel) acc (escape_rune u ++s t) = parse_string fuel (acc ++s u.1.2) t.
Proof.
  intros Hu. pose proof Hu as [Hok Hd]. destruct u as [[r b] ok]. simpl in Hok. subst ok.
  pose proof (rune_low_bytes _ Hu) as Hlow. pose proof (separator_bytes _ Hu) as Hsep. cbn [fst snd] in *.
  unfold escape_rune. cbn [negb].
  assert (Hesc : forall k z, byte_val k = z -> forall x, x = byte_of r ->
    (if (z =? 34) || (z =? 92) || (z =? 47) then byte_of z = x
     else if z =? 98 then 8 = r else if z =? 102 then 12 = r else if z =? 110 then 10 = r
     else if z =? 114 then 13 = r else if z =? 116 then 9 = r else False) -> r < 128 ->
    parse_string (S fuel) acc (bs ++s String k t) = parse_string fuel (acc ++s b) t).
  { intros k z Hk x -> Hz Hr. destruct (Hlow Hr) as (c & -> & Hc). cbn [bs String.append parse_string].
    change (byte_val (ascii_of_nat 92) =? 34) with false. change (byte_val (ascii_of_nat 92) <? 32) with false.
    change (byte_val (ascii_of_nat 92) =? 92) with true. cbv iota beta. rewrite Hk. rewrite <- (byte_of_val c), Hc.
    destruct ((z =? 34) || (z =? 92) || (z =? 47)); [by rewrite Hz|].
    repeat (match type of Hz with context [if ?g then _ else _] => destruct g; [by rewrite Hz|] end). done. }
  destruct ((r =? 34) || (r =? 92)) eqn:E1.
  { assert (r = 34 \/ r = 92) as Hr by (apply orb_true_iff in E1 as [E1|E1]; bool_prop; lia).
    destruct (Hlow ltac:(lia)) as (c & -> & Hc). rewrite append_assoc. cbn [String.append].
    apply (Hesc c r Hc _ eq_refl); [|lia]. destruct Hr as [->| ->]; reflexivity. }
  short_escape r Hesc "b"%char. short_escape r Hesc "f"%char. short_escape r Hesc "n"%char. short_escape r Hesc "r"%char. short_escape r Hesc "t"%char.
  destruct ((r <? 32) || (r =? 60) || (r =? 62) || (r =? 38) || (r =? 8232) || (r =? 8233)) eqn:E7.
  { assert (0 <= r /\ (r < 128 \/ r = 8232 \/ r = 8233)) as [Hr0 Hr].
    { split.
      - destruct (Z.lt_ge_cases r 128) as [Hl|]; [|lia]. destruct (Hlow Hl) as (c & _ & <-). apply byte_val_range.
      - repeat apply orb_true_iff in E7 as [E7|E7]; bool_prop; lia. }
    rewrite !append_assoc. cbn [bs String.append parse_string].
    change (byte_val (ascii_of_nat 92) =? 34) with false. change (byte_val (ascii_of_nat 92) <? 32) with false.
    change (byte_val (ascii_of_nat 92) =? 92) with true. cbv iota beta zeta.
    change ((byte_val "u"%char =? 34) || (byte_val "u"%char =? 92) || (byte_val "u"%char =? 47)) with false.
    change (byte_val "u"%char =? 98) with false. change (byte_val "u"%char =? 102) with false.
    change (byte_val "u"%char =? 110) with false. change (byte_val "u"%char =? 114) with false.
    change (byte_val "u"%char =? 116) with false. change (byte_val "u"%char =? 117) with true. cbv iota.
    rewrite unicode_escape_hex4 by lia. do 2 f_equal. destruct Hr as [Hr|Hr]; [|by rewrite Hsep].
    destruct (Hlow Hr) as (c & -> & Hc). unfold encode_rune. rewrite (proj2 (Z.ltb_lt _ _) Hr), <- Hc. by rewrite byte_of_val. }
  apply orb_false_iff in E1 as [E34%Z.eqb_neq E92%Z.eqb_neq].
  repeat match type of E7 with (_ || _) = false => apply orb_false_iff in E7 as [E7 _] end. apply Z.ltb_ge in E7.
  specialize (Hd t). destruct b as [|a b]; [by apply Utf8.decode_rune_width in Hd as [Hw _]; simpl in Hw; lia|].
  assert (32 <= byte_val a /\ byte_val a <> 34 /\ byte_val a <> 92) as (Ha1 & Ha2 & Ha3).
  { destruct (Z.lt_ge_cases (byte_val a) 128) as [Hl|]; [|lia]. cbn [String.append Utf8.decode_rune] in Hd.
    rewrite (proj2 (Z.ltb_lt _ _) Hl) in Hd. injection Hd as Hv _. lia. }
  cbn [String.append parse_string]. cbn [String.append] in Hd. rewrite (proj2 (Z.eqb_neq _ 34)), (proj2 (Z.ltb_ge _ 32)), (proj2 (Z.eqb_neq _ 92)) by done.
  rewrite Hd. change (String a (b ++s t)) with (String a b ++s t). by rewrite str_take_append, str_drop_append.
Qed.

Lemma escape_cons s r w :
  Utf8.decode_rune s = Some (r, w, true) -> escape s = escape_rune (r, Utf8.str_take w s, true) ++s escape (Utf8.str_drop w s).
Proof. intros E. unfold escape. by rewrite (runes_step _ _ _ _ E). Qed.

Lemma escape_rune_nonempty u : valid_rune u -> (1 <= String.length (escape_rune u))%nat.
Proof.
  intros [Hok Hd]. destruct u as [[r b] ok]. simpl in *. subst ok. specialize (Hd EmptyString).
  apply Utf8.decode_rune_width in Hd as [Hw _]. unfold bs. repeat split_match; simpl; lia.
Qed.

(** A quoted string is read back, whatever follows. *)
Lemma parse_escaped s : Utf8.valid s = true -> forall fuel acc rest, (String.length (escape s) < fuel)%nat ->
  parse_string fuel acc (escape s ++s dq ++s rest) = Some (acc ++s s, rest).
Proof.
  revert s. apply (valid_ind (fun s => forall fuel acc rest, (String.length (escape s) < fuel)%nat ->
    parse_string fuel acc (escape s ++s dq ++s rest) = Some (acc ++s s, rest))).
  - intros [|fuel] acc rest Hf; [simpl in Hf; lia|]. simpl. by rewrite append_nil_r.
  - intros s r w E _ IH fuel acc rest Hf. pose proof (decode_rune_local _ _ _ E) as Hv.
    rewrite (escape_cons _ _ _ E) in *. rewrite length_append in Hf. pose proof (escape_rune_nonempty _ Hv).
    destruct fuel as [|fuel]; [lia|]. rewrite append_assoc, parse_escape_rune by done. cbn [fst snd].
    rewrite IH by lia. by rewrite append_assoc, Utf8.take_drop.
Qed.

Lemma parse_value_str f s v rest :
  skip_ws s = dq ++s escape v ++s dq ++s rest -> Utf8.valid v = true -> parse_value (S f) s = Some (VStr v, rest).
Proof.
  intros E Hv. cbn [parse_value]. rewrite E. cbn [dq String.append].
  change (byte_val (ascii_of_nat 34) =? 34) with true. cbv iota beta.
  change (String (ascii_of_nat 34) rest) with (dq ++s rest). rewrite parse_escaped; [done..|].
  rewrite !length_append. lia.
Qed.

(** One member of an object whose value is a string. *)
Lemma parse_member s key s3 v rest :
  skip_ws s = dq ++s escape key ++s dq ++s ":" ++s s3 -> skip_ws s3 = dq ++s escape v ++s dq ++s rest ->
  Utf8.valid key = true -> Utf8.valid v = true ->
  exists raw, forall f, parse_members (S (S f)) s =
    match skip_ws rest with
    | String "," r' => match parse_members (S f) r' with Some (l, r'') => Some ((key, raw, VStr v) :: l, r'') | None => None end
    | String "}" r' => Some ([(key, raw, VStr v)], r')
    | _ => None
    end.
Proof.
  intros E E3 Hk Hv. exists (text_before (skip_ws s3) rest). intros f. set (g := S f) at 1. cbn [parse_members]. rewrite E. cbn [dq String.append].
  change (byte_val (ascii_of_nat 34) =? 34) with true. cbv iota beta.
  change (String (ascii_of_nat 34) (String ":" s3)) with (dq ++s ":" ++s s3).
  rewrite parse_escaped; [|done|rewrite !length_append; lia]. cbn [String.append skip_ws].
  change (is_ws ":") with false. cbv iota beta. unfold g. by rewrite (parse_value_str f s3 v rest) by done.
Qed.

(** An object and nothing after it, read with enough fuel for its members. *)
Lemma parse_object body l n :
  (n <= 3 * String.length body)%nat ->
  match skip_ws body with String "}" _ => False | _ => True end ->
  (forall f, exists r, parse_members (n + f) body = Some (l, r) /\ is_empty (skip_ws r) = true) ->
  parse ("{" ++s body) = Some (VObj l).
Proof.
  intros Hn Hb Hm. unfold parse, parse_fuel. cbn [String.append String.length].
  replace (3 * S (String.length body) + 3)%nat with (S (n + (3 * String.length body + 5 - n))) by lia.
  destruct (Hm (3 * String.length body + 5 - n)%nat) as (r & E & Hr).
  cbn [parse_value skip_ws]. change (is_ws "{") with false. cbv iota beta.
  change (byte_val "{" =? 34) with false. change (byte_val "{" =? 91) with false. change (byte_val "{" =? 123) with true. cbv iota beta.
  rewrite E. destruct (skip_ws body) as [|c t]; [by rewrite Hr|].
  destruct c as [[] [] [] [] [] [] [] []]; cbv iota in Hb |- *; solve [by rewrite Hr|done].
Qed.

(** ** Every value

    What reading gives of a value written: the same tree, each member of an object with its
    own text.  [plain]: the strings are valid UTF-8, the numbers integers, and there is no
    raw text. *)

Fixpoint tree (j : json) : jval :=
  match j with
  | JNull | JRaw _ => VNull
  | JBool b => VBool b
  | JNum lit => VNum lit
  | JStr s => VStr s
  | JArr l => VArr (map tree l)
  | JObj l => VObj (map (fun m => (m.1, encode m.2, tree m.2)) l)
  end.

Inductive plain : json -> Prop :=
| plain_null : plain JNull
| plain_bool b : plain (JBool b)
| plain_int z : plain (JInt z)
| plain_str s : Utf8.valid s = true -> plain (JStr s)
| plain_arr l : Forall plain l -> plain (JArr l)
| plain_obj l : Forall (fun m => Utf8.valid m.1 = true /\ plain m.2) l -> plain (JObj l).

Lemma plain_nested (P : json -> Prop) :
  P JNull -> (forall b, P (JBool b)) -> (forall z, P (JInt z)) -> (forall s, Utf8.valid s = true -> P (JStr s)) ->
  (forall l, Forall P l -> Forall plain l -> P (JArr l)) ->
  (forall l, Forall (fun m => Utf8.valid m.1 = true /\ P m.2) l -> Forall (fun m => Utf8.valid m.1 = true /\ plain m.2) l -> P (JObj l)) ->
  forall j, plain j -> P j.
Proof.
  intros Hn Hb Hi Hs Ha Ho. fix IH 2. intros j [|b|z|s Hv|l Hl|l Hl]; [exact Hn|apply Hb|apply Hi|by apply Hs|apply Ha|apply Ho]; try exact Hl.
  - induction Hl as [|x l Hx Hl IHl]; constructor; [by apply IH|exact IHl].
  - induction Hl as [|x l [Hv Hx] Hl IHl]; constructor; [split; [exact Hv|by apply IH]|exact IHl].
Qed.

(** The first byte of a written value: not a blank, and no closing bracket. *)
Lemma encode_head j : plain j -> exists c t, encode j = String c t /\ is_ws c = false /\ c <> "]"%char /\ c <> "}"%char.
Proof.
  intros [|b|z|s Hv|l Hl|l Hl]; try (by eexists _, _; split; [reflexivity|vm_compute]).
  - by destruct b; eexists _, _; (split; [reflexivity|vm_compute]).
  - destruct (itoa_head z) as (c & t & E & Hc). exists c, t. split; [exact E|].
    destruct Hc as [Hc| ->]; [|by vm_compute]. apply andb_true_iff in Hc as [H1%Z.leb_le H2%Z.leb_le]. unfold is_ws.
    assert (byte_val "]" = 93 /\ byte_val "}" = 125) as [] by done.
    split_and!; [rewrite !orb_false_iff, !Z.eqb_neq; lia|intros ->; lia..].
Qed.

(** The two places where a closing bracket is looked for. *)
Lemma not_closing {A} c (x y : A) : c <> "]"%char -> match c with "]"%char => x | _ => y end = y.
Proof. intros Hc. destruct c as [[] [] [] [] [] [] [] []]; try done; by destruct Hc. Qed.
Lemma not_closing_obj {A} c (x y : A) : c <> "}"%char -> match c with "}"%char => x | _ => y end = y.
Proof. intros Hc. destruct c as [[] [] [] [] [] [] [] []]; try done; by destruct Hc. Qed.

Lemma skip_ws_head c t : is_ws c = false -> skip_ws (String c t) = String c t.
Proof. intros Hc. cbn [skip_ws]. by rewrite Hc. Qed.

(** [j] is read back with fuel for every byte, whatever follows it. *)
Definition reads (j : json) : Prop := forall fuel rest,
  (2 * String.length (encode j) < fuel)%nat -> stops rest -> parse_value fuel (encode j ++s rest) = Some (tree j, rest).

Lemma text_before_append s rest : text_before (s ++s rest) rest = s.
Proof.
  unfold text_before. rewrite length_append. replace (_ - _)%nat with (String.length s) by lia. apply str_take_append.
Qed.

Lemma reads_int z : reads (JInt z).
Proof.
  intros [|fuel] rest Hf Hr; [lia|]. destruct (itoa_head z) as (c & t & E & Hc). cbn [tree JInt encode].
  pose proof (parse_number_itoa z rest Hr) as Hn. rewrite E in *. cbn [String.append] in *. cbn [parse_value].
  assert (is_ws c = false /\ (byte_val c =? 34) = false /\ (byte_val c =? 91) = false /\ (byte_val c =? 123) = false /\
          (byte_val c =? 110) = false /\ (byte_val c =? 116) = false /\ (byte_val c =? 102) = false) as (Hw & E1 & E2 & E3 & E4 & E5 & E6).
  { destruct Hc as [Hc| ->]; [|by vm_compute]. apply andb_true_iff in Hc as [H1%Z.leb_le H2%Z.leb_le]. unfold is_ws.
    rewrite !orb_false_iff, !Z.eqb_neq. lia. }
  rewrite (skip_ws_head _ _ Hw), E1, E2, E3, E4, E5, E6. by rewrite Hn.
Qed.

Lemma reads_str s : Utf8.valid s = true -> reads (JStr s).
Proof.
  intros Hv [|fuel] rest Hf Hr; [lia|]. cbn [tree encode]. unfold quoted. rewrite !append_assoc.
  apply parse_value_str; [done|exact Hv].
Qed.

(** The elements of an array after its bracket. *)
Lemma reads_elems x l fuel rest :
  Forall reads (x :: l) -> Forall plain (x :: l) ->
  (2 * String.length (str_join "," (map encode (x :: l))) + 1 < fuel)%nat ->
  parse_elems fuel (str_join "," (map encode (x :: l)) ++s "]" ++s rest) = Some (map tree (x :: l), rest).
Proof.
  revert x fuel. induction l as [|y l IH]; intros x [|fuel] Hx Hc Hf; try lia; inversion_clear Hx as [|? ? Hrx Hrl].
  - cbn [map str_join] in *. cbn [parse_elems]. rewrite Hrx; [|lia|by right; right; left]. done.
  - change (str_join "," (map encode (x :: y :: l))) with (encode x ++s "," ++s str_join "," (map encode (y :: l))) in *.
    set (text := str_join "," (map encode (y :: l))) in *. rewrite !length_append in Hf. rewrite !append_assoc. cbn [parse_elems].
    rewrite Hrx; [|lia|by right; left]. cbn [String.append]. rewrite skip_ws_head by done. cbv iota beta.
    inversion_clear Hc. cbn [String.length] in Hf. subst text. rewrite IH by (done || lia). done.
Qed.

(** The members of an object after its brace. *)
Definition member_text (m : string * json) : string := quoted (escape m.1) ++s ":" ++s encode m.2.
Definition member_tree (m : string * json) : string * string * jval := (m.1, encode m.2, tree m.2).

Lemma reads_member m fuel rest :
  Utf8.valid m.1 = true -> reads m.2 -> plain m.2 -> stops rest -> (2 * String.length (encode m.2) < fuel)%nat ->
  parse_members (S fuel) (member_text m ++s rest) =
    match skip_ws rest with
    | String "," r' => match parse_members fuel r' with Some (l, r'') => Some (member_tree m :: l, r'') | None => None end
    | String "}" r' => Some ([member_tree m], r')
    | _ => None
    end.
Proof.
  intros Hk Hr Hc Hs Hf. unfold member_text, quoted. rewrite !append_assoc. cbn [dq String.append parse_members].
  rewrite skip_ws_head by done. change (byte_val (ascii_of_nat 34) =? 34) with true. cbv iota beta.
  change (String (ascii_of_nat 34) (String ":" (encode m.2 ++s rest))) with (dq ++s ":" ++s encode m.2 ++s rest).
  rewrite parse_escaped; [|done|rewrite !length_append; lia]. cbn [String.append]. rewrite skip_ws_head by done. cbv iota beta.
  rewrite Hr by done. destruct (encode_head _ Hc) as (c & t & E & Hw & _).
  replace (skip_ws (encode m.2 ++s rest)) with (encode m.2 ++s rest) by (rewrite E; cbn [String.append]; by rewrite skip_ws_head).
  by rewrite text_before_append.
Qed.

Lemma reads_members m l fuel rest :
  Forall (fun m => Utf8.valid m.1 = true /\ reads m.2) (m :: l) -> Forall (fun m => Utf8.valid m.1 = true /\ plain m.2) (m :: l) ->
  (2 * String.length (str_join "," (map member_text (m :: l))) + 1 < fuel)%nat ->
  parse_members fuel (str_join "," (map member_text (m :: l)) ++s "}" ++s rest) = Some (map member_tree (m :: l), rest).
Proof.
  revert m fuel. induction l as [|n l IH]; intros m [|fuel] Hx Hc Hf; try lia;
    inversion_clear Hx as [|? ? [Hk Hr] Hrl]; inversion_clear Hc as [|? ? [_ Hm] Hcl].
  - cbn [map str_join] in *. rewrite reads_member; [done|done|done|done|by right; right; right|].
    unfold member_text in Hf. rewrite !length_append in Hf. lia.
  - change (str_join "," (map member_text (m :: n :: l))) with (member_text m ++s "," ++s str_join "," (map member_text (n :: l))) in *.
    set (text := str_join "," (map member_text (n :: l))) in *. rewrite !append_assoc. rewrite !length_append in Hf. cbn [String.length] in Hf.
    rewrite reads_member; [|done|done|done|by right; left|unfold member_text in Hf; rewrite !length_append in Hf; lia].
    cbn [String.append]. rewrite skip_ws_head by done. cbv iota beta. subst text. rewrite IH by (done || lia). done.
Qed.

Lemma reads_all j : plain j -> reads j.
Proof.
  apply plain_nested; clear j.
  - intros [|fuel] rest Hf Hr; [lia|]. done.
  - intros b [|fuel] rest Hf Hr; [lia|]. by destruct b.
  - apply reads_int.
  - apply reads_str.
  - intros l Hl Hc [|fuel] rest Hf Hr; [lia|]. cbn [tree encode] in *. rewrite !append_assoc. cbn [String.append parse_value].
    rewrite skip_ws_head by done. change (byte_val "[" =? 34) with false. change (byte_val "[" =? 91) with true. cbv iota beta.
    destruct l as [|x l]; [done|]. rewrite !length_append in Hf. cbn [String.length] in Hf.
    pose proof (reads_elems x l fuel rest Hl Hc ltac:(lia)) as E. inversion_clear Hc as [|? ? Hx _].
    destruct (encode_head _ Hx) as (c & t & Ex & Hw & Hb & _). 
    assert (exists t', str_join "," (map encode (x :: l)) ++s "]" ++s rest = String c t') as [t' Et]
      by (destruct l; cbn [map str_join]; rewrite Ex; by eexists).
    cbn [String.append] in Et, E |- *. rewrite Et in E |- *. rewrite skip_ws_head by done. cbv iota beta. rewrite not_closing by done. by rewrite E.
  - intros l Hl Hc [|fuel] rest Hf Hr; [lia|]. cbn [tree].
    change (encode (JObj l)) with ("{" ++s str_join "," (map member_text l) ++s "}") in *.
    rewrite !append_assoc. cbn [String.append parse_value]. rewrite skip_ws_head by done. change (byte_val "{" =? 34) with false. change (byte_val "{" =? 91) with false.
    change (byte_val "{" =? 123) with true. cbv iota beta.
    destruct l as [|m l]; [done|]. rewrite !length_append in Hf. cbn [String.length] in Hf.
    pose proof (reads_members m l fuel rest Hl Hc ltac:(lia)) as E.
    assert (exists t', str_join "," (map member_text (m :: l)) ++s "}" ++s rest = String (ascii_of_nat 34) t') as [t' Et]
      by (destruct l; cbn [map str_join]; by eexists).
    cbn [String.append] in Et, E |- *. rewrite Et in E |- *. rewrite skip_ws_head by done. cbv iota beta. rewrite not_closing_obj by done. by rewrite E.
Qed.

(** What [json.Marshal] writes, [json.Unmarshal] reads back, a trailing newline or not. *)
Lemma parse_encode j rest : plain j -> stops rest -> is_empty (skip_ws rest) = true -> parse (encode j ++s rest) = Some (tree j).
Proof.
  intros Hc Hs Hr. unfold parse, parse_fuel. rewrite (reads_all j Hc); [by rewrite Hr| |done]. rewrite length_append. lia.
Qed.

Lemma parse_encoded j : plain j -> parse (encode j) = Some (tree j).
Proof. intros Hc. pose proof (parse_encode j EmptyString Hc I eq_refl) as E. by rewrite append_nil_r in E. Qed.
