(* ===== verification/Sha256.v ===== *)
(** * SHA-256 and HMAC-SHA256 (Go's crypto/sha256 and crypto/hmac, FIPS 180-4, RFC 2104)

    The code hashes every stored token with SHA-256 and signs introduction payloads with
    HMAC-SHA256; both are executable here, on 32-bit words in [Z], and checked against
    published vectors. *)

From S2P Require Import Prelude GoStrings.

Open Scope Z_scope.

Module Sha256.

Definition w32 (z : Z) : Z := z mod 2 ^ 32.
Definition rotr (n x : Z) : Z := Z.lor (Z.shiftr x n) (w32 (Z.shiftl x (32 - n))).
Definition add32 (a b : Z) : Z := w32 (a + b).

Definition ch (x y z : Z) : Z := Z.lxor (Z.land x y) (Z.land (Z.lxor x (2 ^ 32 - 1)) z).
Definition maj (x y z : Z) : Z := Z.lxor (Z.lxor (Z.land x y) (Z.land x z)) (Z.land y z).
Definition bsig0 (x : Z) : Z := Z.lxor (Z.lxor (rotr 2 x) (rotr 13 x)) (rotr 22 x).
Definition bsig1 (x : Z) : Z := Z.lxor (Z.lxor (rotr 6 x) (rotr 11 x)) (rotr 25 x).
Definition ssig0 (x : Z) : Z := Z.lxor (Z.lxor (rotr 7 x) (rotr 18 x)) (Z.shiftr x 3).
Definition ssig1 (x : Z) : Z := Z.lxor (Z.lxor (rotr 17 x) (rotr 19 x)) (Z.shiftr x 10).

(** FIPS 180-4 takes its constants from the primes: the round constants are the first 32 bits
    of the fractional parts of their cube roots, the initial state those of the square roots. *)
Definition is_prime (n : nat) : bool :=
  forallb (fun d => negb (Nat.eqb (Nat.modulo n d) 0)) (List.seq 2 (n - 2)).
Definition primes (n : nat) : list Z := Z.of_nat <$> firstn n (List.filter is_prime (List.seq 2 310)).

(** The largest [r < 2 ^ bits] with [r ^ e <= x], from the top bit down. *)
Fixpoint root (bits : nat) (e x r : Z) : Z :=
  match bits with
  | O => r
  | S b => let r' := r + 2 ^ Z.of_nat b in root b e x (if r' ^ e <=? x then r' else r)
  end.

Definition frac_root (e p : Z) : Z := w32 (root 40 e (p * 2 ^ (32 * e)) 0).

Definition K : list Z := Eval vm_compute in frac_root 3 <$> primes 64.

(** A digest in progress: the eight words of the state. *)
Record st := St { ha : Z; hb : Z; hc : Z; hd : Z; he : Z; hf : Z; hg : Z; hh : Z }.

Definition H0 : st := Eval vm_compute in
  match frac_root 2 <$> primes 8 with
  | [a; b; c; d; e; f; g; h] => St a b c d e f g h
  | _ => St 0 0 0 0 0 0 0 0
  end.

Definition round (s : st) (kw : Z * Z) : st :=
  let t1 := w32 (hh s + bsig1 (he s) + ch (he s) (hf s) (hg s) + kw.1 + kw.2) in
  let t2 := w32 (bsig0 (ha s) + maj (ha s) (hb s) (hc s)) in
  St (add32 t1 t2) (ha s) (hb s) (hc s) (add32 (hd s) t1) (he s) (hf s) (hg s).

(** The message schedule, latest word first. *)
Fixpoint schedule (n : nat) (rev_w : list Z) : list Z :=
  match n with
  | O => rev_w
  | S n' =>
      let g i := nth i rev_w 0 in
      schedule n' (w32 (ssig1 (g 1%nat) + g 6%nat + ssig0 (g 14%nat) + g 15%nat) :: rev_w)
  end.

Definition compress (s : st) (block : list Z) : st :=
  let w := rev (schedule 48 (rev block)) in
  let s' := fold_left round (combine K w) s in
  St (add32 (ha s) (ha s')) (add32 (hb s) (hb s')) (add32 (hc s) (hc s')) (add32 (hd s) (hd s'))
     (add32 (he s) (he s')) (add32 (hf s) (hf s')) (add32 (hg s) (hg s')) (add32 (hh s) (hh s')).

(** Big-endian words of a byte list. *)
Fixpoint words (l : list Z) : list Z :=
  match l with
  | a :: b :: c :: d :: l' => (a * 2 ^ 24 + b * 2 ^ 16 + c * 2 ^ 8 + d) :: words l'
  | _ => []
  end.

Definition be_bytes (n : nat) (z : Z) : list Z :=
  rev ((fun i => (z / 2 ^ (8 * Z.of_nat i)) mod 256) <$> seq 0 n).

(** The padding: 0x80, zeros to 56 modulo 64, the bit length on eight bytes. *)
Definition pad (l : list Z) : list Z :=
  let n := length l in
  l ++ [128] ++ repeat 0 (Z.to_nat ((55 - Z.of_nat n) mod 64)) ++ be_bytes 8 (8 * Z.of_nat n).

Fixpoint blocks (fuel : nat) (s : st) (l : list Z) : st :=
  match fuel with
  | O => s
  | S fuel' => match l with
               | [] => s
               | _ => blocks fuel' (compress s (words (take 64 l))) (drop 64 l)
               end
  end.

Definition digest_bytes (s : st) : list Z :=
  mjoin (be_bytes 4 <$> [ha s; hb s; hc s; hd s; he s; hf s; hg s; hh s]).

Definition sum_bytes (l : list Z) : list Z :=
  let p := pad l in digest_bytes (blocks (length p) H0 p).

Definition vals (s : string) : list Z := byte_val <$> bytes_of s.
Definition str_of_vals (l : list Z) : string := of_bytes (byte_of <$> l).

(** [sha256.Sum256] *)
Definition sum (s : string) : string := str_of_vals (sum_bytes (vals s)).

(** [hmac.New(sha256.New, key)], [Write(msg)], [Sum(nil)] *)
Definition hmac (key msg : string) : string :=
  let k0 := vals key in
  let k1 := if (64 <? Z.of_nat (length k0)) then sum_bytes k0 else k0 in
  let k := k1 ++ repeat 0 (64 - length k1) in
  str_of_vals
    (sum_bytes ((Z.lxor 92 <$> k) ++ sum_bytes ((Z.lxor 54 <$> k) ++ vals msg))).

Example sha256_abc :
  Hex.encode (sum "abc") = "ba7816bf8f01cfea414140de5dae2223b00361a396177a9cb410ff61f20015ad".
Proof. by vm_compute. Qed.

Example sha256_empty :
  Hex.encode (sum EmptyString) = "e3b0c44298fc1c149afbf4c8996fb92427ae41e4649b934ca495991b7852b855".
Proof. by vm_compute. Qed.

(** RFC 4231, test case 2. *)
Example hmac_jefe :
  Hex.encode (hmac "Jefe" "what do ya want for nothing?")
  = "5bdcc146bf60754e6a042426089575c75a003f089d2739839dec58b964ec3843".
Proof. by vm_compute. Qed.

Lemma length_of_bytes l : String.length (of_bytes l) = length l.
Proof. induction l as [|c l IH]; simpl; [done|]. f_equal. exact IH. Qed.

(** Every digest is 32 bytes. *)
Lemma length_sum s : String.length (sum s) = 32%nat.
Proof. unfold sum, str_of_vals. by rewrite length_of_bytes, length_fmap. Qed.

Lemma length_hmac k m : String.length (hmac k m) = 32%nat.
Proof. unfold hmac, str_of_vals. by rewrite length_of_bytes, length_fmap. Qed.

End Sha256.
