(* ===== verification/Float.v ===== *)
(** * IEEE 754 numbers (Go's [float64] and [float32])

    [float64] is the standard library's executable [spec_float] at precision 53 and
    [float32] at precision 24; the code converts embeddings to little-endian float32 blobs
    ([Float64ToBlob] in src/internal/store/repo/snapshots.go) and adds reciprocals in
    [rrfScore] (src/internal/service/search.go). *)

From S2P Require Import Prelude GoStrings.
From Stdlib Require Export SpecFloat.

Open Scope Z_scope.

Abbreviation float64 := spec_float.

Definition f64_add := SFadd 53 1024.
Definition f64_div := SFdiv 53 1024.
Definition f64_ltb := SFltb.
Definition f64_zero : float64 := S754_zero false.

(** [float64(n)] *)
Definition f64_of_Z (n : Z) : float64 := binary_normalize 53 1024 n 0 false.

(** [float32(v)] *)
Definition f32_of_f64 (v : float64) : spec_float :=
  match v with
  | S754_finite s m e => binary_round 24 128 s m e
  | _ => v
  end.

(** [math.Float32bits] *)
Definition f32_bits (v : spec_float) : Z :=
  let sign (s : bool) := if s then 2 ^ 31 else 0 in
  match v with
  | S754_zero s => sign s
  | S754_infinity s => sign s + 255 * 2 ^ 23
  | S754_nan => 511 * 2 ^ 22
  | S754_finite s m e =>
      if Z.pos m <? 2 ^ 23 then sign s + Z.pos m
      else sign s + (e + 150) * 2 ^ 23 + (Z.pos m - 2 ^ 23)
  end.

(** [binary.LittleEndian.PutUint32] *)
Definition le32 (z : Z) : string :=
  String (byte_of (z mod 256)) (String (byte_of (z / 2 ^ 8 mod 256))
    (String (byte_of (z / 2 ^ 16 mod 256)) (String (byte_of (z / 2 ^ 24 mod 256)) EmptyString))).

(** [Float64ToBlob] *)
Fixpoint Float64ToBlob (vec : list float64) : string :=
  match vec with
  | [] => EmptyString
  | v :: vec' => le32 (f32_bits (f32_of_f64 v)) ++s Float64ToBlob vec'
  end.

(** 1.0, -2.5 and 0.1 as float32. *)
Example blob_ex :
  Hex.encode (Float64ToBlob [f64_of_Z 1; f64_div (f64_of_Z (-5)) (f64_of_Z 2); f64_div (f64_of_Z 1) (f64_of_Z 10)])
  = "0000803f000020c0cdcccc3d".
Proof. by vm_compute. Qed.

(** Reading the words back. *)
Fixpoint blob_words (s : string) : list Z :=
  match s with
  | String a (String b (String c (String d s'))) =>
      (byte_val a + 2 ^ 8 * byte_val b + 2 ^ 16 * byte_val c + 2 ^ 24 * byte_val d) :: blob_words s'
  | _ => []
  end.

Lemma le32_word z : 0 <= z < 2 ^ 32 ->
  z mod 256 + 2 ^ 8 * (z / 2 ^ 8 mod 256) + 2 ^ 16 * (z / 2 ^ 16 mod 256) + 2 ^ 24 * (z / 2 ^ 24 mod 256) = z.
Proof.
  intros Hz.
  pose proof (Z.div_mod z 256). pose proof (Z.div_mod (z / 256) 256).
  pose proof (Z.div_mod (z / 256 / 256) 256). pose proof (Z.mod_pos_bound (z / 256 / 256 / 256) 256).
  replace (z / 2 ^ 8) with (z / 256) by done.
  replace (z / 2 ^ 16) with (z / 256 / 256) by (by rewrite Z.div_div).
  replace (z / 2 ^ 24) with (z / 256 / 256 / 256) by (by rewrite !Z.div_div).
  rewrite (Z.mod_small (z / 256 / 256 / 256) 256); [lia|].
  rewrite !Z.div_div by lia. split; [apply Z.div_pos; lia|apply Z.div_lt_upper_bound; lia].
Qed.

Lemma blob_words_le32 z s : 0 <= z < 2 ^ 32 -> blob_words (le32 z ++s s) = z :: blob_words s.
Proof.
  intros Hz. unfold le32. simpl String.append. cbn [blob_words].
  rewrite !byte_val_of by (apply Z.mod_pos_bound; lia). by rewrite le32_word.
Qed.

Lemma length_le32 z : String.length (le32 z) = 4%nat.
Proof. done. Qed.

(** The blob is four bytes per component. *)
Lemma length_blob vec : String.length (Float64ToBlob vec) = (4 * length vec)%nat.
Proof. induction vec as [|v vec IH]; simpl; [done|]. rewrite IH. lia. Qed.

(** Words of a float32 fit in 32 bits. *)
Definition f32_ok (v : spec_float) : Prop := valid_binary 24 128 v = true.

Lemma f32_bits_range v : f32_ok v -> 0 <= f32_bits v < 2 ^ 32.
Proof.
  destruct v as [s|s| |s m e]; unfold f32_ok, f32_bits; simpl; intros Hv; try (destruct s; lia); try lia.
  unfold bounded, canonical_mantissa, fexp, emin in Hv. apply andb_true_iff in Hv as [Hc He].
  apply Z.leb_le in He. apply Zeq_bool_eq in Hc.
  assert (Z.pos m < 2 ^ Z.pos (digits2_pos m)) as Hd.
  { clear. induction m as [m IH|m IH|]; simpl digits2_pos; rewrite ?Pos2Z.inj_succ, ?Z.pow_succ_r; lia. }
  destruct (Z.pos m <? 2 ^ 23) eqn:Em; bool_prop.
  - destruct s; lia.
  - assert (24 <= Z.pos (digits2_pos m)) as Hdig.
    { destruct (Z.le_gt_cases 24 (Z.pos (digits2_pos m))); [done|].
      assert (2 ^ Z.pos (digits2_pos m) <= 2 ^ 23) by (apply Z.pow_le_mono_r; lia). lia. }
    assert (Z.pos (digits2_pos m) = 24) as Ed by lia.
    rewrite Ed in Hd. assert (-149 <= e) by lia. destruct s; lia.
Qed.
