(* ===== verification/Runs.v ===== *)
(** * Reading a run backwards

    Inversion lemmas for the monad of World.v: from [m w = (Ok a, w')] what each step of [m]
    did.  [inv_run] applies them until every step of a handler is exposed; the proofs about
    handlers start with it. *)

From S2P Require Import Prelude RateLimit AdminStore Schema Statements Invariants World.

Open Scope Z_scope.

(** One more effect performed. *)
Definition tick (w : world) : world := set_tick (S (w_tick w)) w.

Lemma inserting_ok {A} (set_ : (list A -> list A) -> db -> db) ok r d d' n :
  inserting set_ ok r d = Some (d', n) -> ok = true /\ d' = set_ (fun t => t ++ [r]) d /\ n = 1%nat.
Proof. unfold inserting. destruct ok; [|done]. by intros [= <- <-]. Qed.

Section Runs.
Context `{Env, Engine}.

Lemma bind_ok {A B} (m : M A) (f : A -> M B) w b w' :
  (m ≫= f) w = (Ok b, w') -> exists a w1, m w = (Ok a, w1) /\ f a w1 = (Ok b, w').
Proof. unfold mbind, M_bind. destruct (m w) as [[a|e|p|] w1]; intros E; simplify_eq; eauto. Qed.

(** Forward: the run of a step whose result is known. *)
Lemma run_bind {A B} (m : M A) (f : A -> M B) w a w1 : m w = (Ok a, w1) -> (m ≫= f) w = f a w1.
Proof. intros E. unfold mbind, M_bind. by rewrite E. Qed.
Lemma run_try {A} (m : M A) w a w1 : m w = (Ok a, w1) -> try_ m w = (Ok (inr a), w1).
Proof. intros E. unfold try_. by rewrite E. Qed.
Lemma run_try_err {A} (m : M A) w e w1 : m w = (Err e, w1) -> try_ m w = (Ok (inl e), w1).
Proof. intros E. unfold try_. by rewrite E. Qed.

Lemma ignore_bind {A B} (m : M A) (f : A -> M B) w a w1 : m w = (Ok a, w1) -> ignore (m ≫= f) w = ignore (f a) w1.
Proof. intros E. unfold ignore, try_, mbind, M_bind. by rewrite E. Qed.

(** An error comes from one side or the other. *)
Lemma bind_err {A B} (m : M A) (f : A -> M B) w e w' :
  (m ≫= f) w = (Err e, w') ->
  m w = (Err e, w') \/ exists a w1, m w = (Ok a, w1) /\ f a w1 = (Err e, w').
Proof. unfold mbind, M_bind. destruct (m w) as [[a|e'|p|] w1]; intros E; simplify_eq; eauto. Qed.

Lemma ret_ok {A} (a b : A) w w' : (mret a : M A) w = (Ok b, w') -> b = a /\ w' = w.
Proof. by intros [= <- <-]. Qed.

Lemma ret_err {A} (a : A) w e w' : (mret a : M A) w = (Err e, w') -> False.
Proof. discriminate. Qed.

Lemma throw_ok {A} e w (b : A) w' : throw e w = (Ok b, w') -> False.
Proof. discriminate. Qed.

Lemma throw_err {A} e w e' w' : (throw e : M A) w = (Err e', w') -> e' = e /\ w' = w.
Proof. by intros [= <- <-]. Qed.

Lemma panic_ok {A} p w (b : A) w' : panic p w = (Ok b, w') -> False.
Proof. discriminate. Qed.

Lemma try_ok {A} (m : M A) w r w' :
  try_ m w = (Ok r, w') ->
  (exists a, r = inr a /\ m w = (Ok a, w')) \/ (exists e, r = inl e /\ m w = (Err e, w')).
Proof. unfold try_. destruct (m w) as [[a|e|p|] w1]; intros E; simplify_eq; eauto. Qed.

Lemma try_err {A} (m : M A) w e w' : try_ m w = (Err e, w') -> False.
Proof. unfold try_. by destruct (m w) as [[a|e'|p|] w1]. Qed.

Lemma wrap_ok {A} c (m : M A) w a w' : wrap c m w = (Ok a, w') -> m w = (Ok a, w').
Proof.
  intros (r & w1 & Hr & Hk)%bind_ok. apply try_ok in Hr as [(a' & -> & Hm)|(e & -> & Hm)].
  - apply ret_ok in Hk as [-> ->]. done.
  - by apply throw_ok in Hk.
Qed.

Lemma ignore_ok {A} (m : M A) w u w' :
  ignore m w = (Ok u, w') -> (exists a, m w = (Ok a, w')) \/ (exists e, m w = (Err e, w')).
Proof.
  intros (r & w1 & Hr & Hk)%bind_ok. apply ret_ok in Hk as [-> ->].
  apply try_ok in Hr as [(a' & -> & Hm)|(e & -> & Hm)]; eauto.
Qed.

Lemma scan_row_ok {A} (o : option A) w a w' : scan_row o w = (Ok a, w') -> o = Some a /\ w' = w.
Proof. destruct o; [by intros [= -> ->]|by intros ?%throw_ok]. Qed.

Lemma time_now_ok w t w' : time_now w = (Ok t, w') -> t = clock (w_tick w) /\ w' = tick w.
Proof. by intros [= <- <-]. Qed.

Lemma unix_now_ok w t w' : unix_now w = (Ok t, w') -> t = unix (clock (w_tick w)) /\ w' = tick w.
Proof. by intros [= <- <-]. Qed.

Lemma rand_read_ok n w b w' :
  rand_read n w = (Ok b, w') -> entropy (w_tick w) n = Some b /\ w' = tick w.
Proof.
  unfold rand_read, mbind, M_bind, next_tick. destruct (entropy (w_tick w) n); by intros [= -> <-].
Qed.

Lemma get_db_ok w d w' : get_db w = (Ok d, w') -> d = w_db w /\ w' = w.
Proof. by intros [= <- <-]. Qed.

Lemma sql_stmt_ok s w n w' :
  sql_stmt s w = (Ok n, w') -> exists d, exec_stmt s (w_db w) = Some (d, n) /\ w' = set_db d (tick w).
Proof.
  unfold sql_stmt. destruct (sql_fails _); [done|].
  destruct (exec_stmt s (w_db w)) as [[d n']|] eqn:E; [|done]. intros [= <- <-]. by exists d.
Qed.

Lemma sql_stmt_err s w e w' : sql_stmt s w = (Err e, w') -> w' = tick w.
Proof.
  unfold sql_stmt. destruct (sql_fails _); [by intros [= _ <-]|].
  destruct (exec_stmt s (w_db w)) as [[d n']|] eqn:E; by intros [= _ <-].
Qed.

Lemma sql_read_ok {A} (f : db -> A) w a w' :
  sql_read f w = (Ok a, w') -> a = f (w_db w) /\ w' = tick w.
Proof. unfold sql_read. destruct (sql_fails _); [done|]. by intros [= <- <-]. Qed.

Lemma sql_read_err {A} (f : db -> A) w e w' : sql_read f w = (Err e, w') -> e = ErrIO /\ w' = tick w.
Proof. unfold sql_read. destruct (sql_fails _); [|done]. by intros [= <- <-]. Qed.

Lemma with_conn_ok {A} (m : M A) w a w' :
  with_conn m w = (Ok a, w') ->
  w_conn w = true /\ exists w1, m (set_conn false w) = (Ok a, w1) /\ w' = set_conn true w1.
Proof.
  unfold with_conn. destruct (w_conn w); [|done].
  destruct (m (set_conn false w)) as [[a'|e|p|] w1]; simpl; intros E; simplify_eq; eauto.
Qed.

Lemma with_conn_err {A} (m : M A) w e w' :
  with_conn m w = (Err e, w') ->
  w_conn w = true /\ exists w1, m (set_conn false w) = (Err e, w1) /\ w' = set_conn true w1.
Proof.
  unfold with_conn. destruct (w_conn w); [|done].
  destruct (m (set_conn false w)) as [[a'|e'|p|] w1]; simpl; intros E; simplify_eq; eauto.
Qed.

Lemma set_conn_back w d : w_conn w = true -> set_conn true (set_db d (tick (set_conn false w))) = set_db d (tick w).
Proof. destruct w. simpl. by intros ->. Qed.

Lemma set_conn_same w : w_conn w = true -> set_conn true (tick (set_conn false w)) = tick w.
Proof. destruct w. simpl. by intros ->. Qed.

Lemma db_exec_ok s w n w' :
  db_exec s w = (Ok n, w') ->
  w_conn w = true /\ exists d, exec_stmt s (w_db w) = Some (d, n) /\ w' = set_db d (tick w).
Proof.
  intros (Hc & w1 & (d & E & ->)%sql_stmt_ok & ->)%with_conn_ok.
  split; [done|]. exists d. split; [done|by apply set_conn_back].
Qed.

Lemma db_exec_err s w e w' : db_exec s w = (Err e, w') -> w_conn w = true /\ w' = tick w.
Proof.
  intros (Hc & w1 & ->%sql_stmt_err & ->)%with_conn_err. split; [done|by apply set_conn_same].
Qed.

Lemma db_query_ok {A} (f : db -> A) w a w' :
  db_query f w = (Ok a, w') -> w_conn w = true /\ a = f (w_db w) /\ w' = tick w.
Proof.
  intros (Hc & w1 & (-> & ->)%sql_read_ok & ->)%with_conn_ok. by rewrite set_conn_same.
Qed.

Lemma db_query_err {A} (f : db -> A) w e w' :
  db_query f w = (Err e, w') -> w_conn w = true /\ w' = tick w.
Proof.
  intros (Hc & w1 & (_ & ->)%sql_read_err & ->)%with_conn_err. by rewrite set_conn_same.
Qed.

Lemma db_query_row_ok {A} (f : db -> option A) w a w' :
  db_query_row f w = (Ok a, w') -> w_conn w = true /\ f (w_db w) = Some a /\ w' = tick w.
Proof.
  intros (Hc & w1 & (o & w2 & (-> & ->)%sql_read_ok & [E ->]%scan_row_ok)%bind_ok & ->)%with_conn_ok.
  by rewrite set_conn_same.
Qed.

Lemma db_query_row_err {A} (f : db -> option A) w e w' :
  db_query_row f w = (Err e, w') ->
  w_conn w = true /\ w' = tick w /\ (e = ErrIO \/ e = ErrNoRows /\ f (w_db w) = None).
Proof.
  intros (Hc & w1 & [[-> ->]%sql_read_err|(o & w2 & (-> & ->)%sql_read_ok & Hs)]%bind_err & ->)%with_conn_err.
  - rewrite set_conn_same; auto.
  - simpl in Hs. destruct (f (w_db w)) as [a|]; [done|]. apply throw_err in Hs as [-> ->].
    rewrite set_conn_same; auto.
Qed.

(** A committed transaction is its body; anything else leaves the database as it was. *)
Lemma with_tx_ok {A} (body : M (tx_end A)) w a w' :
  with_tx body w = (Ok a, w') ->
  w_conn w = true /\ exists r w2, body (tick (set_conn false w)) = (Ok r, w2) /\ w_conn w' = true /\
    match r with
    | Commit b => b = a /\ w' = set_conn true (tick w2)
    | Rollback b => b = a /\ w' = set_conn true (set_db (w_db w) w2)
    end.
Proof.
  intros (Hc & w1 & (u & w2 & [-> ->]%sql_read_ok & Hr)%bind_ok & ->)%with_conn_ok.
  split; [done|]. unfold run_tx in Hr.
  destruct (body (tick (set_conn false w))) as [[[b|b]|e|p|] w3]; try done.
  - destruct (sql_read (fun _ => tt) w3) as [[u'|e|p|] w4] eqn:E; try done.
    apply sql_read_ok in E as [-> ->]. injection Hr as -> <-. by eexists _, _.
  - injection Hr as -> <-. by eexists _, _.
Qed.

Lemma with_tx_err {A} (body : M (tx_end A)) w e w' :
  with_tx body w = (Err e, w') -> w_db w' = w_db w.
Proof.
  intros (Hc & w1 & Hr & ->)%with_conn_err. simpl.
  apply bind_err in Hr as [[_ ->]%sql_read_err|(u & w2 & [-> ->]%sql_read_ok & Hr)]; [done|].
  unfold run_tx in Hr. simpl in Hr.
  destruct (body (tick (set_conn false w))) as [[[b|b]|e'|p|] w3]; try done.
  - destruct (sql_read (fun _ => tt) w3) as [[u'|e'|p|] w4]; simplify_eq; done.
  - by injection Hr as <- <-.
Qed.

(** The same for any outcome but a value, when the body runs on the connection it holds. *)
Lemma run_tx_not_ok {A} (body : M (tx_end A)) w o w' :
  raw body -> run_tx body w = (o, w') -> (forall a, o <> Ok a) -> w_db w' = w_db w.
Proof.
  intros Hb E Ho. unfold run_tx in E. destruct (Hb w) as (_ & _ & Hn).
  destruct (body w) as [[[b|b]|e|p|] w3]; simpl in *; simplify_eq/=; try done.
  destruct (sql_read _ w3) as [[u|e|p|] w4]; simplify_eq/=; try done. by destruct (Ho b).
Qed.

Lemma with_tx_not_ok {A} (body : M (tx_end A)) w o w' :
  raw body -> with_tx body w = (o, w') -> (forall a, o <> Ok a) -> w_db w' = w_db w.
Proof.
  intros Hb E Ho. unfold with_tx, with_conn in E. destruct (w_conn w); [|by simplify_eq].
  destruct ((sql_read (fun _ => tt) ≫= fun _ => run_tx body) (set_conn false w)) as [o' w1] eqn:E1.
  assert (o = o' /\ w_db w' = w_db w1) as [-> ->] by (simpl in E; by destruct o'; simplify_eq).
  unfold mbind, M_bind in E1. destruct (sql_read _ (set_conn false w)) as [[u|e|p|] w2] eqn:E2.
  - apply sql_read_ok in E2 as [_ ->]. by eapply run_tx_not_ok in E1.
  - apply sql_read_err in E2 as [_ ->]. by simplify_eq.
  - unfold sql_read in E2. by destruct (sql_fails _).
  - unfold sql_read in E2. by destruct (sql_fails _).
Qed.

Lemma send_mail_ok email link w u w' :
  send_mail email link w = (Ok u, w') ->
  mail_fails (w_tick w) (email, link) = None /\ w' = add_mail (email, link) (tick w).
Proof. unfold send_mail. destruct (mail_fails _ _); [done|]. by intros [= _ <-]. Qed.

Lemma http_send_ok rq w r w' :
  http_send rq w = (Ok r, w') -> r = http_answer (w_tick w) rq /\ w' = add_sent rq (tick w).
Proof. by intros [= <- <-]. Qed.

End Runs.

(** ** Code that reads, and code that writes only when it succeeds

    [quiet] code leaves the database as it found it, however it ends.  [noerr] code never
    ends in an error, [calm] code never in a panic.  [clean] code that ends in an error leaves the database as it found
    it. *)

Section Frames.
Context `{Env, Engine}.

(** More generally, [keeps g] code leaves the part [g] of the database as it found it. *)
Definition keeps {X A} (g : db -> X) (m : M A) : Prop := forall w, g (w_db (m w).2) = g (w_db w).
Abbreviation quiet := (keeps (fun d : db => d)).
Definition noerr {A} (m : M A) : Prop := forall w e, (m w).1 <> Err e.
Definition clean {A} (m : M A) : Prop := forall w e w', m w = (Err e, w') -> w_db w' = w_db w.

Section Keeps.
Context {X : Type} (g : db -> X).

Lemma keeps_ret {A} (a : A) : keeps g (mret a : M A).
Proof. done. Qed.
Lemma keeps_throw {A} e : keeps g (throw e : M A).
Proof. done. Qed.
Lemma keeps_panic {A} p : keeps g (panic p : M A).
Proof. done. Qed.
Lemma keeps_bind {A B} (m : M A) (f : A -> M B) : keeps g m -> (forall a, keeps g (f a)) -> keeps g (m ≫= f).
Proof.
  intros Hm Hf w. unfold mbind, M_bind. specialize (Hm w). destruct (m w) as [[a|e|p|] w']; simpl in *; try done.
  by rewrite Hf.
Qed.
Lemma keeps_try {A} (m : M A) : keeps g m -> keeps g (try_ m).
Proof. intros Hm w. unfold try_. specialize (Hm w). by destruct (m w) as [[a|e|p|] w']. Qed.
Lemma keeps_wrap {A} c (m : M A) : keeps g m -> keeps g (wrap c m).
Proof. intros. apply keeps_bind; [by apply keeps_try|intros []; done]. Qed.
Lemma keeps_ignore {A} (m : M A) : keeps g m -> keeps g (ignore m).
Proof. intros. apply keeps_bind; [by apply keeps_try|done]. Qed.
Lemma keeps_for_each {A} (l : list A) f : (forall x, keeps g (f x)) -> keeps g (for_each l f).
Proof. intros Hf. induction l; simpl; [done|by apply keeps_bind]. Qed.
Lemma keeps_with_conn {A} (m : M A) : keeps g m -> keeps g (with_conn m).
Proof.
  intros Hm w. unfold with_conn. destruct (w_conn w); [|done]. specialize (Hm (set_conn false w)).
  by destruct (m (set_conn false w)) as [[a|e|p|] w'].
Qed.
Lemma keeps_sql_read {A} (f : db -> A) : keeps g (sql_read f).
Proof. intros w. unfold sql_read. by destruct (sql_fails _). Qed.
Lemma keeps_scan_row {A} (o : option A) : keeps g (scan_row o).
Proof. by destruct o. Qed.
Lemma keeps_get_db : keeps g get_db.
Proof. done. Qed.
Lemma keeps_db_query {A} (f : db -> A) : keeps g (db_query f).
Proof. apply keeps_with_conn, keeps_sql_read. Qed.
Lemma keeps_db_query_row {A} (f : db -> option A) : keeps g (db_query_row f).
Proof. apply keeps_with_conn, keeps_bind; [apply keeps_sql_read|intros; apply keeps_scan_row]. Qed.
Lemma keeps_db_rows {A} (f : db -> list A) body : (forall x, keeps g (body x)) -> keeps g (db_rows f body).
Proof. intros. apply keeps_with_conn, keeps_bind; [apply keeps_sql_read|intros; by apply keeps_for_each]. Qed.
Lemma keeps_time_now : keeps g time_now.
Proof. done. Qed.
Lemma keeps_unix_now : keeps g unix_now.
Proof. done. Qed.
Lemma keeps_rand_read n : keeps g (rand_read n).
Proof. intros w. unfold rand_read, mbind, M_bind, next_tick. by destruct (entropy _ _). Qed.
Lemma keeps_http_send rq : keeps g (http_send rq).
Proof. done. Qed.
Lemma keeps_send_mail e l : keeps g (send_mail e l).
Proof. intros w. unfold send_mail. by destruct (mail_fails _ _). Qed.
Lemma keeps_signal_wake : keeps g signal_wake.
Proof. done. Qed.
Lemma keeps_on_limiter {A} (f : _ -> A * _) : keeps g (on_limiter f).
Proof. done. Qed.
Lemma keeps_on_sessions {A} (f : _ -> A * _) : keeps g (on_sessions f).
Proof. done. Qed.
Lemma keeps_on_links {A} (f : _ -> A * _) : keeps g (on_links f).
Proof. done. Qed.

(** A statement that does not touch [g]. *)
Definition spares (s : stmt) : Prop := forall d d' n, exec_stmt s d = Some (d', n) -> g d' = g d.

Lemma keeps_sql_stmt s : spares s -> keeps g (sql_stmt s).
Proof.
  intros Hs w. unfold sql_stmt. destruct (sql_fails _); [done|].
  destruct (exec_stmt s (w_db w)) as [[d n]|] eqn:E; [|done]. by eapply Hs.
Qed.
Lemma keeps_db_exec s : spares s -> keeps g (db_exec s).
Proof. intros. by apply keeps_with_conn, keeps_sql_stmt. Qed.
Lemma keeps_run_tx {A} (body : M (tx_end A)) : keeps g body -> keeps g (run_tx body).
Proof.
  intros Hb w. unfold run_tx. specialize (Hb w). destruct (body w) as [[[a|a]|e|p|] w2]; simpl in *; try done.
  pose proof (keeps_sql_read (fun _ => tt) w2) as Hr. destruct (sql_read _ w2) as [[u|e|p|] w3]; simpl in *; congruence.
Qed.
Lemma keeps_with_tx {A} (body : M (tx_end A)) : keeps g body -> keeps g (with_tx body).
Proof.
  intros. apply keeps_with_conn, keeps_bind; [apply keeps_sql_read|intros; by apply keeps_run_tx].
Qed.

End Keeps.

(** Code that moves the database along a relation [P], at one place at most. *)
Section Moves.
Context (P : db -> db -> Prop) `{!Reflexive P}.

Definition moves {A} (m : M A) : Prop := forall w, P (w_db w) (w_db (m w).2).

Lemma moves_quiet {A} (m : M A) : quiet m -> moves m.
Proof. intros Hm w. by rewrite Hm. Qed.
Lemma moves_bind_l {A B} (m : M A) (f : A -> M B) : quiet m -> (forall a, moves (f a)) -> moves (m ≫= f).
Proof.
  intros Hm Hf w. unfold mbind, M_bind. specialize (Hm w).
  destruct (m w) as [[a|e|p|] w']; simpl in *; rewrite <- Hm; done || apply Hf.
Qed.
Lemma moves_bind_r {A B} (m : M A) (f : A -> M B) : moves m -> (forall a, quiet (f a)) -> moves (m ≫= f).
Proof.
  intros Hm Hf w. unfold mbind, M_bind. specialize (Hm w).
  destruct (m w) as [[a|e|p|] w']; simpl in *; try done. specialize (Hf a w'). simpl in Hf. by rewrite Hf.
Qed.
Lemma moves_try {A} (m : M A) : moves m -> moves (try_ m).
Proof. intros Hm w. unfold try_. specialize (Hm w). by destruct (m w) as [[a|e|p|] w']. Qed.
Lemma moves_ignore {A} (m : M A) : moves m -> moves (ignore m).
Proof. intros Hm. apply moves_bind_r; [by apply moves_try|done]. Qed.
Lemma moves_db_exec s : (forall d d' n, exec_stmt s d = Some (d', n) -> P d d') -> moves (db_exec s).
Proof.
  intros Hs w. unfold db_exec, with_conn, sql_stmt. destruct (w_conn w); simpl; [|done].
  destruct (sql_fails _); simpl; [done|].
  destruct (exec_stmt s (w_db w)) as [[d n]|] eqn:E; simpl; [by eapply Hs|done].
Qed.

End Moves.

(** ** Code run when no statement fails *)

Section Reliable.
Context (Hsql : forall k, sql_fails k = false).

Lemma run_query {A} (f : db -> A) w : w_conn w = true -> db_query f w = (Ok (f (w_db w)), tick w).
Proof.
  intros Hc. unfold db_query, with_conn, sql_read. rewrite Hc, Hsql. simpl.
  f_equal. by apply set_conn_same.
Qed.

Lemma run_row_or_nil {A} (f : db -> option A) w :
  w_conn w = true ->
  (r ← try_ (db_query_row f); match r with inr a => mret (Some a) | inl e => if err_is e ErrNoRows then mret None else throw e end) w
  = (Ok (f (w_db w)), tick w).
Proof.
  intros Hc. unfold db_query_row, with_conn, mbind, M_bind, try_, sql_read. rewrite Hc, Hsql. simpl.
  pose proof (set_conn_same _ Hc) as Hs. unfold tick in *. simpl in Hs.
  destruct (f (w_db w)); simpl; by rewrite Hs.
Qed.

Lemma run_exec s w d n :
  w_conn w = true -> exec_stmt s (w_db w) = Some (d, n) -> db_exec s w = (Ok n, set_db d (tick w)).
Proof.
  intros Hc E. unfold db_exec, with_conn, sql_stmt. rewrite Hc, Hsql. simpl. rewrite E. simpl.
  f_equal. by apply set_conn_back.
Qed.

End Reliable.

Lemma noerr_ret {A} (a : A) : noerr (mret a : M A).
Proof. done. Qed.
Lemma noerr_try {A} (m : M A) : noerr (try_ m).
Proof. intros w e. unfold try_. by destruct (m w) as [[a|e'|p|] w']. Qed.
Lemma noerr_bind {A B} (m : M A) (f : A -> M B) : noerr m -> (forall a, noerr (f a)) -> noerr (m ≫= f).
Proof.
  intros Hm Hf w e. unfold mbind, M_bind. specialize (Hm w e).
  destruct (m w) as [[a|e'|p|] w']; simpl in *; try done; [by apply Hf|].
  intros [= ->]. by apply Hm.
Qed.
Lemma noerr_ignore {A} (m : M A) : noerr (ignore m).
Proof. apply noerr_bind; [apply noerr_try|done]. Qed.

(** Panics come from [panic] alone. *)
Definition calm {A} (m : M A) : Prop := forall w p, (m w).1 <> Panic p.

Lemma calm_bind {A B} (m : M A) (f : A -> M B) : calm m -> (forall a, calm (f a)) -> calm (m ≫= f).
Proof.
  intros Hm Hf w p. unfold mbind, M_bind. specialize (Hm w p).
  destruct (m w) as [[a|e|p'|] w']; simpl in *; try done; [by apply Hf|]. congruence.
Qed.
Lemma calm_ret {A} (a : A) : calm (mret a : M A).
Proof. done. Qed.
Lemma calm_throw {A} e : calm (throw e : M A).
Proof. done. Qed.
Lemma calm_try {A} (m : M A) : calm m -> calm (try_ m).
Proof. intros Hm w p. unfold try_. specialize (Hm w p). destruct (m w) as [[a|e|p'|] w']; simpl in *; congruence. Qed.
Lemma calm_wrap {A} c (m : M A) : calm m -> calm (wrap c m).
Proof. intros. apply calm_bind; [by apply calm_try|by intros []]. Qed.
Lemma calm_ignore {A} (m : M A) : calm m -> calm (ignore m).
Proof. intros. apply calm_bind; [by apply calm_try|done]. Qed.
Lemma calm_with_conn {A} (m : M A) : calm m -> calm (with_conn m).
Proof.
  intros Hm w p. unfold with_conn. destruct (w_conn w); [|done]. specialize (Hm (set_conn false w) p).
  by destruct (m (set_conn false w)) as [[a|e|p'|] w'].
Qed.
Lemma calm_sql_read {A} (f : db -> A) : calm (sql_read f).
Proof. intros w p. unfold sql_read. by destruct (sql_fails _). Qed.
Lemma calm_sql_stmt s : calm (sql_stmt s).
Proof. intros w p. unfold sql_stmt. destruct (sql_fails _); [done|]. by destruct (exec_stmt s (w_db w)) as [[d n]|]. Qed.
Lemma calm_scan_row {A} (o : option A) : calm (scan_row o).
Proof. by destruct o. Qed.
Lemma calm_db_exec s : calm (db_exec s).
Proof. apply calm_with_conn, calm_sql_stmt. Qed.
Lemma calm_db_query {A} (f : db -> A) : calm (db_query f).
Proof. apply calm_with_conn, calm_sql_read. Qed.
Lemma calm_db_query_row {A} (f : db -> option A) : calm (db_query_row f).
Proof. apply calm_with_conn, calm_bind; [apply calm_sql_read|intros; apply calm_scan_row]. Qed.
Lemma calm_time_now : calm time_now.
Proof. done. Qed.
Lemma calm_unix_now : calm unix_now.
Proof. done. Qed.
Lemma calm_http_send rq : calm (http_send rq).
Proof. done. Qed.

Lemma clean_quiet {A} (m : M A) : quiet m -> clean m.
Proof. intros Hm w e w' E. specialize (Hm w). by rewrite E in Hm. Qed.
Lemma clean_noerr {A} (m : M A) : noerr m -> clean m.
Proof. intros Hm w e w' E. destruct (Hm w e). by rewrite E. Qed.
Lemma clean_bind_quiet {A B} (m : M A) (f : A -> M B) : quiet m -> (forall a, clean (f a)) -> clean (m ≫= f).
Proof.
  intros Hm Hf w e w' [E|(a & w1 & E1 & E)]%bind_err; [by eapply clean_quiet|].
  specialize (Hm w). rewrite E1 in Hm. simpl in Hm. rewrite <- Hm. by eapply Hf.
Qed.
Lemma clean_bind_noerr {A B} (m : M A) (f : A -> M B) : clean m -> (forall a, noerr (f a)) -> clean (m ≫= f).
Proof.
  intros Hm Hf w e w' [E|(a & w1 & E1 & E)]%bind_err; [by eapply Hm|].
  destruct (Hf a w1 e). by rewrite E.
Qed.
Lemma clean_wrap {A} c (m : M A) : clean m -> clean (wrap c m).
Proof.
  intros Hm w e w' [E|(r & w1 & E1 & E)]%bind_err; [by apply try_err in E|].
  apply try_ok in E1 as [(a & -> & E1)|(e' & -> & E1)]; [done|].
  apply throw_err in E as [_ ->]. by eapply Hm.
Qed.
Lemma clean_db_exec s : clean (db_exec s).
Proof. intros w e w' [_ ->]%db_exec_err. done. Qed.
Lemma clean_with_tx {A} (body : M (tx_end A)) : clean (with_tx body).
Proof. intros w e w'. apply with_tx_err. Qed.

End Frames.

Abbreviation quiet := (keeps (fun d : db => d)).

#[export] Hint Resolve keeps_ret keeps_throw keeps_panic keeps_sql_read keeps_scan_row keeps_get_db
  keeps_db_query keeps_db_query_row keeps_time_now keeps_unix_now keeps_rand_read keeps_http_send
  keeps_send_mail keeps_signal_wake keeps_on_limiter keeps_on_sessions keeps_on_links
  noerr_ret noerr_try noerr_ignore clean_db_exec clean_with_tx
  calm_ret calm_throw calm_db_exec calm_db_query calm_db_query_row calm_time_now calm_unix_now calm_http_send : runs.

(** The part of the database a statement does not touch. *)
Ltac solve_spares :=
  intros ? ? ? ?; simpl in *; unfold updating, deleting, inserting in *;
  repeat (case_match; try discriminate); simplify_eq; reflexivity.

Ltac solve_frame :=
  repeat (intros;
    first
    [ solve [auto 2 with runs nocore]
    | match goal with
      | |- keeps _ (try_ _) => apply keeps_try
      | |- keeps _ (ignore _) => apply keeps_ignore
      | |- keeps _ (wrap _ _) => apply keeps_wrap
      | |- keeps _ (for_each _ _) => apply keeps_for_each
      | |- keeps _ (with_tx _) => apply keeps_with_tx
      | |- keeps _ (db_rows _ _) => apply keeps_db_rows
      | |- keeps _ (with_conn _) => apply keeps_with_conn
      | |- keeps _ (sql_stmt _) => apply keeps_sql_stmt; solve [solve_spares]
      | |- keeps _ (db_exec _) => apply keeps_db_exec; solve [solve_spares]
      | |- keeps _ (_ ≫= _) => apply keeps_bind
      | |- keeps _ (match ?x with _ => _ end) => destruct x
      | |- noerr (_ ≫= _) => apply noerr_bind
      | |- noerr (match ?x with _ => _ end) => destruct x
      | |- calm (_ ≫= _) => apply calm_bind
      | |- calm (try_ _) => apply calm_try
      | |- calm (ignore _) => apply calm_ignore
      | |- calm (wrap _ _) => apply calm_wrap
      | |- calm (match ?x with _ => _ end) => destruct x
      | |- clean (wrap _ _) => apply clean_wrap
      | |- clean (match ?x with _ => _ end) => destruct x
      | |- clean (_ ≫= _) => first
          [ apply clean_bind_quiet; [solve [solve_frame]|]
          | apply clean_bind_noerr; [|solve [solve_frame]] ]
      | |- clean _ => solve [apply clean_quiet; auto 2 with runs nocore]
      end ]).

Ltac inv_step :=
  match goal with
  | H : (_ ≫= _) _ = (Ok _, _) |- _ => apply bind_ok in H as (? & ? & ? & ?)
  | H : mret _ _ = (Ok _, _) |- _ => apply ret_ok in H as [? ?]
  | H : throw _ _ = (Ok _, _) |- _ => exfalso; exact (throw_ok _ _ _ _ H)
  | H : panic _ _ = (Ok _, _) |- _ => exfalso; exact (panic_ok _ _ _ _ H)
  | H : wrap _ _ _ = (Ok _, _) |- _ => apply wrap_ok in H
  | H : try_ _ _ = (Ok _, _) |- _ => apply try_ok in H as [(? & ? & ?)|(? & ? & ?)]
  | H : time_now _ = (Ok _, _) |- _ => apply time_now_ok in H as [? ?]
  | H : unix_now _ = (Ok _, _) |- _ => apply unix_now_ok in H as [? ?]
  | H : rand_read _ _ = (Ok _, _) |- _ => apply rand_read_ok in H as [? ?]
  | H : get_db _ = (Ok _, _) |- _ => apply get_db_ok in H as [? ?]
  | H : scan_row _ _ = (Ok _, _) |- _ => apply scan_row_ok in H as [? ?]
  | H : sql_stmt _ _ = (Ok _, _) |- _ => apply sql_stmt_ok in H as (? & ? & ?)
  | H : sql_read _ _ = (Ok _, _) |- _ => apply sql_read_ok in H as [? ?]
  | H : db_exec _ _ = (Ok _, _) |- _ => apply db_exec_ok in H as (? & ? & ? & ?)
  | H : db_query _ _ = (Ok _, _) |- _ => apply db_query_ok in H as (? & ? & ?)
  | H : db_query_row _ _ = (Ok _, _) |- _ => apply db_query_row_ok in H as (? & ? & ?)
  | H : with_tx _ _ = (Ok _, _) |- _ => apply with_tx_ok in H as (? & ? & ? & ? & ? & ?)
  | H : send_mail _ _ _ = (Ok _, _) |- _ => apply send_mail_ok in H as [? ?]
  | H : http_send _ _ = (Ok _, _) |- _ => apply http_send_ok in H as [? ?]
  | H : _ /\ _ |- _ => destruct H
  | H : updating _ _ _ _ _ = Some _ |- _ => unfold updating in H
  | H : deleting _ _ _ _ = Some _ |- _ => unfold deleting in H
  | H : inserting _ _ _ _ = Some _ |- _ => apply inserting_ok in H as (? & ? & ?)
  | H : (if ?b then _ else _) _ = (Ok _, _) |- _ => destruct b eqn:?
  | H : match ?x with _ => _ end _ = (Ok _, _) |- _ => destruct x eqn:?
  end.

Ltac inv_run := repeat (progress (try inv_step; simplify_eq/=)).
