(* ===== verification/Samples.v ===== *)
(** * A concrete environment

    The witnesses evaluate the model in this environment: a clock that advances one second
    per effect, entropy that never repeats (the draw number in every byte), no failures, and
    HTTP answers 200; and an engine that keeps one vector per candidate. *)

From S2P Require Import Prelude RateLimit AdminStore Schema Statements Invariants World.
From S2P Require Import GoStrings.

Open Scope Z_scope.

Fixpoint repeat_byte (n : nat) (c : ascii) : string :=
  match n with O => EmptyString | S n' => String c (repeat_byte n' c) end.

Definition sample_env : Env := {|
  clock k := (1700000000 + Z.of_nat k) * second;
  entropy k n := Some (repeat_byte n (byte_of (Z.of_nat k mod 256)));
  sql_fails _ := false;
  mail_fails _ _ := None;
  http_answer _ _ := inr (200, EmptyString) |}.

(** The same with every mail and every HTTP request failing. *)
Definition failing_env : Env := {|
  clock := @clock sample_env;
  entropy := @entropy sample_env;
  sql_fails := @sql_fails sample_env;
  mail_fails _ _ := Some "connection refused";
  http_answer _ _ := inl "dial tcp: connection refused" |}.

Definition sample_engine : Engine := {|
  vec_insert_or_replace cid blob t := Some (del (fun r => str_eqb r.1 cid) t ++ [(cid, blob)]) |}.

(** The ASCII view of Unicode: nothing beyond it is a space or a word character. *)
Definition ascii_unicode : Unicode := {|
  space_beyond _ := false; word_beyond _ := false; lower_beyond r := r |}.

(** The world after a run, and a run's value. *)
Definition after {A} (m : M A) (w : world) : world := (m w).2.
Definition value {A} (m : M A) (w : world) : option A :=
  match (m w).1 with Ok a => Some a | _ => None end.
