(* ===== verification/Repo.v ===== *)
(** * The repository layer (src/internal/store/repo)

    One definition per exported function of users.go, tokens.go, api_tokens.go, devices.go,
    nodes.go, snapshots.go, intros.go and audit.go, over the statements of Statements.v.  A
    nil result is [None]; [sql.NullString] and [*string] are options. *)

From S2P Require Import Prelude RateLimit AdminStore Schema Statements Invariants World.
From S2P Require Import GoStrings Sha256 Float.

Open Scope Z_scope.

(** [err == sql.ErrNoRows] turned into a nil result. *)
Definition row_or_nil {A} (m : M A) : M (option A) :=
  r ← try_ m;
  match r with
  | inr a => mret (Some a)
  | inl e => if err_is e ErrNoRows then mret None else throw e
  end.

(** [n, _ := result.RowsAffected(); if n == 0 { return e }] *)
Definition affecting (e : goerr) (m : M nat) : M unit :=
  n ← m; if (n =? 0)%nat then throw e else mret tt.

Definition exec_ (m : M nat) : M unit := _ ← m; mret tt.

(** [int64(ttl.Seconds())] for a duration in nanoseconds, below 2^53 seconds. *)
Definition seconds_of (ttl : Z) : Z := Z.quot ttl second.

(** ORDER BY a nullable integer column: NULL sorts lowest. *)
Definition null_le (a b : option Z) : Prop :=
  match a, b with
  | None, _ => True
  | Some _, None => False
  | Some x, Some y => x <= y
  end.
#[global] Instance null_le_dec a b : Decision (null_le a b).
Proof. destruct a, b; simpl; first [apply Z_le_dec | apply _]. Defined.

Definition newest_first (a b : node) : Prop := null_le (n_created b) (n_created a).
#[global] Instance newest_first_dec a b : Decision (newest_first a b).
Proof. apply null_le_dec. Defined.
#[global] Instance newest_first_total : Total newest_first.
Proof. intros a b. unfold newest_first, null_le. destruct (n_created a), (n_created b); lia || tauto. Qed.

Definition oldest_first (a b : intro) : Prop := i_created a <= i_created b.
#[global] Instance oldest_first_dec a b : Decision (oldest_first a b).
Proof. apply Z_le_dec. Defined.
#[global] Instance oldest_first_total : Total oldest_first.
Proof. intros a b. unfold oldest_first. lia. Qed.

(** [LIMIT n]: a negative limit is no limit. *)
Definition sql_limit {A} (n : Z) (l : list A) : list A := if n <? 0 then l else take (Z.to_nat n) l.

Module Repo.
Section Repo.
Context `{Env, Engine}.

(** ** users.go, tokens.go, api_tokens.go *)

Definition must_rand (n : nat) : M string :=
  r ← try_ (rand_read n);
  match r with inr b => mret b | inl _ => panic "crypto/rand failed" end.

Definition NewID : M string := b ← must_rand 16; mret (Hex.encode b).

Definition user_by_email (email : string) (d : db) : option user :=
  head (sel (fun u => str_eqb (u_email u) email) (users d)).

Definition CreateUser (email : string) : M string :=
  id ← NewID;
  now ← unix_now;
  with_conn (
    _ ← sql_stmt (InsertUser id email now);
    d ← get_db;
    scan_row (u_id <$> user_by_email email d)).

Definition GenerateToken : M string := b ← must_rand 32; mret (Hex.encode b).

Definition HashToken (token : string) : string := Hex.encode (Sha256.sum token).
Definition sha256Hex (s : string) : string := Hex.encode (Sha256.sum s).
Definition deviceCodeHash (deviceCode : string) : string := Hex.encode (Sha256.sum deviceCode).

Definition InsertMagicToken (token : string) (userID dch : option string) (ttl : Z) : M unit :=
  let hash := HashToken token in
  now ← time_now;
  exec_ (db_exec (InsertMagic hash userID dch (unix (now + ttl)))).

Definition magic_by_hash (hash : string) (d : db) : option magic_token :=
  head (sel (fun m => str_eqb (m_hash m) hash) (magic_tokens d)).

Definition ConsumeMagicToken (token : string) : M (option magic_token) :=
  let hash := HashToken token in
  now ← unix_now;
  with_tx (
    n ← sql_stmt (UseMagic now hash);
    if (n =? 0)%nat then mret (Rollback None)
    else
      mt ← (o ← sql_read (magic_by_hash hash); scan_row o);
      mret (Commit (Some mt))).

Definition null_string (s : string) : option string := if is_empty s then None else Some s.

Definition CreateAPIToken (userID : string) (nodeID : option string) (label scope : string)
    : M (string * api_token) :=
  token ← GenerateToken;
  let hash := HashToken token in
  now ← unix_now;
  _ ← db_exec (InsertAPI hash userID nodeID label scope now);
  mret (token, APIToken hash userID nodeID (null_string label) (null_string scope) now None None).

Definition live_token (hash : string) (t : api_token) : bool :=
  str_eqb (t_hash t) hash && is_null (t_revoked t).

Definition APITokenByHash (token : string) : M (option api_token) :=
  row_or_nil (db_query_row (fun d => head (sel (live_token (sha256Hex token)) (api_tokens d)))).

Definition TouchAPIToken (token : string) : M unit :=
  now ← unix_now; exec_ (db_exec (TouchAPI now (sha256Hex token))).

Definition RevokeAPIToken (token : string) : M unit :=
  now ← unix_now; exec_ (db_exec (RevokeAPI now (sha256Hex token))).

(** ** devices.go *)

Definition charset : string := "ABCDEFGHJKLMNPQRSTUVWXYZ23456789".

Definition char_at (i : Z) : ascii := default "A"%char (String.get (Z.to_nat i) charset).

(** [for i := 7; i >= 0; i-- { code[i] = charset[n%32]; n /= 32 }], the last character first. *)
Fixpoint code_chars (k : nat) (n : Z) (acc : string) : string :=
  match k with
  | O => acc
  | S k' => code_chars k' (n / 32) (String (char_at (n mod 32)) acc)
  end.

Definition byte_nth (i : nat) (b : string) : Z := match String.get i b with Some c => byte_val c | None => 0 end.

(** [uint32(b[0])<<16 | uint32(b[1])<<8 | uint32(b[2])] *)
Definition code_number (b : string) : Z :=
  Z.lor (Z.lor (Z.shiftl (byte_nth 0 b) 16) (Z.shiftl (byte_nth 1 b) 8)) (byte_nth 2 b).

Definition format_code (n : Z) : string :=
  let code := code_chars 8 n EmptyString in
  Utf8.str_take 4 code ++s "-" ++s Utf8.str_drop 4 code.

Definition GenerateUserCode : M string := b ← must_rand 3; mret (format_code (code_number b)).

Definition InsertDeviceSession (nodeType endpointURL publicKey : option string) (ttl : Z)
    : M (string * string) :=
  raw ← wrap "generate device_code" (rand_read 32);
  let deviceCode := Hex.encode raw in
  let codeHash := deviceCodeHash deviceCode in
  userCode ← GenerateUserCode;
  now ← unix_now;
  let expiresAt := now + seconds_of ttl in
  nodeID ← match nodeType, endpointURL with
           | Some ty, Some ep =>
               id ← NewID;
               _ ← wrap "create node" (db_exec (InsertNode id ty ep now publicKey));
               mret (Some id)
           | _, _ => mret None
           end;
  _ ← wrap "insert device session" (db_exec (InsertDevice codeHash userCode nodeID now expiresAt));
  mret (deviceCode, userCode).

Definition device_by_hash (codeHash : string) (d : db) : option device_session :=
  head (sel (fun s => str_eqb (d_hash s) codeHash) (device_sessions d)).
Definition device_by_code (userCode : string) (d : db) : option device_session :=
  head (sel (fun s => str_eqb (d_ucode s) userCode) (device_sessions d)).

Definition DeviceSessionByCodeHash (codeHash : string) : M (option device_session) :=
  row_or_nil (db_query_row (device_by_hash codeHash)).
Definition DeviceSessionByUserCode (userCode : string) : M (option device_session) :=
  row_or_nil (db_query_row (device_by_code userCode)).

Definition ApproveDeviceSession (codeHash userID : string) : M unit :=
  now ← unix_now;
  affecting ErrNoRows (db_exec (ApproveDevice userID now codeHash)).

Definition ConsumeDeviceSession (codeHash : string) : M device_session :=
  now ← unix_now;
  with_tx (
    _ ← sql_stmt (ConsumeDevice now codeHash);
    ds ← (o ← sql_read (device_by_hash codeHash); scan_row o);
    mret (Commit ds)).

Definition UpdateLastPoll (codeHash : string) : M unit :=
  now ← unix_now; exec_ (db_exec (SetLastPoll now codeHash)).

(** ** nodes.go *)

Definition UpdateNodeToken (nodeID tokenHash : string) : M unit :=
  exec_ (db_exec (SetNodeTokenHash tokenHash nodeID)).
Definition SetNodeUser (nodeID userID : string) : M unit :=
  exec_ (db_exec (SetNodeUserIfNull userID nodeID)).

Definition RotateNodeIntroSecret (nodeID : string) : M string :=
  b ← rand_read 32;
  let secret := Hex.encode b in
  _ ← db_exec (SetNodeSecret secret nodeID);
  mret secret.

Definition SetNodeIntroSecret (nodeID secret : string) : M unit :=
  exec_ (db_exec (SetNodeSecret secret nodeID)).

Definition nodes_of_user (userID : string) (d : db) : list node :=
  merge_sort newest_first (sel (fun n => col_is (n_user n) userID) (nodes d)).

Definition NodesByUser (userID : string) : M (list node) := db_query (nodes_of_user userID).

Definition candidates_of (nodeID : string) (d : db) : list string :=
  s_cand <$> sel (fun s => str_eqb (s_node s) nodeID) (snapshots d).

(** The errors of the two index deletions are dropped by the code. *)
Definition RevokeNode (nodeID : string) : M unit :=
  now ← unix_now;
  with_tx (
    candidateIDs ← sql_read (candidates_of nodeID);
    _ ← for_each candidateIDs (fun cid =>
          ignore (sql_stmt (DeleteFts cid)) ;; ignore (sql_stmt (DeleteVec cid)));
    _ ← sql_stmt (DeleteSnapshotsOfNode nodeID);
    _ ← affecting ErrNoRows (sql_stmt (DeactivateNode now nodeID));
    mret (Commit tt)).

Definition SetNodePublicKey (nodeID : string) (pub : option string) : M unit :=
  exec_ (db_exec (SetNodePublicKey_ pub nodeID)).

Definition UpdateNodePing (nodeID : string) : M unit :=
  now ← unix_now; exec_ (db_exec (SetNodePing now nodeID)).

Definition node_by_id (nodeID : string) (d : db) : option node :=
  head (sel (node_is nodeID) (nodes d)).

Definition NodeByID (nodeID : string) : M (option node) :=
  row_or_nil (db_query_row (node_by_id nodeID)).

Record DeliveryTarget := Target { dt_NodeID : string; dt_EndpointURL : string; dt_IntroSecret : string }.

(** The WHERE clause of ResolveDeliveryTarget; NULL and '' never pass. *)
Definition deliverable (userID : string) (n : node) : bool :=
  col_is (n_user n) userID && n_active n && is_null (n_revoked n)
  && str_eqb (n_type n) "LivingCV" && negb (is_empty (n_endpoint n))
  && match n_secret n with Some s => negb (is_empty s) | None => false end.

Definition target_row (n : node) : DeliveryTarget :=
  Target (n_id n) (n_endpoint n) (default EmptyString (n_secret n)).

Definition delivery_row (userID : string) (d : db) : option node :=
  head (merge_sort newest_first (sel (deliverable userID) (nodes d))).

Definition ResolveDeliveryTarget (snapshotNodeID : string) : M (option DeliveryTarget) :=
  userID ← row_or_nil (db_query_row (fun d => n_user <$> node_by_id snapshotNodeID d));
  match userID with
  | Some (Some u) =>
      if is_empty u then mret None
      else row_or_nil (db_query_row (fun d => target_row <$> delivery_row u d))
  | _ => mret None
  end.

(** ** snapshots.go *)

Definition UpsertSnapshot (id nodeID candidateID payloadJSON : string) (signature : option string) : M unit :=
  now ← unix_now;
  exec_ (db_exec (UpsertSnapshot_ id nodeID candidateID payloadJSON signature now)).

Definition ReplaceFTS5Row (candidateID content : string) : M unit :=
  with_tx (
    _ ← sql_stmt (DeleteFts candidateID);
    _ ← sql_stmt (InsertFts candidateID content);
    mret (Commit tt)).

Definition UpsertVec0Embedding (candidateID : string) (embedding : list (list float64)) : M unit :=
  match embedding with
  | [] => mret tt
  | v :: _ => exec_ (db_exec (ReplaceVec candidateID (Float64ToBlob v)))
  end.

(** ** intros.go, audit.go *)

Definition InsertIntroductionRequest (id candidateID recruiterUserID nodeID recruiterName
    recruiterEmail recruiterCompany : string) : M unit :=
  now ← unix_now;
  exec_ (db_exec (InsertIntro id candidateID recruiterUserID nodeID now recruiterName
                    recruiterEmail (null_string recruiterCompany))).

Definition intro_by_id (id : string) (d : db) : option intro :=
  head (sel (fun i => str_eqb (i_id i) id) (introduction_requests d)).

Definition IntroductionRequestByID (id : string) : M intro :=
  r ← row_or_nil (db_query_row (intro_by_id id));
  match r with Some i => mret i | None => throw ErrNotFound end.

Definition intro_due (now : Z) (i : intro) : bool :=
  pending_status (i_status i) && match i_next i with None => true | Some t => t <=? now end.

Definition pending_intros (now limit : Z) (d : db) : list intro :=
  sql_limit limit (merge_sort oldest_first (sel (intro_due now) (introduction_requests d))).

Definition PendingIntroductionRequests (now limit : Z) : M (list intro) :=
  db_query (pending_intros now limit).

Definition MarkIntroDelivered (id : string) : M unit :=
  now ← unix_now; affecting ErrNotFound (db_exec (IntroDelivered now id)).
Definition MarkIntroRetrying (id lastErr : string) (nextAttemptAt : Z) : M unit :=
  affecting ErrNotFound (db_exec (IntroRetrying lastErr nextAttemptAt id)).
Definition MarkIntroFailed (id lastErr : string) : M unit :=
  affecting ErrNotFound (db_exec (IntroFailed lastErr id)).
Definition MarkIntroUndeliverable (id reason : string) : M unit :=
  affecting ErrNotFound (db_exec (IntroUndeliverable reason id)).

Definition InsertAuditLog (actorUserID action target : string) : M unit :=
  id ← NewID;
  ts ← unix_now;
  exec_ (db_exec (InsertAudit id (Some actorUserID) action target ts)).

End Repo.
End Repo.
