(* ===== verification/RepoFacts.v ===== *)
(** * What the repository layer guarantees

    Every operation keeps to the pool discipline ([good]), the lookups find the row of their
    key, and the transactional operations (redeeming a magic link, revoking a node,
    consuming a device session) are shown correct on every branch. *)

From S2P Require Import Prelude RateLimit AdminStore Schema Statements Invariants World.
From S2P Require Import GoStrings Sha256 Float Runs Samples Repo.

Open Scope Z_scope.

(** ** Pool discipline *)

Section Discipline.
Context `{Env, Engine}.

Lemma still_must_rand n : still (Repo.must_rand n).
Proof. unfold Repo.must_rand. solve_good. Qed.
Hint Resolve still_must_rand : good.
Lemma still_NewID : still Repo.NewID.
Proof. unfold Repo.NewID. solve_good. Qed.
Lemma still_GenerateToken : still Repo.GenerateToken.
Proof. unfold Repo.GenerateToken. solve_good. Qed.
Lemma still_GenerateUserCode : still Repo.GenerateUserCode.
Proof. unfold Repo.GenerateUserCode. solve_good. Qed.
Hint Resolve still_NewID still_GenerateToken still_GenerateUserCode : good.

Lemma good_affecting e m : good m -> good (affecting e m).
Proof. intros. unfold affecting. solve_good; done. Qed.
Lemma raw_affecting e m : raw m -> raw (affecting e m).
Proof. intros. unfold affecting. solve_good; done. Qed.
Lemma good_exec_ m : good m -> good (exec_ m).
Proof. intros. unfold exec_. solve_good; done. Qed.
Lemma good_row_or_nil {A} (m : M A) : good m -> good (row_or_nil m).
Proof. intros. unfold row_or_nil. solve_good; done. Qed.
Hint Resolve good_affecting raw_affecting good_exec_ good_row_or_nil : good.

Lemma good_CreateUser e : good (Repo.CreateUser e).
Proof. unfold Repo.CreateUser. solve_good. Qed.
Lemma good_InsertMagicToken t u d ttl : good (Repo.InsertMagicToken t u d ttl).
Proof. unfold Repo.InsertMagicToken. solve_good. Qed.
Lemma good_ConsumeMagicToken t : good (Repo.ConsumeMagicToken t).
Proof. unfold Repo.ConsumeMagicToken. solve_good. Qed.
Lemma good_CreateAPIToken u n l s : good (Repo.CreateAPIToken u n l s).
Proof. unfold Repo.CreateAPIToken. solve_good. Qed.
Lemma good_APITokenByHash t : good (Repo.APITokenByHash t).
Proof. unfold Repo.APITokenByHash. solve_good. Qed.
Lemma good_TouchAPIToken t : good (Repo.TouchAPIToken t).
Proof. unfold Repo.TouchAPIToken. solve_good. Qed.
Lemma good_RevokeAPIToken t : good (Repo.RevokeAPIToken t).
Proof. unfold Repo.RevokeAPIToken. solve_good. Qed.
Lemma good_InsertDeviceSession t e k ttl : good (Repo.InsertDeviceSession t e k ttl).
Proof. unfold Repo.InsertDeviceSession. solve_good. Qed.
Lemma good_DeviceSessionByCodeHash h : good (Repo.DeviceSessionByCodeHash h).
Proof. unfold Repo.DeviceSessionByCodeHash. solve_good. Qed.
Lemma good_DeviceSessionByUserCode h : good (Repo.DeviceSessionByUserCode h).
Proof. unfold Repo.DeviceSessionByUserCode. solve_good. Qed.
Lemma good_ApproveDeviceSession h u : good (Repo.ApproveDeviceSession h u).
Proof. unfold Repo.ApproveDeviceSession. solve_good. Qed.
Lemma good_ConsumeDeviceSession h : good (Repo.ConsumeDeviceSession h).
Proof. unfold Repo.ConsumeDeviceSession. solve_good. Qed.
Lemma good_UpdateLastPoll h : good (Repo.UpdateLastPoll h).
Proof. unfold Repo.UpdateLastPoll. solve_good. Qed.
Lemma good_UpdateNodeToken n h : good (Repo.UpdateNodeToken n h).
Proof. unfold Repo.UpdateNodeToken. solve_good. Qed.
Lemma good_SetNodeUser n u : good (Repo.SetNodeUser n u).
Proof. unfold Repo.SetNodeUser. solve_good. Qed.
Lemma good_RotateNodeIntroSecret n : good (Repo.RotateNodeIntroSecret n).
Proof. unfold Repo.RotateNodeIntroSecret. solve_good. Qed.
Lemma good_SetNodeIntroSecret n s : good (Repo.SetNodeIntroSecret n s).
Proof. unfold Repo.SetNodeIntroSecret. solve_good. Qed.
Lemma good_NodesByUser u : good (Repo.NodesByUser u).
Proof. unfold Repo.NodesByUser. solve_good. Qed.
Lemma good_RevokeNode n : good (Repo.RevokeNode n).
Proof. unfold Repo.RevokeNode. solve_good. Qed.
Lemma good_SetNodePublicKey n k : good (Repo.SetNodePublicKey n k).
Proof. unfold Repo.SetNodePublicKey. solve_good. Qed.
Lemma good_UpdateNodePing n : good (Repo.UpdateNodePing n).
Proof. unfold Repo.UpdateNodePing. solve_good. Qed.
Lemma good_NodeByID n : good (Repo.NodeByID n).
Proof. unfold Repo.NodeByID. solve_good. Qed.
Lemma good_ResolveDeliveryTarget n : good (Repo.ResolveDeliveryTarget n).
Proof. unfold Repo.ResolveDeliveryTarget. solve_good. Qed.
Lemma good_UpsertSnapshot i n c p s : good (Repo.UpsertSnapshot i n c p s).
Proof. unfold Repo.UpsertSnapshot. solve_good. Qed.
Lemma good_ReplaceFTS5Row c t : good (Repo.ReplaceFTS5Row c t).
Proof. unfold Repo.ReplaceFTS5Row. solve_good. Qed.
Lemma good_UpsertVec0Embedding c e : good (Repo.UpsertVec0Embedding c e).
Proof. unfold Repo.UpsertVec0Embedding. solve_good. Qed.
Lemma good_InsertIntroductionRequest i c r n a b d : good (Repo.InsertIntroductionRequest i c r n a b d).
Proof. unfold Repo.InsertIntroductionRequest. solve_good. Qed.
Lemma good_IntroductionRequestByID i : good (Repo.IntroductionRequestByID i).
Proof. unfold Repo.IntroductionRequestByID. solve_good. Qed.
Lemma good_PendingIntroductionRequests n l : good (Repo.PendingIntroductionRequests n l).
Proof. unfold Repo.PendingIntroductionRequests. solve_good. Qed.
Lemma good_MarkIntroDelivered i : good (Repo.MarkIntroDelivered i).
Proof. unfold Repo.MarkIntroDelivered. solve_good. Qed.
Lemma good_MarkIntroRetrying i e t : good (Repo.MarkIntroRetrying i e t).
Proof. unfold Repo.MarkIntroRetrying. solve_good. Qed.
Lemma good_MarkIntroFailed i e : good (Repo.MarkIntroFailed i e).
Proof. unfold Repo.MarkIntroFailed. solve_good. Qed.
Lemma good_MarkIntroUndeliverable i e : good (Repo.MarkIntroUndeliverable i e).
Proof. unfold Repo.MarkIntroUndeliverable. solve_good. Qed.
Lemma good_InsertAuditLog a b c : good (Repo.InsertAuditLog a b c).
Proof. unfold Repo.InsertAuditLog. solve_good. Qed.

End Discipline.

#[export] Hint Resolve still_must_rand still_NewID still_GenerateToken still_GenerateUserCode
  good_affecting raw_affecting good_exec_ good_row_or_nil
  good_CreateUser good_InsertMagicToken good_ConsumeMagicToken good_CreateAPIToken
  good_APITokenByHash good_TouchAPIToken good_RevokeAPIToken good_InsertDeviceSession
  good_DeviceSessionByCodeHash good_DeviceSessionByUserCode good_ApproveDeviceSession
  good_ConsumeDeviceSession good_UpdateLastPoll good_UpdateNodeToken good_SetNodeUser
  good_RotateNodeIntroSecret good_SetNodeIntroSecret good_NodesByUser good_RevokeNode
  good_SetNodePublicKey good_UpdateNodePing good_NodeByID good_ResolveDeliveryTarget
  good_UpsertSnapshot good_ReplaceFTS5Row good_UpsertVec0Embedding
  good_InsertIntroductionRequest good_IntroductionRequestByID good_PendingIntroductionRequests
  good_MarkIntroDelivered good_MarkIntroRetrying good_MarkIntroFailed
  good_MarkIntroUndeliverable good_InsertAuditLog : good.

(** ** Lookups *)

Lemma head_sel_some {A} (p : A -> bool) t r : head (sel p t) = Some r -> r ∈ t /\ p r = true.
Proof.
  intros E. assert (r ∈ sel p t) as [? ?]%elem_of_sel; [|done].
  destruct (sel p t); simplify_eq/=. by apply elem_of_cons; left.
Qed.

Lemma head_sel_none {A} (p : A -> bool) t r : head (sel p t) = None -> r ∈ t -> p r = false.
Proof.
  intros E Hr. destruct (p r) eqn:Ep; [|done].
  assert (r ∈ sel p t) as Hin by (by apply elem_of_sel). destruct (sel p t); [by apply elem_of_nil in Hin|done].
Qed.

(** A lookup by a unique key finds the row that has it. *)
Lemma head_sel_key {A} (k : A -> string) t r v :
  NoDup (k <$> t) -> r ∈ t -> k r = v -> head (sel (fun x => str_eqb (k x) v) t) = Some r.
Proof.
  intros Hk Hr <-. destruct (head _) as [r'|] eqn:E.
  - apply head_sel_some in E as [Hr' Ek]. bool_prop. f_equal. by eapply NoDup_fmap_inj_on.
  - eapply head_sel_none in E; [|exact Hr]. by rewrite str_eqb_refl in E.
Qed.

Lemma sel_hit {A} (p : A -> bool) t : length (sel p t) <> 0%nat -> exists r, r ∈ t /\ p r = true.
Proof.
  intros Hn. destruct (sel p t) as [|r l] eqn:E; [done|]. exists r.
  assert (r ∈ sel p t) as [? ?]%elem_of_sel by (rewrite E; by apply elem_of_cons; left). done.
Qed.

Lemma sel_miss {A} (p : A -> bool) t : (forall r, r ∈ t -> p r = false) -> sel p t = [].
Proof. intros Hf. apply sel_nil_iff, has_false, Hf. Qed.

Lemma sel_app {A} (p : A -> bool) l l' : sel p (l ++ l') = sel p l ++ sel p l'.
Proof. apply filter_app. Qed.

Lemma upd_hit {A} (p : A -> bool) f t r : r ∈ t -> p r = true -> f r ∈ upd p f t.
Proof. intros Hr Hp. apply elem_of_upd. exists r. by rewrite Hp. Qed.

Lemma tracks_back {A} (key : A -> string) R (t t' : list A) r r' :
  tracks key R t t' -> NoDup (key <$> t') -> r ∈ t -> r' ∈ t' -> key r' = key r -> R r r'.
Proof.
  intros HT Hn Hr Hr' Ek. destruct (HT r Hr) as (x & Hx & Ex & HR).
  assert (x = r') as <-; [|done]. eapply NoDup_fmap_inj_on; eauto. congruence.
Qed.

(** ** Magic links *)

Section Magic.
Context `{Env, Engine}.

(** What a redemption that succeeds has done. *)
Lemma ConsumeMagicToken_some tok w mt w1 :
  db_wf (w_db w) -> Repo.ConsumeMagicToken tok w = (Ok (Some mt), w1) ->
  let now := unix (clock (w_tick w)) in
  exists m0, m0 ∈ magic_tokens (w_db w) /\ magic_usable (Repo.HashToken tok) now m0 = true /\
    mt = magic_used now m0 /\ mt ∈ magic_tokens (w_db w1) /\ evolves (w_db w) (w_db w1).
Proof.
  intros W E. pose proof (good_ConsumeMagicToken tok w) as Hg. rewrite E in Hg.
  unfold Repo.ConsumeMagicToken in E. inv_run.
  destruct (Hg ltac:(assumption)) as (Ev & _).
  match goal with Hn : (_ =? 0)%nat = false |- _ => apply Nat.eqb_neq, sel_hit in Hn as (m0 & Hm0 & Hu) end.
  unfold Repo.magic_by_hash in *. simpl in *.
  pose proof (upd_hit _ (magic_used (unix (clock (w_tick w)))) _ _ Hm0 Hu) as Hin.
  assert (mt = magic_used (unix (clock (w_tick w))) m0) as ->; [|eauto 10].
  eapply (head_sel_key m_hash) in Hin; [rewrite Hin in *; congruence|rewrite fmap_upd by done; apply W|].
  unfold magic_usable in Hu. by bool_prop.
Qed.

(** A spent link redeems nothing, whatever happened in between. *)
Lemma ConsumeMagicToken_spent tok w r w1 m :
  db_wf (w_db w) -> m ∈ magic_tokens (w_db w) -> m_hash m = Repo.HashToken tok -> m_used m <> None ->
  Repo.ConsumeMagicToken tok w = (Ok r, w1) -> r = None /\ w_db w1 = w_db w.
Proof.
  intros W Hm Hh Hu E. unfold Repo.ConsumeMagicToken in E. inv_run; [done|].
  match goal with Hn : (_ =? 0)%nat = false |- _ => apply Nat.eqb_neq, sel_hit in Hn as (m0 & Hm0 & Hu0) end.
  exfalso. unfold magic_usable in Hu0. bool_prop.
  assert (m0 = m) as ->; [|by destruct (m_used m)].
  eapply NoDup_fmap_inj_on; [apply W|done|done|congruence].
Qed.

(** A magic link is redeemed at most once.  After a redemption that succeeded, whatever
    statements run in between, at whatever time and with whatever failures, a further
    redemption of the same link that returns finds nothing and changes nothing. *)
Theorem magic_link_once tok w mt w1 w2 r w3 :
  db_wf (w_db w) -> Repo.ConsumeMagicToken tok w = (Ok (Some mt), w1) ->
  evolves (w_db w1) (w_db w2) -> Repo.ConsumeMagicToken tok w2 = (Ok r, w3) ->
  r = None /\ w_db w3 = w_db w2.
Proof.
  intros W E1 Ev E2. destruct (ConsumeMagicToken_some _ _ _ _ W E1) as (m0 & _ & Hu & -> & Hin & Ev1).
  assert (db_wf (w_db w2)) as W2 by (eapply evolves_preserves_wf; [by etrans|done]).
  destruct (fw_magic _ _ (evolves_moves_forward _ _ Ev) _ Hin) as (m2 & Hm2 & Ek & Hf).
  unfold magic_usable in Hu. bool_prop.
  eapply ConsumeMagicToken_spent; [done|exact Hm2| | |exact E2].
  - simpl in Ek. congruence.
  - destruct Hf as (_ & _ & _ & Hf). rewrite Hf; done.
Qed.

End Magic.

Definition linked_world : world :=
  @after _ (@Repo.InsertMagicToken sample_env sample_engine "tok" (Some "u1") None (900 * second)) start_world.

Lemma magic_link_once_witness :
  exists mt w1 r w3,
    @Repo.ConsumeMagicToken sample_env sample_engine "tok" linked_world = (Ok (Some mt), w1) /\
    @Repo.ConsumeMagicToken sample_env sample_engine "tok" w1 = (Ok r, w3) /\
    r = None /\ w_db w3 = w_db w1.
Proof.
  eexists _, _, _, _. split; [vm_compute; reflexivity|]. split; [vm_compute; reflexivity|].
  eapply (@magic_link_once sample_env sample_engine "tok" linked_world).
  - apply (@good_wf sample_env sample_engine); [apply good_InsertMagicToken|done|apply empty_db_wf].
  - vm_compute; reflexivity.
  - apply rtc_refl.
  - vm_compute; reflexivity.
Defined.

(** ** Revoking a node *)

Section Revoke.
Context `{Env, Engine}.

Lemma del_del {A} (p q : A -> bool) (t : list A) : del p (del q t) = del (fun r => q r || p r) t.
Proof.
  unfold del. induction t as [|r t IH]; [done|]. rewrite !filter_cons.
  destruct (q r) eqn:Eq; simpl; rewrite ?filter_cons;
    destruct (p r) eqn:Ep; simpl; rewrite ?IH; done.
Qed.

Lemma del_ext {A} (p q : A -> bool) (t : list A) : (forall r, p r = q r) -> del p t = del q t.
Proof. intros E. unfold del. apply list_filter_iff. intros r. by rewrite E. Qed.

Lemma ignore_stmt s w : exists d, ignore (sql_stmt s) w = (Ok tt, set_db d (tick w)) /\
  (d = w_db w \/ exists n, exec_stmt s (w_db w) = Some (d, n)) /\
  (sql_fails (w_tick w) = false -> forall d' n, exec_stmt s (w_db w) = Some (d', n) -> d = d').
Proof.
  unfold ignore, mbind, M_bind, try_, sql_stmt.
  destruct (sql_fails (w_tick w)) eqn:Ef; [exists (w_db w); split_and!; [by destruct w|by left|done]|].
  destruct (exec_stmt s (w_db w)) as [[d n]|] eqn:E.
  - exists d. split; [done|]. split; [eauto|]. intros _ d' n' [= <- _]. done.
  - exists (w_db w). split_and!; [by destruct w|by left|done].
Qed.

(** One round of the clean-up loop. *)
Definition forget (cid : string) : M unit :=
  ignore (sql_stmt (DeleteFts cid)) ;; ignore (sql_stmt (DeleteVec cid)).

Definition in_cids (cids : list string) (r : fts_row) : bool := existsb (str_eqb r.1) cids.

Lemma forget_spec cid w : exists w', forget cid w = (Ok tt, w') /\
  nodes (w_db w') = nodes (w_db w) /\ snapshots (w_db w') = snapshots (w_db w) /\
  ((forall k, sql_fails k = false) ->
   snapshots_fts (w_db w') = del (fun r => str_eqb r.1 cid) (snapshots_fts (w_db w))).
Proof.
  destruct (ignore_stmt (DeleteFts cid) w) as (d1 & E1 & C1 & F1).
  destruct (ignore_stmt (DeleteVec cid) (set_db d1 (tick w))) as (d2 & E2 & C2 & F2).
  exists (set_db d2 (tick (set_db d1 (tick w)))).
  unfold forget, mbind, M_bind. rewrite E1, E2. simpl in *. unfold deleting in *.
  assert (nodes d2 = nodes d1 /\ snapshots d2 = snapshots d1 /\ snapshots_fts d2 = snapshots_fts d1) as (-> & -> & ->).
  { destruct C2 as [->|[n E]]; [done|]. destruct (candidate_vec d1); simplify_eq. done. }
  split_and!; [done|by destruct C1 as [->|[n ?]]; simplify_eq..|].
  intros Hf. by rewrite (F1 (Hf _) _ _ eq_refl).
Qed.

Lemma forget_all_spec cids w : exists w', for_each cids forget w = (Ok tt, w') /\
  nodes (w_db w') = nodes (w_db w) /\ snapshots (w_db w') = snapshots (w_db w) /\
  ((forall k, sql_fails k = false) ->
   snapshots_fts (w_db w') = del (in_cids cids) (snapshots_fts (w_db w))).
Proof.
  revert w. induction cids as [|cid cids IH]; intros w.
  - exists w. split_and!; try done. intros _. unfold del, in_cids. simpl.
    induction (snapshots_fts (w_db w)) as [|r t IHt]; [done|]. rewrite filter_cons. simpl. by rewrite <- IHt.
  - simpl. destruct (forget_spec cid w) as (w1 & E1 & N1 & S1 & F1).
    destruct (IH w1) as (w2 & E2 & N2 & S2 & F2). exists w2.
    unfold mbind, M_bind. rewrite E1, E2, N2, S2, N1, S1. split_and!; try done.
    intros Hf. rewrite F2, F1, del_del by done. apply del_ext. intros r. done.
Qed.

Lemma RevokeNode_ok nodeID w u w' :
  Repo.RevokeNode nodeID w = (Ok u, w') ->
  has_node nodeID (w_db w) = true /\
  nodes (w_db w') = upd (node_is nodeID) (deactivated (unix (clock (w_tick w)))) (nodes (w_db w)) /\
  snapshots (w_db w') = del (fun s => str_eqb (s_node s) nodeID) (snapshots (w_db w)) /\
  ((forall k, sql_fails k = false) ->
   snapshots_fts (w_db w') = del (in_cids (Repo.candidates_of nodeID (w_db w))) (snapshots_fts (w_db w))).
Proof.
  intros E. unfold Repo.RevokeNode, affecting in E. fold forget in E. inv_run.
  match goal with Hl : for_each ?l _ ?w0 = (Ok _, ?w1) |- _ =>
    destruct (forget_all_spec l w0) as (w2 & E2 & N2 & S2 & F2); rewrite Hl in E2 end.
  simplify_eq. simpl in *. rewrite N2, S2 in *. split_and!; try done.
  match goal with Hn : (_ =? 0)%nat = false |- _ => apply Nat.eqb_neq, sel_hit in Hn as (n & ? & ?) end.
  unfold has_node. apply has_true. eauto.
Qed.

Lemma RevokeNode_not_ok nodeID w o w' :
  Repo.RevokeNode nodeID w = (o, w') -> (forall u, o <> Ok u) -> w_db w' = w_db w.
Proof.
  intros E Ho. unfold Repo.RevokeNode in E.
  unfold mbind at 1, M_bind at 1, unix_now, mbind at 1, M_bind at 1 in E. simpl in E.
  by eapply with_tx_not_ok in E; [exact E|solve_good|].
Qed.

(** C17: revoking a node is all or nothing.  If [RevokeNode] returns nil the node existed, it
    is inactive and stamped, none of its snapshots is left, every other node and snapshot is
    untouched, and (unless a statement failed) the full-text index lost exactly the node's
    candidates; in every other outcome the database is what it was. *)
Theorem revoke_node_atomic nodeID w :
  match Repo.RevokeNode nodeID w with
  | (Ok _, w') =>
      has_node nodeID (w_db w) = true /\
      nodes (w_db w') = upd (node_is nodeID) (deactivated (unix (clock (w_tick w)))) (nodes (w_db w)) /\
      snapshots (w_db w') = del (fun s => str_eqb (s_node s) nodeID) (snapshots (w_db w)) /\
      ((forall k, sql_fails k = false) ->
       snapshots_fts (w_db w')
         = del (in_cids (Repo.candidates_of nodeID (w_db w))) (snapshots_fts (w_db w)))
  | (_, w') => w_db w' = w_db w
  end.
Proof.
  destruct (Repo.RevokeNode nodeID w) as [[u|e|p|] w'] eqn:E; [by eapply RevokeNode_ok|by eapply RevokeNode_not_ok..].
Qed.

End Revoke.

(** ** User codes *)

Section UserCode.

Lemma char_at_inj i j : 0 <= i < 32 -> 0 <= j < 32 -> Repo.char_at i = Repo.char_at j -> i = j.
Proof.
  intros Hi Hj E.
  assert (forallb (fun i => forallb (fun j => negb (bool_decide (Repo.char_at i = Repo.char_at j)) || (i =? j))
    (seqZ 0 32)) (seqZ 0 32) = true) as Hc by (by vm_compute).
  rewrite forallb_forall in Hc. specialize (Hc i). rewrite forallb_forall in Hc.
  assert (forall k, 0 <= k < 32 -> In k (seqZ 0 32)) as Hs.
  { intros k Hk. apply list_elem_of_In, elem_of_seqZ. lia. }
  specialize (Hc (Hs i Hi) j (Hs j Hj)). apply orb_true_iff in Hc as [Hc|Hc]; bool_prop; done.
Qed.

Lemma length_code_chars k n acc : String.length (Repo.code_chars k n acc) = (k + String.length acc)%nat.
Proof. revert n acc. induction k as [|k IH]; intros; simpl; [done|]. rewrite IH. simpl. lia. Qed.

Lemma append_inj_len a b c d :
  String.length a = String.length c -> a ++s b = c ++s d -> a = c /\ b = d.
Proof.
  revert c. induction a as [|x a IH]; intros [|y c] Hl E; simplify_eq/=; [done|].
  edestruct IH; eauto. by subst.
Qed.

Lemma code_chars_acc k n acc : Repo.code_chars k n acc = Repo.code_chars k n EmptyString ++s acc.
Proof.
  revert n acc. induction k as [|k IH]; intros n acc; simpl; [done|].
  rewrite IH, (IH _ (String _ EmptyString)), append_assoc. done.
Qed.

(** The base-32 digits determine the number. *)
Lemma code_chars_inj k n m :
  0 <= n < 32 ^ Z.of_nat k -> 0 <= m < 32 ^ Z.of_nat k ->
  Repo.code_chars k n EmptyString = Repo.code_chars k m EmptyString -> n = m.
Proof.
  revert n m. induction k as [|k IH]; intros n m Hn Hm E.
  { change (32 ^ Z.of_nat 0) with 1 in *. lia. }
  simpl in E. rewrite code_chars_acc, (code_chars_acc _ (m / 32)) in E.
  apply append_inj_len in E as [E1 E2]; [|by rewrite !length_code_chars].
  rewrite Nat2Z.inj_succ, Z.pow_succ_r in Hn, Hm by lia.
  assert (n / 32 = m / 32).
  { apply IH; [| |done]; (split; [apply Z.div_pos; lia|apply Z.div_lt_upper_bound; lia]). }
  assert (n mod 32 = m mod 32).
  { injection E2. intros. apply char_at_inj; try apply Z.mod_pos_bound; done. }
  rewrite (Z.div_mod n 32), (Z.div_mod m 32) by lia. congruence.
Qed.

(** Three bytes as a number of 24 bits. *)
Lemma code_number_bytes a b c :
  Repo.code_number (String a (String b (String c EmptyString))) = byte_val a * 65536 + byte_val b * 256 + byte_val c.
Proof.
  pose proof (byte_val_range a). pose proof (byte_val_range b). pose proof (byte_val_range c).
  unfold Repo.code_number, Repo.byte_nth. simpl.
  rewrite !Z.shiftl_mul_pow2 by lia. change (2 ^ 16) with 65536. change (2 ^ 8) with 256.
  assert (forall x y k, 0 <= k -> 0 <= y < 2 ^ k -> Z.lor (x * 2 ^ k) y = x * 2 ^ k + y) as Hlor.
  { intros x y k Hk Hy. rewrite <- Z.add_lor_land.
    assert (Z.land (x * 2 ^ k) y = 0) as ->; [|lia].
    apply Z.bits_inj'. intros n Hn. rewrite Z.land_spec, Z.bits_0.
    destruct (Z.lt_ge_cases n k); [rewrite Z.mul_pow2_bits_low by lia; done|].
    replace y with (y mod 2 ^ k) by (apply Z.mod_small; lia).
    rewrite Z.mod_pow2_bits_high by lia. apply andb_false_r. }
  pose proof (Hlor (byte_val a) (byte_val b * 256) 16). pose proof (Hlor (byte_val a * 256 + byte_val b) (byte_val c) 8).
  change (2 ^ 16) with 65536 in *. change (2 ^ 8) with 256 in *.
  rewrite H2 by lia. replace (byte_val a * 65536 + byte_val b * 256) with ((byte_val a * 256 + byte_val b) * 256) by lia.
  rewrite H3 by lia. lia.
Qed.

Lemma three_bytes s : String.length s = 3%nat -> exists a b c, s = String a (String b (String c EmptyString)).
Proof. destruct s as [|a [|b [|c [|]]]]; simpl; intros; simplify_eq; eauto. Qed.

Lemma format_code_inj n m :
  0 <= n < 2 ^ 24 -> 0 <= m < 2 ^ 24 -> Repo.format_code n = Repo.format_code m -> n = m.
Proof.
  intros Hn Hm E. apply (code_chars_inj 8); [simpl Z.of_nat; lia..|].
  unfold Repo.format_code in E.
  apply append_inj_len in E as [E1 E2].
  - rewrite <- (Utf8.take_drop 4 (Repo.code_chars 8 n _)), <- (Utf8.take_drop 4 (Repo.code_chars 8 m _)), E1.
    by apply append_inj_l in E2 as ->.
  - by rewrite !Utf8.length_take, !length_code_chars.
Qed.

(** Two draws of three random bytes give the same user code only if they are the same
    bytes: the formatting loses none of the 24 bits. *)
Theorem user_code_injective b1 b2 :
  String.length b1 = 3%nat -> String.length b2 = 3%nat ->
  Repo.format_code (Repo.code_number b1) = Repo.format_code (Repo.code_number b2) -> b1 = b2.
Proof.
  intros (a1 & c1 & e1 & ->)%three_bytes (a2 & c2 & e2 & ->)%three_bytes E.
  pose proof (byte_val_range a1). pose proof (byte_val_range c1). pose proof (byte_val_range e1).
  pose proof (byte_val_range a2). pose proof (byte_val_range c2). pose proof (byte_val_range e2).
  rewrite !code_number_bytes in E. change (2 ^ 24) with 16777216 in *.
  apply format_code_inj in E; [|lia..].
  assert (byte_val a1 = byte_val a2 /\ byte_val c1 = byte_val c2 /\ byte_val e1 = byte_val e2) as (Ea & Ec & Ee) by lia.
  rewrite <- (byte_of_val a1), <- (byte_of_val c1), <- (byte_of_val e1), Ea, Ec, Ee.
  by rewrite !byte_of_val.
Qed.

Lemma user_code_injective_witness :
  Repo.format_code (Repo.code_number "abc") = "AAAG-C2VD" /\ "abc" = "abc".
Proof.
  split; [by vm_compute|]. by apply (user_code_injective "abc" "abc").
Defined.

(** Every user code starts with AAA: three of its eight characters carry nothing, the
    fourth is one of sixteen. *)
Theorem user_code_prefix b :
  String.length b = 3%nat ->
  has_prefix (Repo.format_code (Repo.code_number b)) "AAA" = true /\
  String.length (Repo.format_code (Repo.code_number b)) = 9%nat.
Proof.
  intros (a & c & e & ->)%three_bytes. rewrite code_number_bytes.
  pose proof (byte_val_range a). pose proof (byte_val_range c). pose proof (byte_val_range e).
  set (n := _ + byte_val e). assert (0 <= n < 2 ^ 24) as Hn by (subst n; lia). clearbody n. split.
  - unfold Repo.format_code. simpl.
    assert (forall i, 2 ^ 25 <= i -> n / i = 0) as Hz.
    { intros i Hi. apply Z.div_small. lia. }
    rewrite !Z.div_div by lia. rewrite !Hz by lia. done.
  - unfold Repo.format_code. rewrite !length_append, Utf8.length_take, Utf8.length_drop, length_code_chars. done.
Qed.

Lemma user_code_prefix_witness : has_prefix (Repo.format_code (Repo.code_number "xyz")) "AAA" = true.
Proof. by apply (user_code_prefix "xyz"). Defined.

End UserCode.

(** ** Runs in which statements and draws succeed *)

Section ReliableRuns.
Context `{Env, Engine}.
Context (Hsql : forall k, sql_fails k = false) (Hrand : forall k n, entropy k n <> None).

Lemma run_NewID w : exists b, entropy (w_tick w) 16 = Some b /\ Repo.NewID w = (Ok (Hex.encode b), tick w).
Proof.
  unfold Repo.NewID, Repo.must_rand, rand_read, next_tick, try_, mbind, M_bind. simpl.
  destruct (entropy (w_tick w) 16) as [b|] eqn:E; [by eexists|]. by apply Hrand in E.
Qed.

(** The audit entry changes nothing a delivery looks at. *)
Lemma run_audit u a t w :
  w_conn w = true ->
  exists w1 f, ignore (Repo.InsertAuditLog u a t) w = (Ok tt, w1) /\ w_db w1 = set_audit f (w_db w) /\
    w_conn w1 = true /\ w_sent w1 = w_sent w.
Proof.
  intros Hc. unfold Repo.InsertAuditLog. destruct (run_NewID w) as (b & _ & E). rewrite (ignore_bind _ _ _ _ _ E).
  erewrite ignore_bind by reflexivity. unfold Repo.exec_, ignore, db_exec, with_conn, sql_stmt, try_, mbind, M_bind.
  simpl. rewrite Hc, Hsql. simpl. unfold inserting. destruct (_ && _); simpl.
  - by eexists _, _.
  - eexists _, id. split; [reflexivity|]. simpl. by destruct (w_db w).
Qed.

Lemma run_GenerateToken w : exists b, entropy (w_tick w) 32 = Some b /\ Repo.GenerateToken w = (Ok (Hex.encode b), tick w).
Proof.
  unfold Repo.GenerateToken, Repo.must_rand, rand_read, next_tick, try_, mbind, M_bind. simpl.
  destruct (entropy (w_tick w) 32) as [b|] eqn:E; [by eexists|]. by apply Hrand in E.
Qed.

End ReliableRuns.
