(* ===== verification/Auth.v ===== *)
(** * Authentication (src/internal/auth)

    [Mailer] and [NewMailer] are mailer.go; the Module [Service] is service.go: magic links,
    the device-authorization flow and the tokens they mint. *)

From S2P Require Import Prelude RateLimit AdminStore Schema Statements Invariants World.
From S2P Require Import GoStrings GoJson Sha256 Float Runs Repo.

Open Scope Z_scope.

Definition crlf : string := String (ascii_of_nat 13) (String (ascii_of_nat 10) EmptyString).
Definition lf : string := String (ascii_of_nat 10) EmptyString.

(** ** mailer.go *)

Record SMTPMailer := mkSMTP { sm_Host : string; sm_Port : Z; sm_User : string; sm_Pass : string; sm_From : string }.
Record ResendMailer := mkResend { rm_APIKey : string; rm_From : string }.
Record PurelymailMailer := mkPurelymail { pm_APIToken : string; pm_From : string }.

Inductive Mailer :=
| Noop
| SMTP (m : SMTPMailer)
| Resend (m : ResendMailer)
| Purelymail (m : PurelymailMailer).

Record MailerConfig := mkMailerConfig {
  mc_Provider : string;
  mc_ResendAPIKey : string;
  mc_PurelymailAPIToken : string;
  mc_SMTPHost : string;
  mc_SMTPPort : Z;
  mc_SMTPUser : string;
  mc_SMTPPass : string;
  mc_SMTPFrom : string }.

Definition NewMailer (cfg : MailerConfig) : Mailer :=
  let resend := Resend (mkResend (mc_ResendAPIKey cfg) (mc_SMTPFrom cfg)) in
  let purelymail := Purelymail (mkPurelymail (mc_PurelymailAPIToken cfg) (mc_SMTPFrom cfg)) in
  let smtp := SMTP (mkSMTP (mc_SMTPHost cfg) (mc_SMTPPort cfg) (mc_SMTPUser cfg) (mc_SMTPPass cfg)
                      (mc_SMTPFrom cfg)) in
  if str_eqb (mc_Provider cfg) "resend" then resend
  else if str_eqb (mc_Provider cfg) "purelymail" then purelymail
  else if str_eqb (mc_Provider cfg) "smtp" then smtp
  else if negb (is_empty (mc_ResendAPIKey cfg)) then resend
  else if negb (is_empty (mc_PurelymailAPIToken cfg)) then purelymail
  else if negb (is_empty (mc_SMTPHost cfg)) then smtp
  else Noop.

Definition mail_subject : string := "HireBridge — Your Login Link".

Definition smtp_message (from email link : string) : string :=
  str_join crlf
    [ "From: " ++s from;
      "To: " ++s email;
      "Subject: " ++s mail_subject;
      "MIME-Version: 1.0";
      "Content-Type: text/plain; charset=UTF-8";
      EmptyString;
      "Click the link below to log in to HireBridge:";
      EmptyString;
      link;
      EmptyString;
      "This link expires in 15 minutes. If you did not request this, ignore this email." ].

Definition mail_text (link : string) : string :=
  "Click the link below to log in to HireBridge:" ++s lf ++s lf ++s link ++s lf ++s lf
  ++s "This link expires in 15 minutes. If you did not request this, ignore this email.".

Definition mail_payload (from email link : string) : string :=
  encode (jmap [("from", JStr from); ("to", JStr email); ("subject", JStr mail_subject);
                ("text", JStr (mail_text link))]).

Section Mail.
Context `{Env, Engine}.

(** The common part of the two HTTP mailers: POST and require a 2xx. *)
Definition post_mail (who : string) (rq : http_request) : M unit :=
  r ← http_send rq;
  match r with
  | inl msg => throw (ErrWrap (who ++s ": post") (ErrText msg))
  | inr (status, body) =>
      if (status <? 200) || (300 <=? status)
      then throw (ErrText (who ++s ": http " ++s itoa status ++s ": " ++s limit_read 4096 body))
      else mret tt
  end.

Definition SendMagicLink (m : Mailer) (email link : string) : M unit :=
  match m with
  | Noop => mret tt
  | SMTP s => send_mail email (smtp_message (sm_From s) email link)
  | Resend r =>
      post_mail "resend" (HttpRequest "POST" "https://api.resend.com/emails"
        [("Authorization", "Bearer " ++s rm_APIKey r); ("Content-Type", "application/json")]
        (mail_payload (rm_From r) email link))
  | Purelymail p =>
      post_mail "purelymail" (HttpRequest "POST" "https://purelymail.com/api/v0/sendMessage"
        [("Purelymail-Token", pm_APIToken p); ("Content-Type", "application/json")]
        (mail_payload (pm_From p) email link))
  end.

End Mail.

(** ** service.go *)

Record CallbackResult := mkCallback {
  cr_AccessToken : string;
  cr_NodeToken : string;
  cr_NodeID : string;
  cr_UserID : string;
  cr_DeviceApproved : bool;
  cr_PendingDevice : bool;
  cr_IntroSecret : string }.

Record DeviceInitResponse := mkDeviceInit {
  di_DeviceCode : string;
  di_UserCode : string;
  di_VerificationURI : string;
  di_VerificationURIComplete : string;
  di_ExpiresIn : Z;
  di_Interval : Z }.

Record TokenPollResponse := mkPoll {
  tp_AccessToken : string;
  tp_NodeID : string;
  tp_TokenType : string;
  tp_ExpiresIn : Z;
  tp_Scope : string;
  tp_IntroSecret : string;
  tp_Error : string;
  tp_Interval : Z }.

Definition poll_error (e : string) (interval : Z) : TokenPollResponse :=
  mkPoll EmptyString EmptyString EmptyString 0 EmptyString EmptyString e interval.

Record AuthService := mkService {
  svc_Mailer : Mailer;
  svc_BaseURL : string;
  svc_MagicTTL : Z }.

Module Service.
Section Service.
Context `{Env, Engine}.

Definition resolveDeviceUserCode (userCode : string) : M (option string) :=
  if is_empty userCode then mret None
  else ds ← Repo.DeviceSessionByUserCode userCode; mret (d_hash <$> ds).

Definition callback_link (s : AuthService) (token : string) : string :=
  svc_BaseURL s ++s "/auth/callback?token=" ++s token.

Definition RequestMagicLink (s : AuthService) (email userCode : string) : M unit :=
  deviceCodeHash ← wrap "resolve device" (resolveDeviceUserCode userCode);
  userID ← wrap "create user" (Repo.CreateUser email);
  token ← Repo.GenerateToken;
  _ ← wrap "insert magic token" (Repo.InsertMagicToken token (Some userID) deviceCodeHash (svc_MagicTTL s));
  SendMagicLink (svc_Mailer s) email (callback_link s token).

(** Give the node of a device session its token, its owner and a fresh secret. *)
Definition approveDevice (codeHash userID : string) : M CallbackResult :=
  _ ← wrap "approve device session" (Repo.ApproveDeviceSession codeHash userID);
  '(rawToken, _) ← wrap "create user token" (Repo.CreateAPIToken userID None "magic-link" "all");
  ds ← try_ (Repo.DeviceSessionByCodeHash codeHash);
  match ds with
  | inr (Some s) =>
      match d_node s with
      | Some nodeID =>
          '(rawNodeToken, nt) ← wrap "create node token"
            (Repo.CreateAPIToken userID (Some nodeID) "device-node" "node:push");
          _ ← wrap "update node token" (Repo.UpdateNodeToken nodeID (t_hash nt));
          _ ← wrap "set node user" (Repo.SetNodeUser nodeID userID);
          introSecret ← wrap "rotate intro secret" (Repo.RotateNodeIntroSecret nodeID);
          _ ← ignore (Repo.InsertAuditLog userID "device_approved" nodeID);
          mret (mkCallback rawToken rawNodeToken nodeID userID true false introSecret)
      | None => mret (mkCallback rawToken EmptyString EmptyString userID true false EmptyString)
      end
  | _ => mret (mkCallback rawToken EmptyString EmptyString userID true false EmptyString)
  end.

Definition VerifyMagicCallback (token : string) : M (option CallbackResult) :=
  mt ← wrap "consume token" (Repo.ConsumeMagicToken token);
  match mt with
  | None => mret None
  | Some m =>
      match m_user m with
      | None => mret (Some (mkCallback EmptyString EmptyString EmptyString EmptyString false
                              (negb (is_null (m_device m))) EmptyString))
      | Some userID =>
          match m_device m with
          | Some codeHash => r ← approveDevice codeHash userID; mret (Some r)
          | None =>
              '(rawToken, _) ← wrap "create user token" (Repo.CreateAPIToken userID None "magic-link" "all");
              _ ← ignore (Repo.InsertAuditLog userID "login" "magic-link");
              mret (Some (mkCallback rawToken EmptyString EmptyString userID false false EmptyString))
          end
      end
  end.

Definition InitiateDeviceFlow (s : AuthService) (nodeType endpointURL : string)
    (publicKey : option string) : M DeviceInitResponse :=
  '(deviceCode, userCode) ← wrap "insert device session"
    (Repo.InsertDeviceSession (Repo.null_string nodeType) (Repo.null_string endpointURL) publicKey
       (svc_MagicTTL s));
  mret (mkDeviceInit deviceCode userCode (svc_BaseURL s ++s "/device")
          (svc_BaseURL s ++s "/device?uc=" ++s userCode) (seconds_of (svc_MagicTTL s)) 5).

Definition handlePollPending (ds : device_session) (codeHash : string) (now : Z) : M TokenPollResponse :=
  if d_expires ds <? now then mret (poll_error "expired_token" 0)
  else
    let interval := d_interval ds in
    if match d_lastpoll ds with Some t => now - t <? interval | None => false end
    then mret (poll_error "slow_down" (interval + 5))
    else
      _ ← wrap "update last poll" (Repo.UpdateLastPoll codeHash);
      mret (poll_error "authorization_pending" interval).

Definition handlePollApproved (codeHash : string) : M TokenPollResponse :=
  consumed ← wrap "consume device session" (Repo.ConsumeDeviceSession codeHash);
  match d_user consumed with
  | None => mret (poll_error "expired_token" 0)
  | Some userID =>
      '(rawUserToken, _) ← wrap "create user api token" (Repo.CreateAPIToken userID None "device-flow" "all");
      match d_node consumed with
      | Some nodeID =>
          '(rawNodeToken, nt) ← wrap "create node token"
            (Repo.CreateAPIToken userID (Some nodeID) "device-node" "node:push");
          _ ← wrap "update node token" (Repo.UpdateNodeToken nodeID (t_hash nt));
          _ ← wrap "set node user" (Repo.SetNodeUser nodeID userID);
          introSecret ← wrap "rotate intro secret" (Repo.RotateNodeIntroSecret nodeID);
          mret (mkPoll rawNodeToken nodeID "Bearer" 0 "node:push" introSecret EmptyString 0)
      | None => mret (mkPoll rawUserToken EmptyString "Bearer" 0 "all" EmptyString EmptyString 0)
      end
  end.

Definition PollToken (deviceCode : string) : M TokenPollResponse :=
  let codeHash := Repo.HashToken deviceCode in
  ds ← wrap "lookup device session" (Repo.DeviceSessionByCodeHash codeHash);
  match ds with
  | None => mret (poll_error "expired_token" 0)
  | Some s =>
      now ← unix_now;
      match d_status s with
      | DPending => handlePollPending s codeHash now
      | DApproved => handlePollApproved codeHash
      | DDenied => mret (poll_error "access_denied" 0)
      | DExpired | DConsumed => mret (poll_error "expired_token" 0)
      end
  end.

End Service.
End Service.
