(* ===== verification/AuthFacts.v ===== *)
(** * What the authentication service guarantees

    The pool discipline of every operation, what a minted token is bound to, and the device
    flow as a state machine: what a poll answers in every state, and that a device code is
    exchanged at most once by polls that do not overlap. *)

From S2P Require Import Prelude RateLimit AdminStore Schema Statements Invariants World.
From S2P Require Import GoStrings GoJson Sha256 Float Runs Samples Repo RepoFacts Auth.

Open Scope Z_scope.

Section Discipline.
Context `{Env, Engine}.

Lemma still_SendMagicLink m e l : still (SendMagicLink m e l).
Proof. unfold SendMagicLink, post_mail. solve_good. Qed.
Hint Resolve still_SendMagicLink : good.

Lemma good_RequestMagicLink s e uc : good (Service.RequestMagicLink s e uc).
Proof. unfold Service.RequestMagicLink, Service.resolveDeviceUserCode. solve_good. Qed.
Lemma good_approveDevice h u : good (Service.approveDevice h u).
Proof. unfold Service.approveDevice. solve_good. Qed.
Hint Resolve good_approveDevice : good.
Lemma good_VerifyMagicCallback t : good (Service.VerifyMagicCallback t).
Proof. unfold Service.VerifyMagicCallback. solve_good. Qed.
Lemma good_InitiateDeviceFlow s t e k : good (Service.InitiateDeviceFlow s t e k).
Proof. unfold Service.InitiateDeviceFlow. solve_good. Qed.
Lemma good_handlePollPending s h n : good (Service.handlePollPending s h n).
Proof. unfold Service.handlePollPending. solve_good. Qed.
Lemma good_handlePollApproved h : good (Service.handlePollApproved h).
Proof. unfold Service.handlePollApproved. solve_good. Qed.
Hint Resolve good_handlePollPending good_handlePollApproved : good.
Lemma good_PollToken c : good (Service.PollToken c).
Proof. unfold Service.PollToken. solve_good. Qed.

End Discipline.

#[export] Hint Resolve still_SendMagicLink good_RequestMagicLink good_approveDevice
  good_VerifyMagicCallback good_InitiateDeviceFlow good_handlePollPending good_handlePollApproved
  good_PollToken : good.

(** ** What a run leaves behind *)

Section Evolution.
Context `{Env, Engine}.

(** A good call that found the connection free. *)
Lemma good_evolves {A} (m : M A) w o w' :
  good m -> m w = (o, w') -> w_conn w = true -> evolves (w_db w) (w_db w').
Proof. intros Hm E Hc. destruct (Hm w Hc) as (Ev & _). by rewrite E in Ev. Qed.

Lemma row_or_nil_ok {A} (f : db -> option A) w o w' :
  row_or_nil (db_query_row f) w = (Ok o, w') -> w_conn w = true /\ o = f (w_db w) /\ w' = tick w.
Proof.
  intros (r & w1 & [(a & -> & Hq)|(e & -> & Hq)]%try_ok & Hk)%bind_ok.
  - apply ret_ok in Hk as [-> ->]. apply db_query_row_ok in Hq as (? & -> & ->). done.
  - apply db_query_row_err in Hq as (? & -> & [->|[-> Hf]]).
    + by apply throw_ok in Hk.
    + apply ret_ok in Hk as [-> ->]. by rewrite Hf.
Qed.

(** A session that was consumed, or that was not there to consume. *)
Lemma ConsumeDeviceSession_ok h w ds w1 :
  db_wf (w_db w) -> Repo.ConsumeDeviceSession h w = (Ok ds, w1) ->
  exists s, s ∈ device_sessions (w_db w) /\ d_hash s = h /\
    ds = (if dev_consumable h s then dev_consumed (unix (clock (w_tick w))) s else s) /\
    ds ∈ device_sessions (w_db w1) /\ w_conn w = true /\ w_conn w1 = true.
Proof.
  intros W E. unfold Repo.ConsumeDeviceSession in E. inv_run.
  match goal with Hh : Some _ = Repo.device_by_hash _ _ |- _ => symmetry in Hh; rename Hh into Hq end.
  unfold Repo.device_by_hash in Hq. simpl in Hq. apply head_sel_some in Hq as [Hin Hk]. bool_prop.
  pose proof Hin as (s & Hs & ->)%elem_of_upd. exists s. split_and!; try done.
  by destruct (dev_consumable _ s).
Qed.

Lemma CreateAPIToken_ok u nid l s w tok at_ w1 :
  Repo.CreateAPIToken u nid l s w = (Ok (tok, at_), w1) ->
  APIToken (Repo.HashToken tok) u nid (Some l) (Some s) (t_created at_) None None ∈ api_tokens (w_db w1)
  /\ t_hash at_ = Repo.HashToken tok /\ w_conn w = true /\ w_conn w1 = true.
Proof.
  intros E. unfold Repo.CreateAPIToken, Repo.GenerateToken, Repo.must_rand in E. inv_run.
  split_and!; try done. apply elem_of_app. right. by apply list_elem_of_singleton.
Qed.

End Evolution.

(** ** The device flow *)

Section Device.
Context `{Env, Engine}.

Lemma wrap_row_ok {A} c (f : db -> option A) w o w' :
  wrap c (row_or_nil (db_query_row f)) w = (Ok o, w') -> w_conn w = true /\ o = f (w_db w) /\ w' = tick w.
Proof. intros E%wrap_ok. by apply row_or_nil_ok. Qed.

(** A token row keeps what it is bound to. *)
Lemma token_persists t d d' :
  t ∈ api_tokens d -> evolves d d' ->
  exists t', t' ∈ api_tokens d' /\ t_hash t' = t_hash t /\ t_user t' = t_user t /\
    t_node t' = t_node t /\ t_scope t' = t_scope t.
Proof.
  intros Ht Ev. destruct (fw_api _ _ (evolves_moves_forward _ _ Ev) _ Ht) as (t' & ? & ? & ? & ? & ? & _). eauto 10.
Qed.

Lemma session_persists s d d' :
  s ∈ device_sessions d -> dev_rank (d_status s) = 2%nat -> evolves d d' ->
  exists s', s' ∈ device_sessions d' /\ d_hash s' = d_hash s /\ dev_rank (d_status s') = 2%nat.
Proof.
  intros Hs Hr Ev. destruct (fw_devices _ _ (evolves_moves_forward _ _ Ev) _ Hs) as (s' & ? & ? & ? & ? & ? & ? & ? & Hf).
  exists s'. split_and!; try done. destruct (Hf Hr) as [-> _]. done.
Qed.

(** Tokens are minted for an approved session only, and the session is then consumed. *)
Lemma handlePollApproved_token h w r w1 :
  db_wf (w_db w) -> Service.handlePollApproved h w = (Ok r, w1) -> tp_Error r = EmptyString ->
  exists s u, s ∈ device_sessions (w_db w) /\ d_hash s = h /\ dev_rank (d_status s) <> 0%nat /\ d_user s = Some u /\
    (exists s', s' ∈ device_sessions (w_db w1) /\ d_hash s' = h /\ dev_rank (d_status s') = 2%nat) /\
    (exists t, t ∈ api_tokens (w_db w1) /\ t_hash t = Repo.HashToken (tp_AccessToken r) /\
       t_user t = u /\ t_node t = d_node s /\ t_scope t = Some (tp_Scope r)) /\
    tp_Scope r = (match d_node s with Some _ => "node:push" | None => "all" end).
Proof.
  intros W E Hr. unfold Service.handlePollApproved in E.
  apply bind_ok in E as (ds & w2 & Ec%wrap_ok & E).
  pose proof (good_evolves _ _ _ _ (good_ConsumeDeviceSession h) Ec) as Ev2.
  apply (ConsumeDeviceSession_ok _ _ _ _ W) in Ec as (s & Hs & Hh & -> & Hin & Hc & Hc2).
  specialize (Ev2 Hc).
  assert (W2 : db_wf (w_db w2)) by (by eapply evolves_preserves_wf).
  set (ds := if dev_consumable h s then _ else s) in *.
  assert (Hds : d_user ds = d_user s /\ d_node ds = d_node s /\ d_hash ds = h) by (unfold ds; by destruct (dev_consumable h s)).
  destruct Hds as (Hu & Hn & Hk). rewrite Hu, Hn in E.
  destruct (wf_devices_rows _ W _ Hs) as (_ & _ & L).
  destruct (d_user s) as [u|] eqn:Eu; [|by apply ret_ok in E as [-> _]].
  assert (Hrank : dev_rank (d_status s) <> 0%nat /\ dev_rank (d_status ds) = 2%nat).
  { unfold device_lifecycle in L. unfold ds, dev_consumable. rewrite Hh, str_eqb_refl. simpl.
    destruct (d_status s) eqn:Es; try done; [destruct L; congruence|].
    split; [done|]. rewrite bool_decide_false by done. by rewrite Es. }
  destruct Hrank as [Hr0 Hr2]. exists s, u.
  apply bind_ok in E as ([tok at_] & w3 & Et%wrap_ok & E).
  pose proof (good_evolves _ _ _ _ (good_CreateAPIToken _ _ _ _) Et Hc2) as Ev3.
  destruct (CreateAPIToken_ok _ _ _ _ _ _ _ _ Et) as (Ht & _ & _ & Hc3).
  assert (Hpost : evolves (w_db w2) (w_db w1) /\
    (exists t, t ∈ api_tokens (w_db w1) /\ t_hash t = Repo.HashToken (tp_AccessToken r) /\
       t_user t = u /\ t_node t = d_node s /\ t_scope t = Some (tp_Scope r)) /\
    tp_Scope r = (match d_node s with Some _ => "node:push" | None => "all" end)).
  { destruct (d_node s) as [nodeID|].
    - apply bind_ok in E as ([tok' at_'] & w4 & En%wrap_ok & E).
      pose proof (good_evolves _ _ _ _ (good_CreateAPIToken _ _ _ _) En Hc3) as Ev4.
      destruct (CreateAPIToken_ok _ _ _ _ _ _ _ _ En) as (Ht' & _ & _ & Hc4).
      assert (Ev5 : evolves (w_db w4) (w_db w1)).
      { eapply good_evolves; [|exact E|done]. solve_good. }
      assert (r = mkPoll tok' nodeID "Bearer" 0 "node:push" (tp_IntroSecret r) EmptyString 0) as ->.
      { by repeat (apply bind_ok in E as (? & ? & _ & E)); apply ret_ok in E as [-> _]. }
      split; [by etrans; [|etrans]|]. split; [|done].
      destruct (token_persists _ _ _ Ht' Ev5) as (t & ? & ? & ? & ? & ?). by exists t.
    - apply ret_ok in E as [-> ->]. split; [done|]. split; [|done]. by eexists. }
  destruct Hpost as (Ev & Hpost & Hsc). split_and!; try done.
  destruct (session_persists _ _ _ Hin Hr2 Ev) as (s' & ? & ? & ?). exists s'. split_and!; congruence.
Qed.

(** The four answers of a poll, by the state of the session. *)
Lemma PollToken_cases dc w r w1 :
  Service.PollToken dc w = (Ok r, w1) ->
  w_conn w = true /\
  match Repo.device_by_hash (Repo.HashToken dc) (w_db w) with
  | None => r = poll_error "expired_token" 0 /\ w_db w1 = w_db w
  | Some s =>
      match d_status s with
      | DPending => Service.handlePollPending s (Repo.HashToken dc) (unix (clock (S (w_tick w)))) (tick (tick w)) = (Ok r, w1)
      | DApproved => Service.handlePollApproved (Repo.HashToken dc) (tick (tick w)) = (Ok r, w1)
      | DDenied => r = poll_error "access_denied" 0 /\ w_db w1 = w_db w
      | DExpired | DConsumed => r = poll_error "expired_token" 0 /\ w_db w1 = w_db w
      end
  end.
Proof.
  unfold Service.PollToken. intros (ds & w2 & (Hc & -> & ->)%wrap_row_ok & E)%bind_ok. split; [done|].
  destruct (Repo.device_by_hash _ _) as [s|]; [|by apply ret_ok in E as [-> ->]].
  apply bind_ok in E as (now & w3 & [-> ->]%unix_now_ok & E).
  destruct (d_status s); done || by apply ret_ok in E as [-> ->].
Qed.

Lemma handlePollPending_error s h now w r w1 :
  Service.handlePollPending s h now w = (Ok r, w1) -> tp_Error r <> EmptyString.
Proof.
  unfold Service.handlePollPending. intros E.
  repeat case_match; first [by apply ret_ok in E as [-> _]|by apply bind_ok in E as (? & ? & _ & [-> _]%ret_ok)].
Qed.

Lemma device_by_hash_in h d s : Repo.device_by_hash h d = Some s -> s ∈ device_sessions d /\ d_hash s = h.
Proof. intros [? ?]%head_sel_some. by bool_prop. Qed.

Lemma device_by_hash_key d s :
  db_wf d -> s ∈ device_sessions d -> Repo.device_by_hash (d_hash s) d = Some s.
Proof. intros W Hs. by apply (head_sel_key d_hash); [apply W|..]. Qed.

(** A poll answers with a token for an approved session only. *)
Lemma PollToken_token dc w r w1 :
  Service.PollToken dc w = (Ok r, w1) -> tp_Error r = EmptyString ->
  w_conn w = true /\ (exists s, Repo.device_by_hash (Repo.HashToken dc) (w_db w) = Some s /\ d_status s = DApproved) /\
  Service.handlePollApproved (Repo.HashToken dc) (tick (tick w)) = (Ok r, w1).
Proof.
  intros E Hr. apply PollToken_cases in E as [Hc E]. split; [done|].
  destruct (Repo.device_by_hash _ _) as [s|]; [|by destruct E as [-> _]].
  destruct (d_status s) eqn:Es; try (by destruct E; simplify_eq); [by apply handlePollPending_error in E|eauto].
Qed.

(** C21: a poll that answers with a token does so for an approved session: the token is
    stored hashed, belongs to the user who approved, is bound to the session's node with
    scope [node:push] when there is one and has scope [all] otherwise. *)
Theorem poll_token_binding dc w r w1 :
  db_wf (w_db w) -> Service.PollToken dc w = (Ok r, w1) -> tp_Error r = EmptyString ->
  exists s u t, s ∈ device_sessions (w_db w) /\ d_hash s = Repo.HashToken dc /\ d_status s = DApproved /\
    d_user s = Some u /\ t ∈ api_tokens (w_db w1) /\ t_hash t = Repo.HashToken (tp_AccessToken r) /\
    t_user t = u /\ t_node t = d_node s /\
    t_scope t = Some (match d_node s with Some _ => "node:push" | None => "all" end).
Proof.
  intros W E Hr. destruct (PollToken_token _ _ _ _ E Hr) as (_ & (s & Hs & Hst) & Ea).
  apply handlePollApproved_token in Ea as (s' & u & Hs' & Hh & _ & Hu & _ & (t & ? & ? & ? & ? & ?) & Hsc); [|done..].
  apply device_by_hash_in in Hs as [Hs Hhs]. simpl in Hs'.
  assert (s' = s) as -> by (eapply (NoDup_fmap_inj_on d_hash); [apply W|done..|congruence]).
  exists s, u, t. rewrite <- Hsc. by split_and!.
Qed.

(** C7: a device code is exchanged at most once by polls that do not overlap: after a poll
    that answered with a token, whatever runs in between, every later poll that returns says
    [expired_token] and changes nothing. *)
Theorem device_code_once dc w r w1 w2 r2 w3 :
  db_wf (w_db w) -> Service.PollToken dc w = (Ok r, w1) -> tp_Error r = EmptyString ->
  evolves (w_db w1) (w_db w2) -> Service.PollToken dc w2 = (Ok r2, w3) ->
  r2 = poll_error "expired_token" 0 /\ w_db w3 = w_db w2.
Proof.
  intros W E Hr Ev E2. pose proof (good_evolves _ _ _ _ (good_PollToken dc) E) as Ev1.
  destruct (PollToken_token _ _ _ _ E Hr) as (Hc & _ & Ea). specialize (Ev1 Hc).
  apply handlePollApproved_token in Ea as (_ & _ & _ & _ & _ & _ & (s & Hs & Hh & Hk) & _); [|done..].
  destruct (session_persists _ _ _ Hs Hk Ev) as (s2 & Hs2 & Hh2 & Hk2).
  assert (W2 : db_wf (w_db w2)) by (eapply evolves_preserves_wf; [by etrans|done]).
  apply PollToken_cases in E2 as [_ E2]. rewrite <- Hh, <- Hh2, device_by_hash_key in E2 by done.
  destruct (wf_devices_rows _ W2 _ Hs2) as (_ & _ & L). unfold device_lifecycle in L.
  by destruct (d_status s2).
Qed.

(** What a pending session answers at [now], and what becomes of the database when the poll
    is stamped at [stamp]. *)
Definition pending_answer (s : device_session) (now stamp : Z) : TokenPollResponse * (db -> db) :=
  if d_expires s <? now then (poll_error "expired_token" 0, id)
  else if match d_lastpoll s with Some t => now - t <? d_interval s | None => false end
  then (poll_error "slow_down" (d_interval s + 5), id)
  else (poll_error "authorization_pending" (d_interval s),
        set_devices (upd (fun x => str_eqb (d_hash x) (d_hash s)) (dev_polled stamp))).

(** A poll of a pending session.  Past its expiry it answers [expired_token]; within the
    interval of the previous poll, [slow_down] with five more seconds; otherwise
    [authorization_pending], and only then the time of the poll is stamped.  It never
    answers with a token and never touches the session's status. *)
Theorem poll_pending dc w r w1 s :
  Repo.device_by_hash (Repo.HashToken dc) (w_db w) = Some s -> d_status s = DPending ->
  Service.PollToken dc w = (Ok r, w1) ->
  let answer := pending_answer s (unix (clock (S (w_tick w)))) (unix (clock (S (S (w_tick w))))) in
  r = answer.1 /\ w_db w1 = answer.2 (w_db w) /\ tp_Error r <> EmptyString.
Proof.
  intros Hs Hp E. apply PollToken_cases in E as [_ E]. rewrite Hs, Hp in E.
  pose proof (handlePollPending_error _ _ _ _ _ _ E).
  apply device_by_hash_in in Hs as [_ Hh]. unfold pending_answer. rewrite Hh.
  unfold Service.handlePollPending in E.
  destruct (d_expires s <? _); [by apply ret_ok in E as [-> ->]|].
  destruct (match d_lastpoll s with Some _ => _ | None => _ end); [by apply ret_ok in E as [-> ->]|].
  unfold Repo.UpdateLastPoll, exec_ in E. by inv_run.
Qed.

End Device.

(** *** Witnesses *)

Section Witnesses.
#[local] Existing Instance sample_env.
#[local] Existing Instance sample_engine.

Definition node_flow : M TokenPollResponse :=
  '(dc, uc) ← Repo.InsertDeviceSession (Some "LivingCV") (Some "https://cv.example") None (900 * second);
  u ← Repo.CreateUser "ada@example.org";
  _ ← Repo.ApproveDeviceSession (Repo.HashToken dc) u;
  mret (poll_error dc 0).

(** A node's device session, approved by a user, and its device code. *)
Definition approved_world : world := after node_flow start_world.
Definition approved_code : string := match value node_flow start_world with Some r => tp_Error r | None => EmptyString end.
Definition pending_world : world :=
  after (Repo.InsertDeviceSession None None None (900 * second)) start_world.
Definition pending_code : string :=
  match value (Repo.InsertDeviceSession None None None (900 * second)) start_world with
  | Some (dc, _) => dc | None => EmptyString end.

Lemma good_node_flow : good node_flow.
Proof. unfold node_flow. solve_good. Qed.

Lemma approved_wf : db_wf (w_db approved_world).
Proof. apply good_wf; [apply good_node_flow|done|apply empty_db_wf]. Qed.

Lemma poll_token_binding_witness :
  exists r w1, Service.PollToken approved_code approved_world = (Ok r, w1) /\ tp_Scope r = "node:push" /\
    exists s u t, s ∈ device_sessions (w_db approved_world) /\ d_hash s = Repo.HashToken approved_code /\
      d_status s = DApproved /\ d_user s = Some u /\ t ∈ api_tokens (w_db w1) /\
      t_hash t = Repo.HashToken (tp_AccessToken r) /\ t_user t = u /\ t_node t = d_node s /\
      t_scope t = Some (match d_node s with Some _ => "node:push" | None => "all" end).
Proof.
  eexists _, _. split; [vm_compute; reflexivity|]. split; [done|].
  apply (poll_token_binding approved_code approved_world); [apply approved_wf|vm_compute; reflexivity|done].
Defined.

Lemma device_code_once_witness :
  exists r w1 r2 w3, Service.PollToken approved_code approved_world = (Ok r, w1) /\
    Service.PollToken approved_code w1 = (Ok r2, w3) /\
    r2 = poll_error "expired_token" 0 /\ w_db w3 = w_db w1.
Proof.
  eexists _, _, _, _. split; [vm_compute; reflexivity|]. split; [vm_compute; reflexivity|].
  eapply (device_code_once approved_code approved_world); [apply approved_wf|vm_compute; reflexivity|done|apply rtc_refl|].
  vm_compute. reflexivity.
Defined.

Lemma poll_pending_witness :
  exists s r w1 answer, Repo.device_by_hash (Repo.HashToken pending_code) (w_db pending_world) = Some s /\
    Service.PollToken pending_code pending_world = (Ok r, w1) /\
    answer = pending_answer s 1700000005 1700000006 /\
    r = answer.1 /\ w_db w1 = answer.2 (w_db pending_world) /\ tp_Error r <> EmptyString.
Proof.
  eexists _, _, _, _. split; [vm_compute; reflexivity|]. split; [vm_compute; reflexivity|].
  split; [|eapply (poll_pending pending_code pending_world); [vm_compute; reflexivity|done|vm_compute; reflexivity]].
  vm_compute. reflexivity.
Defined.

(** Two polls that both looked the session up before either consumed it: the second one's
    UPDATE affects no row, which [ConsumeDeviceSession] does not look at, and both answer
    with a token of their own. *)
Example overlapping_polls_mint_twice :
  let h := Repo.HashToken approved_code in
  let first := Service.handlePollApproved h approved_world in
  let second := Service.handlePollApproved h first.2 in
  exists r1 r2, first.1 = Ok r1 /\ second.1 = Ok r2 /\
    tp_Error r1 = EmptyString /\ tp_Error r2 = EmptyString /\
    tp_AccessToken r1 <> tp_AccessToken r2.
Proof. eexists _, _. split; [vm_compute; reflexivity|]. split; [vm_compute; reflexivity|]. by vm_compute. Qed.

(** The poll of a node's session mints a user token of scope [all] too, and drops it: the
    answer holds the node token only. *)
Example node_poll_leaves_an_orphan_token :
  match Service.PollToken approved_code approved_world with
  | (Ok r, w1) => exists t, t ∈ api_tokens (w_db w1) /\ t_scope t = Some "all" /\ t_revoked t = None /\
      t_hash t <> Repo.HashToken (tp_AccessToken r)
  | _ => False
  end.
Proof. vm_compute. eexists. split; [by apply list_elem_of_here|]. done. Qed.

End Witnesses.
