(* ===== verification/Redeem.v ===== *)
(** * One link, many clicks

    [VerifyMagicCallback] of src/internal/auth/service.go, run by any number of goroutines
    that present the same link, among any others: at most one is signed in.  The argument is
    a race with one winner: a goroutine wins by a statement that finds the ticket open and
    leaves it spent, holding the connection until its transaction commits. *)

From S2P Require Import Prelude RateLimit AdminStore Schema Statements Invariants World Threads Pool.
From S2P Require Import GoStrings Runs Samples Repo RepoFacts Auth AuthFacts.

Open Scope Z_scope.

(** ** A race with one winner *)

Section Race.
Context `{Env, Engine} {X : Type}.
Context (R spent : db -> Prop).
Context (HR : forall d d', R d -> evolves d d' -> R d') (Hspent : forall d d', spent d -> evolves d d' -> spent d').

(** A goroutine that has not won, one that has but may still be rolled back, and a winner. *)
Inductive stage := Before | Committing | After.

(** Before: it ends with nothing, and wins only by a step that spends the open ticket.
    Committing: it holds the connection, and by the end of its session the ticket is spent,
    or it has lost again. *)
#[warnings="-register-all"]
Inductive honest : stage -> run false Outside (option X) -> Prop :=
| honest_before r :
    (forall w o w', step r w = Some (Done o, w') -> forall x, o <> Ok (Some x)) ->
    (forall w r' w', R (w_db w) -> step r w = Some (More r', w') ->
       honest Before r' \/ (~ spent (w_db w) /\ spent (w_db w') /\ honest Committing r')) ->
    honest Before r
| honest_committing r :
    holding r = true ->
    (forall w o w', step r w = Some (Done o, w') -> False) ->
    (forall w r' w', spent (w_db w) -> step r w = Some (More r', w') ->
       honest Before r' \/ (spent (w_db w') /\ honest Committing r') \/ (spent (w_db w') /\ holding r' = false)) ->
    honest Committing r.

(** Others never sign anybody in. *)
Inductive mute {n} : run n Outside (option X) -> Prop :=
| mute_begin A (m : M A) (c : code n Outside A m) : mute (Begin (Seq n Outside A _ m (fun _ => mret None) c (fun _ => code_ret None)))
| mute_then A (r : run n Outside A) : mute (Then (f := fun _ => mret None) r (fun _ => code_ret None))
| mute_end : mute (Begin (code_ret None)).

Lemma mute_step {n} (r : run n Outside (option X)) w x : mute r -> step r w = Some x ->
  match x.1 with Done o => forall a, o <> Ok (Some a) | More r' => mute r' end.
Proof.
  intros Hm Es. destruct Hm as [A m c|A r|]; simpl in Es.
  - apply fmap_Some in Es as ([[[a|e|q|]|r'] w'] & _ & ->); simpl; try done; constructor.
  - apply fmap_Some in Es as ([[[a|e|q|]|r'] w'] & _ & ->); simpl; try done; constructor.
  - by injection Es as <-.
Qed.

Definition in_stage (s : stage) (t : thread) : Prop :=
  match s, t with
  | Before, Over o => forall x, o <> Ok (Some x)
  | Before, Live false r => honest Before r \/ mute r
  | Before, Live true r => mute r
  | Committing, Live false r => honest Committing r
  | Committing, _ => False
  | After, _ => True
  end.

(** Who has won, and whether for good. *)
Definition stage_of (win : option (nat * bool)) (i : nat) : stage :=
  match win with
  | Some (j, b) => if decide (i = j) then (if b then After else Committing) else Before
  | None => Before
  end.

Definition fair (c : pool (X := option X)) : Prop :=
  sound R c /\ exists win,
    (forall i t, c.1 !! i = Some t -> in_stage (stage_of win i) t) /\
    match win with None => True | Some (j, b) => is_Some (c.1 !! j) /\ if b then sound spent c else spent (w_db c.2) end.

Lemma not_holding_safe (Q : db -> Prop) {n p A} (r : run n p A) : p = Outside -> holding r = false -> safe Q r.
Proof. induction r; simpl; auto; discriminate. Qed.

(** What one goroutine's step does to its stage, by the stage it was in. *)
Lemma before_step t w t' w' : in_stage Before t -> R (w_db w) -> thread_step t w = Some (t', w') ->
  in_stage Before t' \/ (~ spent (w_db w) /\ spent (w_db w') /\ in_stage Committing t').
Proof.
  intros Ht Hw Et. destruct t as [n r|o]; [|discriminate Et]. simpl in Et. apply fmap_Some in Et as ([u w2] & Es & E).
  injection E as -> ->. assert (mute r -> in_stage Before (match u with Done o => Over o | More r' => Live n r' end)) as Hmute.
  { intros Hm. apply mute_step with (w := w) (x := (u, w2)) in Hm; [|done]. simpl in Hm. destruct u, n; simpl; auto. }
  destruct n; simpl in Ht; [left; by apply Hmute|]. destruct Ht as [Ht|Ht]; [|left; by apply Hmute].
  inversion Ht as [r0 Hd Hm|]; subst. destruct u as [o|r']; [left; simpl; by eapply Hd|].
  destruct (Hm _ _ _ Hw Es) as [?|(? & ? & ?)]; [left; by left|right; by split_and!].
Qed.

Lemma committing_step t w t' w' : in_stage Committing t -> spent (w_db w) -> thread_step t w = Some (t', w') ->
  holds t = true /\ (in_stage Before t' \/ (spent (w_db w') /\ in_stage Committing t') \/ (spent (w_db w') /\ holds t' = false)).
Proof.
  intros Ht Hw Et. destruct t as [[] r|o]; try done. inversion Ht as [|r0 Hh Hd Hm]; subst. split; [done|].
  simpl in Et. apply fmap_Some in Et as ([u w2] & Es & E). injection E as -> ->. destruct u as [o|r']; [by destruct (Hd _ _ _ Es)|].
  destruct (Hm _ _ _ Hw Es) as [?|[[? ?]|[? ?]]]; [left; by left|right; left; by split|right; right; by split].
Qed.

Lemma committing_holds t : in_stage Committing t -> holds t = true.
Proof. destruct t as [[] r|o]; try done. by inversion 1. Qed.

Lemma stage_of_ne i j b : i <> j -> stage_of (Some (j, b)) i = Before.
Proof. intros Hn. simpl. by rewrite decide_False. Qed.
Lemma stage_of_eq j b : stage_of (Some (j, b)) j = if b then After else Committing.
Proof. simpl. by rewrite decide_True. Qed.

(** The stages of all, after the [i]-th made its step. *)
Lemma stages_insert win win' (ts : list (thread (X := option X))) i t t' :
  ts !! i = Some t -> (forall j u, ts !! j = Some u -> in_stage (stage_of win j) u) ->
  (forall j, j <> i -> stage_of win' j = stage_of win j) -> in_stage (stage_of win' i) t' ->
  forall j u, <[i := t']> ts !! j = Some u -> in_stage (stage_of win' j) u.
Proof.
  intros Hi Hts Hw Ht' j u Hj. destruct (decide (j = i)) as [->|Hn].
  - rewrite list_lookup_insert_eq in Hj by (by eapply lookup_lt_Some). by injection Hj as <-.
  - rewrite list_lookup_insert_ne in Hj by done. rewrite Hw by done. by apply Hts.
Qed.

(** Nobody holds the connection: nobody keeps a database to roll back to. *)
Lemma sound_spent (c : pool (X := option X)) : sound R c -> spent (w_db c.2) -> holders c.1 = 0%nat -> sound spent c.
Proof.
  intros (Hd & Hs & Hn) Hsp Hh. split_and!; [done| |done]. intros t Ht. specialize (Hs t Ht).
  destruct t as [n r|o]; [|done]. simpl. apply not_holding_safe; [done|].
  destruct (holding r) eqn:E; [|done]. pose proof (holder_counts _ _ Ht E). lia.
Qed.

Lemma fair_proceeds c c' : fair c -> proceeds c c' -> fair c'.
Proof.
  intros [Hs (win & Hst & Hwin)] Hm. pose proof (sound_proceeds R HR _ _ Hs Hm) as Hs'. split; [done|].
  pose proof Hm as Hm0. destruct Hm0 as [ts w i t t' w' Hi Et]. simpl in *. pose proof (Hst _ _ Hi) as Ht.
  pose proof (list_lookup_insert_eq ts i t' (lookup_lt_Some _ _ _ Hi)) as Hin.
  destruct win as [[j b]|]; [destruct (decide (i = j)) as [<-|Hne]|].
  - rewrite stage_of_eq in Ht. destruct b.
    + exists (Some (i, true)). split; [|split; [by rewrite Hin|by eapply sound_proceeds; [|apply Hwin|]]].
      apply (stages_insert (Some (i, true)) _ ts i t t' Hi Hst); [done|by rewrite stage_of_eq].
    + destruct Hwin as [_ Hwin]. destruct (committing_step _ _ _ _ Ht Hwin Et) as [Hh [Ht'|[[Hsp Ht']|[Hsp Ht']]]].
      * exists None. split; [|done]. apply (stages_insert _ _ ts i t t' Hi Hst); [|done]. intros k Hk. by rewrite (stage_of_ne k i false).
      * exists (Some (i, false)). split; [|by rewrite Hin]. apply (stages_insert _ _ ts i t t' Hi Hst); [done|by rewrite stage_of_eq].
      * exists (Some (i, true)). split.
        { apply (stages_insert _ _ ts i t t' Hi Hst); [|by rewrite stage_of_eq]. intros k Hk. by rewrite !stage_of_ne. }
        split; [by rewrite Hin|]. apply sound_spent; [done..|]. destruct Hs as (_ & _ & Hn). pose proof (holders_insert ts i t t' Hi) as Hc.
        rewrite Hh, Ht' in Hc. simpl in Hn, Hc. simpl. destruct (w_conn w); lia.
  - rewrite stage_of_ne in Ht by done.
    assert (spent (w_db w)) as Hsp by (destruct b; destruct Hwin as [_ Hwin]; apply Hwin).
    destruct (before_step _ _ _ _ Ht ltac:(apply Hs) Et) as [Ht'|(Hns & _)]; [|done]. exists (Some (j, b)). split.
    + apply (stages_insert (Some (j, b)) _ ts i t t' Hi Hst); [done|]. by rewrite stage_of_ne.
    + destruct Hwin as [[u Hu] Hwin]. rewrite list_lookup_insert_ne, Hu by done. split; [done|].
      destruct b; [by eapply sound_proceeds|]. pose proof (Hst _ _ Hu) as Hju. rewrite stage_of_eq in Hju.
      rewrite (sound_bystander R ts w i j t u t' w' Hs Hi Hu Hne (committing_holds _ Hju) Et). exact Hwin.
  - destruct (before_step _ _ _ _ Ht ltac:(apply Hs) Et) as [Ht'|(Hns & Hsp & Ht')].
    + exists None. split; [|done]. by apply (stages_insert None _ ts i t t' Hi Hst).
    + exists (Some (i, false)). split; [|by rewrite Hin]. apply (stages_insert None _ ts i t t' Hi Hst); [|by rewrite stage_of_eq].
      intros k Hk. by rewrite (stage_of_ne k i false).
Qed.

Lemma fair_fresh ts w t w' : fair (ts, w) -> fresh t -> w_db w' = w_db w -> w_conn w' = w_conn w -> in_stage Before t ->
  fair (ts ++ [t], w').
Proof.
  intros [Hs (win & Hst & Hwin)] Hf Ed Ec Ht. split; [by eapply sound_fresh|]. exists win. simpl in *. split.
  - intros i u Hu. destruct (decide (i < length ts)%nat) as [Hi|Hi].
    + rewrite lookup_app_l in Hu by done. by apply Hst.
    + rewrite lookup_app_r in Hu by lia. apply list_lookup_singleton_Some in Hu as [Ei <-].
      destruct win as [[j b]|]; [|exact Ht]. destruct Hwin as [[u Hj%lookup_lt_Some] _]. rewrite stage_of_ne by lia. exact Ht.
  - destruct win as [[j b]|]; [|done]. destruct Hwin as [Hj Hw]. split; [apply lookup_lt_is_Some; rewrite length_app; apply lookup_lt_is_Some in Hj; lia|].
    destruct b; [by eapply sound_fresh|by rewrite Ed].
Qed.

Context (spawn : world -> thread (X := option X) -> world -> Prop).
Context (Hspawn : forall w t w', spawn w t w' -> fresh t /\ w_db w' = w_db w /\ w_conn w' = w_conn w).
Context (Hhonest : forall w t w', spawn w t w' -> in_stage Before t).

Lemma fair_reach c c' : fair c -> rtc (pool_step spawn) c c' -> fair c'.
Proof.
  intros Hc Hr. revert Hc. induction Hr as [c|c c1 c2 Hp _ IH]; intros Hc; [done|]. apply IH.
  destruct Hp as [c c1 Hm|ts w t w' Ht]; [by eapply fair_proceeds|].
  destruct (Hspawn _ _ _ Ht) as (Hf & Ed & Ec). eapply fair_fresh; eauto.
Qed.

Lemma one_winner c i j x y : fair c -> c.1 !! i = Some (Over (Ok (Some x))) -> c.1 !! j = Some (Over (Ok (Some y))) -> i = j.
Proof.
  intros [_ (win & Hst & _)] Hi Hj.
  assert (forall k z, c.1 !! k = Some (Over (Ok (Some z))) -> exists b, win = Some (k, b)) as Hw.
  { intros k z Hk. specialize (Hst _ _ Hk). destruct win as [[l b]|]; [|by destruct (Hst z)].
    destruct (decide (k = l)) as [->|Hne]; [by exists b|]. rewrite stage_of_ne in Hst by done. by destruct (Hst z). }
  destruct (Hw _ _ Hi) as [b ->], (Hw _ _ Hj) as [b' E]. congruence.
Qed.

End Race.

(** ** The link *)

Section Redeem.
Context `{Env, Engine}.
Context (token : string).

Lemma code_unix_now {n p} : code n p Z unix_now.
Proof. apply Seq; [apply Seq; [apply Effect, eff_tick|intros; apply code_ret]|intros; apply code_ret]. Defined.

Lemma code_scan_row {n p A} (o : option A) : code n p A (scan_row o).
Proof. destruct o; [apply code_ret|apply code_throw]. Defined.

(** The transaction of [ConsumeMagicToken] from its end to its start, and the whole of it. *)
Lemma consume_row_code : raw (
    mt ← (o ← sql_read (Repo.magic_by_hash (Repo.HashToken token)); scan_row o); mret (Commit (Some mt))).
Proof. apply Seq; [|intros; apply code_ret]. apply Seq; [apply Access, acc_read|intros; apply code_scan_row]. Defined.

Lemma consume_body_code now : raw (
    n ← sql_stmt (UseMagic now (Repo.HashToken token));
    if (n =? 0)%nat then mret (Rollback None)
    else mt ← (o ← sql_read (Repo.magic_by_hash (Repo.HashToken token)); scan_row o); mret (Commit (Some mt))).
Proof.
  apply Seq; [apply Access, acc_stmt|]. intros n. destruct (n =? 0)%nat; [apply code_ret|apply consume_row_code].
Defined.

Lemma consume_code : good (Repo.ConsumeMagicToken token).
Proof. apply Seq; [apply code_unix_now|]. intros now. apply Conn, Seq; [apply Access, acc_read|]. intros _. apply Tx, consume_body_code. Defined.

(** A login that goes on as [body] with the token's row, if the link was good. *)
Context {X : Type} (body : magic_token -> M (option X)) (k : forall m, good (body m)).

Definition redeem : M (option X) :=
  mt ← wrap "consume token" (Repo.ConsumeMagicToken token);
  match mt with None => mret None | Some m => body m end.

Lemma login_code (o : option magic_token) : good (match o with None => mret None | Some m => body m end).
Proof. destruct o as [m|]; [apply k|apply code_ret]. Defined.

Lemma redeem_code : good redeem.
Proof. apply Seq; [apply code_wrap, consume_code|apply login_code]. Defined.

Definition link_spent (d : db) : Prop := exists m, m ∈ magic_tokens d /\ m_hash m = Repo.HashToken token /\ m_used m <> None.

Lemma link_spent_evolves d d' : link_spent d -> evolves d d' -> link_spent d'.
Proof.
  intros (m & Hm & Hh & Hu) Ev. destruct (fw_magic _ _ (evolves_moves_forward _ _ Ev) _ Hm) as (m2 & Hm2 & Ek & _ & _ & _ & Hf).
  exists m2. split_and!; [done|congruence|]. by rewrite Hf.
Qed.

(** The UPDATE that hits a row finds the link open and leaves it spent. *)
Lemma use_spends now d d' n : db_wf d -> exec_stmt (UseMagic now (Repo.HashToken token)) d = Some (d', n) -> n <> 0%nat ->
  ~ link_spent d /\ link_spent d'.
Proof.
  intros W E Hn. simpl in E. unfold updating in E. injection E as <- <-. apply sel_hit in Hn as (m0 & Hm0 & Hu). split.
  - intros (m & Hm & Hh & Hs). unfold magic_usable in Hu. bool_prop.
    assert (m0 = m) as ->; [|by destruct (m_used m)]. eapply NoDup_fmap_inj_on; [apply W|done|done|congruence].
  - exists (magic_used now m0). split_and!; [by apply upd_hit|unfold magic_usable in Hu; by bool_prop|done].
Qed.

Abbreviation fairly := (honest (X := X) db_wf link_spent).

(** One step that spends nothing. *)
Ltac go_on := apply honest_before; [intros ? ? ? Es; simpl in Es; discriminate Es|intros ? ? ? _ Es; simpl in Es; injection Es as <- _; left].

(** The goroutine while [r] is left of the transaction. *)
Lemma told_code (x : goerr + option magic_token) :
  good (match x with inr a => mret a | inl e => throw (ErrWrap "consume token" e) end).
Proof. destruct x; [apply code_throw|apply code_ret]. Defined.

Definition telling (r : run false Outside (option magic_token)) : run false Outside (option X) :=
  Then (Then (Trying r) told_code) login_code.

(** It has the error, or no token. *)
Lemma honest_error e : fairly Before (Then (f := fun o => match o with None => mret None | Some m => body m end) (Begin (code_throw e)) login_code).
Proof. apply honest_before; [intros ? ? ? Es; simpl in Es; by injection Es as <- _|intros ? ? ? _ Es; simpl in Es; discriminate Es]. Qed.

Lemma honest_nothing : fairly Before (Then (f := fun o => match o with None => mret None | Some m => body m end) (Begin (code_ret None)) login_code).
Proof. go_on. apply honest_before; [intros ? ? ? Es; simpl in Es; by injection Es as <- _|intros ? ? ? _ Es; simpl in Es; discriminate Es]. Qed.

(** Its transaction ends with no token. *)
Lemma honest_undone d0 o : (forall m, o <> Ok (Commit (Some m)) /\ o <> Ok (Rollback (Some m))) -> fairly Before (telling (Holding (Ending d0 o))).
Proof.
  intros Ho. apply honest_before.
  - intros w o' w' Es. simpl in Es. destruct o as [[[m|]|[m|]]|e|q|]; simpl in Es; try done; try (by injection Es as <- _);
      try (by destruct (Ho m)); unfold sql_read in Es; by destruct (sql_fails _).
  - intros w r' w' _ Es. left. simpl in Es.
    destruct o as [[[m|]|[m|]]|e|q|]; simpl in Es; try done; try (by destruct (Ho m)).
    + unfold sql_read in Es. destruct (sql_fails _); injection Es as <- _; [apply honest_error|apply honest_nothing].
    + injection Es as <- _. apply honest_nothing.
    + injection Es as <- _. apply honest_error.
Qed.

(** It has the row: only the COMMIT is left, then it has won. *)
Lemma committing_end d0 m : fairly Committing (telling (Holding (Ending d0 (Ok (Commit (Some m)))))).
Proof.
  apply honest_committing; [done| |].
  - intros w o w' Es. simpl in Es. unfold sql_read in Es. by destruct (sql_fails _).
  - intros w r w' Hs Es. simpl in Es. unfold sql_read in Es. destruct (sql_fails _); injection Es as <- <-.
    + left. apply honest_error.
    + right. right. by split.
Qed.

(** Having spent the link, it reads the row back. *)
Lemma committing_row d0 : fairly Committing (telling (Holding (InTx d0 (Begin consume_row_code)))).
Proof.
  apply honest_committing; [done|intros w o w' Es; simpl in Es; unfold sql_read in Es; by destruct (sql_fails _)|].
  intros w r w' Hs Es. simpl in Es. unfold sql_read in Es. destruct (sql_fails _); injection Es as <- <-.
  { left. by apply honest_undone. }
  right. left. split; [done|]. apply honest_committing; [done|intros w1 o w1' Es; simpl in Es; by destruct (Repo.magic_by_hash _ _)|].
  intros w1 r w1' Hs1 Es. simpl in Es. destruct (Repo.magic_by_hash _ _) as [m|]; injection Es as <- <-.
  - right. left. split; [done|]. apply honest_committing; [done|done|].
    intros w2 r w2' Hs2 Es. simpl in Es. injection Es as <- <-. right. left. split; [done|]. apply committing_end.
  - left. by apply honest_undone.
Qed.

Lemma honest_spending d0 now : fairly Before (telling (Holding (InTx d0 (Begin (consume_body_code now))))).
Proof.
  apply honest_before.
  { intros w o w' Es. simpl in Es. unfold sql_stmt in Es. destruct (sql_fails _); [done|]. by destruct (exec_stmt _ _) as [[]|]. }
  intros w r w' W Es. simpl in Es. unfold sql_stmt in Es. destruct (sql_fails _); [injection Es as <- <-; left; by apply honest_undone|].
  destruct (exec_stmt _ _) as [[d n]|] eqn:E; [|injection Es as <- <-; left; by apply honest_undone].
  injection Es as <- <-. pose proof (use_spends now (w_db w) d n W E) as Hu. destruct n as [|n].
  - left. go_on. by apply honest_undone.
  - right. destruct (Hu ltac:(done)) as [Hn Hs]. split_and!; [done|done|apply committing_row].
Qed.

Lemma redeem_honest : fairly Before (Begin redeem_code).
Proof.
  do 3 go_on.
  apply honest_before; [intros ? ? ? Es; simpl in Es; by destruct (w_conn _)|].
  intros w3 r w3' _ Es. simpl in Es. destruct (w_conn w3); [|discriminate Es]. injection Es as <- _. left.
  apply honest_before; [intros ? ? ? Es; simpl in Es; unfold sql_read in Es; by destruct (sql_fails _)|].
  intros w4 r w4' _ Es. simpl in Es. unfold sql_read in Es. destruct (sql_fails _); injection Es as <- _; left; [apply honest_error|].
  go_on. apply honest_spending.
Qed.

End Redeem.

(** ** Any number of clicks *)

Section Clicks.
Context `{Env, Engine}.
Context (token : string).

(** The rest of the login, once the link was good. *)
Definition login (m : magic_token) : M (option CallbackResult) :=
  match m_user m with
  | None => mret (Some (mkCallback EmptyString EmptyString EmptyString EmptyString false
                          (negb (is_null (m_device m))) EmptyString))
  | Some userID =>
      match m_device m with
      | Some codeHash => r ← Service.approveDevice codeHash userID; mret (Some r)
      | None =>
          '(rawToken, _) ← wrap "create user token" (Repo.CreateAPIToken userID None "magic-link" "all");
          _ ← ignore (Repo.InsertAuditLog userID "login" "magic-link");
          mret (Some (mkCallback rawToken EmptyString EmptyString userID false false EmptyString))
      end
  end.

Lemma verify_redeems : Service.VerifyMagicCallback token = redeem token login.
Proof. reflexivity. Qed.

Lemma good_login m : good (login m).
Proof. unfold login. solve_good. Qed.

(** The structure of the code, with any evidence of how the login goes on. *)
Definition verify_code (k : forall m, good (login m)) : good (Service.VerifyMagicCallback token) := redeem_code token login k.

(** Who may come: a click on the link, or any other program at all, whose result is not a login. *)
Inductive comes : world -> thread (X := option CallbackResult) -> world -> Prop :=
| click w (k : forall m, good (login m)) : comes w (Live false (Begin (verify_code k))) w
| other w n A (m : M A) (c : code n Outside A m) :
    comes w (Live n (Begin (Seq n Outside A _ m (fun _ => mret None) c (fun _ => code_ret None)))) w.

Lemma comes_fresh w t w' : comes w t w' -> fresh t /\ w_db w' = w_db w /\ w_conn w' = w_conn w.
Proof. intros []; (split; [by do 3 eexists|done]). Qed.

Lemma comes_before w t w' : comes w t w' -> in_stage db_wf (link_spent token) Before t.
Proof. intros [w0 k|w0 [] A m c]; simpl; [left; apply redeem_honest|constructor|right; constructor]. Qed.

(** C9: a magic link is redeemed at most once, however its redeemers interleave.  Any number of
    goroutines run [VerifyMagicCallback] on the same link, among any other programs on the
    same database, statement by statement in any order, with failing statements and commits:
    no two of them come back with a login. *)
Theorem one_click_wins w0 ts w i j x y :
  db_wf (w_db w0) -> w_conn w0 = true -> rtc (pool_step comes) ([], w0) (ts, w) ->
  ts !! i = Some (Over (Ok (Some x))) -> ts !! j = Some (Over (Ok (Some y))) -> i = j.
Proof.
  intros W Hc Hr Hi Hj.
  assert (fair (X := CallbackResult) db_wf (link_spent token) ([], w0)) as Hf.
  { split; [|by exists None]. split_and!; [done|by intros t Ht%elem_of_nil|simpl; by rewrite Hc]. }
  assert (forall d d', db_wf d -> evolves d d' -> db_wf d') as HR by eauto using evolves_preserves_wf.
  pose proof (fair_reach _ _ HR (link_spent_evolves token) _ comes_fresh comes_before _ _ Hf Hr) as Hf'.
  by eapply one_winner.
Qed.

(** A click that is overtaken by another, which signs in. *)
Definition second_click (w : world) := Service.VerifyMagicCallback token w.
Definition first_click (w : world) := Service.VerifyMagicCallback token (second_click w).2.

Definition signs_in (o : outcome (option CallbackResult)) : bool := match o with Ok (Some _) => true | _ => false end.
Definition overtaking (w : world) : bool := w_conn w && w_conn (second_click w).2 && signs_in (second_click w).1.

Lemma overtaking_conn w : overtaking w = true -> w_conn w = true.
Proof. unfold overtaking. rewrite !andb_true_iff. by intros [[Hc _] _]. Qed.

Lemma overtaken w : overtaking w = true -> exists x,
  rtc (pool_step comes) ([], w) ([Over (first_click w).1; Over (Ok (Some x))], (first_click w).2).
Proof.
  unfold overtaking. rewrite !andb_true_iff. intros [[Hc Hc2] Hx].
  destruct (second_click w).1 as [[x|]|e|q|] eqn:Ex; try discriminate Hx. exists x. rewrite <- Ex.
  set (c := verify_code good_login).
  eapply rtc_l; [apply pool_spawns, (click _ good_login)|]. eapply rtc_l; [apply pool_spawns, (click _ good_login)|].
  eapply rtc_subrel; [intros c1 c2; apply pool_proceeds|].
  etrans; [by apply (alone_reach _ _ _ (handler_alone _ c w Hc) [Live false (Begin c); Live false (Begin c)] 1%nat)|].
  by apply (alone_reach _ _ _ (handler_alone _ c _ Hc2) [Live false (Begin c); Over (second_click w).1] 0%nat).
Qed.

End Clicks.

(** ** Two clicks *)

Section TwoClicks.
#[local] Existing Instance sample_env.
#[local] Existing Instance sample_engine.

(** A user and a link to sign in with. *)
Definition invite : M unit :=
  u ← Repo.CreateUser "ada@example.org"; Repo.InsertMagicToken "tok" (Some u) None (900 * second).
Definition invited : world := after invite start_world.

Lemma good_invite : good invite.
Proof. unfold invite. solve_good. Qed.

Lemma invited_wf : db_wf (w_db invited).
Proof. apply good_wf; [exact good_invite|reflexivity|exact empty_db_wf]. Qed.
Lemma invited_overtaking : overtaking "tok" invited = true.
Proof. vm_compute. reflexivity. Qed.
Lemma invited_conn : w_conn invited = true.
Proof. exact (overtaking_conn "tok" invited invited_overtaking). Qed.

(** The second signs in; so no other does. *)
Theorem one_click_wins_witness : exists ts w x,
  rtc (pool_step (comes "tok")) ([], invited) (ts, w) /\ ts !! 1%nat = Some (Over (Ok (Some x))) /\
  forall i y, ts !! i = Some (Over (Ok (Some y))) -> i = 1%nat.
Proof.
  destruct (overtaken "tok" invited invited_overtaking) as [x Hr].
  exists [Over (first_click "tok" invited).1; Over (Ok (Some x))], (first_click "tok" invited).2, x. split; [exact Hr|]. split; [reflexivity|].
  intros i y Hi. apply (one_click_wins "tok" invited _ _ i 1%nat y x invited_wf invited_conn Hr Hi). reflexivity.
Defined.

End TwoClicks.

(** ** Two polls

    A device code has no such guard: [ConsumeDeviceSession] does not look at the number of
    rows its UPDATE hit, so two polls that both looked the session up before either consumed
    it are both answered with a token. *)

Section TwoPolls.
Context `{Env, Engine}.
Context (deviceCode : string).

Definition lookup_session : M (option device_session) :=
  wrap "lookup device session" (Repo.DeviceSessionByCodeHash (Repo.HashToken deviceCode)).

(** What [PollToken] does with the session it found. *)
Definition answer_poll (ds : option device_session) : M TokenPollResponse :=
  match ds with
  | None => mret (poll_error "expired_token" 0)
  | Some s =>
      now ← unix_now;
      match d_status s with
      | DPending => Service.handlePollPending s (Repo.HashToken deviceCode) now
      | DApproved => Service.handlePollApproved (Repo.HashToken deviceCode)
      | DDenied => mret (poll_error "access_denied" 0)
      | DExpired | DConsumed => mret (poll_error "expired_token" 0)
      end
  end.

Lemma poll_answers : Service.PollToken deviceCode = (ds ← lookup_session; answer_poll ds).
Proof. reflexivity. Qed.

Lemma good_lookup_session : good lookup_session.
Proof. unfold lookup_session. solve_good. Qed.
Lemma good_answer_poll ds : good (answer_poll ds).
Proof. unfold answer_poll. solve_good. Qed.

Definition poll_code : good (Service.PollToken deviceCode) :=
  Seq false Outside _ _ lookup_session answer_poll good_lookup_session good_answer_poll.

Inductive polls : world -> thread (X := TokenPollResponse) -> world -> Prop :=
| poll w : polls w (Live false (Begin poll_code)) w.

(** Both look the session up, then both go on. *)
Lemma polls_overlap w0 d1 w1 d2 w2 :
  lookup_session w0 = (Ok d1, w1) -> lookup_session w1 = (Ok d2, w2) ->
  w_conn w0 = true -> w_conn w1 = true -> w_conn w2 = true -> w_conn (answer_poll d1 w2).2 = true ->
  let r1 := answer_poll d1 w2 in let r2 := answer_poll d2 r1.2 in
  rtc (pool_step polls) ([], w0) ([Over r1.1; Over r2.1], r2.2).
Proof.
  intros E1 E2 H0' H1' H2' H3' r1 r2.
  eapply rtc_l; [apply pool_spawns, poll|]. eapply rtc_l; [apply pool_spawns, poll|].
  eapply rtc_subrel; [intros c1 c2; apply pool_proceeds|].
  pose proof (handler_alone _ good_lookup_session w0 H0') as A1. rewrite E1 in A1.
  pose proof (handler_alone _ good_lookup_session w1 H1') as A2. rewrite E2 in A2.
  etrans; [by apply (alone_prefix _ _ good_answer_poll _ _ _ A1 [Live false (Begin poll_code); Live false (Begin poll_code)] 0%nat (Live false (Begin poll_code)))|].
  etrans; [by apply (alone_prefix _ _ good_answer_poll _ _ _ A2 [Live false (Begin (good_answer_poll d1)); Live false (Begin poll_code)] 1%nat (Live false (Begin poll_code)))|].
  etrans; [by apply (alone_reach _ _ _ (handler_alone _ (good_answer_poll d1) w2 H2') [Live false (Begin (good_answer_poll d1)); Live false (Begin (good_answer_poll d2))] 0%nat)|].
  by apply (alone_reach _ _ _ (handler_alone _ (good_answer_poll d2) r1.2 H3') [Over r1.1; Live false (Begin (good_answer_poll d2))] 1%nat).
Qed.

(** The answers of two polls that both found a session before either went on. *)
Definition found (x : outcome (option device_session) * world) : option device_session :=
  match x.1 with Ok d => d | _ => None end.
Definition is_found (x : outcome (option device_session) * world) : bool :=
  w_conn x.2 && match x.1 with Ok _ => true | _ => false end.

Definition overlapping (w : world) : (outcome TokenPollResponse * outcome TokenPollResponse) * world :=
  let l1 := lookup_session w in let l2 := lookup_session l1.2 in
  let r1 := answer_poll (found l1) l2.2 in let r2 := answer_poll (found l2) r1.2 in
  ((r1.1, r2.1), r2.2).

Definition overlap_runs (w : world) : bool :=
  let l1 := lookup_session w in let l2 := lookup_session l1.2 in
  w_conn w && is_found l1 && is_found l2 && w_conn (answer_poll (found l1) l2.2).2.

Lemma found_runs x : is_found x = true -> x = (Ok (found x), x.2) /\ w_conn x.2 = true.
Proof. destruct x as [[d|e|q|] w]; unfold is_found; rewrite andb_true_iff; by intros []. Qed.

Lemma overlapping_steps w : overlap_runs w = true ->
  rtc (pool_step polls) ([], w) ([Over (overlapping w).1.1; Over (overlapping w).1.2], (overlapping w).2).
Proof.
  unfold overlap_runs. rewrite !andb_true_iff. intros [[[Hc [E1 C1]%found_runs] [E2 C2]%found_runs] C3].
  by apply (polls_overlap w _ _ _ _ E1 E2).
Qed.

(** Two tokens, and not the same. *)
Definition two_tokens (o1 o2 : outcome TokenPollResponse) : bool :=
  match o1, o2 with
  | Ok r1, Ok r2 => is_empty (tp_Error r1) && is_empty (tp_Error r2) && negb (str_eqb (tp_AccessToken r1) (tp_AccessToken r2))
  | _, _ => false
  end.

Lemma two_tokens_true o1 o2 : two_tokens o1 o2 = true ->
  exists r1 r2, o1 = Ok r1 /\ o2 = Ok r2 /\ tp_Error r1 = EmptyString /\ tp_Error r2 = EmptyString /\ tp_AccessToken r1 <> tp_AccessToken r2.
Proof. destruct o1 as [r1| | |], o2 as [r2| | |]; try done. simpl. intros Ht. bool_prop. by exists r1, r2. Qed.

(** If that happens in a world, it is a run of two goroutines that ends with two tokens. *)
Lemma both_win w : overlap_runs w && two_tokens (overlapping w).1.1 (overlapping w).1.2 = true ->
  exists r1 r2 w', rtc (pool_step polls) ([], w) ([Over (Ok r1); Over (Ok r2)], w') /\
    tp_Error r1 = EmptyString /\ tp_Error r2 = EmptyString /\ tp_AccessToken r1 <> tp_AccessToken r2.
Proof.
  rewrite andb_true_iff. intros [Hr%overlapping_steps (r1 & r2 & E1 & E2 & He)%two_tokens_true].
  exists r1, r2, (overlapping w).2. by rewrite E1, E2 in Hr.
Qed.

End TwoPolls.

#[local] Existing Instance sample_env.
#[local] Existing Instance sample_engine.

(** Both polls of one approved device code are answered with a token of their own. *)
Theorem two_polls_win : exists r1 r2 w,
  rtc (pool_step (polls approved_code)) ([], approved_world) ([Over (Ok r1); Over (Ok r2)], w) /\
  tp_Error r1 = EmptyString /\ tp_Error r2 = EmptyString /\ tp_AccessToken r1 <> tp_AccessToken r2.
Proof. apply both_win. vm_compute. reflexivity. Qed.
