(* ===== verification/Http.v ===== *)
(** * Requests, responses and handlers

    What the handlers read of an [http.Request] (parsed by net/http and chi) and what they
    write to the [http.ResponseWriter].  A [handler] is given the values the middleware put
    in the request's context ([ctx]). *)

From S2P Require Import Prelude RateLimit AdminStore Schema Statements Invariants World.
From S2P Require Import GoStrings GoJson Runs Repo RepoFacts.

Open Scope Z_scope.

Definition assoc (k : string) (l : list (string * string)) : option string :=
  snd <$> head (filter (fun p => p.1 = k) l).

Record request := Req {
  r_method : string;
  r_path : string;
  r_host : string;
  r_remote : string;
  r_tls : bool;
  r_headers : list (string * string);
  r_cookies : list (string * string);
  (** the decoded URL query *)
  r_query : list (string * string);
  (** [r.Form]: body values, then query values; and whether [ParseForm] succeeded *)
  r_form : list (string * string);
  r_form_ok : bool;
  (** URL parameters of the matched route *)
  r_params : list (string * string);
  r_body : string }.

(** [r.Header.Get], [r.URL.Query().Get], [r.FormValue], [chi.URLParam]: missing is empty. *)
Definition header (r : request) (k : string) : string := default EmptyString (assoc k (r_headers r)).
Definition query_get (r : request) (k : string) : string := default EmptyString (assoc k (r_query r)).
Definition form_value (r : request) (k : string) : string := default EmptyString (assoc k (r_form r)).
Definition url_param (r : request) (k : string) : string := default EmptyString (assoc k (r_params r)).
Definition cookie_value (r : request) (k : string) : option string := assoc k (r_cookies r).

Record cookie := Cookie {
  ck_name : string;
  ck_value : string;
  ck_path : string;
  ck_httponly : bool;
  ck_secure : bool;
  ck_strict : bool;
  ck_maxage : Z }.

Inductive body :=
| BText (s : string)
| BJson (j : json)
(** a template and its data *)
| BHtml (template : string) (data : json)
| BRedirect (url : string).

Record response := Resp {
  rs_status : Z;
  rs_headers : list (string * string);
  rs_cookies : list cookie;
  rs_body : body }.

(** [http.Error], [http.Redirect] with 303, [http.NotFound], [render.HTML], and a JSON answer. *)
Definition http_error (msg : string) (status : Z) : response :=
  Resp status [("Content-Type", "text/plain; charset=utf-8"); ("X-Content-Type-Options", "nosniff")] []
    (BText (msg ++s String (ascii_of_nat 10) EmptyString)).
Definition redirect (url : string) : response := Resp 303 [] [] (BRedirect url).
Definition not_found : response := http_error "404 page not found" 404.
Definition html (template : string) (data : json) : response :=
  Resp 200 [("Content-Type", "text/html; charset=utf-8")] [] (BHtml template data).
Definition json_resp (status : Z) (j : json) : response :=
  Resp status [("Content-Type", "application/json")] [] (BJson j).

Definition add_cookie (c : cookie) (r : response) : response :=
  Resp (rs_status r) (rs_headers r) (c :: rs_cookies r) (rs_body r).

(** [{"error":"code"}] written as text. *)
Definition error_text (code : string) : string :=
  "{" ++s quoted "error" ++s ":" ++s quoted code ++s "}".

(** ** Context values *)

Record ctx := Ctx { c_user : option string; c_node : option string; c_scope : option string; c_bearer : option string }.
Definition empty_ctx : ctx := Ctx None None None None.

Definition or_else {A} (a b : option A) : option A := match a with Some _ => a | None => b end.

Definition UserIDFromContext (c : ctx) : string := default EmptyString (c_user c).
Definition NodeIDFromContext (c : ctx) : string := default EmptyString (c_node c).
Definition ScopeFromContext (c : ctx) : string := default EmptyString (c_scope c).

Abbreviation handler := (ctx -> request -> M response).
Abbreviation middleware := ((ctx -> request -> M response) -> ctx -> request -> M response).

(** ** net and net/url *)

Fixpoint index_of (c : ascii) (s : string) : option nat :=
  match s with
  | EmptyString => None
  | String x s' => if decide (x = c) then Some 0%nat else S <$> index_of c s'
  end.

Fixpoint last_index (c : ascii) (s : string) : option nat :=
  match s with
  | EmptyString => None
  | String x s' => match last_index c s' with
                   | Some i => Some (S i)
                   | None => if decide (x = c) then Some 0%nat else None
                   end
  end.

(** [net.SplitHostPort]; the host only, empty on an error. *)
Definition split_host (hp : string) : string :=
  match last_index ":" hp with
  | None => EmptyString
  | Some i =>
      let no c s := is_null (index_of c s) in
      match hp with
      | String "[" rest =>
          match index_of "]" rest with
          | None => EmptyString
          | Some e =>
              let host := Utf8.str_take e rest in
              let tail := Utf8.str_drop (S e) rest in
              if (S (S e) =? i)%nat && no "["%char rest && no "]"%char tail then host else EmptyString
          end
      | _ =>
          let host := Utf8.str_take i hp in
          if no ":"%char host && no "["%char hp && no "]"%char hp then host else EmptyString
      end
  end.

Example split_host_ex :
  split_host "10.0.0.7:4711" = "10.0.0.7" /\ split_host "[::1]:80" = "::1" /\
  split_host "::1" = EmptyString /\ split_host "localhost" = EmptyString.
Proof. by vm_compute. Qed.

Definition upper_hex (n : Z) : ascii := byte_of (if n <? 10 then 48 + n else 55 + n).

(** [url.QueryEscape] *)
Definition query_escape_byte (c : ascii) : string :=
  let v := byte_val c in
  if ((48 <=? v) && (v <=? 57)) || ((65 <=? v) && (v <=? 90)) || ((97 <=? v) && (v <=? 122))
     || (v =? 45) || (v =? 46) || (v =? 95) || (v =? 126)
  then String c EmptyString
  else if v =? 32 then "+"
  else String "%" (String (upper_hex (v / 16)) (String (upper_hex (v mod 16)) EmptyString)).

Fixpoint QueryEscape (s : string) : string :=
  match s with EmptyString => EmptyString | String c s' => query_escape_byte c ++s QueryEscape s' end.

Lemma query_escape_digit d : 0 <= d < 16 -> query_escape_byte (Hex.digit d) = String (Hex.digit d) EmptyString.
Proof.
  intros Hd. unfold query_escape_byte, Hex.digit. destruct (d <? 10) eqn:E; bool_prop;
    rewrite byte_val_of by lia.
  - replace ((48 <=? 48 + d) && (48 + d <=? 57)) with true by (symmetry; apply andb_true_iff; lia). done.
  - replace ((97 <=? 87 + d) && (87 + d <=? 122)) with true by (symmetry; apply andb_true_iff; lia).
    by rewrite !orb_true_r.
Qed.

(** A hex token survives escaping. *)
Lemma QueryEscape_hex s : QueryEscape (Hex.encode s) = Hex.encode s.
Proof.
  induction s as [|c s IH]; [done|]. simpl. pose proof (byte_val_range c).
  rewrite !query_escape_digit, IH; [done| |].
  - pose proof (Z.mod_pos_bound (byte_val c) 16). lia.
  - split; [apply Z.div_pos; lia|apply Z.div_lt_upper_bound; lia].
Qed.
