(* ===== verification/Middleware.v ===== *)
(** * Middleware (src/internal/httpapi/middleware)

    Bearer-token authentication, scopes, the same-origin check, the rate limiter's wrapper
    and the admin gate, as transformers of handlers. *)

From S2P Require Import Prelude RateLimit AdminStore Schema Statements Invariants World.
From S2P Require Import GoStrings GoJson Runs Samples Repo RepoFacts Http.

Open Scope Z_scope.

Module Middleware.

Definition bearer_prefix : string := "Bearer ".

Definition extractBearer (r : request) : string :=
  let auth := header r "Authorization" in
  if is_empty auth then
    match cookie_value r "hb_token" with Some v => v | None => EmptyString end
  else if negb (has_prefix auth bearer_prefix) then EmptyString
  else trim_prefix auth bearer_prefix.

Definition extractBearerHeader (r : request) : string :=
  let auth := header r "Authorization" in
  if negb (has_prefix auth bearer_prefix) then EmptyString
  else trim_prefix auth bearer_prefix.

Definition BearerFromRequest (r : request) : string := extractBearer r.

Definition writeUnauthorized (baseURL code : string) : response :=
  Resp 401
    [("WWW-Authenticate",
      "Bearer resource_metadata=" ++s quoted (baseURL ++s "/.well-known/oauth-protected-resource"));
     ("Content-Type", "application/json")]
    [] (BText (error_text code)).

(** The context an accepted token gives: a NULL node or scope leaves the parent's value. *)
Definition token_ctx (at_ : api_token) (token : string) (c : ctx) : ctx :=
  Ctx (Some (t_user at_)) (or_else (t_node at_) (c_node c)) (or_else (t_scope at_) (c_scope c)) (Some token).

Section Middleware.
Context `{Env, Engine}.

Definition Auth (baseURL : string) : middleware := fun next c r =>
  let token := extractBearerHeader r in
  if is_empty token then mret (writeUnauthorized baseURL "missing_token")
  else
    at_ ← try_ (Repo.APITokenByHash token);
    match at_ with
    | inl _ => mret (http_error (error_text "internal") 500)
    | inr None => mret (writeUnauthorized baseURL "invalid_token")
    | inr (Some a) => _ ← ignore (Repo.TouchAPIToken token); next (token_ctx a token c) r
    end.

Definition OptionalAuth : middleware := fun next c r =>
  let token := extractBearer r in
  if is_empty token then next c r
  else
    at_ ← try_ (Repo.APITokenByHash token);
    match at_ with
    | inr (Some a) => _ ← ignore (Repo.TouchAPIToken token); next (token_ctx a token c) r
    | _ => next c r
    end.

Definition RequireScope (required : string) : middleware := fun next c r =>
  let scope := ScopeFromContext c in
  if negb (str_eqb scope "all") && negb (str_eqb scope required)
  then mret (Resp 403 [("Content-Type", "application/json")] [] (BText (error_text "insufficient_scope")))
  else next c r.

Definition csrf_failed : response := http_error (error_text "csrf_validation_failed") 403.

(** Whether [RequireSameOrigin] lets the request through. *)
Definition same_origin (baseURL : string) (r : request) : bool :=
  if str_eqb (r_method r) "GET" || str_eqb (r_method r) "HEAD" || str_eqb (r_method r) "OPTIONS" then true
  else
    let origin := header r "Origin" in
    if is_empty origin then
      let referer := header r "Referer" in
      negb (is_empty referer || negb (has_prefix referer baseURL))
    else has_prefix origin baseURL.

Definition RequireSameOrigin (baseURL : string) : middleware := fun next c r =>
  if same_origin baseURL r then next c r else mret csrf_failed.

(** [RateLimiter.Allow] at the current time. *)
Definition allow (key : string) (maxReqs window : Z) : M bool :=
  now ← time_now; on_limiter (RateLimit.Allow key maxReqs window now).

Definition LimitHandler (maxReqs window : Z) (keyFn : request -> string) : middleware := fun next c r =>
  ok ← allow (keyFn r) maxReqs window;
  if ok : bool then next c r else mret (http_error (error_text "rate_limited") 429).

(** ** The admin session *)

Definition AdminCookieValue (r : request) : string := default EmptyString (cookie_value r "hb_admin").

Definition SetAdminCookie (token : string) (ttl : Z) (secure : bool) : response -> response :=
  add_cookie (Cookie "hb_admin" token "/admin" true secure true (seconds_of ttl)).
Definition ClearAdminCookie : response -> response :=
  add_cookie (Cookie "hb_admin" EmptyString "/admin" true false false (-1)).

Definition sessions_NewToken (ttl : Z) : M string :=
  b ← rand_read 32;
  let tok := Hex.encode b in
  now ← time_now;
  _ ← on_sessions (fun m => (tt, AdminStore.NewToken tok ttl now m));
  mret tok.

Definition sessions_Valid (tok : string) : M bool :=
  if is_empty tok then mret false else now ← time_now; on_sessions (AdminStore.Valid tok now).

Definition sessions_Revoke (tok : string) : M unit :=
  on_sessions (fun m => (tt, AdminStore.Revoke tok m)).

Definition pending_Put (ttl : Z) (hash : string) : M unit :=
  now ← time_now; on_links (fun m => (tt, AdminStore.Put hash ttl now m)).

Definition pending_Consume (hash : string) : M bool :=
  if is_empty hash then mret false else now ← time_now; on_links (AdminStore.Consume hash now).

Definition RequireAdmin (enabled : bool) : middleware := fun next c r =>
  if negb enabled then mret not_found
  else
    let tok := AdminCookieValue r in
    valid ← sessions_Valid tok;
    if negb valid then
      mret ((if is_empty tok then id else ClearAdminCookie) (redirect "/admin/login"))
    else next c r.

(** ** Pool discipline *)

Definition good_handler (h : handler) : Type := forall c r, good (h c r).

Lemma good_Auth b h : good_handler h -> good_handler (Auth b h).
Proof. intros Hh c r. unfold Auth. solve_good; apply Hh. Qed.
Lemma good_OptionalAuth h : good_handler h -> good_handler (OptionalAuth h).
Proof. intros Hh c r. unfold OptionalAuth. solve_good; apply Hh. Qed.
Lemma good_RequireScope s h : good_handler h -> good_handler (RequireScope s h).
Proof. intros Hh c r. unfold RequireScope. solve_good; apply Hh. Qed.
Lemma good_RequireSameOrigin b h : good_handler h -> good_handler (RequireSameOrigin b h).
Proof. intros Hh c r. unfold RequireSameOrigin. solve_good; apply Hh. Qed.
Lemma still_allow k m w : still (allow k m w).
Proof. unfold allow. solve_good. Qed.
Lemma still_sessions_NewToken t : still (sessions_NewToken t).
Proof. unfold sessions_NewToken. solve_good. Qed.
Lemma still_sessions_Valid t : still (sessions_Valid t).
Proof. unfold sessions_Valid. solve_good. Qed.
Lemma still_sessions_Revoke t : still (sessions_Revoke t).
Proof. unfold sessions_Revoke. solve_good. Qed.
Lemma still_pending_Put t h : still (pending_Put t h).
Proof. unfold pending_Put. solve_good. Qed.
Lemma still_pending_Consume h : still (pending_Consume h).
Proof. unfold pending_Consume. solve_good. Qed.
#[local] Hint Resolve still_allow still_sessions_NewToken still_sessions_Valid still_sessions_Revoke
  still_pending_Put still_pending_Consume : good.
Lemma good_LimitHandler m w k h : good_handler h -> good_handler (LimitHandler m w k h).
Proof. intros Hh c r. unfold LimitHandler. solve_good; apply Hh. Qed.
Lemma good_RequireAdmin e h : good_handler h -> good_handler (RequireAdmin e h).
Proof. intros Hh c r. unfold RequireAdmin. solve_good; apply Hh. Qed.

End Middleware.

End Middleware.

#[export] Hint Resolve Middleware.still_allow Middleware.still_sessions_NewToken
  Middleware.still_sessions_Valid Middleware.still_sessions_Revoke Middleware.still_pending_Put
  Middleware.still_pending_Consume : good.
