(* ===== verification/MiddlewareFacts.v ===== *)
(** * What the middleware guarantees

    Who reaches a handler behind the bearer check, with which context; that a revoked token
    never does; and what the same-origin check lets through. *)

From S2P Require Import Prelude RateLimit AdminStore Schema Statements Invariants World.
From S2P Require Import GoStrings GoJson Runs Samples Repo RepoFacts Auth AuthFacts Http Middleware.

Open Scope Z_scope.

Section Tokens.
Context `{Env, Engine}.

(** The row a bearer token stands for: not revoked, under the token's hash. *)
Definition bearer_row (token : string) (d : db) : option api_token :=
  head (sel (Repo.live_token (Repo.sha256Hex token)) (api_tokens d)).

(** The database after [TouchAPIToken], which may fail: at most [last_used_at] moves. *)
Definition stamped (token : string) (d d' : db) : Prop :=
  d' = d \/ exists t, d' = set_api (upd (fun a => str_eqb (t_hash a) (Repo.sha256Hex token)) (touched t)) d.

(** ** Runs of the two token operations *)

Lemma APITokenByHash_run token w :
  w_conn w = true ->
  Repo.APITokenByHash token w = (Ok (bearer_row token (w_db w)), tick w) \/
  ((exists k, sql_fails k = true) /\ Repo.APITokenByHash token w = (Err ErrIO, tick w)).
Proof.
  intros Hc. unfold Repo.APITokenByHash, Repo.row_or_nil, db_query_row, with_conn, mbind, M_bind, try_, sql_read.
  rewrite Hc. simpl. pose proof (set_conn_same _ Hc) as Hs. unfold tick in *. simpl in Hs.
  destruct (sql_fails (w_tick w)) eqn:Ef; simpl.
  - right. split; [by eexists|]. by rewrite Hs.
  - left. unfold bearer_row. destruct (head _); simpl; by rewrite Hs.
Qed.

Lemma TouchAPIToken_run token w :
  w_conn w = true ->
  exists w1, ignore (Repo.TouchAPIToken token) w = (Ok tt, w1) /\ stamped token (w_db w) (w_db w1) /\ w_conn w1 = true.
Proof.
  intros Hc. unfold ignore, Repo.TouchAPIToken, Repo.exec_, unix_now, time_now,
    next_tick, db_exec, with_conn, sql_stmt, stamped, try_, mbind, M_bind. simpl. rewrite Hc. simpl.
  destruct (sql_fails _); simpl; eexists; (split; [reflexivity|]); simpl; eauto.
Qed.

Lemma stamped_evolves token d d' : stamped token d d' -> evolves d d'.
Proof.
  intros [->|[t ->]]; [apply evolves_refl|]. apply (evolves_once (TouchAPI t (Repo.sha256Hex token)) _ _ _ eq_refl).
Qed.

(** ** The gate *)

(** Who passes the bearer check.  Without a [Bearer] header the answer is
    [missing_token]; with a token that stands for no live row, [invalid_token]; if the lookup
    fails, an internal error; in these cases nothing is written and the handler does not run.
    Otherwise the handler runs, once, with the user, node and scope of the token's row, and
    at most the row's [last_used_at] has moved. *)
Theorem auth_gate base next c r w :
  w_conn w = true ->
  let token := Middleware.extractBearerHeader r in
  let run := Middleware.Auth base next c r w in
  if is_empty token then run = (Ok (Middleware.writeUnauthorized base "missing_token"), w)
  else
    (run = (Ok (http_error (error_text "internal") 500), tick w) /\ exists k, sql_fails k = true) \/
    match bearer_row token (w_db w) with
    | None => run = (Ok (Middleware.writeUnauthorized base "invalid_token"), tick w)
    | Some a => exists w1, stamped token (w_db w) (w_db w1) /\ w_conn w1 = true /\
                  run = next (Middleware.token_ctx a token c) r w1
    end.
Proof.
  intros Hc token. cbv zeta. unfold Middleware.Auth. fold token. destruct (is_empty token); [done|].
  destruct (APITokenByHash_run token w Hc) as [E|[Hf E]];
    [right; erewrite run_bind by exact (run_try _ _ _ _ E)
    |left; by erewrite run_bind by exact (run_try_err _ _ _ _ E)].
  destruct (bearer_row token (w_db w)) as [a|]; [|done].
  destruct (TouchAPIToken_run token (tick w) Hc) as (w1 & E1 & Hs & Hc1).
  exists w1. split_and!; [done..|]. by erewrite run_bind by exact E1.
Qed.

(** ** Revocation *)

Lemma RevokeAPIToken_row token w u w1 a :
  Repo.RevokeAPIToken token w = (Ok u, w1) -> a ∈ api_tokens (w_db w) -> t_hash a = Repo.sha256Hex token ->
  evolves (w_db w) (w_db w1) /\
  exists a', a' ∈ api_tokens (w_db w1) /\ t_hash a' = Repo.sha256Hex token /\ t_revoked a' <> None.
Proof.
  intros E Ha Hh. unfold Repo.RevokeAPIToken, Repo.exec_ in E. inv_run.
  split; [apply (evolves_once (RevokeAPI (unix (clock (w_tick w))) (Repo.sha256Hex token)) _ _ _ eq_refl)|].
  eexists. split; [|split].
  - apply upd_hit; [exact Ha|]. by rewrite Hh, str_eqb_refl.
  - exact Hh.
  - done.
Qed.

Lemma bearer_row_none token d a :
  db_wf d -> a ∈ api_tokens d -> t_hash a = Repo.sha256Hex token -> t_revoked a <> None ->
  bearer_row token d = None.
Proof.
  intros W Ha Hh Hr. unfold bearer_row. rewrite sel_miss; [done|]. intros b Hb.
  unfold Repo.live_token. destruct (str_eqb (t_hash b) _) eqn:E; [|done]. apply str_eqb_true in E.
  assert (b = a) as -> by (eapply (NoDup_fmap_inj_on t_hash); [apply W|done..|congruence]).
  by destruct (t_revoked a).
Qed.

(** C26: a revoked token stays out.  Once [RevokeAPIToken] (the logout of its bearer) has
    succeeded on a token that was issued, then whatever statements run in between, every
    request that bears it is refused behind [Auth], and behind [OptionalAuth] it is an
    anonymous request: no handler sees the token's user again. *)
Theorem revoked_token_stays_out token w u w1 w2 a base r (c : ctx) :
  db_wf (w_db w) -> a ∈ api_tokens (w_db w) -> t_hash a = Repo.sha256Hex token ->
  Repo.RevokeAPIToken token w = (Ok u, w1) -> evolves (w_db w1) (w_db w2) -> w_conn w2 = true ->
  (Middleware.extractBearerHeader r = token -> is_empty token = false ->
   exists resp, (forall next, Middleware.Auth base next c r w2 = (Ok resp, tick w2)) /\
     rs_status resp ∈ [401; 500]) /\
  (Middleware.extractBearer r = token -> is_empty token = false ->
   forall next, Middleware.OptionalAuth next c r w2 = next c r (tick w2)).
Proof.
  intros W Ha Hh E Ev Hc. destruct (RevokeAPIToken_row _ _ _ _ _ E Ha Hh) as (Ev1 & a1 & Ha1 & Hh1 & Hr1).
  destruct (fw_api _ _ (evolves_moves_forward _ _ Ev) _ Ha1) as (a2 & Ha2 & Hk & _ & _ & _ & Hf).
  assert (Hn : bearer_row token (w_db w2) = None).
  { eapply bearer_row_none; [|exact Ha2|congruence|auto]. eapply evolves_preserves_wf; [by etrans|done]. }
  split; intros Ht He.
  - destruct (APITokenByHash_run token w2 Hc) as [Ea|[_ Ea]]; eexists; (split; [intros next; unfold Middleware.Auth; rewrite Ht, He|]).
    + erewrite run_bind by exact (run_try _ _ _ _ Ea). by rewrite Hn.
    + set_solver.
    + by erewrite run_bind by exact (run_try_err _ _ _ _ Ea).
    + set_solver.
  - intros next. unfold Middleware.OptionalAuth. rewrite Ht, He.
    destruct (APITokenByHash_run token w2 Hc) as [Ea|[_ Ea]].
    + erewrite run_bind by exact (run_try _ _ _ _ Ea). by rewrite Hn.
    + by erewrite run_bind by exact (run_try_err _ _ _ _ Ea).
Qed.

(** ** Scopes *)

(** The scope behind [Auth] and [RequireScope] is that of the token's row: the handler
    runs only for a live token whose scope is [all] or the required one; any other live token
    is answered 403. *)
Theorem scope_gate base required next r w a :
  w_conn w = true -> (forall k, sql_fails k = false) ->
  is_empty (Middleware.extractBearerHeader r) = false ->
  bearer_row (Middleware.extractBearerHeader r) (w_db w) = Some a ->
  exists w1, stamped (Middleware.extractBearerHeader r) (w_db w) (w_db w1) /\
    Middleware.Auth base (Middleware.RequireScope required next) empty_ctx r w =
    if bool_decide (t_scope a = Some "all" \/ default EmptyString (t_scope a) = required)
    then next (Middleware.token_ctx a (Middleware.extractBearerHeader r) empty_ctx) r w1
    else (Ok (Resp 403 [("Content-Type", "application/json")] [] (BText (error_text "insufficient_scope"))), w1).
Proof.
  intros Hc Hsql He Hb. set (token := Middleware.extractBearerHeader r) in *.
  destruct (APITokenByHash_run token w Hc) as [E|[[k Hk] _]]; [|by rewrite Hsql in Hk].
  destruct (TouchAPIToken_run token (tick w) Hc) as (w1 & E1 & Hs & _). exists w1. split; [done|].
  unfold Middleware.Auth. fold token. rewrite He. erewrite run_bind by exact (run_try _ _ _ _ E). rewrite Hb.
  erewrite run_bind by exact E1. unfold Middleware.RequireScope, ScopeFromContext. simpl.
  destruct (t_scope a) as [s|]; simpl.
  - destruct (str_eqb s "all") eqn:E2, (str_eqb s required) eqn:E3; bool_prop; simpl; subst;
      case_bool_decide as Hd; try done; exfalso; naive_solver.
  - destruct (str_eqb EmptyString required) eqn:E3; bool_prop; simpl; case_bool_decide as Hd; try done;
      exfalso; naive_solver.
Qed.

(** ** Origins *)

(** What the same-origin check compares is text: a state-changing request passes exactly
    when its [Origin], or without one its [Referer], is the base URL followed by anything,
    a longer host name included. *)
Theorem same_origin_prefix base r :
  r_method r ∉ ["GET"; "HEAD"; "OPTIONS"] ->
  Middleware.same_origin base r = true <->
  exists rest, if is_empty (header r "Origin") then header r "Referer" = base ++s rest /\ header r "Referer" <> EmptyString
               else header r "Origin" = base ++s rest.
Proof.
  intros Hm. unfold Middleware.same_origin.
  assert (str_eqb (r_method r) "GET" || str_eqb (r_method r) "HEAD" || str_eqb (r_method r) "OPTIONS" = false) as ->.
  { apply not_true_iff_false. intros Ho. apply Hm. repeat apply orb_true_iff in Ho as [Ho|Ho]; bool_prop; set_solver. }
  destruct (is_empty (header r "Origin")) eqn:Eo; [|apply has_prefix_iff].
  destruct (is_empty (header r "Referer")) eqn:Er; simpl; rewrite ?negb_involutive, ?has_prefix_iff; bool_prop;
    naive_solver.
Qed.

End Tokens.

(** ** A concrete session *)

#[local] Existing Instance sample_env.
#[local] Existing Instance sample_engine.

Definition sample_token : string := "k7".

(** One user with a live token of the given scope. *)
Definition session_db (scope : string) : db :=
  set_api (fun _ => [APIToken (Repo.sha256Hex sample_token) "u1" None (Some "web") (Some scope) 10 None None])
    (set_users (fun _ => [User "u1" "ada@example.com" 5]) empty_db).

Definition session_world (scope : string) : world := set_db (session_db scope) start_world.

Definition bearing (method : string) (headers : list (string * string)) : request :=
  Req method "/ingest/snapshot" "hb.example" "10.0.0.7:4711" true
    (("Authorization", "Bearer " ++s sample_token) :: headers) [] [] [] true [] EmptyString.

Lemma session_wf scope : db_wf (session_db scope).
Proof.
  constructor; simpl; try (apply NoDup_nil_2); try (apply NoDup_singleton);
    try (by intros r []%elem_of_nil).
  intros r ->%list_elem_of_singleton. by split_and!.
Qed.

Definition show_user : handler := fun c _ => mret (json_resp 200 (JStr (UserIDFromContext c))).

Theorem auth_gate_witness :
  exists w1, Middleware.Auth "https://hb.example" show_user empty_ctx (bearing "POST" []) (session_world "all")
    = (Ok (json_resp 200 (JStr "u1")), w1).
Proof.
  destruct (auth_gate "https://hb.example" show_user empty_ctx (bearing "POST" []) (session_world "all") eq_refl)
    as [[_ [k Hk]]|Hb]; [done|].
  vm_compute bearer_row in Hb. destruct Hb as (w1 & _ & _ & E). exists w1. by rewrite E.
Defined.

Theorem revoked_token_stays_out_witness :
  let w := session_world "all" in
  let w1 := after (Repo.RevokeAPIToken sample_token) w in
  Middleware.OptionalAuth show_user empty_ctx (bearing "POST" []) w1 = show_user empty_ctx (bearing "POST" []) (tick w1).
Proof.
  intros w w1.
  eapply (revoked_token_stays_out sample_token w tt w1 w1 _ EmptyString (bearing "POST" []) empty_ctx (session_wf "all")).
  - by apply list_elem_of_singleton.
  - reflexivity.
  - vm_compute. reflexivity.
  - apply evolves_refl.
  - vm_compute. reflexivity.
  - reflexivity.
  - reflexivity.
Defined.

Theorem scope_gate_witness :
  exists w1, Middleware.Auth "https://hb.example" (Middleware.RequireScope "talent:search" show_user) empty_ctx
    (bearing "POST" []) (session_world "node:push")
  = (Ok (Resp 403 [("Content-Type", "application/json")] [] (BText (error_text "insufficient_scope"))), w1).
Proof.
  edestruct (scope_gate "https://hb.example" "talent:search" show_user (bearing "POST" []) (session_world "node:push"))
    as (w1 & _ & E); [reflexivity|reflexivity|reflexivity|vm_compute; reflexivity|].
  exists w1. by rewrite E.
Defined.

(** The page of another host that starts with the same text. *)
Theorem same_origin_prefix_witness :
  Middleware.same_origin "https://hb.example" (bearing "POST" [("Origin", "https://hb.example.evil.com")]) = true.
Proof.
  apply same_origin_prefix; [vm_compute; set_solver|]. exists ".evil.com". vm_compute. reflexivity.
Defined.
