(* ===== verification/AuthHandlers.v ===== *)
(** * The authentication endpoints (src/internal/httpapi/handler/auth.go)

    Magic-link request and callback, logout, and the device flow's endpoints, over the
    service of Auth.v. *)

From S2P Require Import Prelude RateLimit AdminStore Schema Statements Invariants World.
From S2P Require Import GoStrings GoJson Runs Samples Repo RepoFacts Auth AuthFacts Http.
From S2P Require Import Middleware.

Open Scope Z_scope.

(** [omitempty] members *)
Definition omit_str (k v : string) : list (string * json) := if is_empty v then [] else [(k, JStr v)].
Definition omit_int (k : string) (v : Z) : list (string * json) := if v =? 0 then [] else [(k, JInt v)].

Definition device_init_json (r : DeviceInitResponse) : json :=
  JObj [("device_code", JStr (di_DeviceCode r)); ("user_code", JStr (di_UserCode r));
        ("verification_uri", JStr (di_VerificationURI r));
        ("verification_uri_complete", JStr (di_VerificationURIComplete r));
        ("expires_in", JInt (di_ExpiresIn r)); ("interval", JInt (di_Interval r))].

Definition poll_json (r : TokenPollResponse) : json :=
  JObj (omit_str "access_token" (tp_AccessToken r) ++ omit_str "node_id" (tp_NodeID r)
        ++ omit_str "token_type" (tp_TokenType r) ++ omit_int "expires_in" (tp_ExpiresIn r)
        ++ omit_str "scope" (tp_Scope r) ++ omit_str "intro_secret" (tp_IntroSecret r)
        ++ omit_str "error" (tp_Error r) ++ omit_int "interval" (tp_Interval r)).

Definition error_json (e : string) : json := jmap [("error", JStr e)].

(** [hex.DecodeString] and the ed25519 key size *)
Definition decode_public_key (s : string) : option string :=
  match Hex.decode s with
  | Some k => if (String.length k =? 32)%nat then Some k else None
  | None => None
  end.

(** [clientIP, _, _ := net.SplitHostPort(r.RemoteAddr)], or the address itself. *)
Definition client_ip (r : request) : string :=
  let h := split_host (r_remote r) in if is_empty h then r_remote r else h.

Module AuthHandler.
Section AuthHandler.
Context `{Env, Engine}.
Context (svc : AuthService).

Definition RequestMagicLink : handler := fun _ r =>
  let email := form_value r "email" in
  let uc := form_value r "uc" in
  if is_empty email then mret (http_error (error_text "email_required") 400)
  else
    ok ← (by_ip ← Middleware.allow ("ip:" ++s client_ip r) 10 (15 * minute);
          if by_ip : bool then Middleware.allow ("email:" ++s email) 5 (15 * minute) else mret false);
    if negb ok then mret (http_error (error_text "rate_limited") 429)
    else
      sent ← try_ (Service.RequestMagicLink svc email uc);
      match sent with
      | inl _ => mret (http_error (error_text "internal") 500)
      | inr _ => mret (json_resp 200 (jmap [("ok", JStr "check your email")]))
      end.

Definition token_cookie (token : string) (secure : bool) : cookie :=
  Cookie "hb_token" token "/" true secure true 0.

Definition Callback : handler := fun _ r =>
  let token := query_get r "token" in
  if is_empty token then mret (http_error "missing token" 400)
  else
    result ← try_ (Service.VerifyMagicCallback token);
    match result with
    | inl _ | inr None => mret (http_error "invalid or expired link" 400)
    | inr (Some cb) =>
        if cr_PendingDevice cb then mret (redirect "/device?pending=1")
        else
          let with_cookie := if is_empty (cr_AccessToken cb) then id
                             else add_cookie (token_cookie (cr_AccessToken cb) (r_tls r)) in
          mret (with_cookie (redirect (if cr_DeviceApproved cb then "/device?approved=1" else "/dashboard")))
    end.

Definition Logout : handler := fun _ r =>
  let token := Middleware.BearerFromRequest r in
  _ ← (if is_empty token then mret tt else ignore (Repo.RevokeAPIToken token));
  mret (add_cookie (Cookie "hb_token" EmptyString "/" true false false (-1))
          (json_resp 200 (jmap [("ok", JStr "logged out")]))).

Definition InitDevice : handler := fun _ r =>
  let v := default VNull (parse (limit_read 4096 (r_body r))) in
  let go pubKey :=
    resp ← try_ (Service.InitiateDeviceFlow svc (string_field "node_type" v)
                   (string_field "endpoint_url" v) pubKey);
    match resp with
    | inl _ => mret (http_error (error_text "internal") 500)
    | inr d => mret (json_resp 200 (device_init_json d))
    end in
  let hexkey := string_field "public_key" v in
  if is_empty hexkey then go None
  else match decode_public_key hexkey with
       | None => mret (http_error (error_text "invalid_public_key") 400)
       | Some k => go (Some k)
       end.

Definition DevicePage : handler := fun c r =>
  mret (html "device.html"
    (jmap [("UserCode", JStr (query_get r "uc")); ("Approved", JBool (str_eqb (query_get r "approved") "1"));
           ("LoggedIn", JBool (negb (is_empty (UserIDFromContext c))))])).

Definition ApproveDevice : handler := fun c r =>
  let uc := form_value r "uc" in
  let userID := UserIDFromContext c in
  if is_empty userID then mret (http_error "not logged in" 401)
  else if is_empty uc then mret (http_error "missing user_code" 400)
  else
    ds ← try_ (Repo.DeviceSessionByUserCode uc);
    match ds with
    | inr (Some s) =>
        done_ ← try_ (Repo.ApproveDeviceSession (d_hash s) userID);
        match done_ with
        | inl _ => mret (http_error "approval failed" 500)
        | inr _ => mret (redirect ("/device?uc=" ++s uc ++s "&approved=1"))
        end
    | _ => mret (http_error "invalid user code" 400)
    end.

Definition device_grant : string := "urn:ietf:params:oauth:grant-type:device_code".

Definition TokenEndpoint : handler := fun _ r =>
  if negb (r_form_ok r) then mret (http_error (error_text "invalid_request") 400)
  else if negb (str_eqb (form_value r "grant_type") device_grant)
  then mret (json_resp 400 (error_json "unsupported_grant_type"))
  else
    let deviceCode := form_value r "device_code" in
    if is_empty deviceCode then mret (json_resp 400 (error_json "invalid_request"))
    else
      resp ← try_ (Service.PollToken deviceCode);
      match resp with
      | inl _ => mret (json_resp 500 (error_json "internal"))
      | inr p => mret (json_resp (if is_empty (tp_Error p) then 200 else 400) (poll_json p))
      end.

(** ** Pool discipline *)

Lemma good_all :
  Middleware.good_handler RequestMagicLink * Middleware.good_handler Callback *
  Middleware.good_handler Logout * Middleware.good_handler InitDevice *
  Middleware.good_handler DevicePage * Middleware.good_handler ApproveDevice *
  Middleware.good_handler TokenEndpoint.
Proof.
  repeat split; intros c r.
  - unfold RequestMagicLink. solve_good.
  - unfold Callback. solve_good.
  - unfold Logout. solve_good.
  - unfold InitDevice. solve_good.
  - unfold DevicePage. solve_good.
  - unfold ApproveDevice. solve_good.
  - unfold TokenEndpoint. solve_good.
Qed.

End AuthHandler.
End AuthHandler.
