(* ===== verification/FedRepo.v ===== *)
(** * Federated peers in the database (src/internal/federation/repo.go)

    The admin panel's list of peers, and their approval and revocation. *)

From S2P Require Import Prelude RateLimit AdminStore Schema Statements Invariants World.
From S2P Require Import GoStrings Runs Repo RepoFacts.

Open Scope Z_scope.

(** ORDER BY name, bytewise. *)
Definition name_le (a b : fed_instance) : Prop := String.leb (f_name a) (f_name b) = true.

#[global] Instance name_le_dec a b : Decision (name_le a b).
Proof. unfold name_le. apply _. Defined.

Module FedRepo.
Section FedRepo.
Context `{Env, Engine}.

Definition ListFederatedInstances : M (list fed_instance) :=
  db_query (fun d => merge_sort name_le (federated_instances d)).

Definition ApproveFederatedInstance (id : string) : M unit := exec_ (db_exec (FedApprove id)).

Definition RevokeFederatedInstance (id : string) : M unit :=
  now ← unix_now; affecting ErrNoRows (db_exec (FedRevoke now id)).

Lemma good_ListFederatedInstances : good ListFederatedInstances.
Proof. unfold ListFederatedInstances. solve_good. Qed.
Lemma good_ApproveFederatedInstance id : good (ApproveFederatedInstance id).
Proof. unfold ApproveFederatedInstance. solve_good. Qed.
Lemma good_RevokeFederatedInstance id : good (RevokeFederatedInstance id).
Proof. unfold RevokeFederatedInstance. solve_good. Qed.

End FedRepo.
End FedRepo.

#[export] Hint Resolve FedRepo.good_ListFederatedInstances FedRepo.good_ApproveFederatedInstance
  FedRepo.good_RevokeFederatedInstance : good.
