(* ===== verification/Ingest.v ===== *)
(** * Snapshot ingestion (src/internal/crypto/verify.go, service/ingest.go, handler/ingest.go)

    A node posts a signed snapshot; the signature is checked over the very bytes of the
    payload before anything is written.  ed25519 verification and the conversion of a JSON
    number to a float64 are parameters. *)

From S2P Require Import Prelude RateLimit AdminStore Schema Statements Invariants World.
From S2P Require Import GoStrings GoJson Sha256 Float Runs Samples Repo RepoFacts Http.
From S2P Require Import Middleware AuthHandlers.

Open Scope Z_scope.

(** crypto/ed25519: public key, message, signature. *)
Class Ed25519 := { ed25519_Verify : string -> string -> string -> bool }.

(** [strconv.ParseFloat]: [None] when the number is out of range; and the shortest decimal
    form of [json.Marshal]. *)
Class FloatText := {
  parse_float : string -> option float64;
  format_float : float64 -> string }.

(** ** verify.go *)

Section Verify.
Context `{Ed25519}.

(** [inl] is the error. *)
Definition VerifySignature (pubKey : option string) (message sigHex : string) : goerr + bool :=
  match pubKey with
  | None => inl (ErrText "invalid public key")
  | Some key =>
      if negb (String.length key =? 32)%nat then inl (ErrText "invalid public key")
      else match Hex.decode sigHex with
           | None => inl (ErrWrap "decode signature" (ErrText "encoding/hex"))
           | Some sig =>
               if negb (String.length sig =? 64)%nat
               then inl (ErrText ("invalid signature length: got " ++s itoa (Z.of_nat (String.length sig)) ++s ", want 64"))
               else inr (ed25519_Verify key message sig)
           end
  end.

(** A signature that passes is a good ed25519 signature of exactly that message. *)
Lemma VerifySignature_true k m s :
  VerifySignature k m s = inr true ->
  exists key sig, k = Some key /\ String.length key = 32%nat /\ Hex.decode s = Some sig /\
    String.length sig = 64%nat /\ ed25519_Verify key m sig = true.
Proof.
  unfold VerifySignature. destruct k as [key|]; [|done].
  destruct (String.length key =? 32)%nat eqn:Ek; [|done].
  destruct (Hex.decode s) as [sig|]; [|done].
  destruct (String.length sig =? 64)%nat eqn:Es; [|done]. simpl.
  apply Nat.eqb_eq in Ek, Es. intros [= E]. eauto 10.
Qed.

End Verify.

(** ** service/ingest.go *)

Record SnapshotInput := mkInput {
  in_CandidateID : string;
  in_Payload : string;
  in_Embedding : list (list float64);
  in_Signature : string }.

Module Ingest.
Section Ingest.
Context `{Env, Engine, Ed25519, FloatText}.
Context (EmbedDim : Z).

(** The signature check of a node that has a public key. *)
Definition check_signature (n : node) (payload signature : string) : M unit :=
  match n_pubkey n with
  | None => mret tt
  | Some key =>
      if is_empty key then mret tt
      else if is_empty signature then throw (ErrText "signature required when node has a public key")
      else match VerifySignature (n_pubkey n) payload signature with
           | inl e => throw (ErrWrap "verify signature" e)
           | inr false => throw (ErrText "signature verification failed")
           | inr true => mret tt
           end
  end.

Definition check_dim (embedding : list (list float64)) : M unit :=
  match embedding with
  | v :: _ =>
      let got := Z.of_nat (length v) in
      if (0 <? EmbedDim) && negb (got =? EmbedDim)
      then throw (ErrWrap (": got " ++s itoa got ++s ", want " ++s itoa EmbedDim) ErrEmbedDimMismatch)
      else mret tt
  | [] => mret tt
  end.

Definition decode_sig (signature : string) : M (option string) :=
  if is_empty signature then mret None
  else match Hex.decode signature with
       | Some b => mret (Some b)
       | None => throw (ErrWrap "decode signature" (ErrText "encoding/hex"))
       end.

Definition Process (nodeID : string) (input : SnapshotInput) : M unit :=
  n ← wrap "lookup node" (Repo.NodeByID nodeID);
  match n with
  | None => throw (ErrText "node not found")
  | Some n =>
      if negb (n_active n) then throw (ErrText "node is inactive or revoked")
      else if 1048576 <? Z.of_nat (String.length (in_Payload input))
      then throw (ErrText ("payload too large: " ++s itoa (Z.of_nat (String.length (in_Payload input)))
                           ++s " bytes, max 1MB"))
      else
        _ ← check_signature n (in_Payload input) (in_Signature input);
        _ ← check_dim (in_Embedding input);
        sigBytes ← decode_sig (in_Signature input);
        id ← Repo.NewID;
        _ ← wrap "upsert snapshot"
              (Repo.UpsertSnapshot id nodeID (in_CandidateID input) (in_Payload input) sigBytes);
        _ ← ignore (Repo.ReplaceFTS5Row (in_CandidateID input) (in_Payload input));
        _ ← match in_Embedding input with
            | [] => mret tt
            | _ => ignore (Repo.UpsertVec0Embedding (in_CandidateID input) (in_Embedding input))
            end;
        ignore (Repo.UpdateNodePing nodeID)
  end.

(** ** handler/ingest.go *)

Definition float_elem (v : jval) : option float64 :=
  match v with VNum n => parse_float n | VNull => Some (f64_of_Z 0) | _ => None end.

Definition float_row (v : jval) : option (list float64) :=
  match v with VArr l => mapM float_elem l | VNull => Some [] | _ => None end.

(** A field of type [[][]float64]: [None] is a decoding error. *)
Definition embedding_field (v : jval) : option (list (list float64)) :=
  foldl (fun cur m => match cur, m.2 with
                      | Some _, VArr l => mapM float_row l
                      | Some _, VNull => Some []
                      | _, _ => None
                      end) (Some []) (field_values "embedding" v).

Definition decode_input (v : jval) : option SnapshotInput :=
  match embedding_field v with
  | Some e =>
      if struct_ok v && string_field_ok "candidate_id" v && string_field_ok "signature" v
      then Some (mkInput (string_field "candidate_id" v) (raw_field "payload" v) e (string_field "signature" v))
      else None
  | None => None
  end.

Definition dim_error_text (e : goerr) : string :=
  match e with ErrWrap c ErrEmbedDimMismatch => "embedding dimension mismatch" ++s c | _ => EmptyString end.

Definition Snapshot : handler := fun c r =>
  let nodeID := NodeIDFromContext c in
  if is_empty nodeID then mret (http_error (error_text "node_not_authenticated") 403)
  else
    match parse (limit_read 2097152 (r_body r)) with
    | None => mret (http_error (error_text "invalid_json") 400)
    | Some v =>
        if negb (struct_ok v && string_field_ok "candidate_id" v)
        then mret (http_error (error_text "invalid_json") 400)
        else match decode_input v with
        | None => mret (http_error (error_text "invalid_json") 400)
        | Some input =>
            if is_empty (in_CandidateID input) then mret (http_error (error_text "candidate_id_required") 400)
            else
              done_ ← try_ (Process nodeID input);
              match done_ with
              | inl e =>
                  if err_is e ErrEmbedDimMismatch then mret (json_resp 400 (error_json (dim_error_text e)))
                  else mret (http_error (error_text "ingest_failed") 500)
              | inr _ => mret (json_resp 200 (jmap [("status", JStr "accepted")]))
              end
        end
    end.

(** ** Guarantees *)

Lemma still_check_signature n p s : still (check_signature n p s).
Proof. unfold check_signature. solve_good. Qed.
Lemma still_check_dim e : still (check_dim e).
Proof. unfold check_dim. solve_good. Qed.
Lemma still_decode_sig s : still (decode_sig s).
Proof. unfold decode_sig. solve_good. Qed.
#[local] Hint Resolve still_check_signature still_check_dim still_decode_sig : good.

Lemma good_Process n i : good (Process n i).
Proof. unfold Process. solve_good. Qed.
#[local] Hint Resolve good_Process : good.
Lemma good_Snapshot : Middleware.good_handler Snapshot.
Proof. intros c r. unfold Snapshot. solve_good. Qed.

End Ingest.
End Ingest.
