(* ===== verification/IngestFacts.v ===== *)
(** * What ingestion guarantees

    A snapshot is stored only for an active node, within the size limit, with the expected
    dimension, and (when the node has a key) with a good signature over exactly the stored
    bytes; a rejected one writes nothing. *)

From S2P Require Import Prelude RateLimit AdminStore Schema Statements Invariants World.
From S2P Require Import GoStrings GoJson Sha256 Float Runs Samples Repo RepoFacts Http.
From S2P Require Import Middleware AuthHandlers AuthFacts Ingest.

Open Scope Z_scope.

Section Reads.
Context `{Env, Engine}.

Lemma keeps_row_or_nil {X A} (g : db -> X) (f : db -> option A) : keeps g (row_or_nil (db_query_row f)).
Proof. unfold row_or_nil. solve_frame. Qed.
Lemma keeps_must_rand {X} (g : db -> X) n : keeps g (Repo.must_rand n).
Proof. unfold Repo.must_rand. solve_frame. Qed.
Hint Resolve keeps_row_or_nil keeps_must_rand : runs.
Lemma keeps_NewID {X} (g : db -> X) : keeps g Repo.NewID.
Proof. unfold Repo.NewID. solve_frame. Qed.
Lemma keeps_GenerateToken {X} (g : db -> X) : keeps g Repo.GenerateToken.
Proof. unfold Repo.GenerateToken. solve_frame. Qed.
Lemma keeps_NodeByID {X} (g : db -> X) n : keeps g (Repo.NodeByID n).
Proof. unfold Repo.NodeByID. solve_frame. Qed.
Lemma keeps_APITokenByHash {X} (g : db -> X) n : keeps g (Repo.APITokenByHash n).
Proof. unfold Repo.APITokenByHash. solve_frame. Qed.
Lemma keeps_ResolveDeliveryTarget {X} (g : db -> X) n : keeps g (Repo.ResolveDeliveryTarget n).
Proof. unfold Repo.ResolveDeliveryTarget. solve_frame. Qed.
Lemma keeps_NodesByUser {X} (g : db -> X) u : keeps g (Repo.NodesByUser u).
Proof. unfold Repo.NodesByUser. solve_frame. Qed.

Lemma clean_exec_ s : clean (exec_ (db_exec s)).
Proof. unfold exec_. apply clean_bind_noerr; [apply clean_db_exec|done]. Qed.
Hint Resolve clean_exec_ : runs.
Lemma clean_UpsertSnapshot i n c p s : clean (Repo.UpsertSnapshot i n c p s).
Proof. unfold Repo.UpsertSnapshot. solve_frame. Qed.

End Reads.

#[export] Hint Resolve keeps_row_or_nil keeps_must_rand keeps_NewID keeps_GenerateToken keeps_NodeByID
  keeps_APITokenByHash keeps_ResolveDeliveryTarget keeps_NodesByUser clean_exec_ clean_UpsertSnapshot : runs.

Section Ingest.
Context `{Env, Engine, Ed25519, FloatText}.
Context (EmbedDim : Z).

Lemma quiet_check_signature n p s : quiet (Ingest.check_signature n p s).
Proof. unfold Ingest.check_signature. solve_frame. Qed.
Lemma quiet_check_dim e : quiet (Ingest.check_dim EmbedDim e).
Proof. unfold Ingest.check_dim. solve_frame. Qed.
Lemma quiet_decode_sig s : quiet (Ingest.decode_sig s).
Proof. unfold Ingest.decode_sig. solve_frame. Qed.
#[local] Hint Resolve quiet_check_signature quiet_check_dim quiet_decode_sig : runs.

(** C25: a rejected snapshot writes nothing: whenever [Process] returns an error (unknown or
    inactive node, payload too large, missing or bad signature, wrong dimension, a failing
    upsert), the database is what it was. *)
Theorem ingest_rejects_cleanly nodeID input w e w' :
  Ingest.Process EmbedDim nodeID input w = (Err e, w') -> w_db w' = w_db w.
Proof.
  revert w e w'. change (clean (Ingest.Process EmbedDim nodeID input)). unfold Ingest.Process. solve_frame.
Qed.

(** What an accepted snapshot has passed. *)
Definition authentic (n : node) (input : SnapshotInput) : Prop :=
  n_active n = true /\
  Z.of_nat (String.length (in_Payload input)) <= 1048576 /\
  (forall key, n_pubkey n = Some key -> key <> EmptyString ->
     exists sig, Hex.decode (in_Signature input) = Some sig /\ ed25519_Verify key (in_Payload input) sig = true) /\
  (forall v rest, in_Embedding input = v :: rest -> 0 < EmbedDim -> Z.of_nat (length v) = EmbedDim).

Lemma check_signature_verified n p s w u w' :
  Ingest.check_signature n p s w = (Ok u, w') ->
  forall key, n_pubkey n = Some key -> key <> EmptyString ->
    is_empty s = false /\ VerifySignature (Some key) p s = inr true.
Proof.
  unfold Ingest.check_signature. intros E key Hk Hne. rewrite Hk in E.
  destruct (is_empty key) eqn:Ek; [by apply is_empty_true in Ek|].
  destruct (is_empty s); [by apply throw_ok in E|].
  destruct (VerifySignature _ _ _) as [e|[|]] eqn:Ev; [by apply throw_ok in E|done|by apply throw_ok in E].
Qed.

Lemma check_signature_ok n p s w u w' :
  Ingest.check_signature n p s w = (Ok u, w') -> w' = w /\
  (forall key, n_pubkey n = Some key -> key <> EmptyString ->
     exists sig, Hex.decode s = Some sig /\ ed25519_Verify key p sig = true).
Proof.
  unfold Ingest.check_signature. destruct (n_pubkey n) as [key|]; [|by intros [_ ->]%ret_ok].
  destruct (is_empty key) eqn:Ek.
  - apply is_empty_true in Ek as ->. intros [_ ->]%ret_ok. split; [done|]. by intros ? [= <-].
  - destruct (is_empty s); [by intros ?%throw_ok|].
    destruct (VerifySignature _ _ _) as [e|[|]] eqn:Ev; [by intros ?%throw_ok| |by intros ?%throw_ok].
    intros [_ ->]%ret_ok. split; [done|]. intros ? [= <-] _.
    apply VerifySignature_true in Ev as (? & sig & [= <-] & _ & ? & _ & ?). eauto.
Qed.

Lemma check_dim_ok e w u w' :
  Ingest.check_dim EmbedDim e w = (Ok u, w') -> w' = w /\
  (forall v rest, e = v :: rest -> 0 < EmbedDim -> Z.of_nat (length v) = EmbedDim).
Proof.
  unfold Ingest.check_dim. destruct e as [|v rest]; [by intros [_ ->]%ret_ok|].
  destruct (_ && _) eqn:E; [by intros ?%throw_ok|]. intros [_ ->]%ret_ok. split; [done|].
  intros ? ? [= <- <-] Hp. apply andb_false_iff in E as [E|E]; bool_prop; [lia|done].
Qed.

Lemma snapshot_stored id nid cid p sg now d d' n :
  exec_stmt (UpsertSnapshot_ id nid cid p sg now) d = Some (d', n) ->
  exists s, s ∈ snapshots d' /\ s_node s = nid /\ s_cand s = cid /\ s_payload s = p /\ s_sig s = sg.
Proof.
  simpl. destruct (has _ (snapshots d)); [done|].
  destruct (has (fun s => str_eqb (s_node s) nid && str_eqb (s_cand s) cid) (snapshots d)) eqn:Eh.
  - intros [= <- _]. apply has_true in Eh as (s & Hs & Ep). exists (reingested p sg now s).
    split; [by apply (upd_hit _ (reingested p sg now))|]. bool_prop. done.
  - intros (_ & -> & _)%inserting_ok. eexists. split; [apply elem_of_app; right; by apply list_elem_of_singleton|done].
Qed.

Lemma keeps_ReplaceFTS5Row cid c : keeps snapshots (Repo.ReplaceFTS5Row cid c).
Proof. unfold Repo.ReplaceFTS5Row. solve_frame. Qed.
Lemma keeps_UpsertVec0Embedding cid e : keeps snapshots (Repo.UpsertVec0Embedding cid e).
Proof. unfold Repo.UpsertVec0Embedding, exec_. solve_frame. Qed.
Lemma keeps_UpdateNodePing n : keeps snapshots (Repo.UpdateNodePing n).
Proof. unfold Repo.UpdateNodePing, exec_. solve_frame. Qed.
#[local] Hint Resolve keeps_ReplaceFTS5Row keeps_UpsertVec0Embedding keeps_UpdateNodePing : runs.

(** What a node is known by: id, endpoint and public key. *)
Definition identities (d : db) : list (string * string * option string) :=
  (fun n => (n_id n, n_endpoint n, n_pubkey n)) <$> nodes d.

Lemma keeps_identities_ping n : keeps identities (Repo.UpdateNodePing n).
Proof.
  unfold Repo.UpdateNodePing, exec_. apply keeps_bind; [apply keeps_unix_now|intros now].
  apply keeps_bind; [|done]. apply keeps_db_exec. intros d d' k. simpl. unfold updating. intros [= <- _].
  unfold identities. simpl. by apply fmap_upd.
Qed.
Lemma keeps_identities_fts cid c : keeps identities (Repo.ReplaceFTS5Row cid c).
Proof. unfold Repo.ReplaceFTS5Row. solve_frame. Qed.
Lemma keeps_identities_vec cid e : keeps identities (Repo.UpsertVec0Embedding cid e).
Proof. unfold Repo.UpsertVec0Embedding, exec_. solve_frame. Qed.
#[local] Hint Resolve keeps_identities_ping keeps_identities_fts keeps_identities_vec : runs.

(** The signature column: NULL without a signature, its bytes with one. *)
Definition stored_signature (s : string) (o : option string) : Prop :=
  if is_empty s then o = None else exists b, Hex.decode s = Some b /\ o = Some b.

Lemma decode_sig_stored s w o w' : Ingest.decode_sig s w = (Ok o, w') -> w' = w /\ stored_signature s o.
Proof.
  unfold Ingest.decode_sig, stored_signature. destruct (is_empty s); [by intros [-> ->]%ret_ok|].
  destruct (Hex.decode s) as [b|]; [intros [-> ->]%ret_ok; eauto|by intros ?%throw_ok].
Qed.

(** What [Process] does once the snapshot is stored. *)
Definition follow_up (nodeID : string) (input : SnapshotInput) : M unit :=
  _ ← ignore (Repo.ReplaceFTS5Row (in_CandidateID input) (in_Payload input));
  _ ← match in_Embedding input with
      | [] => mret tt
      | _ => ignore (Repo.UpsertVec0Embedding (in_CandidateID input) (in_Embedding input))
      end;
  ignore (Repo.UpdateNodePing nodeID).

(** A run of [Process] that returns nil. *)
Lemma Process_stored nodeID input w u w' :
  Ingest.Process EmbedDim nodeID input w = (Ok u, w') ->
  exists n id sg now d k w6, Repo.node_by_id nodeID (w_db w) = Some n /\ authentic n input /\
    stored_signature (in_Signature input) sg /\ w_conn w = true /\
    (forall key, n_pubkey n = Some key -> key <> EmptyString ->
       is_empty (in_Signature input) = false /\ VerifySignature (Some key) (in_Payload input) (in_Signature input) = inr true) /\
    exec_stmt (UpsertSnapshot_ id nodeID (in_CandidateID input) (in_Payload input) sg now) (w_db w) = Some (d, k) /\
    w_db w6 = d /\ w_conn w6 = true /\ follow_up nodeID input w6 = (Ok u, w').
Proof.
  unfold Ingest.Process. intros (o & w1 & (Hc & -> & ->)%wrap_row_ok & E)%bind_ok.
  destruct (Repo.node_by_id nodeID (w_db w)) as [n|] eqn:En; [|by apply throw_ok in E].
  destruct (negb (n_active n)) eqn:Ea; [by apply throw_ok in E|].
  destruct (1048576 <? _) eqn:Es; [by apply throw_ok in E|].
  apply bind_ok in E as (? & w2 & Hs0 & E). pose proof (check_signature_verified _ _ _ _ _ _ Hs0) as Hver.
  apply check_signature_ok in Hs0 as [-> Hsig].
  apply bind_ok in E as (? & w3 & [-> Hdim]%check_dim_ok & E).
  apply bind_ok in E as (sg & w4 & [-> Hsg]%decode_sig_stored & E).
  apply bind_ok in E as (id & w5 & Hid & E).
  destruct (still_NewID (tick w)) as (Hw5 & Hc5 & _). rewrite Hid in Hw5, Hc5. simpl in Hw5, Hc5.
  apply bind_ok in E as (? & w6 & Hu%wrap_ok & E).
  unfold Repo.UpsertSnapshot, exec_ in Hu. apply bind_ok in Hu as (now & ? & [-> ->]%unix_now_ok & Hu).
  apply bind_ok in Hu as (? & ? & (_ & d & Hx & ->)%db_exec_ok & [_ ->]%ret_ok).
  simpl w_db in Hx. rewrite Hw5 in Hx. eexists n, id, sg, _, d, _, (set_db d (tick (tick w5))). split_and!; try done.
  - unfold authentic. bool_prop. by split_and!.
  - exact (eq_trans Hc5 Hc).
Qed.

Lemma Process_ok nodeID input w u w' :
  Ingest.Process EmbedDim nodeID input w = (Ok u, w') ->
  exists n id sg now d k, Repo.node_by_id nodeID (w_db w) = Some n /\ authentic n input /\
    stored_signature (in_Signature input) sg /\ w_conn w = true /\
    (forall key, n_pubkey n = Some key -> key <> EmptyString ->
       is_empty (in_Signature input) = false /\ VerifySignature (Some key) (in_Payload input) (in_Signature input) = inr true) /\
    exec_stmt (UpsertSnapshot_ id nodeID (in_CandidateID input) (in_Payload input) sg now) (w_db w) = Some (d, k) /\
    snapshots (w_db w') = snapshots d /\ identities (w_db w') = identities d.
Proof.
  intros (n & id & sg & now & d & k & w6 & Hn & Ha & Hsg & Hc & Hver & Hx & Hd & _ & E)%Process_stored.
  exists n, id, sg, now, d, k. assert (keeps snapshots (follow_up nodeID input)) as Hs by (unfold follow_up; solve_frame).
  assert (keeps identities (follow_up nodeID input)) as Hi by (unfold follow_up; solve_frame).
  specialize (Hs w6). specialize (Hi w6). rewrite E, Hd in *. by split_and!.
Qed.

(** With no failing statement it is indexed, with its text. *)
Lemma Process_indexed (Hsql : forall k, sql_fails k = false) nodeID input w u w' :
  Ingest.Process EmbedDim nodeID input w = (Ok u, w') ->
  (in_CandidateID input, in_Payload input) ∈ snapshots_fts (w_db w').
Proof.
  intros (n & id & sg & now & d & k & w6 & _ & _ & _ & _ & _ & _ & _ & Hc & E)%Process_stored.
  unfold follow_up in E. apply bind_ok in E as ([] & w7 & E7 & E).
  assert ((in_CandidateID input, in_Payload input) ∈ snapshots_fts (w_db w7)) as Hin.
  { unfold ignore, Repo.ReplaceFTS5Row, with_tx, with_conn, run_tx, sql_read, sql_stmt, try_, mbind, M_bind in E7.
    rewrite Hc in E7. simpl in E7. repeat (rewrite Hsql in E7; simpl in E7).
    injection E7 as <-. simpl. apply elem_of_app. right. left. }
  match type of E with ?m ?w0 = _ => assert (keeps snapshots_fts m) as Hk
    by (unfold Repo.UpsertVec0Embedding, Repo.UpdateNodePing, exec_; solve_frame); specialize (Hk w0) end.
  rewrite E in Hk. simpl in Hk. by rewrite Hk.
Qed.

(** C8: an accepted snapshot is authentic and stored as sent: the node exists and is active,
    the payload fits, the embedding has the expected dimension, and if the node has a public
    key the signature verifies over exactly the bytes that are stored. *)
Theorem ingest_accepts_authentic nodeID input w u w' :
  Ingest.Process EmbedDim nodeID input w = (Ok u, w') ->
  exists n s, Repo.node_by_id nodeID (w_db w) = Some n /\ authentic n input /\
    s ∈ snapshots (w_db w') /\ s_node s = nodeID /\ s_cand s = in_CandidateID input /\
    s_payload s = in_Payload input.
Proof.
  intros (n & id & sg & now & d & k & Hn & Ha & _ & _ & _ & Hx & Hs & _)%Process_ok.
  apply snapshot_stored in Hx as (s & Hin & ? & ? & ? & _). exists n, s. rewrite Hs. by split_and!.
Qed.

End Ingest.

(** *** Witness *)

Section Witness.
#[local] Existing Instance sample_env.
#[local] Existing Instance sample_engine.

(** A verifier that accepts the signatures of one key made of sixty-four [s]. *)
Definition sample_ed25519 : Ed25519 := {|
  ed25519_Verify key msg sig := str_eqb key (repeat_byte 32 "k") && str_eqb sig (repeat_byte 64 "s") |}.
Definition no_floats : FloatText := {| parse_float _ := None; format_float _ := "0" |}.
#[local] Existing Instance sample_ed25519.
#[local] Existing Instance no_floats.

Definition keyed_node : M (string * string) :=
  Repo.InsertDeviceSession (Some "LivingCV") (Some "https://cv.example") (Some (repeat_byte 32 "k")) (900 * second).
Definition keyed_world : world := after keyed_node start_world.
Definition keyed_id : string := match nodes (w_db keyed_world) with n :: _ => n_id n | [] => EmptyString end.
Definition signed_input : SnapshotInput :=
  mkInput "cand-1" "{}" [] (Hex.encode (repeat_byte 64 "s")).

Lemma ingest_accepts_authentic_witness :
  exists u w', Ingest.Process 384 keyed_id signed_input keyed_world = (Ok u, w') /\
    exists n s, Repo.node_by_id keyed_id (w_db keyed_world) = Some n /\ authentic 384 n signed_input /\
      s ∈ snapshots (w_db w') /\ s_node s = keyed_id /\ s_cand s = "cand-1" /\ s_payload s = "{}".
Proof.
  eexists _, _. split; [vm_compute; reflexivity|].
  eapply (ingest_accepts_authentic 384 keyed_id signed_input keyed_world). vm_compute. reflexivity.
Defined.

Lemma ingest_rejects_cleanly_witness :
  exists e w', Ingest.Process 384 keyed_id (mkInput "cand-1" "{}" [] "00") keyed_world = (Err e, w') /\
    w_db w' = w_db keyed_world.
Proof.
  eexists _, _. split; [vm_compute; reflexivity|].
  eapply (ingest_rejects_cleanly 384 keyed_id (mkInput "cand-1" "{}" [] "00")). vm_compute. reflexivity.
Defined.

End Witness.
