(* ===== verification/Search.v ===== *)
(** * Talent search (src/internal/store/repo/search.go, src/internal/service/search.go)

    A query is reduced to quoted words for FTS5; the full-text hits are fused with the
    nearest vectors by reciprocal ranks; the candidates that still have a snapshot come back
    as at most [limit] ranked pointers.  The two engines' answers are parameters, and so is
    the order [sort.Slice] leaves equal elements in. *)

From S2P Require Import Prelude RateLimit AdminStore Schema Statements Invariants World.
From S2P Require Import GoStrings Float Runs Repo RepoFacts.

Open Scope Z_scope.

(** FTS5 and sqlite-vec.  [fts_search rows query]: the rows that match with their bm25 score,
    in the order of [ORDER BY rank]; [None] when stepping through them fails.
    [vec_search table blob k]: the nearest rows with their distance. *)
Class SearchEngine := {
  fts_search : list fts_row -> string -> option (list (string * float64));
  vec_search : option (list vec_row) -> string -> Z -> option (list (string * float64)) }.

(** What [less] must be for [sort.Slice] to sort by it, on the elements of [l]. *)
Record weak_order_on {A} (less : A -> A -> bool) (l : list A) : Prop := {
  less_irrefl : forall x, x ∈ l -> less x x = false;
  less_asym : forall x y, x ∈ l -> y ∈ l -> less x y = true -> less y x = false;
  less_trans : forall x y z, x ∈ l -> y ∈ l -> z ∈ l -> less y x = false -> less z y = false -> less z x = false }.

(** [sort.Slice]: a sorted permutation, equal elements in an order of its own. *)
Class Sorter := {
  sort_slice : forall {A}, (A -> A -> bool) -> list A -> list A;
  sort_perm : forall A (less : A -> A -> bool) l, sort_slice less l ≡ₚ l;
  sort_sorted : forall A (less : A -> A -> bool) l, weak_order_on less l ->
    StronglySorted (fun x y => less y x = false) (sort_slice less l) }.

(** ** repo/search.go *)

Section Sanitize.
Context `{Unicode}.

(** [ftsNonWord.ReplaceAllString(t, "")] *)
Definition keep_word (t : string) : string :=
  rune_bytes (filter (fun r => is_word r.1.1 && r.2 = true) (Utf8.runes t)).

(** The cutset of [strings.Trim]: double quote, star, caret, parentheses, colon. *)
Definition in_cutset (c : ascii) : bool :=
  let v := byte_val c in (v =? 34) || (v =? 42) || (v =? 94) || (v =? 40) || (v =? 41) || (v =? 58).

Fixpoint trim_left (s : string) : string :=
  match s with String c s' => if in_cutset c then trim_left s' else s | EmptyString => s end.
Fixpoint trim_right (s : string) : string :=
  match s with
  | String c s' =>
      let r := trim_right s' in if is_empty r && in_cutset c then EmptyString else String c r
  | EmptyString => s
  end.
Definition trim_cutset (s : string) : string := trim_right (trim_left s).

Definition fts_operator (s : string) : bool :=
  equal_fold s "AND" || equal_fold s "OR" || equal_fold s "NOT" || equal_fold s "NEAR".

(** One field of the query: the quoted term, or nothing. *)
Definition clean_term (t : string) : option string :=
  let stripped := trim_cutset (keep_word t) in
  if fts_operator stripped then None
  else if is_empty stripped then None
  else Some (quoted stripped).

Definition SanitizeFTS5Query (raw : string) : string := str_join " " (omap clean_term (fields raw)).

End Sanitize.

Record SearchHit := Hit { h_CandidateID : string; h_Score : float64 }.

Record SnapshotInfo := Info {
  sn_NodeID : string;
  sn_EndpointURL : string;
  sn_DisplayName : string;
  sn_IsActive : bool;
  sn_IngestedAt : Z }.

Record SnapshotDetail := Detail {
  sd_CandidateID : string;
  sd_PayloadJSON : string;
  sd_Signature : option string;
  sd_NodeID : string;
  sd_EndpointURL : string;
  sd_PublicKey : option string;
  sd_IngestedAt : Z }.

(** [FROM snapshots s JOIN nodes n ON s.node_id = n.id], in rowid order of the snapshots. *)
Definition joined (d : db) : list (snapshot * node) :=
  s ← snapshots d; n ← sel (node_is (s_node s)) (nodes d); [(s, n)].

Definition info_of (r : snapshot * node) : SnapshotInfo :=
  Info (s_node r.1) (n_endpoint r.2) (default EmptyString (n_display r.2)) (n_active r.2) (s_at r.1).

(** The map of the rows with one of the ids: of two rows for a candidate, the later one. *)
Definition infos (ids : list string) (d : db) : gmap string SnapshotInfo :=
  foldl (fun m r => <[s_cand r.1 := info_of r]> m) ∅
    (filter (fun r => s_cand r.1 ∈ ids) (joined d)).

(** The first row of a candidate. *)
Definition detail_of (candidateID : string) (d : db) : option SnapshotDetail :=
  (fun r => Detail (s_cand r.1) (s_payload r.1) (s_sig r.1) (s_node r.1) (n_endpoint r.2) (n_pubkey r.2) (s_at r.1))
  <$> head (sel (fun r => str_eqb (s_cand r.1) candidateID) (joined d)).

(** ** service/search.go *)

Record TalentPointer := Pointer {
  tpt_CandidateID : string;
  tpt_NodeID : string;
  tpt_EndpointURL : string;
  tpt_DisplayName : string;
  tpt_BM25Score : float64;
  tpt_VecScore : float64;
  tpt_Rank : Z;
  tpt_LastSync : Z;
  tpt_IsActive : bool }.

Record TalentProfile := Profile {
  pf_CandidateID : string;
  pf_NodeID : string;
  pf_EndpointURL : string;
  pf_Payload : string;
  pf_Signature : string;
  pf_PublicKey : string;
  pf_IngestedAt : Z }.

Definition rrfScore (k : float64) (bm25Rank vecRank : Z) : float64 :=
  let score := f64_zero in
  let score := if 0 <? bm25Rank then f64_add score (f64_div (f64_of_Z 1) (f64_add k (f64_of_Z bm25Rank))) else score in
  if 0 <? vecRank then f64_add score (f64_div (f64_of_Z 1) (f64_add k (f64_of_Z vecRank))) else score.

Definition rrf_k : float64 := f64_of_Z 60.

(** The scores of hits, the last one of a candidate; and their 1-based positions. *)
Definition score_map (hits : list SearchHit) : gmap string float64 :=
  foldl (fun m h => <[h_CandidateID h := h_Score h]> m) ∅ hits.
Definition rank_map (hits : list SearchHit) : gmap string Z :=
  foldl (fun m p => <[h_CandidateID p.2 := Z.of_nat p.1 + 1]> m) ∅ (imap pair hits).

(** [allIDs] with its [seen] map: first occurrences, in order. *)
Definition add_ids (ids : list string) (hits : list SearchHit) : list string :=
  foldl (fun l h => if decide (h_CandidateID h ∈ l) then l else l ++ [h_CandidateID h]) ids hits.

Definition pointer_of (info : gmap string SnapshotInfo) (bm25 vec : gmap string float64) (cid : string)
    : option TalentPointer :=
  si ← info !! cid;
  Some (Pointer cid (sn_NodeID si) (sn_EndpointURL si) (sn_DisplayName si)
          (default f64_zero (bm25 !! cid)) (default f64_zero (vec !! cid)) 0 (sn_IngestedAt si) (sn_IsActive si)).

Definition with_rank (n : nat) (p : TalentPointer) : TalentPointer :=
  Pointer (tpt_CandidateID p) (tpt_NodeID p) (tpt_EndpointURL p) (tpt_DisplayName p) (tpt_BM25Score p)
    (tpt_VecScore p) (Z.of_nat n + 1) (tpt_LastSync p) (tpt_IsActive p).

Definition effective_limit (limit : Z) : Z := if (limit <=? 0) || (100 <? limit) then 20 else limit.

Definition by_score (a b : SearchHit) : bool := f64_ltb (h_Score a) (h_Score b).
Definition fused (bm25Rank vecRank : gmap string Z) (p : TalentPointer) : float64 :=
  rrfScore rrf_k (default 0 (bm25Rank !! tpt_CandidateID p)) (default 0 (vecRank !! tpt_CandidateID p)).
Definition by_fusion (bm25Rank vecRank : gmap string Z) (a b : TalentPointer) : bool :=
  f64_ltb (fused bm25Rank vecRank b) (fused bm25Rank vecRank a).
Definition by_bm25 (a b : TalentPointer) : bool := f64_ltb (tpt_BM25Score a) (tpt_BM25Score b).

Section Rank.
Context `{Sorter}.

(** From the hits and the snapshots found for them to the ranked answer. *)
Definition rank_pointers (limit : Z) (bm25Hits vecHits : list SearchHit) (info : gmap string SnapshotInfo)
    : list TalentPointer :=
  let allIDs := add_ids (add_ids [] bm25Hits) vecHits in
  let bm25 := score_map bm25Hits in
  let vec := score_map vecHits in
  let pointers := omap (pointer_of info bm25 vec) allIDs in
  let sorted :=
    if bool_decide (vec = ∅) then sort_slice by_bm25 pointers
    else
      let br := rank_map (sort_slice by_score bm25Hits) in
      let vr := rank_map (sort_slice by_score vecHits) in
      sort_slice (by_fusion br vr) pointers in
  imap with_rank (take (Z.to_nat limit) sorted).

End Rank.

Module Search.
Section Search.
Context `{Env, Engine, Unicode, SearchEngine, Sorter}.

Definition to_hits : list (string * float64) -> list SearchHit := fmap (fun p => Hit p.1 p.2).

Definition FTS5Search (query : string) (limit : Z) : M (list SearchHit) :=
  let sanitized := SanitizeFTS5Query query in
  if is_empty sanitized then mret []
  else
    rows ← try_ (db_query (fun d => fts_search (snapshots_fts d) sanitized));
    match rows with
    | inl _ => mret []
    | inr None => throw ErrIO
    | inr (Some hits) => mret (to_hits (sql_limit limit hits))
    end.

Definition Vec0Search (blob : string) (k : Z) : M (list SearchHit) :=
  rows ← db_query (fun d => vec_search (candidate_vec d) blob k);
  match rows with None => throw ErrIO | Some hits => mret (to_hits hits) end.

Definition SnapshotsByCandidateIDs (ids : list string) : M (gmap string SnapshotInfo) :=
  match ids with [] => mret ∅ | _ => db_query (infos ids) end.

Definition GetSnapshotByCandidate (candidateID : string) : M (option SnapshotDetail) :=
  row_or_nil (db_query_row (detail_of candidateID)).

Definition vec_hits (limit : Z) (queryVector : list float64) : M (list SearchHit) :=
  match queryVector with
  | [] => mret []
  | _ =>
      hits ← try_ (Vec0Search (Float64ToBlob queryVector) (limit * 2));
      match hits with inl _ => mret [] | inr hs => mret hs end
  end.

Definition SearchTalent (query : string) (limit0 : Z) (queryVector : list float64) : M (list TalentPointer) :=
  let limit := effective_limit limit0 in
  bm25Hits ← FTS5Search query (limit * 3);
  vecHits ← vec_hits limit queryVector;
  info ← SnapshotsByCandidateIDs (add_ids (add_ids [] bm25Hits) vecHits);
  mret (rank_pointers limit bm25Hits vecHits info).

Definition GetTalentProfile (candidateID : string) : M (option TalentProfile) :=
  snap ← GetSnapshotByCandidate candidateID;
  mret ((fun s => Profile (sd_CandidateID s) (sd_NodeID s) (sd_EndpointURL s) (sd_PayloadJSON s)
                    (Hex.encode (default EmptyString (sd_Signature s)))
                    (Hex.encode (default EmptyString (sd_PublicKey s))) (sd_IngestedAt s)) <$> snap).

(** ** Pool discipline *)

Lemma good_FTS5Search q l : good (FTS5Search q l).
Proof. unfold FTS5Search. solve_good. Qed.
Lemma good_Vec0Search b k : good (Vec0Search b k).
Proof. unfold Vec0Search. solve_good. Qed.
Lemma good_SnapshotsByCandidateIDs ids : good (SnapshotsByCandidateIDs ids).
Proof. unfold SnapshotsByCandidateIDs. solve_good. Qed.
Lemma good_GetSnapshotByCandidate c : good (GetSnapshotByCandidate c).
Proof. unfold GetSnapshotByCandidate. solve_good. Qed.
#[local] Hint Resolve good_FTS5Search good_Vec0Search good_SnapshotsByCandidateIDs good_GetSnapshotByCandidate : good.
Lemma good_SearchTalent q l v : good (SearchTalent q l v).
Proof. unfold SearchTalent, vec_hits. solve_good. Qed.
Lemma good_GetTalentProfile c : good (GetTalentProfile c).
Proof. unfold GetTalentProfile. solve_good. Qed.

End Search.
End Search.

#[export] Hint Resolve Search.good_SearchTalent Search.good_GetTalentProfile : good.
