(* ===== verification/SearchFacts.v ===== *)
(** * What search guarantees

    The full-text query is a list of quoted words whatever the user typed; the answer is
    ranked, bounded, free of duplicates and read-only; and a profile served for an ingested
    snapshot still verifies. *)

From S2P Require Import Prelude RateLimit AdminStore Schema Statements Invariants World.
From S2P Require Import GoStrings Utf8Facts Float Runs Samples Repo RepoFacts Search.
From Stdlib Require Import QArith_base.

Open Scope Z_scope.

(** ** The query *)

Section Sanitize.
Context `{Unicode}.

(** A word of the query: letters, digits and underscores, not an FTS5 operator. *)
Definition fts_word (s : string) : Prop :=
  Forall (fun u : rune => u.2 = true /\ is_word u.1.1 = true) (Utf8.runes s) /\
  s <> EmptyString /\ fts_operator s = false.

Definition word_rune (u : rune) : Prop := valid_rune u /\ is_word u.1.1 = true.

Lemma word_runes s : Forall (fun u : rune => u.2 = true /\ is_word u.1.1 = true) (Utf8.runes s) -> Forall word_rune (Utf8.runes s).
Proof.
  rewrite !Forall_forall. intros Hf u Hu. destruct (Hf u Hu). split; [by eapply runes_valid|done].
Qed.

Lemma runes_of_words l : Forall word_rune l -> Utf8.runes (rune_bytes l) = l.
Proof.
  intros Hl. rewrite <- (append_nil_r (rune_bytes l)), runes_bytes; [by rewrite app_nil_r|].
  eapply Forall_impl; [exact Hl|]. by intros u [? _].
Qed.

Lemma keep_word_runes t : Forall word_rune (Utf8.runes (keep_word t)).
Proof.
  unfold keep_word. set (l := filter _ _). assert (Forall word_rune l) as Hl.
  { apply Forall_forall. intros u [Hu Hin]%list_elem_of_filter. apply andb_true_iff in Hu as [? ?].
    split; [by eapply runes_valid|done]. }
  by rewrite runes_of_words.
Qed.

Lemma filter_all (P : rune -> Prop) `{forall u, Decision (P u)} l : Forall P l -> filter P l = l.
Proof. induction 1 as [|u l Hu _ IH]; [done|]. by rewrite filter_cons_True, IH. Qed.

Lemma keep_word_id s l :
  Utf8.runes s = l -> keep_word s = rune_bytes (filter (fun r : rune => is_word r.1.1 && r.2 = true) l).
Proof. unfold keep_word. by intros ->. Qed.

(** Words hold nothing [strings.Trim] would remove. *)
Lemma word_not_cut u : word_rune u -> str_all (fun c => negb (in_cutset c)) u.1.2 = true.
Proof.
  intros [Hv Hw]. destruct (Z.lt_ge_cases u.1.1 128) as [Hlt|Hge].
  - destruct (rune_low_bytes u Hv Hlt) as (c & -> & Hc). simpl. unfold in_cutset, is_word in *. rewrite Hc in *.
    rewrite (proj2 (Z.ltb_lt _ _) Hlt) in Hw. rewrite andb_true_r. apply negb_true_iff.
    repeat (apply orb_false_iff; split); apply Z.eqb_neq; intros E; rewrite E in Hw; done.
  - pose proof (rune_high_bytes u Hv Hge) as Hb. revert Hb. generalize u.1.2. clear. intros s.
    induction s as [|c s IH]; simpl; [done|]. intros [Hc Hs]%andb_true_iff. rewrite (IH Hs), andb_true_r.
    apply negb_true_iff. apply Z.leb_le in Hc. unfold in_cutset.
    repeat (apply orb_false_iff; split); apply Z.eqb_neq; lia.
Qed.

Lemma words_not_cut l : Forall word_rune l -> str_all (fun c => negb (in_cutset c)) (rune_bytes l) = true.
Proof. induction 1 as [|u l Hu _ IH]; simpl; [done|]. by rewrite str_all_app, word_not_cut, IH. Qed.

Lemma trim_cutset_id s : str_all (fun c => negb (in_cutset c)) s = true -> trim_cutset s = s.
Proof.
  intros Hs. unfold trim_cutset. assert (trim_left s = s) as ->.
  { destruct s as [|c s]; simpl in *; [done|]. bool_prop.
    match goal with Hc : in_cutset _ = false |- _ => by rewrite Hc end. }
  induction s as [|c s IH]; simpl in *; [done|]. apply andb_true_iff in Hs as [Hc Hs]. rewrite (IH Hs).
  apply negb_true_iff in Hc. by rewrite Hc, andb_false_r.
Qed.

Lemma runes_nil s : Utf8.runes s = [] -> s = EmptyString.
Proof. intros E. rewrite <- (Utf8.runes_concat s), E. done. Qed.

Lemma clean_term_word t q : clean_term t = Some q -> exists s, q = quoted s /\ fts_word s.
Proof.
  unfold clean_term. pose proof (keep_word_runes t) as Hw.
  rewrite trim_cutset_id.
  2:{ rewrite <- (Utf8.runes_concat (keep_word t)). apply (words_not_cut _ Hw). }
  destruct (fts_operator _) eqn:Eo; [done|]. destruct (is_empty _) eqn:Ee; [done|]. intros [= <-].
  eexists; split; [done|]. bool_prop. split_and!; [|done..].
  eapply Forall_impl; [exact Hw|]. by intros u [[? _] ?].
Qed.

(** A word, quoted or not, is cleaned to the quoted word. *)
Lemma clean_term_fix s t :
  fts_word s -> Utf8.runes t = Utf8.runes s \/ Utf8.runes t = ascii_rune (ascii_of_nat 34) :: Utf8.runes s ++ [ascii_rune (ascii_of_nat 34)] ->
  clean_term t = Some (quoted s).
Proof.
  intros (Hw & Hne & Ho) Ht. assert (keep_word t = s) as Hk.
  { assert (filter (fun r : rune => is_word r.1.1 && r.2 = true) (Utf8.runes s) = Utf8.runes s) as Hf.
    { apply filter_all. eapply Forall_impl; [exact Hw|]. intros u [-> ->]. done. }
    rewrite <- (Utf8.runes_concat s). change (foldr _ _ _) with (rune_bytes (Utf8.runes s)).
    destruct Ht as [Ht|Ht]; rewrite (keep_word_id t _ Ht); [by rewrite Hf|].
    rewrite filter_cons_False, filter_app, Hf, filter_cons_False, filter_nil, app_nil_r by done. done. }
  unfold clean_term. rewrite Hk, trim_cutset_id, Ho.
  - destruct (is_empty s) eqn:E; [by apply is_empty_true in E|done].
  - rewrite <- (Utf8.runes_concat s). apply (words_not_cut _ (word_runes s Hw)).
Qed.

Lemma word_valid s : fts_word s -> Forall valid_rune (Utf8.runes s).
Proof. intros [Hw _]. eapply Forall_impl; [exact (word_runes s Hw)|]. by intros u [? _]. Qed.

Section Fields.
Context (Hdisj : forall r, word_beyond r = true -> space_beyond r = false).

Lemma word_not_space r : is_word r = true -> is_space r = false.
Proof.
  unfold is_word, is_space. destruct (r <? 128) eqn:E; [|apply Hdisj]. intros Hw. apply not_true_iff_false. intros Hs.
  repeat match goal with
  | Hx : (_ || _) = true |- _ => apply orb_true_iff in Hx as [?|?]
  end; bool_prop; lia.
Qed.

Lemma fields_go_run l cur rest :
  Forall (fun u : rune => is_space u.1.1 = false) l -> fields_go cur (l ++ rest) = fields_go (cur ++s rune_bytes l) rest.
Proof.
  intros Hl. revert cur. induction Hl as [|u l Hu _ IH]; intros cur; simpl; [by rewrite append_nil_r|].
  by rewrite Hu, IH, append_assoc.
Qed.

Definition term (t : string) (s : string) : Prop :=
  fts_word s /\ (t = s \/ t = quoted s).

Lemma quoted_runes s rest :
  fts_word s -> Utf8.runes (quoted s ++s rest)
  = ascii_rune (ascii_of_nat 34) :: Utf8.runes s ++ ascii_rune (ascii_of_nat 34) :: Utf8.runes rest.
Proof.
  intros Hs. set (q := ascii_rune (ascii_of_nat 34)). assert (valid_rune q) as Hq by (by apply ascii_rune_valid).
  replace (quoted s ++s rest) with (rune_bytes (q :: Utf8.runes s ++ [q]) ++s rest).
  - rewrite runes_bytes; [by rewrite <- app_comm_cons, <- app_assoc|].
    apply Forall_cons. split; [done|]. apply Forall_app. split; [by apply word_valid|by apply Forall_singleton].
  - simpl. rewrite rune_bytes_app. simpl. change (rune_bytes (Utf8.runes s)) with (foldr (fun r acc => r.1.2 ++s acc) EmptyString (Utf8.runes s)).
    rewrite Utf8.runes_concat. done.
Qed.

Lemma word_runes_app s rest : fts_word s -> Utf8.runes (s ++s rest) = Utf8.runes s ++ Utf8.runes rest.
Proof.
  intros Hs. rewrite <- runes_bytes by (by apply word_valid).
  change (rune_bytes (Utf8.runes s)) with (foldr (fun r acc => r.1.2 ++s acc) EmptyString (Utf8.runes s)).
  by rewrite Utf8.runes_concat.
Qed.

(** A term is read as one field. *)
Lemma term_runes t s rest :
  term t s -> exists l, Utf8.runes (t ++s rest) = l ++ Utf8.runes rest /\ Utf8.runes t = l /\
    Forall (fun u : rune => is_space u.1.1 = false) l /\ rune_bytes l = t /\ t <> EmptyString /\ clean_term t = Some (quoted s).
Proof.
  intros [Hs Ht]. assert (Forall (fun u : rune => is_space u.1.1 = false) (Utf8.runes s)) as Hsp.
  { destruct Hs as [Hw _]. eapply Forall_impl; [exact Hw|]. intros u [_ ?]. by apply word_not_space. }
  exists (Utf8.runes t). assert (rune_bytes (Utf8.runes t) = t) as Hb by apply Utf8.runes_concat.
  destruct Ht as [->| ->].
  - split_and!; [by apply word_runes_app|done|done|done|by destruct Hs as (_ & ? & _)|].
    by apply clean_term_fix; [|left].
  - pose proof (quoted_runes s EmptyString Hs) as Hq. rewrite append_nil_r in Hq.
    split_and!; [|done| |done|done|].
    + rewrite quoted_runes, Hq by done. simpl. by rewrite <- app_assoc.
    + rewrite Hq. apply Forall_cons. split; [done|]. apply Forall_app. split; [done|by apply Forall_singleton].
    + by apply clean_term_fix; [|right; rewrite Hq].
Qed.

Lemma sanitize_terms ts ws :
  Forall2 term ts ws -> omap clean_term (fields (str_join " " ts)) = quoted <$> ws.
Proof.
  unfold fields. induction 1 as [|t s ts ws Ht Hts IH]; [done|].
  destruct ts as [|t' ts].
  - inversion Hts; subst. destruct (term_runes t s EmptyString Ht) as (l & _ & Hl & Hsp & Hb & Hne & Hc).
    simpl str_join. rewrite Hl, <- (app_nil_r l), (fields_go_run _ _ _ Hsp). simpl. rewrite Hb.
    destruct (is_empty t) eqn:E; [by apply is_empty_true in E|]. simpl. by rewrite Hc.
  - change (str_join " " (t :: t' :: ts)) with (t ++s (" " ++s str_join " " (t' :: ts))).
    destruct (term_runes t s (" " ++s str_join " " (t' :: ts)) Ht) as (l & -> & Hl & Hsp & Hb & Hne & Hc).
    rewrite (fields_go_run _ _ _ Hsp), Hb. simpl String.append.
    assert (valid_rune (ascii_rune " "%char)) as Hv by (by apply ascii_rune_valid).
    pose proof (runes_bytes [ascii_rune " "%char] (str_join " " (t' :: ts)) (Forall_cons_2 _ _ _ Hv (Forall_nil_2 _))) as Hr.
    simpl in Hr. rewrite Hr. cbn [fields_go app fst ascii_rune]. change (is_space (byte_val " ")) with true. cbv iota.
    destruct (is_empty t) eqn:E; [by apply is_empty_true in E|]. simpl. rewrite Hc. simpl. by f_equal.
Qed.

(** Words lose nothing. *)
Lemma sanitize_words ws : Forall fts_word ws -> SanitizeFTS5Query (str_join " " ws) = str_join " " (quoted <$> ws).
Proof.
  intros Hw. unfold SanitizeFTS5Query. f_equal. apply sanitize_terms. apply Forall2_same_length_lookup_2; [done|].
  intros i x y Hx Hy. assert (x = y) as -> by congruence. split; [|by left].
  eapply Forall_lookup_1; [exact Hw|exact Hx].
Qed.

End Fields.

Lemma sanitize_shape raw :
  exists ws, omap clean_term (fields raw) = quoted <$> ws /\ Forall fts_word ws.
Proof.
  generalize (fields raw). intros ts. induction ts as [|t ts (ws & IH & Hws)]; [by exists []|].
  csimpl. destruct (clean_term t) as [q|] eqn:E; [|eauto].
  destruct (clean_term_word _ _ E) as (s & -> & Hs). exists (s :: ws). rewrite IH. split; [done|by constructor].
Qed.

(** C33: a full-text query is quoted words, whatever was typed.  The sanitized query is the
    space-separated list of words of letters, digits and underscores in double quotes, none
    of them an FTS5 operator; a query of such words loses none of them; and sanitizing twice
    is sanitizing once. *)
Theorem sanitize_quotes_words (Hdisj : forall r, word_beyond r = true -> space_beyond r = false) raw :
  (exists ws, SanitizeFTS5Query raw = str_join " " (quoted <$> ws) /\ Forall fts_word ws) /\
  (forall ws, Forall fts_word ws -> SanitizeFTS5Query (str_join " " ws) = str_join " " (quoted <$> ws)) /\
  SanitizeFTS5Query (SanitizeFTS5Query raw) = SanitizeFTS5Query raw.
Proof.
  destruct (sanitize_shape raw) as (ws & Hs & Hw). unfold SanitizeFTS5Query. split_and!.
  - exists ws. by rewrite Hs.
  - by apply sanitize_words.
  - rewrite Hs. f_equal. apply (sanitize_terms Hdisj). apply Forall2_fmap_l.
    clear Hs. induction Hw; [by apply Forall2_nil|]. apply Forall2_cons. split; [split; [done|by right]|done].
Qed.

End Sanitize.

(** ** The order of scores *)

Definition not_nan (x : float64) : Prop := x <> S754_nan.

(** A float's place in the order: its class, then exponent, then mantissa. *)
Definition float_key (x : float64) : Z * Z * Z :=
  match x with
  | S754_infinity true => (-2, 0, 0)
  | S754_finite true m e => (-1, - e, - Z.pos m)
  | S754_zero _ | S754_nan => (0, 0, 0)
  | S754_finite false m e => (1, e, Z.pos m)
  | S754_infinity false => (2, 0, 0)
  end.

Definition lex_lt (a b : Z * Z * Z) : bool :=
  (a.1.1 <? b.1.1) || (a.1.1 =? b.1.1) && ((a.1.2 <? b.1.2) || (a.1.2 =? b.1.2) && (a.2 <? b.2)).

Lemma ltb_key x y : not_nan x -> not_nan y -> f64_ltb x y = lex_lt (float_key x) (float_key y).
Proof.
  intros Hx Hy. unfold f64_ltb, SFltb, SFcompare, lex_lt.
  destruct x as [sx|[|]| |[|] mx ex], y as [sy|[|]| |[|] my ey]; simpl; try done.
  - destruct (Z.compare_spec ex ey) as [->|He|He]; simpl.
    + rewrite Z.ltb_irrefl, Z.eqb_refl. simpl. fold (Pos.compare mx my).
      destruct (Pos.compare_spec mx my); symmetry; [apply Z.ltb_ge|apply Z.ltb_ge|apply Z.ltb_lt]; lia.
    + replace (- ex <? - ey) with false by (symmetry; apply Z.ltb_ge; lia).
      by replace (- ex =? - ey) with false by (symmetry; apply Z.eqb_neq; lia).
    + by replace (- ex <? - ey) with true by (symmetry; apply Z.ltb_lt; lia).
  - destruct (Z.compare_spec ex ey) as [->|He|He]; simpl.
    + rewrite Z.ltb_irrefl, Z.eqb_refl. simpl. fold (Pos.compare mx my).
      destruct (Pos.compare_spec mx my); symmetry; [apply Z.ltb_ge|apply Z.ltb_lt|apply Z.ltb_ge]; lia.
    + by replace (ex <? ey) with true by (symmetry; apply Z.ltb_lt; lia).
    + replace (ex <? ey) with false by (symmetry; apply Z.ltb_ge; lia).
      by replace (ex =? ey) with false by (symmetry; apply Z.eqb_neq; lia).
Qed.

Lemma weak_order_flip {A} (less : A -> A -> bool) l : weak_order_on less l -> weak_order_on (fun a b => less b a) l.
Proof. intros [Hi Ha Ht]. constructor; [done|intros; by apply Ha|]. intros x y z ? ? ? H1 H2. by apply (Ht z y x). Qed.

Lemma weak_order_by {A} (f : A -> float64) l :
  (forall x, x ∈ l -> not_nan (f x)) -> weak_order_on (fun a b => f64_ltb (f a) (f b)) l.
Proof.
  intros Hn. constructor.
  - intros x Hx. rewrite ltb_key by auto. unfold lex_lt. by rewrite !Z.ltb_irrefl, !andb_false_r.
  - intros x y Hx Hy. rewrite !ltb_key by auto. unfold lex_lt.
    destruct (float_key (f x)) as [[a b] c], (float_key (f y)) as [[a' b'] c']. simpl. lia.
  - intros x y z Hx Hy Hz. rewrite !ltb_key by auto. unfold lex_lt.
    destruct (float_key (f x)) as [[a b] c], (float_key (f y)) as [[a' b'] c'], (float_key (f z)) as [[a'' b''] c''].
    simpl. lia.
Qed.

(** ** Reciprocal rank fusion *)

(** Ranks up to the number of hits the two searches return: [3 * 100] and [2 * 100]. *)
Definition max_bm25 : nat := 300.
Definition max_vec : nat := 200.

(** The score of ranks [a] and [b], 0 for a list the candidate is not in. *)
Definition rrf (a b : nat) : float64 := rrfScore rrf_k (Z.of_nat a) (Z.of_nat b).

Definition recip (n : nat) : float64 := f64_div (f64_of_Z 1) (f64_add rrf_k (f64_of_Z (Z.of_nat n))).

(** What one list adds to a score: a reciprocal, or nothing for a candidate it lacks. *)
Definition gain (n : nat) : option float64 := if (n =? 0)%nat then None else Some (recip n).
Definition gains (m : nat) : list (option float64) := (gain <$> List.seq 1 m) ++ [None].
Definition plus (s : float64) (t : option float64) : float64 :=
  match t with Some x => f64_add s x | None => s end.

Lemma rrf_plus a b : rrf a b = plus (plus f64_zero (gain a)) (gain b).
Proof. by destruct a, b. Qed.

(** A rank's place from best to worst: an absent candidate comes after the last. *)
Definition place (m n : nat) : nat := if (n =? 0)%nat then m else (n - 1)%nat.

Lemma gains_lookup m n : (n <= m)%nat -> gains m !! place m n = Some (gain n).
Proof.
  intros Hn. unfold gains, place. destruct n as [|n]; simpl.
  - apply list_lookup_middle. by rewrite length_fmap, length_seq.
  - rewrite Nat.sub_0_r, lookup_app_l by (rewrite length_fmap, length_seq; lia).
    rewrite list_lookup_fmap, (lookup_seq_lt _ _ n) by lia. done.
Qed.

(** Every score, row by row from the best full-text rank down. *)
Definition vec_gains : list (option float64) := Eval vm_compute in gains max_vec.
Definition bm25_gains : list (option float64) := Eval vm_compute in gains max_bm25.
Definition score_table : list (list float64) :=
  (fun t => plus (plus f64_zero t) <$> vec_gains) <$> bm25_gains.

Definition is_num (x : float64) : bool := match x with S754_nan => false | _ => true end.
Definition above (x y : float64) : bool := is_num x && is_num y && f64_ltb y x.

Section Descending.
Context {A : Type} (R : A -> A -> bool).
Context (Htrans : forall x y z, R x y = true -> R y z = true -> R x z = true).

Fixpoint descending (l : list A) : bool :=
  match l with x :: (y :: _) as l' => R x y && descending l' | _ => true end.
Fixpoint dominates (l l' : list A) : bool :=
  match l, l' with
  | [], [] => true
  | x :: l, y :: l' => R x y && dominates l l'
  | _, _ => false
  end.

Lemma descending_lookup l i j x y :
  descending l = true -> (i < j)%nat -> l !! i = Some x -> l !! j = Some y -> R x y = true.
Proof.
  revert i j x. induction l as [|a l IH]; intros i j x Hd Hij Hx Hy; [done|].
  destruct j as [|j]; [lia|]. destruct l as [|b l]; [done|]. simpl in Hd. apply andb_true_iff in Hd as [Hab Hd].
  destruct i as [|i]; [|eapply (IH i j); [done|lia|done|done]].
  simpl in Hx. simplify_eq. destruct j as [|j]; [simpl in Hy; by simplify_eq|].
  apply (Htrans _ b); [done|]. eapply (IH 0%nat (S j)); [done|lia|done|done].
Qed.

Lemma dominates_lookup l l' i x y : dominates l l' = true -> l !! i = Some x -> l' !! i = Some y -> R x y = true.
Proof.
  revert l' i. induction l as [|a l IH]; intros [|b l'] i Hd Hx Hy; try done.
  apply andb_true_iff in Hd as [Hab Hd]. destruct i as [|i]; simpl in *; simplify_eq; eauto.
Qed.

Lemma dominates_trans l1 l2 l3 : dominates l1 l2 = true -> dominates l2 l3 = true -> dominates l1 l3 = true.
Proof.
  revert l2 l3. induction l1 as [|a l1 IH]; intros [|b l2] [|c l3]; try done. simpl.
  intros [? ?]%andb_true_iff [? ?]%andb_true_iff. apply andb_true_iff. eauto.
Qed.

End Descending.

Lemma above_trans x y z : above x y = true -> above y z = true -> above x z = true.
Proof.
  unfold above. intros [[Hx Hy]%andb_true_iff Hxy]%andb_true_iff [[_ Hz]%andb_true_iff Hyz]%andb_true_iff.
  assert (forall u, is_num u = true -> not_nan u) as Hn by (by intros []).
  rewrite Hx, Hz. simpl. revert Hxy Hyz. rewrite !ltb_key by auto. unfold lex_lt.
  destruct (float_key x) as [[a b] c], (float_key y) as [[a' b'] c'], (float_key z) as [[a'' b''] c'']. simpl. lia.
Qed.

Lemma table_descends : descending (dominates above) score_table && forallb (descending above) score_table = true.
Proof. vm_compute. reflexivity. Qed.

(** One rank is at least as good as another; rank 0 is absence. *)
Definition rank_le (a a' : nat) : Prop := a' = 0%nat \/ (0 < a /\ a <= a')%nat.

Lemma place_le m a a' : (a <= m)%nat -> (a' <= m)%nat -> rank_le a a' -> (place m a <= place m a')%nat /\ (place m a = place m a' -> a = a').
Proof. unfold rank_le, place. intros ? ? [?|[? ?]]; destruct a, a'; simpl; lia. Qed.

Lemma cell a : (a <= max_bm25)%nat ->
  exists row, score_table !! place max_bm25 a = Some row /\
    forall b, (b <= max_vec)%nat -> row !! place max_vec b = Some (rrf a b).
Proof.
  intros Ha. eexists. split.
  - unfold score_table. change bm25_gains with (gains max_bm25). rewrite list_lookup_fmap, gains_lookup by done. done.
  - intros b Hb. change vec_gains with (gains max_vec). rewrite list_lookup_fmap, gains_lookup by done. simpl.
    by rewrite rrf_plus.
Qed.

Lemma place_lt m c c' :
  (c <= m)%nat -> (c' <= m)%nat -> rank_le c c' -> c <> c' -> (place m c < place m c')%nat.
Proof. intros Hc Hc' Hl Hn. destruct (place_le m c c' Hc Hc' Hl). destruct (decide (place m c = place m c')); [tauto|lia]. Qed.

Lemma row_above a c c' :
  (a <= max_bm25)%nat -> (c <= max_vec)%nat -> (c' <= max_vec)%nat -> rank_le c c' -> c <> c' ->
  above (rrf a c) (rrf a c') = true.
Proof.
  intros Ha Hc Hc' Hl Hn. destruct (cell a Ha) as (r & Er & Cr).
  apply (descending_lookup above above_trans r (place max_vec c) (place max_vec c'));
    [|by apply place_lt|by apply Cr|by apply Cr].
  apply (proj1 (forallb_forall (descending above) score_table)).
  - exact (proj2 (andb_prop _ _ table_descends)).
  - apply list_elem_of_In, list_elem_of_lookup. eexists. exact Er.
Qed.

Lemma column_above a a' b :
  (a <= max_bm25)%nat -> (a' <= max_bm25)%nat -> (b <= max_vec)%nat -> rank_le a a' -> a <> a' ->
  above (rrf a b) (rrf a' b) = true.
Proof.
  intros Ha Ha' Hb Hl Hn. destruct (cell a Ha) as (r & Er & Cr), (cell a' Ha') as (r' & Er' & Cr').
  apply (dominates_lookup above r r' (place max_vec b)); [|by apply Cr|by apply Cr'].
  apply (descending_lookup (dominates above) (dominates_trans above above_trans) score_table
           (place max_bm25 a) (place max_bm25 a')); [|by apply place_lt|exact Er|exact Er'].
  exact (proj1 (andb_prop _ _ table_descends)).
Qed.

(** Fusion rewards every improvement.  For ranks the two searches can return, a candidate
    that is at least as well placed in both lists as another (absence being the worst place)
    and not equally placed in both has the strictly higher fused score in float64. *)
Theorem rrf_strict a b a' b' :
  (a <= max_bm25)%nat -> (a' <= max_bm25)%nat -> (b <= max_vec)%nat -> (b' <= max_vec)%nat ->
  rank_le a a' -> rank_le b b' -> (a, b) <> (a', b') -> f64_ltb (rrf a' b') (rrf a b) = true.
Proof.
  intros Ha Ha' Hb Hb' La Lb Hne.
  cut (above (rrf a b) (rrf a' b') = true); [by intros [_ ?]%andb_true_iff|].
  destruct (decide (a = a')) as [<-|Hn], (decide (b = b')) as [<-|Hm].
  - congruence.
  - apply row_above; assumption.
  - apply column_above; assumption.
  - apply (above_trans _ (rrf a' b)); [apply column_above|apply row_above]; assumption.
Qed.

Theorem rrf_strict_witness : f64_ltb (rrf 1 0) (rrf 1 200) = true.
Proof. apply (rrf_strict 1 200 1 0); unfold max_bm25, max_vec, rank_le; first [lia|congruence]. Defined.

(** *** The order of exact scores

    The reciprocals added as rational numbers.  In float64 each score is off by less than
    2^-50, and two different exact scores lie further apart, so the floats are in the order of
    the exact scores. *)

(** What rank [n] of a list adds: nothing for 0, a candidate the list lacks. *)
Definition share (n : Z) : Q := if n =? 0 then 0%Q else Qmake 1 (Z.to_pos (60 + n)).
Definition rrf_exact (a b : Z) : Q := (share a + share b)%Q.

(** The same fraction, by numerator and denominator. *)
Definition share_den (n : nat) : Z := if (n =? 0)%nat then 1 else 60 + Z.of_nat n.
Definition rrf_den (a b : nat) : Z := share_den a * share_den b.
Definition rrf_numer (a b : nat) : Z :=
  (if (a =? 0)%nat then 0 else share_den b) + (if (b =? 0)%nat then 0 else share_den a).

Lemma share_den_pos n : 0 < share_den n.
Proof. unfold share_den. destruct n; simpl; lia. Qed.

Lemma rrf_exact_lt a b a' b' :
  (rrf_exact (Z.of_nat a) (Z.of_nat b) < rrf_exact (Z.of_nat a') (Z.of_nat b'))%Q <->
  rrf_numer a b * rrf_den a' b' < rrf_numer a' b' * rrf_den a b.
Proof.
  assert (forall n, QDen (share (Z.of_nat n)) = share_den n /\ Qnum (share (Z.of_nat n)) = if (n =? 0)%nat then 0 else 1) as Hs.
  { intros [|n]; [done|]. unfold share, share_den. simpl. split; [lia|done]. }
  unfold Qlt, rrf_exact, Qplus. cbn [Qnum Qden]. rewrite !Pos2Z.inj_mul.
  destruct (Hs a) as [-> ->], (Hs b) as [-> ->], (Hs a') as [-> ->], (Hs b') as [-> ->].
  unfold rrf_numer, rrf_den. destruct (a =? 0)%nat, (b =? 0)%nat, (a' =? 0)%nat, (b' =? 0)%nat; rewrite ?Z.mul_1_l, ?Z.mul_0_l; lia.
Qed.

(** A float in units of 2^-64, and whether it is within 2^-50 of the exact score. *)
Definition units (x : float64) : Z := match x with S754_finite false m e => Z.pos m * 2 ^ (e + 64) | _ => 0 end.
Definition close (a b : nat) (x : float64) : bool :=
  match x with
  | S754_finite false m e =>
      (2 ^ 52 <=? Z.pos m) && (Z.pos m <? 2 ^ 53) && (0 <=? e + 64) &&
      (Z.abs (units x * rrf_den a b - rrf_numer a b * 2 ^ 64) <=? rrf_den a b * 2 ^ 14)
  | _ => false
  end.

Definition ranks_to (m : nat) : list nat := List.seq 1 m ++ [0%nat].

Lemma ranks_lookup m n : (n <= m)%nat -> ranks_to m !! place m n = Some n.
Proof.
  intros Hn. unfold ranks_to, place. destruct n as [|n]; simpl.
  - apply list_lookup_middle. by rewrite length_seq.
  - rewrite Nat.sub_0_r, lookup_app_l by (rewrite length_seq; lia). rewrite (lookup_seq_lt _ _ n) by lia. done.
Qed.

Lemma table_close : forallb (fun x => forallb (fun y => ((x.1 =? 0) && (y.1 =? 0))%nat || close x.1 y.1 y.2)
  (zip (ranks_to max_vec) x.2)) (zip (ranks_to max_bm25) score_table) = true.
Proof. vm_compute. reflexivity. Qed.

Lemma rrf_close a b : (a <= max_bm25)%nat -> (b <= max_vec)%nat -> (a, b) <> (0, 0)%nat -> close a b (rrf a b) = true.
Proof.
  intros Ha Hb Hn. destruct (cell a Ha) as (row & Er & Cr). pose proof table_close as Ht.
  rewrite forallb_forall in Ht. specialize (Ht (a, row)). rewrite forallb_forall in Ht.
  assert (In (a, row) (zip (ranks_to max_bm25) score_table)) as Hin.
  { apply list_elem_of_In, list_elem_of_lookup. exists (place max_bm25 a). apply lookup_zip_with_Some.
    exists a, row. split_and!; [done|by apply ranks_lookup|done]. }
  specialize (Ht Hin (b, rrf a b)). simpl in Ht.
  assert (In (b, rrf a b) (zip (ranks_to max_vec) row)) as Hin2.
  { apply list_elem_of_In, list_elem_of_lookup. exists (place max_vec b). apply lookup_zip_with_Some.
    exists b, (rrf a b). split_and!; [done|by apply ranks_lookup|by apply Cr]. }
  specialize (Ht Hin2). apply orb_true_iff in Ht as [Ht|Ht]; [|done].
  apply andb_true_iff in Ht as [?%Nat.eqb_eq ?%Nat.eqb_eq]. by subst.
Qed.

(** Floats of full mantissa are ordered as their units. *)
Lemma units_lt a b x a' b' y : close a b x = true -> close a' b' y = true -> units x < units y -> f64_ltb x y = true.
Proof.
  unfold close. destruct x as [| | |[|] m e]; try done. destruct y as [| | |[|] m' e']; try done. intros Hx Hy Hlt. bool_prop.
  rewrite ltb_key by done. unfold lex_lt. simpl. destruct (Z.lt_trichotomy e e') as [He|[->|He]].
  - by rewrite (proj2 (Z.ltb_lt _ _) He).
  - rewrite Z.ltb_irrefl, Z.eqb_refl. simpl. apply Z.ltb_lt. simpl in Hlt. nia.
  - exfalso. simpl in Hlt. assert (2 ^ (e + 64) = 2 ^ (e' + 64) * 2 ^ (e - e')) as E by (rewrite <- Z.pow_add_r by lia; f_equal; lia).
    assert (2 <= 2 ^ (e - e')) by (change 2 with (2 ^ 1) at 1; apply Z.pow_le_mono_r; lia).
    assert (0 < 2 ^ (e' + 64)) by (apply Z.pow_pos_nonneg; lia). rewrite E in Hlt. nia.
Qed.

Lemma rrf_gap u u' n d n' d' : 0 < d <= 93600 -> 0 < d' <= 93600 ->
  Z.abs (u * d - n * 2 ^ 64) <= d * 2 ^ 14 -> Z.abs (u' * d' - n' * 2 ^ 64) <= d' * 2 ^ 14 -> n * d' < n' * d -> u < u'.
Proof.
  intros Hd Hd' Hu Hu' Hlt.
  assert ((u * d - n * 2 ^ 64) * d' <= d * 2 ^ 14 * d') by (apply Z.mul_le_mono_nonneg_r; lia).
  assert (- (d' * 2 ^ 14 * d) <= (u' * d' - n' * 2 ^ 64) * d) by nia.
  assert (d * d' <= 93600 * 93600) by nia.
  assert (u * (d * d') < u' * (d * d')) by nia. nia.
Qed.

(** A better exact score is a better float. *)
Lemma rrf_ordered a b a' b' :
  (a <= max_bm25)%nat -> (a' <= max_bm25)%nat -> (b <= max_vec)%nat -> (b' <= max_vec)%nat -> (a, b) <> (0, 0)%nat ->
  (rrf_exact (Z.of_nat a) (Z.of_nat b) < rrf_exact (Z.of_nat a') (Z.of_nat b'))%Q -> f64_ltb (rrf a b) (rrf a' b') = true.
Proof.
  intros Ha Ha' Hb Hb' Hn Hlt%rrf_exact_lt.
  assert ((a', b') <> (0, 0)%nat) as Hn'.
  { intros [= -> ->]. change (rrf_numer 0 0) with 0 in Hlt. change (rrf_den 0 0) with 1 in Hlt. unfold rrf_numer in Hlt.
    pose proof (share_den_pos a). pose proof (share_den_pos b). destruct (a =? 0)%nat, (b =? 0)%nat; lia. }
  pose proof (rrf_close a b Ha Hb Hn) as Hc. pose proof (rrf_close a' b' Ha' Hb' Hn') as Hc'.
  eapply units_lt; [exact Hc|exact Hc'|]. unfold close in Hc, Hc'.
  destruct (rrf a b) as [| | |[|] m e] eqn:E; try done. destruct (rrf a' b') as [| | |[|] m' e'] eqn:E'; try done. bool_prop.
  assert (forall n, (n <= 300)%nat -> 0 < share_den n <= 360) as Hden by (intros n ?; unfold share_den; destruct n; simpl; lia).
  assert (forall n, (n <= 200)%nat -> 0 < share_den n <= 260) as Hden2 by (intros n ?; unfold share_den; destruct n; simpl; lia).
  assert (forall x y, (x <= 300)%nat -> (y <= 200)%nat -> 0 < rrf_den x y <= 93600) as Hd.
  { intros x y Hx Hy. unfold rrf_den. specialize (Hden x Hx). specialize (Hden2 y Hy). nia. }
  eapply (rrf_gap _ _ (rrf_numer a b) (rrf_den a b) (rrf_numer a' b') (rrf_den a' b')); [by apply Hd|by apply Hd|eassumption..].
Qed.

(** ** The ranked answer *)

Lemma add_ids_spec ids hits :
  NoDup ids -> NoDup (add_ids ids hits) /\ (forall c, c ∈ add_ids ids hits <-> c ∈ ids \/ c ∈ h_CandidateID <$> hits).
Proof.
  unfold add_ids. revert ids. induction hits as [|h hits IH]; intros ids Hn; simpl.
  { split; [done|]. intros c. rewrite elem_of_nil. tauto. }
  case_decide as Hin.
  - destruct (IH ids Hn) as [? Hc]. split; [done|]. intros c. rewrite Hc, elem_of_cons. split; [tauto|].
    intros [?|[->|?]]; tauto.
  - destruct (IH (ids ++ [h_CandidateID h])) as [? Hc].
    { apply NoDup_app. split_and!; [done| |apply NoDup_singleton]. intros x Hx ->%list_elem_of_singleton. done. }
    split; [done|]. intros c. rewrite Hc, elem_of_app, list_elem_of_singleton, elem_of_cons. tauto.
Qed.

(** *** Places by score *)

#[local] Abbreviation ids := (fmap h_CandidateID).

Definition number_from (n : nat) (hits : list SearchHit) (m : gmap string Z) : gmap string Z :=
  foldl (fun m p => <[h_CandidateID p.2 := Z.of_nat p.1 + 1]> m) m (imap (fun i h => (n + i, h)%nat) hits).

Lemma number_cons n h hits m : number_from n (h :: hits) m = number_from (S n) hits (<[h_CandidateID h := Z.of_nat n + 1]> m).
Proof.
  unfold number_from. simpl. rewrite Nat.add_0_r. f_equal. apply imap_ext. intros i x _. simpl. f_equal. lia.
Qed.

Lemma number_other n hits m c : c ∉ ids hits -> number_from n hits m !! c = m !! c.
Proof.
  revert n m. induction hits as [|h hits IH]; intros n m Hc; [done|]. rewrite number_cons, IH.
  - apply lookup_insert_ne. intros <-. apply Hc. left.
  - intros Hin. apply Hc. by right.
Qed.

Lemma number_lookup n hits m i h : NoDup (ids hits) -> hits !! i = Some h ->
  number_from n hits m !! h_CandidateID h = Some (Z.of_nat (n + i) + 1).
Proof.
  revert n m i. induction hits as [|x hits IH]; intros n m i Hd Hi; [done|]. simpl in Hd. apply NoDup_cons in Hd as [Hx Hd].
  rewrite number_cons. destruct i as [|i]; simpl in Hi.
  - injection Hi as ->. rewrite number_other by done. rewrite lookup_insert_eq. f_equal. lia.
  - rewrite (IH (S n) _ i Hd Hi). f_equal. lia.
Qed.

Lemma rank_map_number hits : rank_map hits = number_from 0 hits ∅.
Proof. done. Qed.

(** The places of the hits from the lowest score up, 1 for the first, equal scores in some
    order; 0 for whoever is not among them. *)
Definition places (hits : list SearchHit) (r : string -> Z) : Prop :=
  (forall c, c ∉ ids hits -> r c = 0) /\
  r <$> ids hits ≡ₚ seqZ 1 (Z.of_nat (length hits)) /\
  (forall h h', h ∈ hits -> h' ∈ hits -> f64_ltb (h_Score h) (h_Score h') = true -> r (h_CandidateID h) < r (h_CandidateID h')).

Lemma StronglySorted_lookup {A} (R : A -> A -> Prop) l i j x y :
  StronglySorted R l -> (i < j)%nat -> l !! i = Some x -> l !! j = Some y -> R x y.
Proof.
  intros Hs. revert i j. induction Hs as [|a l Hl IH Ha]; intros i j Hij Hx Hy; [done|].
  destruct j as [|j]; [lia|]. destruct i as [|i]; simpl in *; simplify_eq.
  - eapply Forall_lookup_1; [exact Ha|exact Hy].
  - eapply IH; [|done..]. lia.
Qed.

Lemma numbered (r : string -> Z) (l : list SearchHit) :
  (forall i h, l !! i = Some h -> r (h_CandidateID h) = Z.of_nat i + 1) -> r <$> ids l = seqZ 1 (Z.of_nat (length l)).
Proof.
  intros Hr. eapply (list_eq (A := Z)). intros i. destruct (decide (i < length l)%nat) as [Hi|Hi].
  - rewrite lookup_seqZ_lt by lia. destruct (lookup_lt_is_Some_2 l i Hi) as [h Eh].
    rewrite (list_lookup_fmap r), (list_lookup_fmap h_CandidateID), Eh. simpl. rewrite (Hr i h Eh). f_equal. lia.
  - rewrite lookup_seqZ_ge, (list_lookup_fmap r), (list_lookup_fmap h_CandidateID), lookup_ge_None_2 by lia. done.
Qed.

Lemma ltb_irrefl x : not_nan x -> f64_ltb x x = false.
Proof. intros Hx. rewrite ltb_key by done. unfold lex_lt. by rewrite !Z.ltb_irrefl, !andb_false_r. Qed.

(** Where [sort.Slice] and the numbering put the hits are such places. *)
Lemma ranks_are_places `{Sorter} hits : Forall (fun h => not_nan (h_Score h)) hits -> NoDup (ids hits) ->
  places hits (fun c => default 0 (rank_map (sort_slice by_score hits) !! c)).
Proof.
  intros Hok Hd. pose proof (sort_perm _ by_score hits) as Hp. set (l := sort_slice by_score hits) in *.
  assert (NoDup (ids l)) as Hdl by (by rewrite Hp). assert (length l = length hits) as Hlen by (by rewrite Hp).
  assert (forall i h, l !! i = Some h -> default 0 (rank_map l !! h_CandidateID h) = Z.of_nat i + 1) as Hat.
  { intros i h Hi. rewrite rank_map_number, (number_lookup 0 l ∅ i h Hdl Hi). done. }
  rewrite Forall_forall in Hok. split_and!.
  - intros c Hc. rewrite rank_map_number, number_other; [done|]. by rewrite Hp.
  - rewrite <- Hlen, <- (numbered (fun c => default 0 (rank_map l !! c)) l Hat). by rewrite Hp.
  - intros h h' Hh Hh' Hlt. rewrite <- Hp in Hh, Hh'. apply list_elem_of_lookup in Hh as [i Hi], Hh' as [j Hj].
    rewrite (Hat i h Hi), (Hat j h' Hj).
    assert (StronglySorted (fun x y => by_score y x = false) l) as Hs by (apply sort_sorted, weak_order_by; intros x Hx; by apply Hok).
    destruct (Nat.lt_trichotomy i j) as [Hij|[<-|Hij]]; [lia| |].
    + rewrite Hi in Hj. injection Hj as <-. rewrite ltb_irrefl in Hlt; [done|]. apply Hok. rewrite <- Hp. by eapply list_elem_of_lookup_2.
    + pose proof (StronglySorted_lookup _ _ j i h' h Hs Hij Hj Hi) as Hf. unfold by_score in Hf. congruence.
Qed.

Section Ranked.
Context `{Sorter}.
Context (limit : Z) (bm25Hits vecHits : list SearchHit) (info : gmap string SnapshotInfo).

Definition found : list string := add_ids (add_ids [] bm25Hits) vecHits.

(** The pointer of a candidate, before it is ranked. *)
Definition candidate (c : string) : option TalentPointer :=
  pointer_of info (score_map bm25Hits) (score_map vecHits) c.

(** The order of the answer: by fused score when there are vector hits, else by bm25. *)
Definition better (p q : TalentPointer) : bool :=
  if bool_decide (score_map vecHits = ∅) then by_bm25 p q
  else by_fusion (rank_map (sort_slice by_score bm25Hits)) (rank_map (sort_slice by_score vecHits)) p q.

Definition sorted_pointers : list TalentPointer :=
  let pointers := omap candidate found in
  sort_slice better pointers.

Lemma rank_pointers_eq :
  rank_pointers limit bm25Hits vecHits info = imap with_rank (take (Z.to_nat limit) sorted_pointers).
Proof. unfold rank_pointers, sorted_pointers, better. by case_bool_decide. Qed.

Lemma candidate_id c p : candidate c = Some p -> tpt_CandidateID p = c.
Proof. unfold candidate, pointer_of. destruct (info !! c); simpl; [|done]. by intros [= <-]. Qed.

Lemma found_spec : NoDup found /\ (forall c, c ∈ found <-> c ∈ h_CandidateID <$> (bm25Hits ++ vecHits)).
Proof.
  unfold found. destruct (add_ids_spec [] bm25Hits (NoDup_nil_2)) as [H1 H2].
  destruct (add_ids_spec _ vecHits H1) as [H3 H4]. split; [done|]. intros c.
  rewrite H4, H2, fmap_app, elem_of_app, elem_of_nil. tauto.
Qed.

Lemma omap_ids l : NoDup l -> NoDup (tpt_CandidateID <$> omap candidate l).
Proof.
  induction 1 as [|c l Hc _ IH]; [apply NoDup_nil_2|]. csimpl. destruct (candidate c) as [p|] eqn:E; [|done].
  csimpl. apply NoDup_cons. split; [|done]. rewrite (candidate_id _ _ E).
  intros (q & Hq & (c' & Hc' & E')%list_elem_of_omap)%list_elem_of_fmap.
  apply candidate_id in E'. by subst.
Qed.

Lemma sorted_ids : NoDup (tpt_CandidateID <$> sorted_pointers).
Proof. unfold sorted_pointers. rewrite sort_perm. apply omap_ids, found_spec. Qed.

Lemma sorted_elem p : p ∈ sorted_pointers <-> exists c, c ∈ found /\ candidate c = Some p.
Proof. unfold sorted_pointers. rewrite sort_perm. apply list_elem_of_omap. Qed.

Lemma ids_with_rank l : tpt_CandidateID <$> imap with_rank l = tpt_CandidateID <$> l.
Proof. rewrite fmap_imap. rewrite <- (imap_const tpt_CandidateID l). by apply imap_ext. Qed.

Lemma ranked_lookup i p :
  rank_pointers limit bm25Hits vecHits info !! i = Some p ->
  exists q, sorted_pointers !! i = Some q /\ (i < Z.to_nat limit)%nat /\ p = with_rank i q.
Proof.
  rewrite rank_pointers_eq, list_lookup_imap. intros (q & Hq & ->)%fmap_Some.
  apply lookup_take_Some in Hq as [Hq Hi]. eauto.
Qed.

Lemma ranked_sound :
  let ps := rank_pointers limit bm25Hits vecHits info in
  NoDup (tpt_CandidateID <$> ps) /\ length ps = Nat.min (Z.to_nat limit) (length (omap candidate found)) /\
  forall i p, ps !! i = Some p ->
    tpt_Rank p = Z.of_nat i + 1 /\ tpt_CandidateID p ∈ h_CandidateID <$> (bm25Hits ++ vecHits) /\
    exists q, candidate (tpt_CandidateID p) = Some q /\ p = with_rank i q.
Proof.
  cbv zeta. split_and!.
  - rewrite rank_pointers_eq, ids_with_rank, fmap_take.
    pose proof sorted_ids as Hn. rewrite <- (take_drop (Z.to_nat limit) (tpt_CandidateID <$> _)) in Hn.
    by apply NoDup_app in Hn as [? _].
  - rewrite rank_pointers_eq, length_imap, length_take. unfold sorted_pointers. by rewrite (Permutation_length (sort_perm _ _ _)).
  - intros i p (q & Hq & _ & ->)%ranked_lookup. split; [done|].
    assert (q ∈ sorted_pointers) as (c & Hc & E)%sorted_elem by (by eapply list_elem_of_lookup_2).
    simpl. rewrite (candidate_id _ _ E). split; [by apply found_spec|]. eauto.
Qed.

Lemma sorted_candidate x k : sorted_pointers !! k = Some x -> tpt_CandidateID x ∈ found /\ candidate (tpt_CandidateID x) = Some x.
Proof. intros (c & Hc & E)%list_elem_of_lookup_2%sorted_elem. by rewrite (candidate_id _ _ E). Qed.

(** ** Best first *)

Lemma better_rank i j p q : better (with_rank i p) (with_rank j q) = better p q.
Proof. unfold better. by case_bool_decide. Qed.

Definition score_ok (h : SearchHit) : Prop := not_nan (h_Score h).

Lemma score_map_ok hits c s : Forall score_ok hits -> score_map hits !! c = Some s -> not_nan s.
Proof.
  unfold score_map. intros Hok. assert (forall c s, (∅ : gmap string float64) !! c = Some s -> not_nan s) as Hm by done.
  revert Hm. generalize (∅ : gmap string float64). induction Hok as [|h hits Hh _ IH]; intros m Hm; simpl; [apply Hm|].
  apply IH. intros c' s'. destruct (decide (c' = h_CandidateID h)) as [->|Hne].
  - rewrite lookup_insert_eq. by intros [= <-].
  - rewrite lookup_insert_ne by done. apply Hm.
Qed.

Lemma rank_map_range hits c r : rank_map hits !! c = Some r -> 0 < r <= Z.of_nat (length hits).
Proof.
  unfold rank_map. assert (forall n, Forall (fun p => (p.1 < n + length hits)%nat) (imap (fun i x => (n + i, x)%nat) hits)) as Hi.
  { intros n. revert n. clear. induction hits as [|h hits IH]; intros n; simpl; constructor; simpl; [lia|].
    specialize (IH (S n)). eapply Forall_impl.
    - erewrite imap_ext; [exact IH|]. intros i x _. simpl. f_equal. lia.
    - simpl. intros [k x]. simpl. lia. }
  specialize (Hi 0%nat). simpl in Hi. revert Hi. generalize (length hits) as len. intros len.
  change (imap (fun i x => (i, x)) hits) with (imap pair hits). generalize (imap pair hits) as l. intros l Hl.
  assert (forall c r, (∅ : gmap string Z) !! c = Some r -> 0 < r <= Z.of_nat len) as Hm by done.
  revert Hm. generalize (∅ : gmap string Z). induction Hl as [|p l Hp _ IH]; intros m Hm; simpl; [apply Hm|].
  apply IH. intros c' r'. destruct (decide (c' = h_CandidateID p.2)) as [->|Hne].
  - rewrite lookup_insert_eq. intros [= <-]. lia.
  - rewrite lookup_insert_ne by done. apply Hm.
Qed.

Lemma rrf_num a b : 0 <= a <= Z.of_nat max_bm25 -> 0 <= b <= Z.of_nat max_vec -> not_nan (rrfScore rrf_k a b).
Proof.
  intros Ha Hb. assert (rrfScore rrf_k a b = rrf (Z.to_nat a) (Z.to_nat b)) as -> by (unfold rrf; by rewrite !Z2Nat.id by lia).
  assert (forall a b, (a <= max_bm25)%nat -> (b <= max_vec)%nat -> not_nan (rrf a b)) as Hn.
  { clear. intros a b Ha Hb. destruct (decide (b = 0%nat)) as [->|Hb0].
    - pose proof (row_above a 1 0 Ha ltac:(unfold max_vec; lia) Hb ltac:(by left) ltac:(done)) as Hr.
      unfold above in Hr. by destruct (rrf a 0), (rrf a 1).
    - pose proof (row_above a b 0 Ha Hb ltac:(lia) ltac:(by left) Hb0) as Hr.
      unfold above in Hr. by destruct (rrf a b). }
  apply Hn; lia.
Qed.

Context (Hb : Forall score_ok bm25Hits) (Hnb : (length bm25Hits <= max_bm25)%nat)
  (Hv : Forall score_ok vecHits) (Hnv : (length vecHits <= max_vec)%nat).

Lemma better_weak_order l : (forall p, p ∈ l -> exists c, candidate c = Some p) -> weak_order_on better l.
Proof.
  intros Hl. unfold better. case_bool_decide.
  - apply weak_order_by. intros p (c & E)%Hl. unfold candidate, pointer_of in E.
    destruct (info !! c); [|done]. simpl in E. injection E as <-. simpl.
    destruct (score_map bm25Hits !! c) as [s1|] eqn:Es; simpl; [exact (score_map_ok _ _ _ Hb Es)|done].
  - unfold by_fusion. apply (weak_order_flip (fun a b => f64_ltb (fused _ _ a) (fused _ _ b))).
    apply (weak_order_by (fused (rank_map (sort_slice by_score bm25Hits)) (rank_map (sort_slice by_score vecHits)))).
    intros p _. unfold fused. apply rrf_num.
    + destruct (rank_map _ !! _) as [r|] eqn:E; simpl; [|unfold max_bm25; lia].
      apply rank_map_range in E. rewrite (Permutation_length (sort_perm _ _ _)) in E. lia.
    + destruct (rank_map (sort_slice by_score vecHits) !! _) as [r|] eqn:E; simpl; [|unfold max_vec; lia].
      apply rank_map_range in E. rewrite (Permutation_length (sort_perm _ _ _)) in E. lia.
Qed.

Lemma sorted_sorted : StronglySorted (fun x y => better y x = false) sorted_pointers.
Proof.
  apply sort_sorted, better_weak_order. intros p (c & _ & E)%list_elem_of_omap. eauto.
Qed.

(** A found candidate is left out only of a full answer, in which nothing is worse. *)
Lemma left_out c q :
  c ∈ found -> candidate c = Some q -> c ∉ tpt_CandidateID <$> rank_pointers limit bm25Hits vecHits info ->
  length (rank_pointers limit bm25Hits vecHits info) = Z.to_nat limit /\
  forall p, p ∈ rank_pointers limit bm25Hits vecHits info -> better q p = false.
Proof.
  intros Hc E Hn. pose proof sorted_sorted as Hs.
  assert (q ∈ sorted_pointers) as (j & Hj)%list_elem_of_lookup by (apply sorted_elem; eauto).
  assert (Z.to_nat limit <= j)%nat as Hlj.
  { destruct (Nat.le_gt_cases (Z.to_nat limit) j) as [|Hlt]; [done|]. exfalso. apply Hn.
    apply list_elem_of_fmap. exists (with_rank j q). rewrite <- (candidate_id _ _ E). split; [done|].
    apply list_elem_of_lookup. exists j. rewrite rank_pointers_eq, list_lookup_imap, lookup_take_lt by done. by rewrite Hj. }
  split.
  - apply lookup_lt_Some in Hj. rewrite rank_pointers_eq, length_imap, length_take. lia.
  - intros p (i & Hi)%list_elem_of_lookup. apply ranked_lookup in Hi as (p' & Hp & Hi & ->).
    assert (better q (with_rank i p') = better q p') as ->.
    { unfold better. by case_bool_decide. }
    eapply StronglySorted_lookup in Hs; [exact Hs| |exact Hp|exact Hj]. lia.
Qed.

End Ranked.

(** [c] beats [c']: by full text alone, a lower bm25 score; with vectors, a higher sum of
    reciprocals of its places, as rational numbers. *)
Definition beats (bm25Hits vecHits : list SearchHit) (r1 r2 : string -> Z) (c c' : string) : Prop :=
  match vecHits with
  | [] => exists h h', h ∈ bm25Hits /\ h' ∈ bm25Hits /\ h_CandidateID h = c /\ h_CandidateID h' = c' /\ f64_ltb (h_Score h) (h_Score h') = true
  | _ => (rrf_exact (r1 c') (r2 c') < rrf_exact (r1 c) (r2 c))%Q
  end.

Section BestFirst.
Context `{Sorter} (limit : Z) (bm25Hits vecHits : list SearchHit) (info : gmap string SnapshotInfo).
Context (Hb : Forall score_ok bm25Hits) (Hnb : (length bm25Hits <= max_bm25)%nat) (Hdb : NoDup (ids bm25Hits)).
Context (Hv : Forall score_ok vecHits) (Hnv : (length vecHits <= max_vec)%nat) (Hdv : NoDup (ids vecHits)).

Lemma score_map_hit (hits : list SearchHit) h : NoDup (ids hits) -> h ∈ hits -> score_map hits !! h_CandidateID h = Some (h_Score h).
Proof.
  unfold score_map. generalize (∅ : gmap string float64). induction hits as [|x hits IH]; intros m Hd Hh; [by apply elem_of_nil in Hh|].
  simpl in Hd. apply NoDup_cons in Hd as [Hx Hd]. simpl. apply elem_of_cons in Hh as [->|Hh]; [|by apply IH].
  assert (forall l (m : gmap string float64) c, c ∉ ids l -> foldl (fun m h => <[h_CandidateID h := h_Score h]> m) m l !! c = m !! c) as Hno.
  { clear. induction l as [|y l IH]; intros m c Hc; [done|]. simpl. rewrite IH by (intros Hin; apply Hc; by right).
    apply lookup_insert_ne. intros E. apply Hc. simpl. rewrite E. left. }
  by rewrite Hno, lookup_insert_eq.
Qed.

Lemma score_map_empty hits : NoDup (ids hits) -> score_map hits = ∅ <-> hits = [].
Proof.
  intros Hd. split; [|by intros ->]. destruct hits as [|h l] eqn:E; [done|]. intros Em.
  assert (score_map (h :: l) !! h_CandidateID h = Some (h_Score h)) as Hs by (apply score_map_hit; [done|left]).
  by rewrite Em in Hs.
Qed.

Lemma beats_fused c c' (ra rb : string -> Z) : vecHits <> [] -> beats bm25Hits vecHits ra rb c c' -> (rrf_exact (ra c') (rb c') < rrf_exact (ra c) (rb c))%Q.
Proof. by destruct vecHits. Qed.

Abbreviation r1 := (fun c => default 0 (rank_map (sort_slice by_score bm25Hits) !! c)).
Abbreviation r2 := (fun c => default 0 (rank_map (sort_slice by_score vecHits) !! c)).

Lemma place_bounds hits c : let r := default 0 (rank_map (sort_slice by_score hits) !! c) in
  0 <= r <= Z.of_nat (length hits) /\ (NoDup (ids hits) -> c ∈ ids hits -> 0 < r).
Proof.
  pose proof (sort_perm _ by_score hits) as Hp. set (l := sort_slice by_score hits) in *.
  assert (length l = length hits) as Hlen by (by rewrite Hp). cbv zeta. split.
  - destruct (rank_map l !! c) as [r|] eqn:E; simpl; [|lia]. apply rank_map_range in E. lia.
  - intros Hd (h & -> & Hh)%list_elem_of_fmap. rewrite <- Hp in Hh. apply list_elem_of_lookup in Hh as [i Hi].
    rewrite rank_map_number, (number_lookup 0 l ∅ i h); [simpl; lia|by rewrite Hp|done].
Qed.

(** Who beats another is placed before him by the code's own comparison. *)
Lemma beats_better p q : candidate bm25Hits vecHits info (tpt_CandidateID p) = Some p -> candidate bm25Hits vecHits info (tpt_CandidateID q) = Some q ->
  tpt_CandidateID p ∈ found bm25Hits vecHits ->
  beats bm25Hits vecHits r1 r2 (tpt_CandidateID q) (tpt_CandidateID p) -> better bm25Hits vecHits q p = true.
Proof.
  intros Ep Eq Hf%found_spec Hbeat. unfold better. destruct (decide (vecHits = [])) as [Ev|Ev].
  - rewrite bool_decide_eq_true_2 by (by rewrite Ev). unfold beats in Hbeat. rewrite Ev in Ep, Eq, Hbeat. destruct Hbeat as (h & h' & Hh & Hh' & Eh & Eh' & Hlt). unfold by_bm25.
    assert (forall x k, candidate bm25Hits [] info (tpt_CandidateID x) = Some x -> k ∈ bm25Hits -> h_CandidateID k = tpt_CandidateID x ->
      tpt_BM25Score x = h_Score k) as Hs.
    { intros x k Ex Hk Ek. unfold candidate, pointer_of in Ex. destruct (info !! _); [|done]. simpl in Ex. injection Ex as Ex.
      rewrite <- Ex. simpl. by rewrite <- Ek, score_map_hit. }
    by rewrite (Hs q h Eq Hh Eh), (Hs p h' Ep Hh' Eh').
  - rewrite bool_decide_eq_false_2 by (by rewrite score_map_empty). apply (beats_fused _ _ _ _ Ev) in Hbeat. unfold by_fusion, fused.
    destruct (place_bounds bm25Hits (tpt_CandidateID p)) as [B1 P1], (place_bounds vecHits (tpt_CandidateID p)) as [B2 P2].
    destruct (place_bounds bm25Hits (tpt_CandidateID q)) as [B3 _], (place_bounds vecHits (tpt_CandidateID q)) as [B4 _].
    cbv beta in Hbeat. revert B1 P1 B2 P2 B3 B4 Hbeat. generalize (default 0 (rank_map (sort_slice by_score bm25Hits) !! tpt_CandidateID p)) as a,
      (default 0 (rank_map (sort_slice by_score vecHits) !! tpt_CandidateID p)) as b,
      (default 0 (rank_map (sort_slice by_score bm25Hits) !! tpt_CandidateID q)) as a',
      (default 0 (rank_map (sort_slice by_score vecHits) !! tpt_CandidateID q)) as b'.
    intros a b a' b' B1 P1 B2 P2 B3 B4 Hbeat. pose proof (rrf_ordered (Z.to_nat a) (Z.to_nat b) (Z.to_nat a') (Z.to_nat b')) as Ho.
    unfold rrf in Ho. rewrite !Z2Nat.id in Ho by lia. apply Ho; [lia..| |done]. intros [= Ea Eb].
    rewrite fmap_app in Hf. apply elem_of_app in Hf as [Hf|Hf]; [specialize (P1 Hdb Hf)|specialize (P2 Hdv Hf)]; lia.
Qed.

End BestFirst.

(** C32: the answer is the best of what was found, best first.  Take hits of one candidate each
    per search, with scores that are numbers, no more than the searches ask for.  Without
    vector hits no pointer is followed by one of a lower bm25 score.  With them there are
    places of the hits in each list, lower scores first, and no pointer is followed by one
    whose sum of reciprocals 1/(60 + place), computed exactly, is higher; float64 never
    inverts that order.  And a found candidate with a snapshot is left out only when the
    answer is full and the candidate beats nobody in it. *)
Theorem search_best_first `{Sorter} limit bm25Hits vecHits info :
  Forall score_ok bm25Hits -> (length bm25Hits <= max_bm25)%nat -> NoDup (ids bm25Hits) ->
  Forall score_ok vecHits -> (length vecHits <= max_vec)%nat -> NoDup (ids vecHits) ->
  let ps := rank_pointers limit bm25Hits vecHits info in
  exists r1 r2, places bm25Hits r1 /\ places vecHits r2 /\
    (forall i j p q, (i < j)%nat -> ps !! i = Some p -> ps !! j = Some q ->
       ~ beats bm25Hits vecHits r1 r2 (tpt_CandidateID q) (tpt_CandidateID p)) /\
    (forall c, c ∈ ids (bm25Hits ++ vecHits) -> info !! c <> None -> c ∉ tpt_CandidateID <$> ps ->
       length ps = Z.to_nat limit /\ forall p, p ∈ ps -> ~ beats bm25Hits vecHits r1 r2 c (tpt_CandidateID p)).
Proof.
  intros Hb Hnb Hdb Hv Hnv Hdv ps. do 2 eexists. split_and!; [by apply ranks_are_places|by apply ranks_are_places|..].
  - intros i j p q Hij Hp Hq Hbeat. subst ps.
    destruct (ranked_lookup _ _ _ _ _ _ Hp) as (p' & Hp' & _ & ->), (ranked_lookup _ _ _ _ _ _ Hq) as (q' & Hq' & _ & ->).
    pose proof (sorted_sorted bm25Hits vecHits info Hb Hnb Hnv) as Hs. eapply StronglySorted_lookup in Hs; [|exact Hij|exact Hp'|exact Hq'].
    destruct (sorted_candidate _ _ _ _ _ Hp') as [Hf Ep], (sorted_candidate _ _ _ _ _ Hq') as [_ Eq].
    enough (better bm25Hits vecHits q' p' = true) by congruence. by eapply beats_better.
  - intros c Hc Hi Hn. subst ps. assert (exists q, candidate bm25Hits vecHits info c = Some q) as [q Eq].
    { unfold candidate, pointer_of. destruct (info !! c); [by eexists|done]. }
    destruct (left_out limit bm25Hits vecHits info Hb Hnb Hnv c q) as [Hlen Hbest]; [by apply found_spec|done|done|].
    split; [done|]. intros p Hp Hbeat. specialize (Hbest p Hp). apply list_elem_of_lookup in Hp as [k Hp].
    destruct (ranked_lookup _ _ _ _ _ _ Hp) as (p' & Hp' & _ & ->). destruct (sorted_candidate _ _ _ _ _ Hp') as [Hf Ep].
    assert (tpt_CandidateID q = c) as <- by by eapply candidate_id.
    assert (better bm25Hits vecHits q p' = true) as Hbt by by eapply beats_better.
    rewrite <- (better_rank _ _ 0 k q p') in Hbt. unfold better, by_bm25, by_fusion, fused in Hbt, Hbest. simpl in Hbt, Hbest. congruence.
Qed.

(** ** The whole search *)

Section Sound.
Context `{Env, Engine, Unicode, SearchEngine, Sorter}.

Lemma quiet_FTS5Search q l : quiet (Search.FTS5Search q l).
Proof. unfold Search.FTS5Search. solve_frame. Qed.
Lemma quiet_vec_hits l v : quiet (Search.vec_hits l v).
Proof. unfold Search.vec_hits, Search.Vec0Search. solve_frame. Qed.

Lemma elem_of_joined s n d : (s, n) ∈ joined d <-> s ∈ snapshots d /\ n ∈ nodes d /\ n_id n = s_node s.
Proof.
  unfold joined. rewrite list_elem_of_bind. setoid_rewrite list_elem_of_bind. setoid_rewrite list_elem_of_singleton.
  split.
  - intros (s' & (n' & [= -> ->] & Hn) & Hs). apply elem_of_sel in Hn as [Hk Hn]. unfold node_is in Hk. by bool_prop.
  - intros (Hs & Hn & Hk). exists s. split; [|done]. exists n. split; [done|]. apply elem_of_sel. unfold node_is.
    by rewrite Hk, str_eqb_refl.
Qed.

Lemma infos_lookup ids d c si :
  infos ids d !! c = Some si -> exists r, r ∈ joined d /\ s_cand r.1 = c /\ si = info_of r.
Proof.
  unfold infos. set (l := filter _ (joined d)).
  assert (forall r, r ∈ l -> r ∈ joined d) as Hl by (intros r [_ ?]%list_elem_of_filter; done).
  assert (forall c si, (∅ : gmap string SnapshotInfo) !! c = Some si -> exists r, r ∈ joined d /\ s_cand r.1 = c /\ si = info_of r) as Hm by done.
  revert Hm. generalize (∅ : gmap string SnapshotInfo). clearbody l.
  induction l as [|r l IH]; intros m Hm; simpl; [apply Hm|]. apply IH.
  - intros r' Hr'. apply Hl. by right.
  - intros c' si'. destruct (decide (c' = s_cand r.1)) as [->|Hne].
    + rewrite lookup_insert_eq. intros [= <-]. exists r. split; [apply Hl; by left|done].
    + rewrite lookup_insert_ne by done. apply Hm.
Qed.

(** C31: a search is sound and read-only: it changes nothing in the database, returns at most
    the effective limit (between 1 and 100) of distinct candidates ranked 1, 2, ..., and
    every pointer is a snapshot in the database joined with its node: that node's endpoint,
    name and activity, and the snapshot's time. *)
Theorem search_sound query limit vec w ps w' :
  Search.SearchTalent query limit vec w = (Ok ps, w') ->
  w_db w' = w_db w /\ 1 <= effective_limit limit <= 100 /\ Z.of_nat (length ps) <= effective_limit limit /\
  NoDup (tpt_CandidateID <$> ps) /\
  forall i p, ps !! i = Some p ->
    tpt_Rank p = Z.of_nat i + 1 /\
    exists s n, s ∈ snapshots (w_db w) /\ n ∈ nodes (w_db w) /\ n_id n = s_node s /\
      s_cand s = tpt_CandidateID p /\
      info_of (s, n) = Info (tpt_NodeID p) (tpt_EndpointURL p) (tpt_DisplayName p) (tpt_IsActive p) (tpt_LastSync p).
Proof.
  intros E. assert (1 <= effective_limit limit <= 100) as Hlim by (unfold effective_limit; destruct (_ || _) eqn:El; bool_prop; lia).
  unfold Search.SearchTalent in E. apply bind_ok in E as (bh & w1 & E1 & E). apply bind_ok in E as (vh & w2 & E2 & E).
  apply bind_ok in E as (info & w3 & E3 & [-> ->]%ret_ok).
  pose proof (quiet_FTS5Search query (effective_limit limit * 3) w) as D1. rewrite E1 in D1. simpl in D1.
  pose proof (quiet_vec_hits (effective_limit limit) vec w1) as D2. rewrite E2 in D2. simpl in D2.
  assert (w_db w3 = w_db w2 /\ forall c si, info !! c = Some si -> exists r, r ∈ joined (w_db w2) /\ s_cand r.1 = c /\ si = info_of r)
    as [D3 Hinfo].
  { unfold Search.SnapshotsByCandidateIDs in E3. destruct (add_ids _ vh).
    - apply ret_ok in E3 as [-> ->]. done.
    - apply db_query_ok in E3 as (_ & -> & ->). split; [done|]. intros c si. apply infos_lookup. }
  destruct (ranked_sound (effective_limit limit) bh vh info) as (Hnd & Hlen & Hps).
  split_and!; [congruence|lia|lia|rewrite Hlen; lia|done|].
  intros i p Hp. destruct (Hps i p Hp) as (Hr & _ & q & Hq & Ep). split; [done|].
  unfold candidate, pointer_of in Hq. destruct (info !! tpt_CandidateID p) as [si|] eqn:Ei; [|done]. simpl in Hq.
  destruct (Hinfo _ _ Ei) as ([s n] & Hr' & Hc & ->). apply elem_of_joined in Hr' as (Hs & Hn & Hk).
  rewrite D2, D1 in *. exists s, n. split_and!; try done. injection Hq as <-. by rewrite Ep.
Qed.

End Sound.

(** ** Concrete engines *)

Section InsertionSort.
Context {A : Type} (less : A -> A -> bool).

Fixpoint insert_by (x : A) (l : list A) : list A :=
  match l with [] => [x] | y :: l' => if less y x then y :: insert_by x l' else x :: y :: l' end.
Definition insertion_sort (l : list A) : list A := foldr insert_by [] l.

Lemma insert_by_perm x l : insert_by x l ≡ₚ x :: l.
Proof. induction l as [|y l IH]; simpl; [done|]. destruct (less y x); [|done]. rewrite IH. apply Permutation_swap. Qed.

Lemma insertion_sort_perm l : insertion_sort l ≡ₚ l.
Proof. induction l as [|x l IH]; simpl; [done|]. by rewrite insert_by_perm, IH. Qed.

Lemma weak_order_sub l l' : (forall x, x ∈ l' -> x ∈ l) -> weak_order_on less l -> weak_order_on less l'.
Proof.
  intros Hs [Hi Ha Ht]. constructor; [intros; by apply Hi, Hs|intros; apply Ha; auto|].
  intros x y z Hx Hy Hz. apply (Ht x y z); auto.
Qed.

Lemma insert_by_sorted x l :
  weak_order_on less (x :: l) -> StronglySorted (fun a b => less b a = false) l ->
  StronglySorted (fun a b => less b a = false) (insert_by x l).
Proof.
  intros W Hs. induction Hs as [|y l Hl IH Hy]; simpl; [by repeat constructor|].
  assert (weak_order_on less (x :: l)) as W' by (eapply weak_order_sub; [|exact W]; intros z; rewrite !elem_of_cons; tauto).
  destruct (less y x) eqn:E.
  - constructor; [by apply IH|]. rewrite insert_by_perm. constructor; [|done].
    eapply less_asym; [exact W|by right; left|by left|done].
  - constructor; [by constructor|]. constructor; [done|]. apply Forall_forall. intros z Hz.
    eapply (less_trans _ _ W x y z); [by left|by right; left|by right; right|done|].
    by apply (proj1 (Forall_forall _ _) Hy).
Qed.

Lemma insertion_sort_sorted l : weak_order_on less l -> StronglySorted (fun a b => less b a = false) (insertion_sort l).
Proof.
  induction l as [|x l IH]; intros W; simpl; [constructor|]. apply insert_by_sorted.
  - eapply weak_order_sub; [|exact W]. intros z. rewrite !elem_of_cons, insertion_sort_perm. done.
  - apply IH. eapply weak_order_sub; [|exact W]. intros z ?. by right.
Qed.

End InsertionSort.

Definition insertion_sorter : Sorter := {|
  sort_slice A less l := insertion_sort less l;
  sort_perm A less l := insertion_sort_perm less l;
  sort_sorted A less l W := insertion_sort_sorted less l W |}.

(** Full-text search answers every row with score -1; the vector search has none. *)
Definition sample_search : SearchEngine := {|
  fts_search rows q := Some ((fun r => (r.1, f64_of_Z (-1))) <$> rows);
  vec_search t b k := None |}.

Section Witnesses.
#[local] Existing Instance sample_env.
#[local] Existing Instance sample_engine.
#[local] Existing Instance ascii_unicode.
#[local] Existing Instance insertion_sorter.
#[local] Existing Instance sample_search.

Theorem sanitize_quotes_words_witness :
  SanitizeFTS5Query (SanitizeFTS5Query "go AND (rust* OR c++)") = SanitizeFTS5Query "go AND (rust* OR c++)".
Proof. apply (sanitize_quotes_words ltac:(done) "go AND (rust* OR c++)"). Defined.

Definition two_hits : list SearchHit := [Hit "c1" (f64_of_Z (-1)); Hit "c2" (f64_of_Z (-2))].
Definition two_near : list SearchHit := [Hit "c1" (f64_of_Z 1); Hit "c3" (f64_of_Z 2)].
Definition three_infos : gmap string SnapshotInfo :=
  list_to_map ((fun c => (c, Info "n1" "https://a" "A" true 1)) <$> ["c1"; "c2"; "c3"]).

(** The second of the full text and first of the vectors comes first, the second of the vectors
    alone is left out of two. *)
Theorem search_best_first_witness :
  let ps := rank_pointers 2 two_hits two_near three_infos in
  tpt_CandidateID <$> ps = ["c1"; "c2"] /\
  exists r1 r2, places two_hits r1 /\ places two_near r2 /\ ~ beats two_hits two_near r1 r2 "c2" "c1" /\
    length ps = 2%nat /\ forall p, p ∈ ps -> ~ beats two_hits two_near r1 r2 "c3" (tpt_CandidateID p).
Proof.
  intros ps. assert (tpt_CandidateID <$> ps = ["c1"; "c2"]) as Hps by (vm_compute; reflexivity). split; [exact Hps|].
  destruct (search_best_first 2 two_hits two_near three_infos) as (r1 & r2 & H1 & H2 & Hord & Hcut);
    [by repeat constructor|unfold max_bm25; simpl; lia|apply (bool_decide_unpack (NoDup (ids two_hits))); vm_compute; exact I
    |by repeat constructor|unfold max_vec; simpl; lia|apply (bool_decide_unpack (NoDup (ids two_near))); vm_compute; exact I|].
  exists r1, r2. split; [exact H1|]. split; [exact H2|]. fold ps in Hord, Hcut.
  destruct ps as [|p [|q [|]]]; try discriminate Hps. simpl in Hps. injection Hps as Ep Eq. split.
  - rewrite <- Ep, <- Eq. exact (Hord 0%nat 1%nat p q ltac:(lia) eq_refl eq_refl).
  - apply (Hcut "c3").
    + apply (bool_decide_unpack ("c3" ∈ ids (two_hits ++ two_near))). vm_compute. exact I.
    + vm_compute. discriminate.
    + simpl. rewrite Ep, Eq. apply (bool_decide_unpack ("c3" ∉ ["c1"; "c2"])). vm_compute. exact I.
Defined.

(** A node with one snapshot, indexed. *)
Definition indexed_db : db :=
  set_fts (fun _ => [("c1", "{}")])
    (set_snapshots (fun _ => [Snapshot "s1" "n1" "c1" "{}" None 40])
      (set_nodes (fun _ => [Node "n1" None "LivingCV" "https://cv.example" None true None None (Some "Ada") (Some 10) None None]) empty_db)).

Theorem search_sound_witness :
  exists p w', Search.SearchTalent "go" 0 [] (set_db indexed_db start_world) = (Ok [p], w') /\
    tpt_CandidateID p = "c1" /\ tpt_DisplayName p = "Ada" /\ tpt_Rank p = 1.
Proof.
  eexists _, _. split; [vm_compute; reflexivity|]. split; [reflexivity|]. split; [reflexivity|].
  eapply (search_sound "go" 0 [] (set_db indexed_db start_world)) with (i := 0%nat); [vm_compute; reflexivity|reflexivity].
Defined.

End Witnesses.
