(* ===== verification/ProfileFacts.v ===== *)
(** * From ingestion to the profile

    What a recruiter is served is what the node signed: the profile returned for a candidate
    after its snapshot was accepted carries the payload, the signature and the node's key
    with which the signature verifies. *)

From S2P Require Import Prelude RateLimit AdminStore Schema Statements Invariants World.
From S2P Require Import GoStrings Float Runs Samples Repo RepoFacts Auth AuthFacts Ingest IngestFacts.
From S2P Require Import Search SearchFacts.

Open Scope Z_scope.

Section Profile.
Context `{Env, Engine, Ed25519, FloatText, Unicode, SearchEngine, Sorter}.

Lemma upsert_only id nid cid p sg now d d' k :
  exec_stmt (UpsertSnapshot_ id nid cid p sg now) d = Some (d', k) ->
  (forall s, s ∈ snapshots d -> s_cand s = cid -> s_node s = nid) ->
  (forall s, s ∈ snapshots d' -> s_cand s = cid -> s_node s = nid) /\ identities d' = identities d.
Proof.
  simpl. destruct (has _ (snapshots d)); [done|].
  destruct (has (fun s => str_eqb (s_node s) nid && str_eqb (s_cand s) cid) (snapshots d)).
  - intros [= <- _] Ho. split; [|done]. simpl. intros s (s0 & Hs & ->)%elem_of_upd. destruct (_ && _) eqn:E; simpl; [|by apply Ho].
    intros _. by bool_prop.
  - intros (_ & -> & _)%inserting_ok Ho. split; [|done]. simpl. intros s [Hs|Hs]%elem_of_app; [by apply Ho|].
    apply list_elem_of_singleton in Hs as ->. done.
Qed.

Lemma identity_back d d' n :
  identities d' = identities d -> n ∈ nodes d ->
  exists n', n' ∈ nodes d' /\ n_id n' = n_id n /\ n_endpoint n' = n_endpoint n /\ n_pubkey n' = n_pubkey n.
Proof.
  intros Hi Hn. assert ((n_id n, n_endpoint n, n_pubkey n) ∈ identities d') as Hin.
  { rewrite Hi. apply list_elem_of_fmap. eauto. }
  unfold identities in Hin. apply list_elem_of_fmap in Hin as (n' & [= -> -> ->] & ?). eauto.
Qed.

(** The only row of a candidate. *)
Lemma detail_unique d s n :
  db_wf d -> s ∈ snapshots d -> n ∈ nodes d -> n_id n = s_node s ->
  (forall s', s' ∈ snapshots d -> s_cand s' = s_cand s -> s_node s' = s_node s) ->
  detail_of (s_cand s) d
  = Some (Detail (s_cand s) (s_payload s) (s_sig s) (s_node s) (n_endpoint n) (n_pubkey n) (s_at s)).
Proof.
  intros W Hs Hn Hk Ho. unfold detail_of.
  destruct (head (sel _ (joined d))) as [[s' n']|] eqn:E.
  - apply head_sel_some in E as [(Hs' & Hn' & Hk')%elem_of_joined Ec]. simpl in Ec. bool_prop.
    assert (s' = s) as ->.
    { eapply (NoDup_fmap_inj_on (key2 s_node s_cand)); [apply W|done..|]. unfold key2. f_equal; [by apply Ho|done]. }
    assert (n' = n) as -> by (eapply (NoDup_fmap_inj_on n_id); [apply W|done..|congruence]).
    done.
  - eapply head_sel_none in E; [|by apply elem_of_joined]. simpl in E. by rewrite str_eqb_refl in E.
Qed.

(** After an accepted snapshot of a candidate no other node claims, it is the candidate's only
    one, and its node is still there. *)
Lemma only_snapshot EmbedDim nodeID input w u w1 :
  db_wf (w_db w) ->
  (forall s, s ∈ snapshots (w_db w) -> s_cand s = in_CandidateID input -> s_node s = nodeID) ->
  Ingest.Process EmbedDim nodeID input w = (Ok u, w1) ->
  exists s n n1, Repo.node_by_id nodeID (w_db w) = Some n /\ db_wf (w_db w1) /\
    s ∈ snapshots (w_db w1) /\ s_node s = nodeID /\ s_cand s = in_CandidateID input /\ s_payload s = in_Payload input /\
    stored_signature (in_Signature input) (s_sig s) /\
    n1 ∈ nodes (w_db w1) /\ n_id n1 = nodeID /\ n_endpoint n1 = n_endpoint n /\ n_pubkey n1 = n_pubkey n /\
    (forall key, n_pubkey n = Some key -> key <> EmptyString ->
       is_empty (in_Signature input) = false /\ VerifySignature (Some key) (in_Payload input) (in_Signature input) = inr true) /\
    (forall s', s' ∈ snapshots (w_db w1) -> s_cand s' = in_CandidateID input -> s_node s' = nodeID).
Proof.
  intros W Ho E. pose proof (Process_ok _ _ _ _ _ _ E) as (n & id & sg & now & d & k & Hn & _ & Hsg & Hc & Hver & Hx & Hs & Hi).
  pose proof (good_evolves _ _ _ _ (Ingest.good_Process EmbedDim nodeID input) E Hc) as Ev.
  assert (db_wf (w_db w1)) as W1 by (by eapply evolves_preserves_wf).
  destruct (upsert_only _ _ _ _ _ _ _ _ _ Hx Ho) as [Ho1 Hi1]. rewrite <- Hs in Ho1.
  apply snapshot_stored in Hx as (s & Hin & En & Ec & Ep & Esg). rewrite <- Hs in Hin.
  pose proof Hn as Hn0. apply head_sel_some in Hn0 as [Hnin Hnk]. unfold node_is in Hnk. bool_prop.
  destruct (identity_back (w_db w) (w_db w1) n) as (n1 & Hn1 & Hk1 & He1 & Hp1); [congruence|done|].
  exists s, n, n1. rewrite Esg. split_and!; try done; congruence.
Qed.

(** C34: what was signed is what is served.  After an accepted snapshot for a candidate no
    other node claims, the candidate's profile carries the node's id, exactly the payload
    sent and the node's registered key; and for a node with a key, whoever checks the served
    signature with the served key over the served payload finds it good. *)
Theorem served_profile_verifies EmbedDim nodeID input w u w1 r w2 :
  db_wf (w_db w) ->
  (forall s, s ∈ snapshots (w_db w) -> s_cand s = in_CandidateID input -> s_node s = nodeID) ->
  Ingest.Process EmbedDim nodeID input w = (Ok u, w1) ->
  Search.GetTalentProfile (in_CandidateID input) w1 = (Ok r, w2) ->
  exists p n, r = Some p /\ Repo.node_by_id nodeID (w_db w) = Some n /\
    pf_CandidateID p = in_CandidateID input /\ pf_NodeID p = nodeID /\ pf_Payload p = in_Payload input /\
    pf_EndpointURL p = n_endpoint n /\ pf_PublicKey p = Hex.encode (default EmptyString (n_pubkey n)) /\
    (forall key, n_pubkey n = Some key -> key <> EmptyString ->
       VerifySignature (Hex.decode (pf_PublicKey p)) (pf_Payload p) (pf_Signature p) = inr true).
Proof.
  intros W Ho E Eg. destruct (only_snapshot _ _ _ _ _ _ W Ho E) as (s & n & n1 & Hn & W1 & Hin & En & Ec & Ep & Hsg & Hn1 & Hk1 & He1 & Hp1 & Hver & Ho1).
  unfold Search.GetTalentProfile, Search.GetSnapshotByCandidate in Eg.
  apply bind_ok in Eg as (o & w1' & (_ & -> & ->)%row_or_nil_ok & [-> ->]%ret_ok).
  rewrite <- Ec. erewrite (detail_unique _ s n1 W1 Hin Hn1); [|congruence|].
  2:{ intros s' Hs' Hc'. rewrite En. apply Ho1; [done|congruence]. }
  eexists _, n. split; [reflexivity|]. cbn [pf_CandidateID pf_NodeID pf_Payload pf_EndpointURL pf_PublicKey pf_Signature sd_CandidateID sd_NodeID sd_EndpointURL sd_PayloadJSON sd_Signature sd_PublicKey].
  split_and!; [done|done|done|done|done|congruence|].
  intros key Hk Hne. destruct (Hver key Hk Hne) as [Hse Hv]. unfold stored_signature in Hsg. rewrite Hse in Hsg.
  destruct Hsg as (b & Hb & ->). rewrite Hp1, Hk, Ep. simpl. rewrite Hex.decode_encode.
  unfold VerifySignature in *. rewrite Hb in Hv. by rewrite Hex.decode_encode.
Qed.

End Profile.

Section Witness.
#[local] Existing Instance sample_env.
#[local] Existing Instance sample_engine.
#[local] Existing Instance sample_ed25519.
#[local] Existing Instance no_floats.
#[local] Existing Instance ascii_unicode.
#[local] Existing Instance insertion_sorter.
#[local] Existing Instance sample_search.

Definition ingested_world : world := after (Ingest.Process 384 keyed_id signed_input) keyed_world.

Lemma keyed_wf : db_wf (w_db keyed_world).
Proof.
  apply (evolves_preserves_wf empty_db); [|apply empty_db_wf].
  unfold keyed_world, after. destruct (keyed_node start_world) as [o w'] eqn:E.
  change empty_db with (w_db start_world). eapply good_evolves; [|exact E|reflexivity].
  unfold keyed_node. apply good_InsertDeviceSession.
Qed.

Theorem served_profile_verifies_witness :
  exists r w2, Search.GetTalentProfile "cand-1" ingested_world = (Ok r, w2) /\
    exists p, r = Some p /\ pf_Payload p = "{}" /\
      VerifySignature (Hex.decode (pf_PublicKey p)) (pf_Payload p) (pf_Signature p) = inr true.
Proof.
  eexists _, _. split; [vm_compute; reflexivity|].
  edestruct (served_profile_verifies 384 keyed_id signed_input keyed_world tt ingested_world)
    as (p & n & Hr & Hn & _ & _ & Hp & _ & _ & Hv);
    [apply keyed_wf| | | |].
  - vm_compute. by intros s ?%elem_of_nil.
  - vm_compute. reflexivity.
  - vm_compute. reflexivity.
  - exists p. split; [exact Hr|]. split; [exact Hp|]. apply (Hv (repeat_byte 32 "k")); [|done].
    vm_compute in Hn. by injection Hn as <-.
Defined.

End Witness.
