(* ===== verification/TalentFacts.v ===== *)
(** * From ingestion to the search

    What a node pushed is what recruiters find: an accepted snapshot is in the full-text
    index, a query of words of its text finds it, and the pointer leads to the node. *)

From S2P Require Import Prelude RateLimit AdminStore Schema Statements Invariants World.
From S2P Require Import GoStrings Utf8Facts Float Runs Samples Repo RepoFacts Auth AuthFacts Ingest IngestFacts.
From S2P Require Import Search SearchFacts ProfileFacts.

Open Scope Z_scope.

(** ** Words of a text

    FTS5's [unicode61] tokenizer splits at everything but letters and digits and folds case;
    bytes of characters beyond ASCII are taken here as part of a word, so that a word found
    between ASCII separators is a token for the tokenizer too. *)

Definition alnum (c : ascii) : bool :=
  let v := byte_val c in
  ((48 <=? v) && (v <=? 57)) || ((65 <=? v) && (v <=? 90)) || ((97 <=? v) && (v <=? 122)).
Definition token_byte (c : ascii) : bool := alnum c || (128 <=? byte_val c).

Fixpoint tokens_go (cur s : string) : list string :=
  match s with
  | EmptyString => if is_empty cur then [] else [cur]
  | String c s' =>
      if token_byte c then tokens_go (cur ++s String (lower_ascii c) EmptyString) s'
      else (if is_empty cur then [] else [cur]) ++ tokens_go EmptyString s'
  end.
Definition tokens (s : string) : list string := tokens_go EmptyString s.

Definition fold (w : string) : string := str_map lower_ascii w.
Definition has_token (text w : string) : Prop := fold w ∈ tokens text.

(** A word of the language of queries, in ASCII letters and digits. *)
Definition plain_word (w : string) : Prop := str_all alnum w = true /\ w <> EmptyString.

Definition match_query (ws : list string) : string := str_join " " (quoted <$> ws).

(** What FTS5 promises of [MATCH] with a list of strings in double quotes: a row whose text has
    every word as a token is among the rows found; and bm25 scores are numbers. *)
Class Fts5 `{SearchEngine} : Prop := {
  fts_match : forall rows ws cid text, ws <> [] -> Forall plain_word ws -> (cid, text) ∈ rows -> Forall (has_token text) ws ->
    exists hits, fts_search rows (match_query ws) = Some hits /\ cid ∈ hits.*1;
  fts_scores : forall rows q hits, fts_search rows q = Some hits -> Forall (fun h => not_nan h.2) hits }.

Section Found.
Context `{Env, Engine, Ed25519, FloatText, Unicode, Fts5, Sorter}.

(** ** The rows of a candidate *)

Lemma infos_found ids d s n : (s, n) ∈ joined d -> s_cand s ∈ ids -> is_Some (infos ids d !! s_cand s).
Proof.
  intros Hj Hi. unfold infos. assert ((s, n) ∈ filter (fun r => s_cand r.1 ∈ ids) (joined d)) as Hl by (by apply list_elem_of_filter).
  assert (forall l (m : gmap string SnapshotInfo), (s, n) ∈ l \/ is_Some (m !! s_cand s) ->
    is_Some (foldl (fun m r => <[s_cand r.1 := info_of r]> m) m l !! s_cand s)) as Hm; [|by apply Hm; left].
  clear. induction l as [|r l IH]; intros m Hr; simpl; [by destruct Hr as [?%elem_of_nil|]|].
  apply IH. destruct Hr as [[<-|Hr]%elem_of_cons|Hr]; [right|by left|right].
  - simpl. by rewrite lookup_insert_eq.
  - destruct (decide (s_cand s = s_cand r.1)) as [->|Hne]; [by rewrite lookup_insert_eq|by rewrite lookup_insert_ne].
Qed.

Lemma infos_only ids d s n :
  db_wf d -> s ∈ snapshots d -> n ∈ nodes d -> n_id n = s_node s -> s_cand s ∈ ids ->
  (forall s', s' ∈ snapshots d -> s_cand s' = s_cand s -> s_node s' = s_node s) ->
  infos ids d !! s_cand s = Some (info_of (s, n)).
Proof.
  intros W Hs Hn Hk Hi Ho. destruct (infos_found ids d s n) as [si Hsi]; [by apply elem_of_joined|done|].
  rewrite Hsi. destruct (infos_lookup _ _ _ _ Hsi) as ([s' n'] & (Hs' & Hn' & Hk')%elem_of_joined & Ec & ->). simpl in Ec.
  assert (s' = s) as ->.
  { eapply (NoDup_fmap_inj_on (key2 s_node s_cand)); [apply W|done..|]. unfold key2. f_equal; [by apply Ho|done]. }
  by rewrite (NoDup_fmap_inj_on n_id _ n' n (wf_nodes_id _ W) Hn' Hn) by congruence.
Qed.

Lemma score_of_hit hits c : c ∈ h_CandidateID <$> hits -> exists s, score_map hits !! c = Some s /\ Hit c s ∈ hits.
Proof.
  unfold score_map. intros Hc.
  assert (forall hs (m : gmap string float64), (c ∈ h_CandidateID <$> hs \/ exists s, m !! c = Some s /\ Hit c s ∈ hits) -> (forall h, h ∈ hs -> h ∈ hits) ->
    exists s, foldl (fun m h => <[h_CandidateID h := h_Score h]> m) m hs !! c = Some s /\ Hit c s ∈ hits) as Hm; [|by apply Hm; [left|]].
  clear Hc. induction hs as [|h hs IH]; intros m Hr Hin; simpl; [by destruct Hr as [?%elem_of_nil|]|].
  apply IH; [|by intros; apply Hin; right]. destruct (decide (c = h_CandidateID h)) as [->|Hne].
  - right. exists (h_Score h). rewrite lookup_insert_eq. split; [done|]. destruct h. apply Hin. left.
  - rewrite lookup_insert_ne by done. destruct Hr as [[->|?]%elem_of_cons|?]; [done|by left|by right].
Qed.

(** ** The search *)

(** [SearchTalent] of words alone, when no statement fails. *)
Lemma run_search (Hsql : forall k, sql_fails k = false) (Hdisj : forall r, word_beyond r = true -> space_beyond r = false)
    ws limit w hits :
  w_conn w = true -> ws <> [] -> Forall fts_word ws -> fts_search (snapshots_fts (w_db w)) (match_query ws) = Some hits ->
  Z.of_nat (length hits) <= effective_limit limit * 3 ->
  exists w2, Search.SearchTalent (str_join " " ws) limit [] w
    = (Ok (rank_pointers (effective_limit limit) (Search.to_hits hits) [] (infos (add_ids [] (Search.to_hits hits)) (w_db w))), w2).
Proof.
  intros Hc Hne Hws Ef Hl. unfold Search.SearchTalent, Search.FTS5Search. cbv zeta.
  rewrite sanitize_words by done. fold (match_query ws). assert (is_empty (match_query ws) = false) as ->.
  { destruct ws as [|x [|y ws]]; [done|done..]. }
  erewrite run_bind; [|erewrite run_bind by (apply run_try, (run_query Hsql); exact Hc); rewrite Ef; reflexivity].
  assert (sql_limit (effective_limit limit * 3) hits = hits) as ->.
  { unfold sql_limit. destruct (_ <? 0); [done|]. apply take_ge. lia. }
  erewrite run_bind by reflexivity. unfold Search.SnapshotsByCandidateIDs. cbn [add_ids foldl].
  destruct (add_ids [] (Search.to_hits hits)) as [|c l] eqn:Ea.
  - eexists. erewrite run_bind by reflexivity. unfold infos.
    assert (filter (fun r : snapshot * node => s_cand r.1 ∈ []) (joined (w_db w)) = []) as ->; [|reflexivity].
    induction (joined (w_db w)) as [|r l IH]; [done|]. by rewrite filter_cons_False by apply not_elem_of_nil.
  - eexists. erewrite run_bind by (apply (run_query Hsql); exact Hc). reflexivity.
Qed.

Lemma pointer_found hs info cid s n score :
  info !! cid = Some (info_of (s, n)) -> score_map hs !! cid = Some score ->
  exists q, candidate hs [] info cid = Some q /\ tpt_NodeID q = s_node s /\ tpt_EndpointURL q = n_endpoint n /\ tpt_BM25Score q = score.
Proof. intros Hi Hs. unfold candidate, pointer_of. rewrite Hi. simpl. rewrite Hs. by eexists. Qed.

(** C30: what is pushed is found.  After an accepted snapshot of a candidate no other node claims,
    when no statement fails, let a recruiter search for words of its text, and let FTS5 find no
    more rows than a search looks at.  Then the answer has a pointer to the candidate, with the
    node and its endpoint; or it is full, and nothing in it has a worse score. *)
Theorem pushed_is_found EmbedDim nodeID input w u w1 ws limit :
  (forall k, sql_fails k = false) -> (forall r, word_beyond r = true -> space_beyond r = false) ->
  db_wf (w_db w) ->
  (forall s, s ∈ snapshots (w_db w) -> s_cand s = in_CandidateID input -> s_node s = nodeID) ->
  Ingest.Process EmbedDim nodeID input w = (Ok u, w1) ->
  ws <> [] -> Forall fts_word ws -> Forall plain_word ws -> Forall (has_token (in_Payload input)) ws ->
  (forall hits, fts_search (snapshots_fts (w_db w1)) (match_query ws) = Some hits ->
     Z.of_nat (length hits) <= effective_limit limit * 3) ->
  exists ps w2 n, Search.SearchTalent (str_join " " ws) limit [] w1 = (Ok ps, w2) /\
    Repo.node_by_id nodeID (w_db w) = Some n /\
    ((exists p, p ∈ ps /\ tpt_CandidateID p = in_CandidateID input /\ tpt_NodeID p = nodeID /\ tpt_EndpointURL p = n_endpoint n) \/
     (Z.of_nat (length ps) = effective_limit limit /\
      exists hits score, fts_search (snapshots_fts (w_db w1)) (match_query ws) = Some hits /\
        (in_CandidateID input, score) ∈ hits /\ forall p, p ∈ ps -> f64_ltb score (tpt_BM25Score p) = false)).
Proof.
  intros Hsql Hdisj W Ho E Hne Hws Hpl Htok Hfew. set (cid := in_CandidateID input) in *.
  pose proof (Process_indexed EmbedDim Hsql _ _ _ _ _ E) as Hidx. fold cid in Hidx.
  destruct (fts_match _ _ _ _ Hne Hpl Hidx Htok) as (hits & Ef & Hcid). specialize (Hfew hits Ef).
  destruct (only_snapshot _ _ _ _ _ _ W Ho E) as (s & n & n1 & Hn & W1 & Hs & En & Ec & _ & _ & Hn1 & Hk1 & He1 & _ & _ & Ho1).
  fold cid in Ec, Ho1.
  assert (w_conn w1 = true) as Hc1.
  { destruct (Process_stored _ _ _ _ _ _ E) as (? & ? & ? & ? & ? & ? & ? & _ & _ & _ & Hc & _).
    destruct (Ingest.good_Process EmbedDim nodeID input w Hc) as (_ & Hc1 & _). by rewrite E in Hc1. }
  destruct (run_search Hsql Hdisj ws limit w1 hits Hc1 Hne Hws Ef Hfew) as [w2 E2].
  set (hs := Search.to_hits hits) in *. set (ids := add_ids [] hs) in *. set (info := infos ids (w_db w1)) in *.
  set (ps := rank_pointers _ _ _ _) in *. exists ps, w2, n. split; [exact E2|]. split; [done|].
  assert (cid ∈ h_CandidateID <$> hs) as Hhs.
  { subst hs. unfold Search.to_hits. rewrite <- list_fmap_compose. apply list_elem_of_fmap in Hcid as (h & -> & Hh).
    apply list_elem_of_fmap. by exists h. }
  assert (info !! cid = Some (info_of (s, n1))) as Hinfo.
  { rewrite <- Ec. apply infos_only; [done..|congruence| |].
    - rewrite Ec. apply add_ids_spec; [apply NoDup_nil_2|by right].
    - intros s' Hs' Hc'. rewrite En. apply Ho1; [done|congruence]. }
  destruct (score_of_hit hs cid Hhs) as (score & Hscore & Hhit).
  destruct (pointer_found hs info cid s n1 score Hinfo Hscore) as (q & Hq & Hqn & Hqe & Hqs).
  destruct (decide (cid ∈ tpt_CandidateID <$> ps)) as [(p & Ep & Hp)%list_elem_of_fmap|Hout]; [left|right].
  - exists p. pose proof Hp as (i & Hi)%list_elem_of_lookup.
    destruct (ranked_sound (effective_limit limit) hs [] info) as (_ & _ & Hr). destruct (Hr i p Hi) as (_ & _ & q' & Hq' & E').
    rewrite <- Ep, Hq in Hq'. injection Hq' as <-. split_and!; [done|done|rewrite E'; simpl; congruence..].
  - assert (1 <= effective_limit limit <= 100) as Hlim by (unfold effective_limit; destruct (_ || _) eqn:El; bool_prop; lia).
    destruct (left_out (effective_limit limit) hs [] info) with (c := cid) (q := q) as [Hlen Hbest]; [..|done|exact Hout|].
    + subst hs. unfold Search.to_hits. apply Forall_fmap. by eapply fts_scores.
    + subst hs. unfold Search.to_hits. rewrite length_fmap. unfold max_bm25. lia.
    + unfold max_vec. simpl. lia.
    + apply found_spec. by rewrite app_nil_r.
    + split; [fold ps in Hlen; lia|]. exists hits, score. split_and!; [done| |].
      * subst hs. unfold Search.to_hits in Hhit. apply list_elem_of_fmap in Hhit as ([c' s'] & [= -> ->] & Hh). done.
      * intros p Hp. specialize (Hbest p Hp). unfold better in Hbest. rewrite bool_decide_eq_true_2 in Hbest by done.
        unfold by_bm25 in Hbest. by rewrite Hqs in Hbest.
Qed.

End Found.

(** ** A concrete engine: the rows that have every word of the query *)

Definition word_search : SearchEngine := {|
  fts_search rows q := Some ((fun r : fts_row => (r.1, f64_of_Z (-1))) <$> filter (fun r => Forall (fun t => t ∈ tokens r.2) (tokens q)) rows);
  vec_search t b k := None |}.

Lemma tokens_word w cur rest : str_all alnum w = true -> tokens_go cur (w ++s rest) = tokens_go (cur ++s fold w) rest.
Proof.
  revert cur. induction w as [|c w IH]; intros cur Hw; simpl; [by rewrite append_nil_r|]. simpl in Hw. bool_prop.
  unfold token_byte. match goal with Hc : alnum c = true |- _ => rewrite Hc end. simpl. rewrite IH by done. by rewrite append_assoc.
Qed.

Lemma tokens_quoted w rest : plain_word w -> tokens_go EmptyString (quoted w ++s rest) = fold w :: tokens_go EmptyString rest.
Proof.
  intros [Hw Hne]. unfold quoted. rewrite !append_assoc. change (tokens_go EmptyString (dq ++s w ++s dq ++s rest)) with (tokens_go EmptyString (w ++s dq ++s rest)).
  rewrite tokens_word by done. destruct w as [|c w]; [done|]. reflexivity.
Qed.

Lemma tokens_query ws : Forall plain_word ws -> tokens (match_query ws) = fold <$> ws.
Proof.
  unfold tokens, match_query. induction 1 as [|w ws Hw Hws IH]; [done|]. destruct ws as [|w' ws].
  - change (str_join " " (quoted <$> [w])) with (quoted w). rewrite <- (append_nil_r (quoted w)). by rewrite tokens_quoted.
  - change (str_join " " (quoted <$> w :: w' :: ws)) with (quoted w ++s (" " ++s str_join " " (quoted <$> w' :: ws))).
    rewrite tokens_quoted by done. change (tokens_go EmptyString (" " ++s str_join " " (quoted <$> w' :: ws)))
      with (tokens_go EmptyString (str_join " " (quoted <$> w' :: ws))). by rewrite IH.
Qed.

Lemma word_search_fts5 : Fts5 (H:=word_search).
Proof.
  split.
  - intros rows ws cid text _ Hpl Hin Htok. eexists. split; [reflexivity|]. rewrite <- list_fmap_compose.
    apply list_elem_of_fmap. exists (cid, text). split; [done|]. apply list_elem_of_filter. split; [|done].
    rewrite tokens_query by done. by apply Forall_fmap.
  - intros rows q hits [= <-]. apply Forall_fmap, Forall_true. intros r. by vm_compute.
Qed.

Section Witness.
#[local] Existing Instances sample_env sample_engine sample_ed25519 no_floats ascii_unicode insertion_sorter word_search word_search_fts5.

Definition prover_input : SnapshotInput :=
  mkInput "cand-1" ("{" ++s quoted "skills" ++s ":" ++s quoted "Rocq, verification" ++s "}") [] (Hex.encode (repeat_byte 64 "s")).
Definition pushed_world : world := after (Ingest.Process 384 keyed_id prover_input) keyed_world.

Theorem pushed_is_found_witness :
  exists ps w2, Search.SearchTalent (str_join " " ["ROCQ"; "Verification"]) 10 [] pushed_world = (Ok ps, w2) /\
    exists p, p ∈ ps /\ tpt_CandidateID p = "cand-1" /\ tpt_EndpointURL p = "https://cv.example".
Proof.
  destruct (pushed_is_found 384 keyed_id prover_input keyed_world tt pushed_world ["ROCQ"; "Verification"] 10)
    as (ps & w2 & n & Es & Hn & [(p & Hp & Hc & _ & He)|[Hfull _]]).
  - reflexivity.
  - done.
  - apply keyed_wf.
  - vm_compute. by intros s ?%elem_of_nil.
  - vm_compute. reflexivity.
  - done.
  - repeat constructor; vm_compute; done.
  - repeat constructor; vm_compute; done.
  - repeat constructor; in_list.
  - vm_compute. intros hits [= <-]. done.
  - exists ps, w2. split; [exact Es|]. exists p. split; [exact Hp|]. split; [exact Hc|]. vm_compute in Hn. injection Hn as <-. exact He.
  - exfalso. vm_compute in Es. injection Es as <- _. vm_compute in Hfull. discriminate Hfull.
Defined.

End Witness.
