(* ===== verification/GoTime.v ===== *)
(** * Calendar text of a Unix time ([time.Unix(s, 0).UTC().Format(...)])

    Days are turned into a proleptic Gregorian date by shifting the year to start in March
    and splitting it into 400-year eras. *)

From S2P Require Import Prelude GoStrings.

Open Scope Z_scope.

(** Year, month, day of a number of days since 1970-01-01. *)
Definition civil (days : Z) : Z * Z * Z :=
  let z := days + 719468 in
  let era := z / 146097 in
  let doe := z mod 146097 in
  let yoe := (doe - doe / 1460 + doe / 36524 - doe / 146096) / 365 in
  let doy := doe - (365 * yoe + yoe / 4 - yoe / 100) in
  let mp := (5 * doy + 2) / 153 in
  let d := doy - (153 * mp + 2) / 5 + 1 in
  let m := if mp <? 10 then mp + 3 else mp - 9 in
  let y := yoe + era * 400 + (if m <=? 2 then 1 else 0) in
  (y, m, d).

Fixpoint pad_to (n : nat) (s : string) : string :=
  match n with
  | O => s
  | S n' => if (String.length s <? S n')%nat then String "0" (pad_to n' s) else s
  end.

(** A number with at least [n] digits. *)
Definition padded (n : nat) (z : Z) : string := pad_to n (itoa z).

Definition date_text (s : Z) : string :=
  let '(y, m, d) := civil (s / 86400) in padded 4 y ++s "-" ++s padded 2 m ++s "-" ++s padded 2 d.

Definition hours_minutes (s : Z) : string :=
  let t := s mod 86400 in padded 2 (t / 3600) ++s ":" ++s padded 2 (t / 60 mod 60).

(** [time.RFC3339] in UTC *)
Definition rfc3339 (s : Z) : string :=
  date_text s ++s "T" ++s hours_minutes s ++s ":" ++s padded 2 (s mod 60) ++s "Z".

(** ["2006-01-02 15:04"] at an offset from UTC in seconds *)
Definition minute_text (offset s : Z) : string := date_text (s + offset) ++s " " ++s hours_minutes (s + offset).

Example rfc3339_ex :
  rfc3339 0 = "1970-01-01T00:00:00Z" /\ rfc3339 1700000000 = "2023-11-14T22:13:20Z" /\
  rfc3339 951782399 = "2000-02-28T23:59:59Z" /\ rfc3339 951782400 = "2000-02-29T00:00:00Z" /\
  rfc3339 (-1) = "1969-12-31T23:59:59Z" /\ rfc3339 4107542399 = "2100-02-28T23:59:59Z" /\
  rfc3339 4107542400 = "2100-03-01T00:00:00Z".
Proof. by vm_compute. Qed.
