(* ===== verification/AdminHandlers.v ===== *)
(** * The operator's pages (src/internal/httpapi/handler/admin.go)

    The admin signs in with a mailed one-shot link, apart from the users of the site, and
    approves or revokes federated peers. *)

From S2P Require Import Prelude RateLimit AdminStore Schema Statements Invariants World.
From S2P Require Import GoStrings GoJson GoTime Runs Samples Repo RepoFacts Auth AuthFacts Http.
From S2P Require Import Middleware AuthHandlers FedRepo.

Open Scope Z_scope.

Definition adminSessionTTL : Z := 2 * hour.
Definition adminLoginRatePerIP : Z := 5.
Definition adminLoginRateWindow : Z := 15 * minute.

(** The handler's fields; the two stores are in the world, here only their lifetimes. *)
Record AdminConfig := mkAdmin {
  ac_AdminEmail : string;
  ac_PendingTTL : Z;
  ac_SessionTTL : Z;
  ac_SendLink : option Mailer }.

Module AdminHandler.
Section AdminHandler.
Context `{Env, Engine, Unicode}.
Context (h : AdminConfig).

Definition Enabled : bool := negb (is_empty (trim_space (ac_AdminEmail h))).

Definition baseURL (r : request) : string :=
  let p := header r "X-Forwarded-Proto" in
  if negb (is_empty p) then p ++s "://" ++s r_host r
  else if r_tls r then "https://" ++s r_host r
  else "http://" ++s r_host r.

Definition constantTimeEmailEqual (a b : string) : bool :=
  let a := to_lower (trim_space a) in
  let b := to_lower (trim_space b) in
  if negb (String.length a =? String.length b)%nat then false else str_eqb a b.

Definition login_page (sent : bool) (err : string) : response :=
  html "admin_login.html" (jmap [("Sent", JBool sent); ("Error", JStr err)]).

Definition LoginForm : handler := fun _ r =>
  mret (login_page (str_eqb (query_get r "sent") "1")
    (if str_eqb (query_get r "error") "1" then "That link is invalid or has expired. Try again." else EmptyString)).

(** The email as submitted, and whether it is the admin's. *)
Definition submitted (r : request) : string := trim_space (form_value r "email").
Definition matched (r : request) : bool := constantTimeEmailEqual (submitted r) (ac_AdminEmail h).

Definition callback_link (r : request) (token : string) : string :=
  baseURL r ++s "/admin/callback?token=" ++s QueryEscape token.

(** What a matching email sets off. *)
Definition enqueue_link (r : request) : M unit :=
  token ← Repo.GenerateToken;
  _ ← Middleware.pending_Put (ac_PendingTTL h) (Repo.HashToken token);
  match ac_SendLink h with
  | Some m => ignore (SendMagicLink m (submitted r) (callback_link r token))
  | None => mret tt
  end.

Definition LoginSubmit : handler := fun _ r =>
  if negb Enabled then mret not_found
  else
    ok ← Middleware.allow ("admin-login:" ++s client_ip r) adminLoginRatePerIP adminLoginRateWindow;
    if negb ok then mret (http_error "rate_limited" 429)
    else if negb (r_form_ok r) then mret (http_error "invalid_request" 400)
    else
      _ ← (if matched r then enqueue_link r else mret tt);
      mret (login_page true EmptyString).

Definition Callback : handler := fun _ r =>
  if negb Enabled then mret not_found
  else
    let token := query_get r "token" in
    ok ← Middleware.pending_Consume (Repo.HashToken token);
    if negb ok then mret (redirect "/admin/login?error=1")
    else
      sess ← try_ (Middleware.sessions_NewToken (ac_SessionTTL h));
      match sess with
      | inl _ => mret (http_error "internal" 500)
      | inr s => mret (Middleware.SetAdminCookie s adminSessionTTL (r_tls r) (redirect "/admin"))
      end.

Definition Logout : handler := fun _ r =>
  _ ← Middleware.sessions_Revoke (Middleware.AdminCookieValue r);
  mret (Middleware.ClearAdminCookie (redirect "/admin/login")).

Definition utc_text (t : option Z) : string :=
  match t with Some s => minute_text 0 s ++s " UTC" | None => EmptyString end.

Definition peer_row (p : fed_instance) : json :=
  JObj [("ID", JStr (f_id p)); ("Name", JStr (f_name p)); ("EndpointURL", JStr (f_endpoint p));
        ("IsActive", JBool (f_active p)); ("LastSeenAt", JStr (utc_text (f_seen p)));
        ("RevokedAt", JStr (utc_text (f_revoked p)))].

Definition Panel : handler := fun _ r =>
  peers ← try_ FedRepo.ListFederatedInstances;
  match peers with
  | inl _ => mret (http_error "internal" 500)
  | inr ps =>
      mret (html "admin_panel.html"
        (jmap [("Peers", JArr (peer_row <$> ps)); ("HasPeers", JBool (0 <? Z.of_nat (length ps)));
               ("BaseURL", JStr (baseURL r))]))
  end.

Definition logAction (target action : string) : M unit :=
  ignore (id ← Repo.NewID; now ← unix_now; db_exec (InsertAudit id None action target now)).

Definition peer_id_ok (id : string) : bool := negb (is_empty id) && has_prefix id "fed_".

Definition ApprovePeer : handler := fun _ r =>
  let id := url_param r "id" in
  if negb (peer_id_ok id) then mret (http_error "bad_request" 400)
  else
    done_ ← try_ (FedRepo.ApproveFederatedInstance id);
    match done_ with
    | inl _ => mret (http_error "internal" 500)
    | inr _ => _ ← logAction id "fed_approved"; mret (redirect "/admin")
    end.

Definition RevokePeer : handler := fun _ r =>
  let id := url_param r "id" in
  if negb (peer_id_ok id) then mret (http_error "bad_request" 400)
  else
    done_ ← try_ (FedRepo.RevokeFederatedInstance id);
    match done_ with
    | inl e => mret (if bool_decide (e = ErrNoRows) then not_found else http_error "internal" 500)
    | inr _ => _ ← logAction id "fed_revoked"; mret (redirect "/admin")
    end.

(** ** Pool discipline *)

Lemma good_logAction t a : good (logAction t a).
Proof. unfold logAction. solve_good. Qed.
#[local] Hint Resolve good_logAction : good.

Lemma good_admin_handlers :
  Middleware.good_handler LoginForm * Middleware.good_handler LoginSubmit *
  Middleware.good_handler Callback * Middleware.good_handler Logout *
  Middleware.good_handler Panel * Middleware.good_handler ApprovePeer *
  Middleware.good_handler RevokePeer.
Proof.
  repeat split; intros c r.
  - unfold LoginForm. solve_good.
  - unfold LoginSubmit, enqueue_link. solve_good.
  - unfold Callback. solve_good.
  - unfold Logout. solve_good.
  - unfold Panel. solve_good.
  - unfold ApprovePeer. solve_good.
  - unfold RevokePeer. solve_good.
Qed.

End AdminHandler.
End AdminHandler.
