(* ===== verification/AdminFacts.v ===== *)
(** * What the admin login guarantees

    The login form answers the same whether or not the email is the admin's, what it mails
    and where the mailed link points, and that every admin session was paid for with a link
    of its own. *)

From S2P Require Import Prelude RateLimit AdminStore Schema Statements Invariants World.
From S2P Require Import GoStrings GoJson GoTime Runs Samples Repo RepoFacts Auth AuthFacts Http.
From S2P Require Import Middleware AuthHandlers FedRepo AdminHandlers.

Open Scope Z_scope.

Section Admin.
Context `{Env, Engine, Unicode}.
Context (h : AdminConfig).

(** ** One login *)

(** What the form does with the request, after the limiter. *)
Definition limited (r : request) (w : world) : bool * world :=
  let d := RateLimit.Allow ("admin-login:" ++s client_ip r) adminLoginRatePerIP adminLoginRateWindow
             (clock (w_tick w)) (w_limiter w) in
  (d.1, set_limiter d.2 (tick w)).

Lemma allow_run r w :
  Middleware.allow ("admin-login:" ++s client_ip r) adminLoginRatePerIP adminLoginRateWindow w
  = (Ok (limited r w).1, (limited r w).2).
Proof. done. Qed.

Lemma SendMagicLink_links m e l w : w_links (SendMagicLink m e l w).2 = w_links w /\ w_db (SendMagicLink m e l w).2 = w_db w.
Proof.
  destruct m as [|s|rm|pm]; simpl; [done| | |].
  - unfold send_mail. by destruct (mail_fails _ _).
  - unfold post_mail, mbind, M_bind, http_send. destruct (http_answer _ _) as [?|[st b]]; simpl; [done|]. by destruct (_ || _).
  - unfold post_mail, mbind, M_bind, http_send. destruct (http_answer _ _) as [?|[st b]]; simpl; [done|]. by destruct (_ || _).
Qed.

Lemma ignore_world {A} (m : M A) w : (ignore m w).2 = (m w).2.
Proof. unfold ignore, try_, mbind, M_bind. by destruct (m w) as [[a|e|p|] w']. Qed.

(** The world after a link was put under the token and mailed. *)
Definition linked (r : request) (w : world) (b : string) : world :=
  let token := Hex.encode b in
  let now := clock (S (w_tick w)) in
  let w1 := set_links (AdminStore.Put (Repo.HashToken token) (ac_PendingTTL h) now (w_links w)) (tick (tick w)) in
  match ac_SendLink h with
  | Some m => (SendMagicLink m (AdminHandler.submitted r) (AdminHandler.callback_link r token) w1).2
  | None => w1
  end.

Lemma enqueue_run r w :
  (AdminHandler.enqueue_link h r w).2 =
  match entropy (w_tick w) 32 with Some b => linked r w b | None => tick w end.
Proof.
  unfold AdminHandler.enqueue_link, Repo.GenerateToken, Repo.must_rand, linked.
  unfold rand_read, next_tick, try_, mbind, M_bind. simpl. destruct (entropy (w_tick w) 32) as [b|]; simpl; [|done].
  destruct (ac_SendLink h) as [m|]; simpl; [by rewrite ignore_world|done].
Qed.

(** C29: the login form, exactly.  Whatever email is submitted, an admitted well-formed request
    is answered with the same page.  For any other email than the admin's nothing else
    happens; for the admin's, one fresh link is put and one mail is sent to the submitted
    address, whose link is built from the scheme and host the request names. *)
Theorem login_submit_exact (c : ctx) r w resp w' :
  AdminHandler.Enabled h = true -> AdminHandler.LoginSubmit h c r w = (Ok resp, w') ->
  let '(admitted, w1) := limited r w in
  if negb admitted then resp = http_error "rate_limited" 429 /\ w' = w1
  else if negb (r_form_ok r) then resp = http_error "invalid_request" 400 /\ w' = w1
  else resp = AdminHandler.login_page true EmptyString /\
       if AdminHandler.matched h r
       then exists b, entropy (w_tick w1) 32 = Some b /\ w' = linked r w1 b
       else w' = w1.
Proof.
  intros He E. destruct (limited r w) as [ok w1] eqn:El. unfold AdminHandler.LoginSubmit in E. rewrite He in E. change (negb true) with false in E. cbv beta iota zeta in E.
  erewrite run_bind in E by exact (allow_run r w). rewrite El in E. cbn [fst snd] in E. cbv beta in E.
  destruct (negb ok); [by apply ret_ok in E|]. destruct (negb (r_form_ok r)); [by apply ret_ok in E|].
  apply bind_ok in E as (u & w2 & E & [-> ->]%ret_ok). split; [done|].
  destruct (AdminHandler.matched h r); [|by apply ret_ok in E as [_ ->]].
  pose proof (enqueue_run r w1) as Hr. rewrite E in Hr. simpl in Hr.
  destruct (entropy (w_tick w1) 32) as [b|] eqn:Eb; [eauto|]. exfalso.
  unfold AdminHandler.enqueue_link, Repo.GenerateToken, Repo.must_rand, rand_read, next_tick, try_, mbind, M_bind in E.
  simpl in E. by rewrite Eb in E.
Qed.

(** ** Sessions and links *)

(** Responses that set an admin session. *)
Definition mints (o : outcome response) : nat :=
  match o with
  | Ok resp => length (filter (fun ck => ck_name ck = "hb_admin" /\ ck_value ck <> EmptyString) (rs_cookies resp))
  | _ => 0
  end.

(** A step of the server as the link store sees it: how many sessions it minted and how many
    logins named the admin.  Nothing but the two handlers and the reaper touches the links. *)
Inductive admin_step (w : world) : nat -> nat -> world -> Prop :=
| step_login c r o w' : AdminHandler.LoginSubmit h c r w = (o, w') ->
    admin_step w (mints o) (if AdminHandler.matched h r then 1 else 0) w'
| step_callback c r o w' : AdminHandler.Callback h c r w = (o, w') -> admin_step w (mints o) 0 w'
| step_reap now : admin_step w 0 0 (set_links (AdminStore.reap now (w_links w)) w)
| step_other w' : w_links w' = w_links w -> admin_step w 0 0 w'.

Inductive admin_trace (w : world) : nat -> nat -> world -> Prop :=
| trace_nil : admin_trace w 0 0 w
| trace_cons m k w1 m' k' w2 : admin_step w m k w1 -> admin_trace w1 m' k' w2 -> admin_trace w (m + m') (k + k') w2.

Lemma login_step c r w o w' :
  AdminHandler.LoginSubmit h c r w = (o, w') ->
  mints o = 0%nat /\ (size (w_links w') <= (if AdminHandler.matched h r then 1 else 0) + size (w_links w))%nat.
Proof.
  unfold AdminHandler.LoginSubmit. destruct (negb (AdminHandler.Enabled h)); [by intros [= <- <-]; split; [|lia]|].
  erewrite run_bind by exact (allow_run r w). set (w1 := (limited r w).2). assert (w_links w1 = w_links w) as <- by done.
  clearbody w1. destruct (negb _); [by intros [= <- <-]; split; [|lia]|]. destruct (negb _); [by intros [= <- <-]; split; [|lia]|].
  destruct (AdminHandler.matched h r); [|by intros [= <- <-]; split; [|lia]].
  pose proof (enqueue_run r w1) as Hr. unfold mbind, M_bind.
  assert (size (w_links (AdminHandler.enqueue_link h r w1).2) <= 1 + size (w_links w1))%nat as Hs.
  { rewrite Hr. destruct (entropy _ _) as [b|]; [|simpl; lia]. unfold linked, AdminStore.Put.
    destruct (ac_SendLink h) as [m|]; rewrite ?(proj1 (SendMagicLink_links _ _ _ _)); simpl;
      rewrite map_size_insert; case_match; unfold id; lia. }
  destruct (AdminHandler.enqueue_link h r w1) as [[u|e|p|] w2]; intros [= <- <-]; done.
Qed.

Lemma callback_step c r w o w' :
  AdminHandler.Callback h c r w = (o, w') -> (mints o + size (w_links w') <= size (w_links w))%nat.
Proof.
  unfold AdminHandler.Callback. destruct (negb _); [by intros [= <- <-]|]. set (hash := Repo.HashToken _).
  unfold Middleware.pending_Consume. destruct (is_empty hash); [by intros [= <- <-]|].
  unfold time_now, next_tick, on_links, mbind, M_bind. simpl.
  destruct (AdminStore.Consume hash (clock (w_tick w)) (w_links w)) as [ok links] eqn:Ec.
  assert ((if ok then 1 else 0) + size links <= size (w_links w))%nat as Hs.
  { unfold AdminStore.Consume in Ec. destruct (is_empty hash); [by injection Ec as <- <-|].
    destruct (w_links w !! hash) as [e|] eqn:El; injection Ec as <- <-; [|done].
    rewrite map_size_delete_Some by eauto. assert (size (w_links w) <> 0)%nat as Hn.
    { intros Hz%map_size_empty_inv. by rewrite Hz in El. }
    destruct (negb _); lia. }
  destruct ok; simpl; [|by intros [= <- <-]].
  unfold Middleware.sessions_NewToken, rand_read, next_tick, time_now, on_sessions, try_, mbind, M_bind. simpl.
  destruct (entropy _ 32) as [b|]; simpl; intros [= <- <-]; simpl; [|lia].
  rewrite filter_cons. case_decide; simpl; lia.
Qed.

(** C28: every admin session was paid for with a link, and every link with a login as the
    admin: along any interleaving of logins, callbacks, reaper passes and other work, the
    sessions minted are at most the logins that named the admin's email plus the links that
    were pending at the start. *)
Theorem admin_sessions_need_links w minted logins w' :
  admin_trace w minted logins w' -> (minted + size (w_links w') <= logins + size (w_links w))%nat.
Proof.
  induction 1 as [w|w m k w1 m' k' w2 Hs _ IH]; [done|].
  enough (m + size (w_links w1) <= k + size (w_links w))%nat by lia. destruct Hs as [c r o w1 E|c r o w1 E|now|w1 ->].
  - apply login_step in E as [-> ?]. lia.
  - apply callback_step in E. lia.
  - simpl. assert (size (AdminStore.reap now (w_links w)) <= size (w_links w))%nat; [|lia].
    apply map_subseteq_size, map_filter_subseteq.
  - lia.
Qed.

End Admin.

(** ** A concrete login *)

#[local] Existing Instance sample_env.
#[local] Existing Instance sample_engine.
#[local] Existing Instance ascii_unicode.

Definition sample_admin : AdminConfig :=
  mkAdmin "Ops@Example.com" (15 * minute) (2 * hour) (Some (SMTP (mkSMTP "mail.example" 587 "u" "p" "hb@example.com"))).

(** A login that names the admin from a client that names its own host. *)
Definition login_request : request :=
  Req "POST" "/admin/login" "evil.example" "203.0.113.9:5555" false [] [] [] [("email", " ops@example.com ")] true [] EmptyString.

Definition logged_in : outcome response * world := AdminHandler.LoginSubmit sample_admin empty_ctx login_request start_world.

Lemma login_submit_exact_witness :
  exists b, w_mail logged_in.2 = [("ops@example.com",
    smtp_message "hb@example.com" "ops@example.com" ("http://evil.example/admin/callback?token=" ++s Hex.encode b))].
Proof.
  assert (E : AdminHandler.LoginSubmit sample_admin empty_ctx login_request start_world
              = (Ok (AdminHandler.login_page true EmptyString), logged_in.2)) by (vm_compute; reflexivity).
  pose proof (login_submit_exact sample_admin empty_ctx login_request start_world _ _ eq_refl E) as Hx.
  vm_compute limited in Hx. cbv iota in Hx. destruct Hx as [_ Hx].
  assert (AdminHandler.matched sample_admin login_request = true) as Hm by (vm_compute; reflexivity).
  rewrite Hm in Hx. destruct Hx as (b & Hb & Hw). exists b. rewrite Hw.
  vm_compute in Hb. injection Hb as <-. vm_compute. reflexivity.
Defined.

Lemma admin_sessions_need_links_witness :
  (0 + size (w_links logged_in.2) <= 1 + size (w_links start_world))%nat.
Proof.
  apply (admin_sessions_need_links sample_admin start_world 0 1 logged_in.2).
  apply (trace_cons sample_admin start_world 0 1 logged_in.2 0 0 logged_in.2); [|apply trace_nil].
  assert (Hm : AdminHandler.matched sample_admin login_request = true) by (vm_compute; reflexivity).
  pose proof (step_login sample_admin start_world empty_ctx login_request logged_in.1 logged_in.2) as Hs.
  rewrite Hm in Hs. apply Hs. apply surjective_pairing.
Defined.

(** Approving a peer that does not exist is answered and audited as an approval. *)
Example approve_of_nobody_is_audited :
  a_action <$> audit_log (w_db (after (AdminHandler.ApprovePeer empty_ctx
    (Req "POST" "/admin/peers/fed_none/approve" "hb" "10.0.0.7:1" true [] [] [] [] true [("id", "fed_none")] EmptyString)) start_world))
  = ["fed_approved"].
Proof. vm_compute. reflexivity. Qed.
