(* ===== verification/Outbox.v ===== *)
(** * The introduction outbox (src/internal/outbox/outbox.go)

    The worker that drains [introduction_requests]: it resolves the candidate's delivery
    node, signs the payload with that node's secret and posts it, then records the outcome.
    Cancellation of the worker's context is [cancelled], by effect number; whether a URL
    parses (net/url) is the parameter [Urls]. *)

From S2P Require Import Prelude RateLimit AdminStore Schema Statements Invariants World.
From S2P Require Import GoStrings GoJson GoTime Sha256 Float Runs Samples Repo RepoFacts.

Open Scope Z_scope.

(** [http.NewRequest] accepts the URL. *)
Class Urls := { url_ok : string -> bool }.

Module Outbox.

Definition SignatureHeader : string := "X-HireBridge-Signature".

Definition DefaultBackoffs : list Z := [1 * minute; 5 * minute; 30 * minute].

Record Config := mkConfig {
  PollInterval : Z;
  Backoffs : list Z;
  MaxAttempts : Z;
  HTTPTimeout : Z;
  BatchSize : Z }.

(** The defaults [NewWorker] puts in place of zero values. *)
Definition NewWorker (cfg : Config) : Config :=
  mkConfig
    (if PollInterval cfg <=? 0 then 30 * second else PollInterval cfg)
    (match Backoffs cfg with [] => DefaultBackoffs | l => l end)
    (if MaxAttempts cfg <=? 0 then 5 else MaxAttempts cfg)
    (if HTTPTimeout cfg <=? 0 then 10 * second else HTTPTimeout cfg)
    (if BatchSize cfg <=? 0 then 32 else BatchSize cfg).

(** The worker main.go runs: [outbox.NewWorker(db, logger, outbox.Config{})]. *)
Definition production : Config := NewWorker (mkConfig 0 [] 0 0 0).

Definition recruiter_identity (r : intro) : json :=
  jmap ([("name", JStr (i_name r)); ("email", JStr (i_email r))]
        ++ match i_company r with Some c => [("company", JStr c)] | None => [] end).

Definition buildPayload (r : intro) : string :=
  encode (jmap [("request_id", JStr (i_id r)); ("candidate_id", JStr (i_cand r));
                ("recruiter_identity", recruiter_identity r); ("ts", JStr (rfc3339 (i_created r)))]).

Definition SignIntro (secret body : string) : string := Hex.encode (Sha256.hmac secret body).

Definition inbox_url (t : Repo.DeliveryTarget) : string := Repo.dt_EndpointURL t ++s "/api/inbox".

Definition delivery_request (t : Repo.DeliveryTarget) (body : string) : http_request :=
  HttpRequest "POST" (inbox_url t)
    [("Content-Type", "application/json"); (SignatureHeader, SignIntro (Repo.dt_IntroSecret t) body)] body.

(** The delay after attempt number [attempt]; [None] is the panic of an empty schedule, or of
    an index below it. *)
Definition backoff (cfg : Config) (attempt : Z) : option Z :=
  delay ← last (Backoffs cfg);
  let i := attempt - 1 in
  if i <? Z.of_nat (length (Backoffs cfg))
  then if i <? 0 then None else Backoffs cfg !! Z.to_nat i
  else Some delay.

Definition no_target : string := "no active LivingCV node with endpoint_url and intro_secret".

(** An update that found no row is not an error to the worker. *)
Definition tolerate_missing (ctx : string) (m : M unit) : M unit :=
  r ← try_ m;
  match r with
  | inl e => if bool_decide (e = ErrNotFound) then mret tt else throw (ErrWrap ctx e)
  | inr _ => mret tt
  end.

Section Worker.
Context `{Env, Engine, Urls}.
Context (cfg : Config).

Definition scheduleOrFail (r : intro) (lastErr : string) : M unit :=
  let attemptNumber := i_attempts r + 1 in
  if MaxAttempts cfg <=? attemptNumber then ignore (Repo.MarkIntroFailed (i_id r) lastErr)
  else
    match backoff cfg attemptNumber with
    | None => panic "runtime error: index out of range"
    | Some delay =>
        now ← time_now;
        ignore (Repo.MarkIntroRetrying (i_id r) lastErr (unix (now + delay)))
    end.

Definition processOne (r : intro) : M unit :=
  target ← wrap "resolve target" (Repo.ResolveDeliveryTarget (i_node r));
  match target with
  | None => tolerate_missing "mark undeliverable" (Repo.MarkIntroUndeliverable (i_id r) no_target)
  | Some t =>
      let body := buildPayload r in
      if negb (url_ok (inbox_url t)) then throw (ErrWrap "new request" (ErrText "parse"))
      else
        resp ← http_send (delivery_request t body);
        match resp with
        | inl msg => scheduleOrFail r ("http error: " ++s msg)
        | inr (status, _) =>
            if (200 <=? status) && (status <? 300)
            then tolerate_missing "mark delivered" (Repo.MarkIntroDelivered (i_id r))
            else scheduleOrFail r ("non-2xx: " ++s itoa status)
        end
  end.

(** The loop over the loaded rows; it stops when the context is cancelled. *)
Fixpoint drain_rows (cancelled : nat -> bool) (rows : list intro) : M unit :=
  match rows with
  | [] => mret tt
  | r :: rows' =>
      stop ← peek cancelled;
      if stop : bool then mret tt else ignore (processOne r) ;; drain_rows cancelled rows'
  end.

Definition drain (cancelled : nat -> bool) : M unit :=
  now ← unix_now;
  rows ← try_ (Repo.PendingIntroductionRequests now (BatchSize cfg));
  match rows with
  | inl _ => mret tt
  | inr l => drain_rows cancelled l
  end.

Definition DrainOnce : (nat -> bool) -> M unit := drain.

(** [Wake] *)
Definition Wake : M unit := signal_wake.

(** What [Run]'s [select] may take next: the end of the context, a tick of the poll timer,
    or a pending wake-up, which is consumed. *)
Inductive run_event := RunDone | RunTick | RunWake.

Definition run_step (cancelled : nat -> bool) (ev : run_event) (w : world) : option world :=
  match ev with
  | RunDone => None
  | RunTick => Some (drain cancelled w).2
  | RunWake => if w_wake w then Some (drain cancelled (set_wake false w)).2 else None
  end.

Lemma good_scheduleOrFail r e : good (scheduleOrFail r e).
Proof. unfold scheduleOrFail. solve_good. Qed.
#[local] Hint Resolve good_scheduleOrFail : good.
Lemma good_tolerate_missing c m : good m -> good (tolerate_missing c m).
Proof. intros. unfold tolerate_missing. solve_good; done. Qed.
#[local] Hint Resolve good_tolerate_missing : good.
Lemma good_processOne r : good (processOne r).
Proof. unfold processOne. solve_good. Qed.
#[local] Hint Resolve good_processOne : good.

Lemma good_drain_rows c l : good (drain_rows c l).
Proof.
  induction l as [|r l IH]; simpl; [apply still_good, still_ret|]. solve_good; done.
Qed.
#[local] Hint Resolve good_drain_rows : good.
Lemma good_drain c : good (drain c).
Proof. unfold drain. solve_good. Qed.

End Worker.
End Outbox.

#[export] Hint Resolve Outbox.good_drain : good.
