(* ===== verification/OutboxFacts.v ===== *)
(** * What the outbox guarantees

    The exact effect of one attempt when no statement fails.  On every schedule of failures:
    what one attempt may post and make of its row ([attempt]); a drain as the list of its turns
    ([drain_log]), which is all it does.  Over the life of the worker ([life]: drains, and
    other goroutines between them): no request is posted more than MaxAttempts times, and one
    that keeps failing is given up at exactly that count. *)

From S2P Require Import Prelude RateLimit AdminStore Schema Statements Invariants World.
From S2P Require Import GoStrings GoJson GoTime Sha256 Float Runs Samples Repo RepoFacts Ingest.
From S2P Require Import IngestFacts Http Outbox.

Open Scope Z_scope.

Import Outbox.

(** ** The batch of a drain *)

Section Batch.
Context `{Env, Engine, Urls}.
Context (cfg : Config).

Lemma drain_rows_run cancelled r rows w :
  drain_rows cfg cancelled (r :: rows) w =
  if cancelled (w_tick w) then (Ok tt, w) else (ignore (processOne cfg r) ;; drain_rows cfg cancelled rows) w.
Proof. simpl. unfold mbind at 1, M_bind at 1, peek. by destruct (cancelled (w_tick w)). Qed.

Lemma pending_in now limit d i :
  i ∈ Repo.pending_intros now limit d -> i ∈ introduction_requests d /\ Repo.intro_due now i = true.
Proof.
  unfold Repo.pending_intros, sql_limit. intros Hi.
  assert (i ∈ merge_sort oldest_first (sel (Repo.intro_due now) (introduction_requests d))) as Hm.
  { destruct (limit <? 0); [done|]. rewrite <- (take_drop (Z.to_nat limit)). by apply elem_of_app; left. }
  rewrite (merge_sort_Permutation oldest_first) in Hm. by apply elem_of_sel in Hm as [? ?].
Qed.

Lemma pending_NoDup now limit d :
  NoDup (i_id <$> introduction_requests d) -> NoDup (i_id <$> Repo.pending_intros now limit d).
Proof.
  intros Hd. unfold Repo.pending_intros, sql_limit.
  assert (NoDup (i_id <$> merge_sort oldest_first (sel (Repo.intro_due now) (introduction_requests d)))) as Hm.
  { rewrite (merge_sort_Permutation oldest_first). by apply NoDup_fmap_filter. }
  destruct (limit <? 0); [done|]. rewrite fmap_take. eapply sublist_NoDup; [exact Hm|apply sublist_take].
Qed.

(** What a drain that begins in [w] loads, if its query succeeds. *)
Definition batch (w : world) : list intro :=
  Repo.pending_intros (unix (clock (w_tick w))) (BatchSize cfg) (w_db w).

End Batch.

(** ** The worker does not panic *)

Lemma backoff_some cfg n : Backoffs cfg <> [] -> 1 <= n -> exists d, backoff cfg n = Some d.
Proof.
  intros Hb Hn. unfold backoff. destruct (proj2 (last_is_Some (Backoffs cfg)) Hb) as [d ->]. cbn.
  destruct (n - 1 <? Z.of_nat (length (Backoffs cfg))) eqn:E; bool_prop; [|by exists d].
  destruct (Z.ltb_spec (n - 1) 0); [lia|]. apply lookup_lt_is_Some_2. lia.
Qed.

Section Calm.
Context `{Env, Engine, Urls}.
Context (cfg : Config) (Hb : Backoffs cfg <> []).

Lemma calm_scheduleOrFail r e : 0 <= i_attempts r -> calm (scheduleOrFail cfg r e).
Proof.
  intros Ha. unfold scheduleOrFail, Repo.MarkIntroFailed, Repo.MarkIntroRetrying, affecting.
  destruct (backoff_some cfg (i_attempts r + 1) Hb) as [d ->]; [lia|]. solve_frame.
Qed.

Lemma calm_processOne r : 0 <= i_attempts r -> calm (processOne cfg r).
Proof.
  intros Ha. pose proof (fun e => calm_scheduleOrFail r e Ha) as Hs.
  unfold processOne, Repo.ResolveDeliveryTarget, row_or_nil, tolerate_missing, Repo.MarkIntroUndeliverable, Repo.MarkIntroDelivered, affecting.
  solve_frame; apply Hs.
Qed.

Lemma calm_drain_rows cancelled rows :
  (forall r, r ∈ rows -> 0 <= i_attempts r) -> calm (drain_rows cfg cancelled rows).
Proof.
  induction rows as [|r rows IH]; intros Hr; [done|]. intros w p. rewrite drain_rows_run. destruct (cancelled _); [done|].
  revert w p. apply (calm_bind (ignore (processOne cfg r))).
  - apply calm_ignore, calm_processOne, Hr. left.
  - intros _. apply IH. intros r' Hr'. apply Hr. by right.
Qed.

Lemma attempts_nonneg d i : wf_intro d i -> 0 <= i_attempts i.
Proof. intros (_ & _ & Hl). unfold intro_lifecycle in Hl. destruct (i_status i); lia. Qed.

(** With the schedule [NewWorker] guarantees, a drain of an intact database never panics. *)
Lemma drain_calm cancelled w p : db_wf (w_db w) -> (drain cfg cancelled w).1 <> Panic p.
Proof.
  intros W. unfold drain, Repo.PendingIntroductionRequests, db_query, with_conn, sql_read, unix_now, time_now,
    next_tick, try_, mbind, M_bind. simpl.
  destruct (w_conn w); simpl; [|done]. destruct (sql_fails _); simpl; [done|]. apply calm_drain_rows.
  intros r [Hr _]%pending_in. eapply attempts_nonneg, (wf_intros_rows _ W), Hr.
Qed.

End Calm.

(** ** One attempt, exactly *)

Section Exact.
Context `{Env, Engine, Urls}.
Context (cfg : Config) (Hsql : forall k, sql_fails k = false).

(** The delivery target of a node as a function of the database. *)
Definition target_of (nodeID : string) (d : db) : option Repo.DeliveryTarget :=
  match n_user <$> Repo.node_by_id nodeID d with
  | Some (Some u) => if is_empty u then None else Repo.target_row <$> Repo.delivery_row u d
  | _ => None
  end.

Definition is_success (a : string + Z * string) : bool :=
  match a with inr (status, _) => (200 <=? status) && (status <? 300) | inl _ => false end.

Definition failure_text (a : string + Z * string) : string :=
  match a with inl msg => "http error: " ++s msg | inr (status, _) => "non-2xx: " ++s itoa status end.

(** The row of [r] after an attempt answered by [a], [now] being the time it is recorded. *)
Definition attempt_update (r : intro) (a : string + Z * string) (now : Z) : intro -> intro :=
  if is_success a then intro_delivered (unix now)
  else if MaxAttempts cfg <=? i_attempts r + 1 then intro_failed (failure_text a)
  else intro_retrying (failure_text a) (unix (now + default 0 (backoff cfg (i_attempts r + 1)))).

Lemma run_resolve nodeID w :
  w_conn w = true -> exists w1, Repo.ResolveDeliveryTarget nodeID w = (Ok (target_of nodeID (w_db w)), w1) /\
    w_db w1 = w_db w /\ w_conn w1 = true /\ w_sent w1 = w_sent w /\
    (target_of nodeID (w_db w) <> None -> w_tick w1 = S (S (w_tick w))).
Proof.
  intros Hc. unfold Repo.ResolveDeliveryTarget, mbind at 1, M_bind at 1, row_or_nil, target_of.
  rewrite run_row_or_nil by done. destruct (n_user <$> _) as [[u|]|]; [|by exists (tick w)..].
  destruct (is_empty u); [by exists (tick w)|]. unfold row_or_nil. rewrite run_row_or_nil by done.
  by exists (tick (tick w)).
Qed.

Lemma run_mark e s w d n :
  w_conn w = true -> exec_stmt s (w_db w) = Some (d, n) ->
  affecting e (db_exec s) w = ((if (n =? 0)%nat then Err e else Ok tt), set_db d (tick w)).
Proof.
  intros Hc Es. unfold affecting, mbind, M_bind. rewrite (run_exec Hsql _ _ _ _ Hc Es). by destruct (n =? 0)%nat.
Qed.

Lemma run_tolerate c m w o w' :
  m w = (o, w') -> (o = Ok tt \/ o = Err ErrNotFound) -> tolerate_missing c m w = (Ok tt, w').
Proof. intros E [->| ->]; unfold tolerate_missing, try_, mbind, M_bind; by rewrite E. Qed.

Lemma run_ignore {A} (m : M A) w o w' :
  m w = (o, w') -> (exists a, o = Ok a) \/ (exists e, o = Err e) -> ignore m w = (Ok tt, w').
Proof. intros E [[? ->]|[? ->]]; unfold ignore, try_, mbind, M_bind; by rewrite E. Qed.

Lemma run_schedule r e w :
  w_conn w = true -> Backoffs cfg <> [] -> 0 <= i_attempts r ->
  exists w', scheduleOrFail cfg r e w = (Ok tt, w') /\ w_conn w' = true /\ w_sent w' = w_sent w /\
    w_db w' = set_intros (upd (intro_is (i_id r) pending_status)
      (if MaxAttempts cfg <=? i_attempts r + 1 then intro_failed e
       else intro_retrying e (unix (clock (w_tick w) + default 0 (backoff cfg (i_attempts r + 1)))))) (w_db w).
Proof.
  intros Hc Hb Ha. unfold scheduleOrFail. destruct (MaxAttempts cfg <=? i_attempts r + 1).
  - eexists. split; [eapply run_ignore; [by apply run_mark|destruct (_ =? 0)%nat; eauto]|]. done.
  - destruct (backoff_some cfg (i_attempts r + 1) Hb) as [d Ed]; [lia|]. rewrite Ed. unfold time_now, next_tick, mbind at 1 2, M_bind at 1 2. simpl.
    eexists. split; [eapply run_ignore; [by apply run_mark|destruct (_ =? 0)%nat; eauto]|]. done.
Qed.

(** The exact effect of one attempt when no statement fails. *)
Lemma run_attempt r w t :
  w_conn w = true -> Backoffs cfg <> [] -> 0 <= i_attempts r ->
  target_of (i_node r) (w_db w) = Some t -> url_ok (inbox_url t) = true ->
  let rq := delivery_request t (buildPayload r) in
  let a := http_answer (S (S (w_tick w))) rq in
  exists w', processOne cfg r w = (Ok tt, w') /\ w_conn w' = true /\ w_sent w' = rq :: w_sent w /\
    w_db w' = set_intros (upd (intro_is (i_id r) pending_status)
                            (attempt_update r a (clock (S (S (S (w_tick w))))))) (w_db w).
Proof.
  intros Hc Hb Ha Ht Hu rq a. destruct (run_resolve (i_node r) w Hc) as (w1 & E1 & Ed & Hc1 & Hs1 & Hk).
  rewrite Ht in E1, Hk. specialize (Hk ltac:(done)).
  unfold processOne, wrap, try_, mbind, M_bind. rewrite E1. simpl. rewrite Hu. simpl.
  rewrite Hk. fold rq. fold a. unfold attempt_update.
  set (w2 := add_sent rq (set_tick _ w1)).
  assert (Hw2 : w_conn w2 = true /\ w_db w2 = w_db w /\ w_sent w2 = rq :: w_sent w /\ w_tick w2 = S (S (S (w_tick w)))).
  { by rewrite <- Ed, <- Hs1. }
  destruct Hw2 as (Hc2 & Hd2 & Hs2 & Hk2). rewrite <- Hd2, <- Hs2, <- Hk2.
  destruct a as [msg|[status b]]; simpl.
  - destruct (run_schedule r ("http error: " ++s msg) w2 Hc2 Hb Ha) as (w' & ? & ? & ? & ?). by exists w'.
  - destruct (_ && _); [|destruct (run_schedule r ("non-2xx: " ++s itoa status) w2 Hc2 Hb Ha) as (w' & ? & ? & ? & ?); by exists w'].
    eexists. split.
    + eapply run_tolerate; [unfold Repo.MarkIntroDelivered, unix_now, time_now, next_tick, mbind at 1 2 3, M_bind at 1 2 3; simpl; by apply run_mark|].
      destruct (_ =? 0)%nat; auto.
    + done.
Qed.

(** C6: one delivery attempt, exactly.  With a deliverable target and no failing statement the
    worker posts one request, to the target's inbox, whose body is the payload and whose
    signature header is the HMAC of those very bytes under the target's secret; a 2xx answer
    marks the request delivered, any other answer or a transport error schedules the retry of
    the backoff table, or marks it failed at attempt MaxAttempts; nothing else changes. *)
Theorem attempt_exact r w t :
  w_conn w = true -> Backoffs cfg <> [] -> 0 <= i_attempts r ->
  target_of (i_node r) (w_db w) = Some t -> url_ok (inbox_url t) = true ->
  let rq := delivery_request t (buildPayload r) in
  let a := http_answer (S (S (w_tick w))) rq in
  exists w', processOne cfg r w = (Ok tt, w') /\ w_conn w' = true /\ w_sent w' = rq :: w_sent w /\
    assoc SignatureHeader (rq_headers rq) = Some (Hex.encode (Sha256.hmac (Repo.dt_IntroSecret t) (rq_body rq))) /\
    w_db w' = set_intros (upd (intro_is (i_id r) pending_status)
                            (attempt_update r a (clock (S (S (S (w_tick w))))))) (w_db w).
Proof.
  intros Hc Hb Ha Ht Hu rq a. destruct (run_attempt r w t Hc Hb Ha Ht Hu) as (w' & ? & ? & ? & ?).
  exists w'. split_and!; try done.
Qed.

Lemma intro_by_id_key d r :
  NoDup (i_id <$> introduction_requests d) -> r ∈ introduction_requests d ->
  Repo.intro_by_id (i_id r) d = Some r.
Proof. intros Hd Hr. by apply (head_sel_key i_id). Qed.

Lemma target_of_intros n f d : target_of n (set_intros f d) = target_of n d.
Proof. done. Qed.

End Exact.

(** ** One attempt, whatever fails *)

(** The row [r] replaced. *)
Definition set_row (r r' : intro) (d : db) : db :=
  set_intros (upd (fun i => str_eqb (i_id i) (i_id r)) (fun _ => r')) d.

(** Requests sent, the last one first in [w_sent]. *)
Definition posted (ps : list http_request) (w : world) : world := foldl (fun w rq => add_sent rq w) w ps.

Lemma set_intros_same f d : f (introduction_requests d) = introduction_requests d -> set_intros f d = d.
Proof. destruct d. unfold set_intros. simpl. by intros ->. Qed.

Lemma upd_row {A} (key : A -> string) (p : A -> bool) f t r :
  NoDup (key <$> t) -> r ∈ t -> p r = true -> (forall x, p x = true -> key x = key r) ->
  upd p f t = upd (fun x => str_eqb (key x) (key r)) (fun _ => f r) t.
Proof.
  intros Hd Hr Hp Hk. apply list_fmap_ext. intros j x Hx. apply list_elem_of_lookup_2 in Hx.
  destruct (str_eqb (key x) (key r)) eqn:E.
  - bool_prop. assert (x = r) as -> by (by apply (NoDup_fmap_inj_on key t)). by rewrite Hp.
  - destruct (p x) eqn:Epx; [|done]. apply str_eqb_false in E. by apply Hk in Epx.
Qed.

Section Attempts.
Context `{Env, Engine, Urls}.
Context (cfg : Config).

(** What an attempt on [r] may post and make of [r], in a database [d]: nothing, when a
    statement fails or the endpoint is no URL; the mark of a request nobody can take; one
    post that is not recorded, when a statement fails; or one post recorded for its answer. *)
Inductive attempt (d : db) (r : intro) : list http_request -> intro -> Prop :=
| att_none :
    (exists k, sql_fails k = true) \/ (exists t, target_of (i_node r) d = Some t /\ url_ok (inbox_url t) = false) ->
    attempt d r [] r
| att_nobody : target_of (i_node r) d = None -> attempt d r [] (intro_undeliverable no_target r)
| att_lost t :
    target_of (i_node r) d = Some t -> url_ok (inbox_url t) = true -> (exists k, sql_fails k = true) ->
    attempt d r [delivery_request t (buildPayload r)] r
| att_made t k now :
    target_of (i_node r) d = Some t -> url_ok (inbox_url t) = true ->
    attempt d r [delivery_request t (buildPayload r)]
      (attempt_update cfg r (http_answer k (delivery_request t (buildPayload r))) now r).

(** [m] ends in [w'], with a value or an error. *)
Definition ends_in {A} (m : M A) (w w' : world) : Prop :=
  exists o, m w = (o, w') /\ ((exists a, o = Ok a) \/ (exists e, o = Err e)).

Lemma ends_ok {A} (m : M A) a w w' : m w = (Ok a, w') -> ends_in m w w'.
Proof. intros E. exists (Ok a). eauto. Qed.
Lemma ends_err {A} (m : M A) e w w' : m w = (Err e, w') -> ends_in m w w'.
Proof. intros E. exists (Err e). eauto. Qed.
Lemma ends_bind {A B} (m : M A) (f : A -> M B) w a w1 w' : m w = (Ok a, w1) -> ends_in (f a) w1 w' -> ends_in (m ≫= f) w w'.
Proof. intros E (o & Ef & Ho). exists o. by rewrite (run_bind _ _ _ _ _ E). Qed.
Lemma ends_bind_err {A B} (m : M A) (f : A -> M B) w e w1 : m w = (Err e, w1) -> ends_in (m ≫= f) w w1.
Proof. intros E. apply (ends_err _ e). unfold mbind, M_bind. by rewrite E. Qed.
Lemma ends_ignore {A} (m : M A) w w' : ends_in m w w' -> ignore m w = (Ok tt, w').
Proof. intros (o & E & Ho). by eapply run_ignore. Qed.
Lemma ends_tolerate c m w w' : ends_in m w w' -> ends_in (tolerate_missing c m) w w'.
Proof.
  intros (o & E & [[a ->]|[e ->]]); unfold tolerate_missing.
  - eapply ends_bind; [by apply run_try|by eapply ends_ok].
  - eapply ends_bind; [by apply run_try_err|]. simpl. case_bool_decide; [by eapply ends_ok|by eapply ends_err].
Qed.

Lemma resolve_any n w : w_conn w = true -> exists k,
  Repo.ResolveDeliveryTarget n w = (Ok (target_of n (w_db w)), set_tick k w) \/
  (exists j, sql_fails j = true) /\ exists e, Repo.ResolveDeliveryTarget n w = (Err e, set_tick k w).
Proof.
  intros Hc. unfold Repo.ResolveDeliveryTarget, row_or_nil, db_query_row, with_conn, sql_read, scan_row, try_, mbind, M_bind.
  simpl. rewrite Hc. simpl. destruct w as [d cn tk lm ss lk wk ml sn]. simpl in *. subst cn. unfold target_of.
  destruct (sql_fails tk) eqn:E1; simpl; [exists (S tk); right; split; [by exists tk|]; by eexists|].
  destruct (n_user <$> Repo.node_by_id n d) as [[u|]|]; simpl; [|by exists (S tk); left..].
  destruct (is_empty u); [by exists (S tk); left|]. simpl.
  destruct (sql_fails (S tk)) eqn:E2; simpl; [exists (S (S tk)); right; split; [by exists (S tk)|]; by eexists|].
  exists (S (S tk)). left. by destruct (Repo.delivery_row u d).
Qed.

Section Row.
Context (r : intro) (w : world).
Context (Hc : w_conn w = true) (Hd : NoDup (i_id <$> introduction_requests (w_db w))).
Context (Hr : r ∈ introduction_requests (w_db w)) (Hp : pending_status (i_status r) = true).

Lemma set_row_same : set_row r r (w_db w) = w_db w.
Proof.
  unfold set_row. apply set_intros_same.
  rewrite <- (upd_row i_id (fun i => str_eqb (i_id i) (i_id r)) id _ r); [|done|done|by apply str_eqb_refl|intros x ?; by bool_prop].
  unfold upd. etrans; [|apply list_fmap_id]. apply list_fmap_ext. intros. by case_match.
Qed.

(** One recording statement: it is done, or it failed and changed nothing. *)
Lemma mark_row e s from f :
  exec_stmt s (w_db w) = updating introduction_requests set_intros (intro_is (i_id r) from) f (w_db w) ->
  from (i_status r) = true -> forall k0, exists k, ends_in (affecting e (db_exec s)) (set_tick k0 w) (set_tick k (set_db (set_row r (f r) (w_db w)) w)) \/
    (exists j, sql_fails j = true) /\ ends_in (affecting e (db_exec s)) (set_tick k0 w) (set_tick k w).
Proof.
  intros Es Hf k0. exists (S k0). unfold affecting. destruct (sql_fails k0) eqn:E.
  - right. split; [by exists k0|]. eapply (ends_bind_err _ _ _ ErrIO). unfold db_exec, with_conn, sql_stmt. simpl. rewrite Hc. simpl. rewrite E.
    simpl. f_equal. destruct w. simpl in *. by subst.
  - left. assert (db_exec s (set_tick k0 w) = (Ok (length (sel (intro_is (i_id r) from) (introduction_requests (w_db w)))),
      set_tick (S k0) (set_db (set_row r (f r) (w_db w)) w))) as Ee.
    { unfold db_exec, with_conn, sql_stmt. simpl. rewrite Hc. simpl. rewrite E, Es. unfold updating, set_row.
      replace (set_intros (upd (intro_is (i_id r) from) f) (w_db w))
        with (set_intros (upd (fun i => str_eqb (i_id i) (i_id r)) (fun _ => f r)) (w_db w)).
      - simpl. f_equal. destruct w. simpl in *. by subst.
      - unfold set_intros. f_equal. symmetry. apply upd_row; [done|done| |].
        + unfold intro_is. by rewrite str_eqb_refl, Hf.
        + unfold intro_is. intros x ?. by bool_prop. }
    eapply ends_bind; [exact Ee|]. destruct (_ =? 0)%nat; [by eapply ends_err|by eapply ends_ok].
Qed.

End Row.

(** *** The attempt of a due request *)

(** What is done about an answer. *)
Definition record_answer (r : intro) (a : string + Z * string) : M unit :=
  if is_success a then tolerate_missing "mark delivered" (Repo.MarkIntroDelivered (i_id r))
  else scheduleOrFail cfg r (failure_text a).

Lemma resolved {A} c (m : M A) a w w0 : m w = (Ok a, w0) -> wrap c m w = (Ok a, w0).
Proof. intros E. unfold wrap. by erewrite run_bind by (apply run_try; exact E). Qed.

Lemma process_error r e w w0 : Repo.ResolveDeliveryTarget (i_node r) w = (Err e, w0) -> ends_in (processOne cfg r) w w0.
Proof.
  intros E. unfold processOne. eapply ends_bind_err. unfold wrap. by erewrite run_bind by (apply run_try_err; exact E).
Qed.

Lemma process_none r w w0 w' : Repo.ResolveDeliveryTarget (i_node r) w = (Ok None, w0) ->
  ends_in (Repo.MarkIntroUndeliverable (i_id r) no_target) w0 w' -> ends_in (processOne cfg r) w w'.
Proof.
  intros E Hm. unfold processOne. eapply ends_bind; [exact (resolved _ _ _ _ _ E)|by apply ends_tolerate].
Qed.

Lemma process_bad r t w w0 : Repo.ResolveDeliveryTarget (i_node r) w = (Ok (Some t), w0) ->
  url_ok (inbox_url t) = false -> ends_in (processOne cfg r) w w0.
Proof.
  intros E Hu. unfold processOne. eapply ends_bind; [exact (resolved _ _ _ _ _ E)|].
  simpl. rewrite Hu. by eapply ends_err.
Qed.

Lemma process_post r t w w0 w' : Repo.ResolveDeliveryTarget (i_node r) w = (Ok (Some t), w0) ->
  url_ok (inbox_url t) = true -> let rq := delivery_request t (buildPayload r) in
  ends_in (record_answer r (http_answer (w_tick w0) rq)) (add_sent rq (tick w0)) w' -> ends_in (processOne cfg r) w w'.
Proof.
  intros E Hu rq Hm. unfold processOne. eapply ends_bind; [exact (resolved _ _ _ _ _ E)|].
  simpl. rewrite Hu. simpl. eapply ends_bind; [reflexivity|]. revert Hm. unfold record_answer.
  by destruct (http_answer _ _) as [msg|[status b]].
Qed.

(** Recorded, or not because a statement failed. *)
Lemma record_any r a w k0 :
  w_conn w = true -> Backoffs cfg <> [] -> 0 <= i_attempts r ->
  NoDup (i_id <$> introduction_requests (w_db w)) -> r ∈ introduction_requests (w_db w) -> pending_status (i_status r) = true ->
  exists k, (exists now, ends_in (record_answer r a) (set_tick k0 w) (set_tick k (set_db (set_row r (attempt_update cfg r a now r) (w_db w)) w))) \/
    (exists j, sql_fails j = true) /\ ends_in (record_answer r a) (set_tick k0 w) (set_tick k w).
Proof.
  intros Hc Hb Ha Hd Hr Hp. unfold record_answer, attempt_update.
  assert (forall s f k1, exec_stmt s (w_db w) = updating introduction_requests set_intros (intro_is (i_id r) pending_status) f (w_db w) -> _) as Hmark
    by exact (fun s f k1 Es => mark_row r w Hc Hd Hr ErrNotFound s pending_status f Es Hp k1).
  destruct (is_success a).
  - destruct (Hmark (IntroDelivered (unix (clock k0)) (i_id r)) _ (S k0) eq_refl) as (k & [Em|[Hf Em]]); exists k; [left; exists (clock k0)|right; split; [done|]].
    all: apply ends_tolerate; eapply ends_bind; [reflexivity|exact Em].
  - unfold scheduleOrFail. destruct (MaxAttempts cfg <=? i_attempts r + 1).
    + destruct (Hmark (IntroFailed (failure_text a) (i_id r)) _ k0 eq_refl) as (k & [Em|[Hf Em]]); exists k; [left; exists 0|right; split; [done|]].
      all: eapply ends_ok, ends_ignore; exact Em.
    + destruct (backoff_some cfg (i_attempts r + 1) Hb) as [dl ->]; [lia|].
      destruct (Hmark (IntroRetrying (failure_text a) (unix (clock k0 + dl)) (i_id r)) _ (S k0) eq_refl) as (k & [Em|[Hf Em]]);
        exists k; [left; exists (clock k0)|right; split; [done|]].
      all: eapply ends_bind; [reflexivity|]; eapply ends_ok, ends_ignore; exact Em.
Qed.

Lemma attempt_any r w :
  w_conn w = true -> Backoffs cfg <> [] -> 0 <= i_attempts r ->
  NoDup (i_id <$> introduction_requests (w_db w)) -> r ∈ introduction_requests (w_db w) ->
  pending_status (i_status r) = true ->
  exists ps r' k, ignore (processOne cfg r) w = (Ok tt, set_tick k (set_db (set_row r r' (w_db w)) (posted ps w))) /\
    attempt (w_db w) r ps r'.
Proof.
  intros Hc Hb Ha Hd Hr Hp. pose proof (set_row_same r w Hd Hr) as Hs.
  assert (forall k, set_tick k w = set_tick k (set_db (set_row r r (w_db w)) w)) as Hsame
    by (intros k; rewrite Hs; by destruct w).
  destruct (resolve_any (i_node r) w Hc) as (k0 & [E|(Hf & e & E)]).
  2: { exists [], r, k0. split; [|by apply att_none; left]. apply ends_ignore. rewrite <- Hsame. by eapply process_error. }
  destruct (target_of (i_node r) (w_db w)) as [t|] eqn:Et.
  2: { destruct (mark_row r w Hc Hd Hr ErrNotFound (IntroUndeliverable no_target (i_id r)) undeliverable_from (intro_undeliverable no_target) eq_refl
         ltac:(by destruct (i_status r)) k0) as (k & [Em|[Hf Em]]).
       - exists [], (intro_undeliverable no_target r), k. split; [|by apply att_nobody]. by eapply ends_ignore, process_none.
       - exists [], r, k. split; [|by apply att_none; left]. rewrite <- Hsame. by eapply ends_ignore, process_none. }
  destruct (url_ok (inbox_url t)) eqn:Eu.
  2: { exists [], r, k0. split; [|by apply att_none; right; exists t]. rewrite <- Hsame. by eapply ends_ignore, process_bad. }
  set (rq := delivery_request t (buildPayload r)). set (a := http_answer k0 rq).
  destruct (record_any r a (add_sent rq w) (S k0)) as (k & [[now Em]|[Hf Em]]); try done.
  - exists [rq], (attempt_update cfg r a now r), k. split; [|by apply att_made]. by eapply ends_ignore, process_post.
  - exists [rq], r, k. split; [|by apply att_lost]. change (posted [rq] w) with (add_sent rq w).
    replace (set_db _ (add_sent rq w)) with (add_sent rq w) by (rewrite Hs; by destruct w). by eapply ends_ignore, process_post.
Qed.

(** ** A drain, whatever fails *)

(** One turn of the loop: the row as it was loaded, what was posted for it, and the row as the
    turn left it. *)
Record entry := Entry { e_row : intro; e_posts : list http_request; e_after : intro }.

Definition turn_of (r : intro) (w w1 : world) : entry :=
  Entry r (reverse (take (length (w_sent w1) - length (w_sent w)) (w_sent w1))) (default r (Repo.intro_by_id (i_id r) (w_db w1))).

(** The turns [drain_rows] and [drain] take. *)
Fixpoint rows_log (cancelled : nat -> bool) (rows : list intro) (w : world) : list entry :=
  match rows with
  | [] => []
  | r :: rows' =>
      if cancelled (w_tick w) then []
      else let w1 := (ignore (processOne cfg r) w).2 in turn_of r w w1 :: rows_log cancelled rows' w1
  end.

Definition drain_log (cancelled : nat -> bool) (w : world) : list entry :=
  match (now ← unix_now; try_ (Repo.PendingIntroductionRequests now (BatchSize cfg))) w with
  | (Ok (inr l), w1) => rows_log cancelled l w1
  | _ => []
  end.

(** The row [i] after the turns of a log. *)
Definition after_log (log : list entry) (i : intro) : intro :=
  foldl (fun i e => if str_eqb (i_id i) (i_id (e_row e)) then e_after e else i) i log.

Definition log_posts (log : list entry) : list http_request := concat (e_posts <$> log).

(** The world after the turns of a log. *)
Definition logged (log : list entry) (w : world) : world :=
  set_db (set_intros (fmap (after_log log)) (w_db w)) (posted (log_posts log) w).

Lemma attempt_id d r ps r' : attempt d r ps r' -> i_id r' = i_id r.
Proof. intros []; try done. unfold attempt_update. by repeat case_match. Qed.

Lemma posted_sent ps w : w_sent (posted ps w) = reverse ps ++ w_sent w.
Proof.
  revert w. induction ps as [|rq ps IH]; intros w; [done|]. simpl. rewrite IH, reverse_cons, <- app_assoc. done.
Qed.

Lemma set_intros_twice f g d : set_intros f (set_intros g d) = set_intros (fun t => f (g t)) d.
Proof. done. Qed.

Lemma posted_db ps d w : posted ps (set_db d w) = set_db d (posted ps w).
Proof. revert w. induction ps as [|rq ps IH]; intros w; [done|]. simpl. by rewrite <- IH. Qed.
Lemma posted_tick ps k w : posted ps (set_tick k w) = set_tick k (posted ps w).
Proof. revert w. induction ps as [|rq ps IH]; intros w; [done|]. simpl. by rewrite <- IH. Qed.
Lemma posted_conn ps w : w_conn (posted ps w) = w_conn w.
Proof. revert w. induction ps as [|rq ps IH]; intros w; [done|]. simpl. by rewrite IH. Qed.
Lemma posted_app ps qs w : posted (ps ++ qs) w = posted qs (posted ps w).
Proof. apply foldl_app. Qed.

Lemma logged_none w : set_tick (w_tick w) (logged [] w) = w.
Proof. unfold logged. rewrite set_intros_same by (exact (list_fmap_id _)). by destruct w. Qed.

Lemma upd_map r r' t : upd (fun i => str_eqb (i_id i) (i_id r)) (fun _ => r') t
  = (fun i => if str_eqb (i_id i) (i_id r) then r' else i) <$> t.
Proof. done. Qed.

Lemma logged_tick log k w : logged log (set_tick k w) = set_tick k (logged log w).
Proof. unfold logged. by rewrite posted_tick. Qed.

Lemma logged_cons r r' ps log k k' w :
  set_tick k' (logged log (set_tick k (set_db (set_row r r' (w_db w)) (posted ps w)))) = set_tick k' (logged (Entry r ps r' :: log) w).
Proof.
  unfold logged. change (log_posts (Entry r ps r' :: log)) with (ps ++ log_posts log). rewrite posted_app, posted_tick, posted_db.
  cbn [w_db set_tick set_db]. set (w2 := posted _ _).
  replace (set_intros (fmap (after_log log)) (set_row r r' (w_db w))) with (set_intros (fmap (after_log (Entry r ps r' :: log))) (w_db w)); [done|].
  unfold set_row, set_intros. cbn [users nodes snapshots magic_tokens api_tokens device_sessions introduction_requests]. f_equal.
  rewrite upd_map, <- list_fmap_compose. done.
Qed.

Lemma attempt_set_row d r r' x ps x' : attempt (set_row r r' d) x ps x' -> attempt d x ps x'.
Proof. intros []; by econstructor. Qed.

(** What the loop needs of the rows it has loaded, and keeps for those it has not reached. *)
Definition loaded (rows : list intro) (d : db) : Prop :=
  NoDup (i_id <$> introduction_requests d) /\ NoDup (i_id <$> rows) /\
  forall r, r ∈ rows -> r ∈ introduction_requests d /\ pending_status (i_status r) = true /\ 0 <= i_attempts r.

Lemma loaded_next r r' rows d : loaded (r :: rows) d -> i_id r' = i_id r -> loaded rows (set_row r r' d).
Proof.
  intros (Hd & Hr & Hl) Hid. simpl in Hr. apply NoDup_cons in Hr as [Hr0 Hr]. split_and!; [|done|].
  - unfold set_row. simpl. rewrite upd_map, <- list_fmap_compose. erewrite list_fmap_ext; [exact Hd|].
    intros _ x _. simpl. destruct (str_eqb _ _) eqn:E; [|done]. bool_prop. congruence.
  - intros x Hx. destruct (Hl x) as (Hin & ? & ?); [by right|]. split_and!; [|done..].
    simpl. apply elem_of_upd. exists x. split; [done|].
    replace (str_eqb (i_id x) (i_id r)) with false; [done|]. symmetry. apply str_eqb_false. intros E.
    apply Hr0. rewrite <- E. by apply list_elem_of_fmap_2.
Qed.

Lemma set_row_lookup r r' d : NoDup (i_id <$> introduction_requests d) -> r ∈ introduction_requests d -> i_id r' = i_id r ->
  Repo.intro_by_id (i_id r) (set_row r r' d) = Some r'.
Proof.
  intros Hd Hr Hid. rewrite <- Hid. apply intro_by_id_key.
  - unfold set_row. simpl. rewrite upd_map, <- list_fmap_compose. erewrite list_fmap_ext; [exact Hd|].
    intros _ x _. simpl. destruct (str_eqb _ _) eqn:E; [|done]. bool_prop. congruence.
  - unfold set_row. simpl. apply (upd_hit (fun i => str_eqb (i_id i) (i_id r)) (fun _ => r') _ r); [done|]. apply str_eqb_refl.
Qed.

(** The loop: its turns are attempts on the rows in their order, and its effect is theirs. *)
Lemma rows_log_run cancelled rows w :
  w_conn w = true -> Backoffs cfg <> [] -> loaded rows (w_db w) ->
  let log := rows_log cancelled rows w in
  (exists k, drain_rows cfg cancelled rows w = (Ok tt, set_tick k (logged log w))) /\
  (e_row <$> log) `prefix_of` rows /\ ((forall k, cancelled k = false) -> e_row <$> log = rows) /\
  Forall (fun e => attempt (w_db w) (e_row e) (e_posts e) (e_after e)) log.
Proof.
  intros Hc Hb. revert w Hc. induction rows as [|r rows IH]; intros w Hc Hl.
  { split_and!; [|done|done|constructor]. exists (w_tick w). by rewrite logged_none. }
  rewrite drain_rows_run. cbn [rows_log]. destruct (cancelled (w_tick w)) eqn:Ek; cbv zeta.
  { split_and!; [|apply prefix_nil|intros Hn; by rewrite Hn in Ek|constructor]. exists (w_tick w). by rewrite logged_none. }
  pose proof Hl as (Hd & _ & Hin). destruct (Hin r) as (Hr0 & Hp & Ha); [left|].
  destruct (attempt_any r w Hc Hb Ha Hd Hr0 Hp) as (ps & r' & k & E & Hat). pose proof (attempt_id _ _ _ _ Hat) as Hid.
  erewrite run_bind by exact E. rewrite E. set (w1 := set_tick k (set_db (set_row r r' (w_db w)) (posted ps w))) in *. cbn [snd].
  assert (turn_of r w w1 = Entry r ps r') as ->.
  { unfold turn_of. subst w1. cbn [w_sent w_db set_tick set_db]. rewrite (set_row_lookup r r' (w_db w) Hd Hr0 Hid). cbn. f_equal.
    rewrite posted_sent, length_app, length_reverse, take_app_le, take_ge by (rewrite length_reverse; lia). apply reverse_involutive. }
  destruct (IH w1) as ((k' & E') & Hpre & Hall & Hatt); [by subst w1; cbn; rewrite posted_conn|subst w1; by apply loaded_next|].
  set (log := rows_log cancelled rows w1) in *. split_and!.
  - exists k'. rewrite E'. f_equal. apply logged_cons.
  - rewrite fmap_cons. by apply prefix_cons.
  - intros Hn. rewrite fmap_cons. f_equal. by apply Hall.
  - constructor; [done|]. eapply Forall_impl; [exact Hatt|]. intros e He. by apply attempt_set_row in He.
Qed.

Lemma drain_run cancelled w :
  w_conn w = true -> Backoffs cfg <> [] -> db_wf (w_db w) ->
  let log := drain_log cancelled w in
  (exists k, drain cfg cancelled w = (Ok tt, set_tick k (logged log w))) /\
  (e_row <$> log) `prefix_of` batch cfg w /\
  ((forall k, cancelled k = false) -> (forall k, sql_fails k = false) -> e_row <$> log = batch cfg w) /\
  Forall (fun e => attempt (w_db w) (e_row e) (e_posts e) (e_after e)) log.
Proof.
  intros Hc Hb W. unfold drain_log.
  assert (forall k, set_tick k (logged [] w) = set_tick k w) as Hnone by (intros k; rewrite <- (logged_none w) at 2; done).
  destruct (sql_fails (S (w_tick w))) eqn:Ef.
  - assert ((now ← unix_now; try_ (Repo.PendingIntroductionRequests now (BatchSize cfg))) w = (Ok (inl ErrIO), set_tick (S (S (w_tick w))) w)) as El.
    { unfold unix_now, time_now, next_tick, Repo.PendingIntroductionRequests, db_query, with_conn, sql_read, try_, mbind, M_bind. simpl.
      rewrite Hc. simpl. rewrite Ef. simpl. f_equal. destruct w. simpl in *. by subst. }
    rewrite El. split_and!; [|apply prefix_nil|intros _ Hq; by rewrite Hq in Ef|constructor].
    exists (S (S (w_tick w))). rewrite Hnone. unfold drain. apply bind_ok in El as (now & w1 & En & El).
    erewrite run_bind by exact En. by erewrite run_bind by exact El.
  - set (w0 := set_tick (S (S (w_tick w))) w).
    assert ((now ← unix_now; try_ (Repo.PendingIntroductionRequests now (BatchSize cfg))) w = (Ok (inr (batch cfg w)), w0)) as El.
    { unfold unix_now, time_now, next_tick, Repo.PendingIntroductionRequests, db_query, with_conn, sql_read, try_, mbind, M_bind. simpl.
      rewrite Hc. simpl. rewrite Ef. simpl. f_equal. subst w0. destruct w. simpl in *. by subst. }
    rewrite El. destruct (rows_log_run cancelled (batch cfg w) w0) as ((k & E) & Hpre & Hall & Hatt); [done|done| |].
    { split_and!; [apply (wf_intros_id _ W)|apply pending_NoDup, (wf_intros_id _ W)|].
      intros r [Hr Hdue]%pending_in. split_and!; [done| |eapply attempts_nonneg, (wf_intros_rows _ W), Hr].
      unfold Repo.intro_due in Hdue. by bool_prop. }
    split_and!; [|done|intros ? _; by apply Hall|done]. exists k. unfold drain. apply bind_ok in El as (now & w1 & En & El).
    erewrite run_bind by exact En. erewrite run_bind by exact El. etrans; [exact E|]. subst w0. by rewrite logged_tick.
Qed.

(** *** Reading a log *)

Lemma after_log_other log i : (forall e, e ∈ log -> i_id (e_row e) <> i_id i) -> after_log log i = i.
Proof.
  induction log as [|e log IH]; intros Hn; [done|]. unfold after_log. simpl.
  replace (str_eqb (i_id i) (i_id (e_row e))) with false; [apply IH; intros; apply Hn; by right|].
  symmetry. apply str_eqb_false. intros E. by apply (Hn e); [left|].
Qed.

Lemma after_log_id log i : (forall e, e ∈ log -> i_id (e_after e) = i_id (e_row e)) -> i_id (after_log log i) = i_id i.
Proof.
  revert i. induction log as [|e log IH]; intros i Hid; [done|]. unfold after_log. simpl. fold (after_log log (if str_eqb (i_id i) (i_id (e_row e)) then e_after e else i)).
  rewrite IH by (intros; apply Hid; by right). destruct (str_eqb _ _) eqn:E; [|done]. bool_prop. rewrite Hid by left. done.
Qed.

Lemma after_log_hit log e :
  NoDup (i_id <$> (e_row <$> log)) -> (forall e, e ∈ log -> i_id (e_after e) = i_id (e_row e)) -> e ∈ log ->
  after_log log (e_row e) = e_after e.
Proof.
  induction log as [|x log IH]; intros Hd Hid He; [by apply elem_of_nil in He|]. simpl in Hd. apply NoDup_cons in Hd as [Hx Hd].
  unfold after_log. simpl. apply elem_of_cons in He as [->|He].
  - rewrite str_eqb_refl. apply after_log_other. intros y Hy E. apply Hx. rewrite <- (Hid x), <- E by left.
    by do 2 apply list_elem_of_fmap_2.
  - replace (str_eqb (i_id (e_row e)) (i_id (e_row x))) with false; [apply IH; [done|intros; apply Hid; by right|done]|].
    symmetry. apply str_eqb_false. intros E. apply Hx. rewrite <- E. by do 2 apply list_elem_of_fmap_2.
Qed.

(** The turns on one request. *)
Definition of_request (id : string) (log : list entry) : list entry := filter (fun e => i_id (e_row e) = id) log.

Lemma of_request_cons id e log :
  of_request id (e :: log) = if decide (i_id (e_row e) = id) then e :: of_request id log else of_request id log.
Proof. unfold of_request. rewrite filter_cons. by case_decide. Qed.

Lemma of_request_cases id log : NoDup (i_id <$> (e_row <$> log)) ->
  (exists e, e ∈ log /\ i_id (e_row e) = id /\ of_request id log = [e]) \/
  ((forall e, e ∈ log -> i_id (e_row e) <> id) /\ of_request id log = []).
Proof.
  induction log as [|x log IH]; intros Hd; [right; split; [by intros e ?%elem_of_nil|done]|].
  simpl in Hd. apply NoDup_cons in Hd as [Hx Hd]. rewrite of_request_cons. case_decide as Ex.
  - left. exists x. split_and!; [left|done|]. f_equal. destruct (IH Hd) as [(e & He & Eid & _)|[_ ->]]; [|done].
    exfalso. apply Hx. rewrite Ex, <- Eid. by do 2 apply list_elem_of_fmap_2.
  - destruct (IH Hd) as [(e & He & Eid & E)|[Hn E]].
    + left. exists e. split_and!; [by right|done|exact E].
    + right. split; [|exact E]. intros e [->|He]%elem_of_cons; [done|by apply Hn].
Qed.

Lemma of_request_app id l1 l2 : of_request id (l1 ++ l2) = of_request id l1 ++ of_request id l2.
Proof. apply filter_app. Qed.
Lemma log_posts_app l1 l2 : log_posts (l1 ++ l2) = log_posts l1 ++ log_posts l2.
Proof. unfold log_posts. by rewrite fmap_app, concat_app. Qed.

(** The turns of a drain are on different rows, and each leaves its row its id. *)
Lemma log_ids cancelled w :
  w_conn w = true -> Backoffs cfg <> [] -> db_wf (w_db w) -> let log := drain_log cancelled w in
  NoDup (i_id <$> (e_row <$> log)) /\ (forall e, e ∈ log -> i_id (e_after e) = i_id (e_row e)) /\
  (forall e, e ∈ log -> e_row e ∈ introduction_requests (w_db w) /\ pending_status (i_status (e_row e)) = true).
Proof.
  intros Hc Hb W log. destruct (drain_run cancelled w Hc Hb W) as (_ & [rest Hpre] & _ & Hatt). fold log in Hpre, Hatt.
  rewrite Forall_forall in Hatt. split_and!.
  - eapply (sublist_NoDup _ (i_id <$> batch cfg w)); [apply pending_NoDup, (wf_intros_id _ W)|].
    rewrite Hpre, fmap_app. by apply sublist_inserts_r.
  - intros e He. by eapply attempt_id, Hatt.
  - intros e He. assert (e_row e ∈ batch cfg w) as Hb'.
    { rewrite Hpre. apply elem_of_app. left. by apply list_elem_of_fmap_2. }
    apply pending_in in Hb' as [? Hdue]. split; [done|]. unfold Repo.intro_due in Hdue. by bool_prop.
Qed.

(** C18: a drain does its turns and nothing else, on every schedule of failures and for every
    cancellation.  Its turns are attempts on the rows it loaded, in their order, from the
    first: on all of them unless it is cancelled or a statement fails.  Every row it loads is
    due: queued or retrying, with no later next attempt.  Each attempt posts at most the one
    request of [attempt], to the row's own target, and moves its row by one step of its state
    machine.  What the drain sent is what its turns posted; the requests are the rows its
    turns left, every other row as it was; and no other table, no mail, session, link, limiter
    or wake signal is touched. *)
Theorem drain_safe cancelled w :
  w_conn w = true -> Backoffs cfg <> [] -> db_wf (w_db w) ->
  let w' := (drain cfg cancelled w).2 in let log := drain_log cancelled w in
  (e_row <$> log) `prefix_of` batch cfg w /\
  ((forall k, cancelled k = false) -> (forall k, sql_fails k = false) -> e_row <$> log = batch cfg w) /\
  (forall r, r ∈ batch cfg w -> r ∈ introduction_requests (w_db w) /\ Repo.intro_due (unix (clock (w_tick w))) r = true) /\
  (forall e, e ∈ log -> attempt (w_db w) (e_row e) (e_posts e) (e_after e)) /\
  w_sent w' = reverse (log_posts log) ++ w_sent w /\
  exists g k,
    (forall e, e ∈ log -> g (e_row e) = e_after e) /\
    (forall i, i ∈ introduction_requests (w_db w) -> i ∉ e_row <$> log -> g i = i) /\
    w' = set_tick k (set_db (set_intros (fmap g) (w_db w)) (posted (log_posts log) w)).
Proof.
  intros Hc Hb W w' log. destruct (drain_run cancelled w Hc Hb W) as ((k & E) & Hpre & Hall & Hatt). fold log in E, Hpre, Hall, Hatt.
  assert (w' = set_tick k (logged log w)) as Ew by (unfold w'; by rewrite E).
  destruct (log_ids cancelled w Hc Hb W) as (Hnd & Hids & Hrows). fold log in Hnd, Hids, Hrows.
  split_and!; [done|done|by intros r Hr; apply pending_in in Hr|by apply Forall_forall|by rewrite Ew; apply posted_sent|].
  exists (after_log log), k. split_and!; [by intros e He; apply after_log_hit| |done].
  intros i Hi Hni. apply after_log_other. intros e He Eid. apply Hni.
  replace i with (e_row e); [by apply list_elem_of_fmap_2|].
  eapply (NoDup_fmap_inj_on i_id); [apply (wf_intros_id _ W)|by apply Hrows|done|done].
Qed.

(** ** The worker's life *)

(** A drain as its history tells it: the batch it found, and its turns. *)
Record day := Day { day_batch : list intro; day_log : list entry }.

Definition all_turns (days : list day) : list entry := concat (day_log <$> days).

(** Drains of one worker, one after the other, and between them whatever [others] do. *)
Inductive life (cancelled : nat -> bool) (others : relation world) : world -> list day -> world -> Prop :=
| life_end w : life cancelled others w [] w
| life_drain w days w' : life cancelled others (drain cfg cancelled w).2 days w' ->
    life cancelled others w (Day (batch cfg w) (drain_log cancelled w) :: days) w'
| life_others w w1 days w' : others w w1 -> life cancelled others w1 days w' -> life cancelled others w days w'.

(** Other goroutines: any statements of the program, and the connection given back. *)
Definition elsewhere (w w1 : world) : Prop := evolves (w_db w) (w_db w1) /\ w_conn w1 = true.

(** A turn whose post was not recorded. *)
Definition lost (e : entry) : bool :=
  negb (bool_decide (e_posts e = [])) && pending_status (i_status (e_after e)) && (i_attempts (e_after e) =? i_attempts (e_row e)).

(** How often a request may still be posted. *)
Definition credit_of (i : intro) : Z := if pending_status (i_status i) then Z.max 1 (MaxAttempts cfg - i_attempts i) else 0.
Definition credit (id : string) (d : db) : Z :=
  match Repo.intro_by_id id d with Some i => credit_of i | None => MaxAttempts cfg end.

(** A turn spends a credit for its post, or is lost. *)
Lemma attempt_spends d r ps r' : 0 < MaxAttempts cfg -> pending_status (i_status r) = true -> attempt d r ps r' ->
  Z.of_nat (length ps) + credit_of r' <= credit_of r + (if lost (Entry r ps r') then 1 else 0) /\
  ((forall k, sql_fails k = false) -> lost (Entry r ps r') = false).
Proof.
  intros Hm Hp Ha. unfold credit_of, lost. rewrite Hp. destruct Ha as [_|_|t _ _ [j Hj]|t k now _ _]; simpl.
  - rewrite Hp. split; [lia|done].
  - split; [lia|done].
  - rewrite Hp, Z.eqb_refl. simpl. split; [lia|]. intros Hq. by rewrite Hq in Hj.
  - unfold attempt_update. destruct (is_success _); simpl; [split; [lia|done]|].
    destruct (MaxAttempts cfg <=? i_attempts r + 1) eqn:E; simpl; [split; [lia|done]|]. bool_prop.
    rewrite (proj2 (Z.eqb_neq _ _)) by lia. split; [lia|done].
Qed.

Lemma credit_evolves id d d' : 0 < MaxAttempts cfg -> db_wf d -> evolves d d' -> credit id d' <= credit id d.
Proof.
  intros Hm W Ev. pose proof (evolves_preserves_wf _ _ Ev W) as W'. unfold credit.
  destruct (Repo.intro_by_id id d) as [i|] eqn:Ei.
  - apply head_sel_some in Ei as [Hi Hid]. bool_prop. destruct (fw_intros _ _ (evolves_moves_forward _ _ Ev) i Hi) as (i' & Hi' & Ek & Hf).
    rewrite <- Hid, <- Ek, (intro_by_id_key _ i' (wf_intros_id _ W') Hi'). unfold intro_fate in Hf. destruct_and?.
    unfold credit_of. destruct (i_status i), (i_status i'); simpl in *; try done; try lia.
  - destruct (Repo.intro_by_id id d') as [i'|] eqn:Ei'; [|done]. apply head_sel_some in Ei' as [Hi' _].
    pose proof (attempts_nonneg d' i' (wf_intros_rows _ W' _ Hi')). unfold credit_of. destruct (pending_status _); lia.
Qed.

Lemma credit_nonneg id d : 0 < MaxAttempts cfg -> 0 <= credit id d.
Proof. intros Hm. unfold credit, credit_of. destruct (Repo.intro_by_id id d); [destruct (pending_status _)|]; lia. Qed.

Lemma credit_most id d : 0 < MaxAttempts cfg -> db_wf d -> credit id d <= MaxAttempts cfg.
Proof.
  intros Hm W. unfold credit, credit_of. destruct (Repo.intro_by_id id d) as [i|] eqn:Ei; [|done].
  apply head_sel_some in Ei as [Hi _]. pose proof (attempts_nonneg d i (wf_intros_rows _ W _ Hi)). destruct (pending_status _); lia.
Qed.

Lemma intro_by_id_map g id d : (forall i, i_id (g i) = i_id i) ->
  Repo.intro_by_id id (set_intros (fmap g) d) = g <$> Repo.intro_by_id id d.
Proof.
  intros Hg. unfold Repo.intro_by_id. destruct d as [? ? ? ? ? ? t ? ? ? ? ? ?]. simpl. unfold sel. induction t as [|x t IH]; [done|].
  rewrite fmap_cons, !filter_cons. rewrite Hg. by repeat case_decide.
Qed.

(** What a drain leaves: an intact database, a free connection. *)
Lemma drain_keeps cancelled w : w_conn w = true -> db_wf (w_db w) ->
  w_conn (drain cfg cancelled w).2 = true /\ db_wf (w_db (drain cfg cancelled w).2).
Proof.
  intros Hc W. destruct (good_drain cfg cancelled w Hc) as (Ev & Hc' & _). split; [done|by eapply evolves_preserves_wf].
Qed.

(** The request [id] after a drain. *)
Lemma drain_row cancelled w id : w_conn w = true -> Backoffs cfg <> [] -> db_wf (w_db w) ->
  Repo.intro_by_id id (w_db (drain cfg cancelled w).2) = after_log (drain_log cancelled w) <$> Repo.intro_by_id id (w_db w).
Proof.
  intros Hc Hb W. destruct (drain_run cancelled w Hc Hb W) as ((k & E) & _). destruct (log_ids cancelled w Hc Hb W) as (_ & Hid & _).
  rewrite E. unfold logged. cbn [snd w_db set_tick set_db]. apply intro_by_id_map. intros i. by apply after_log_id.
Qed.

Lemma drain_spends cancelled w id : w_conn w = true -> Backoffs cfg <> [] -> 0 < MaxAttempts cfg -> db_wf (w_db w) ->
  let log := of_request id (drain_log cancelled w) in
  Z.of_nat (length (log_posts log)) + credit id (w_db (drain cfg cancelled w).2)
    <= credit id (w_db w) + Z.of_nat (length (filter (fun e => lost e = true) log)) /\
  ((forall k, sql_fails k = false) -> filter (fun e => lost e = true) log = []).
Proof.
  intros Hc Hb Hm W log. destruct (log_ids cancelled w Hc Hb W) as (Hnd & Hid & Hrows).
  destruct (drain_run cancelled w Hc Hb W) as (_ & _ & _ & Hatt). rewrite Forall_forall in Hatt.
  unfold credit. rewrite (drain_row cancelled w id Hc Hb W). subst log.
  destruct (of_request_cases id (drain_log cancelled w) Hnd) as [(e & He & Eid & ->)|[Hno ->]].
  - destruct (Hrows e He) as [Hin Hp]. rewrite <- Eid, (intro_by_id_key _ _ (wf_intros_id _ W) Hin). simpl.
    rewrite (after_log_hit _ _ Hnd Hid He). destruct (attempt_spends _ _ _ _ Hm Hp (Hatt e He)) as [Hle Hno].
    destruct e as [r ps r']. cbn [e_row e_posts e_after] in *. change (log_posts [Entry r ps r']) with (ps ++ []). rewrite app_nil_r, filter_cons.
    destruct (lost (Entry r ps r')); case_decide; try done; simpl; (split; [lia|]); intros Hq; by try specialize (Hno Hq).
  - simpl. destruct (Repo.intro_by_id id (w_db w)) as [i|] eqn:Ei; simpl; [|split; [lia|done]].
    apply head_sel_some in Ei as [_ Ei]. bool_prop. rewrite after_log_other; [split; [lia|done]|].
    intros e He. rewrite Ei. by apply Hno.
Qed.

(** C19: no request is posted more than MaxAttempts times.  Over the whole life of the worker,
    drains and whatever other goroutines do in between, cancelled or not and whatever fails,
    the posts for one request are at most MaxAttempts, apart from those whose outcome could
    not be recorded; and where no statement fails there are none of these. *)
Theorem attempts_bounded cancelled w days w' id :
  w_conn w = true -> Backoffs cfg <> [] -> 0 < MaxAttempts cfg -> db_wf (w_db w) ->
  life cancelled elsewhere w days w' ->
  let turns := of_request id (all_turns days) in
  let unrecorded := filter (fun e => lost e = true) turns in
  Z.of_nat (length (log_posts turns)) <= MaxAttempts cfg + Z.of_nat (length unrecorded) /\
  ((forall k, sql_fails k = false) -> unrecorded = []).
Proof.
  intros Hc Hb Hm W Hl. cbv zeta. enough (Z.of_nat (length (log_posts (of_request id (all_turns days)))) + 0 <=
    credit id (w_db w) + Z.of_nat (length (filter (fun e => lost e = true) (of_request id (all_turns days)))) /\
    ((forall k, sql_fails k = false) -> filter (fun e => lost e = true) (of_request id (all_turns days)) = [])) as [Hle Hno].
  { split; [|done]. assert (credit id (w_db w) <= MaxAttempts cfg) by by apply credit_most. lia. }
  induction Hl as [w|w days w' _ IH|w w1 days w' [Ev Hc1] _ IH].
  - simpl. split; [|done]. pose proof (credit_nonneg id (w_db w) Hm). lia.
  - destruct (drain_keeps cancelled w Hc W) as [Hc1 W1]. destruct (IH Hc1 W1) as [Hle Hno].
    destruct (drain_spends cancelled w id Hc Hb Hm W) as [Hle1 Hno1]. 
    change (all_turns (Day _ _ :: days)) with (drain_log cancelled w ++ all_turns days).
    rewrite of_request_app, log_posts_app, filter_app, !length_app. split; [lia|].
    intros Hq. rewrite Hno1 by done. by apply Hno.
  - destruct (IH Hc1 (evolves_preserves_wf _ _ Ev W)) as [Hle Hno]. split; [|done].
    pose proof (credit_evolves id _ _ Hm W Ev). lia.
Qed.

(** *** Giving up *)

(** Other goroutines that leave the request and its target as they are. *)
Definition leaves (r : intro) (w w1 : world) : Prop :=
  elsewhere w w1 /\
  (forall i, i ∈ introduction_requests (w_db w) -> i_id i = i_id r -> i ∈ introduction_requests (w_db w1)) /\
  target_of (i_node r) (w_db w1) = target_of (i_node r) (w_db w).

(** The request [r] after [n] failed attempts. *)
Definition tried (r : intro) (n : nat) (i : intro) : Prop :=
  i_id i = i_id r /\ i_node i = i_node r /\ buildPayload i = buildPayload r /\ i_attempts i = Z.of_nat n /\
  Z.of_nat n <= MaxAttempts cfg /\
  i_status i = (if (n =? 0)%nat then IQueued else if MaxAttempts cfg <=? Z.of_nat n then IFailed else IRetrying).

(** The drains that found the request in their batch. *)
Definition due_days (id : string) (days : list day) : list day := filter (fun d => id ∈ i_id <$> day_batch d) days.

Section Failing.
Context (Hsql : forall k, sql_fails k = false) (Hfail : forall k rq, is_success (http_answer k rq) = false).
Context (Hb : Backoffs cfg <> []) (Hm : 0 < MaxAttempts cfg).

Lemma tried_again d r n i t ps i' :
  tried r n i -> pending_status (i_status i) = true -> target_of (i_node r) d = Some t -> url_ok (inbox_url t) = true ->
  attempt d i ps i' -> ps = [delivery_request t (buildPayload r)] /\ tried r (S n) i'.
Proof.
  intros (Hid & Hn & Hbody & Ha & Hle & Hs) Hp Ht Hu Hat. rewrite <- Hn in Ht.
  destruct Hat as [[[k Hk]|(t' & Ht' & Hu')]|Hnone|t' _ _ [k Hk]|t' k now Ht' Hu']; try (by rewrite Hsql in Hk); try congruence.
  assert (t' = t) as -> by congruence. rewrite Hbody. split; [done|]. unfold attempt_update. rewrite Hfail, Ha.
  assert (Z.of_nat n < MaxAttempts cfg) as Hlt.
  { destruct n as [|n]; [simpl; lia|]. rewrite Hs in Hp. simpl in Hp. destruct (_ <=? _) eqn:E; [done|]. by bool_prop. }
  destruct (MaxAttempts cfg <=? Z.of_nat n + 1) eqn:E; bool_prop; unfold tried; simpl; split_and!; try done; try lia.
  - by rewrite (proj2 (Z.leb_le _ _)) by lia.
  - by rewrite (proj2 (Z.leb_gt _ _)) by lia.
Qed.

Lemma failing_life cancelled r t w days w' :
  (forall k, cancelled k = false) -> url_ok (inbox_url t) = true ->
  life cancelled (leaves r) w days w' ->
  forall n i, w_conn w = true -> db_wf (w_db w) -> i ∈ introduction_requests (w_db w) -> tried r n i ->
  target_of (i_node r) (w_db w) = Some t ->
  let m := length (due_days (i_id r) days) in
  exists i', i' ∈ introduction_requests (w_db w') /\ db_wf (w_db w') /\ tried r (n + m) i' /\
    log_posts (of_request (i_id r) (all_turns days)) = replicate m (delivery_request t (buildPayload r)).
Proof.
  intros Hcn Hu Hl. induction Hl as [w|w days w' _ IH|w w1 days w' ([Ev Hc1] & Hkeep & Htgt) _ IH]; intros n i Hc W Hi Hti Ht.
  - exists i. rewrite Nat.add_0_r. by split_and!.
  - destruct (drain_keeps cancelled w Hc W) as [Hc1 W1]. destruct (log_ids cancelled w Hc Hb W) as (Hnd & Hid & Hrows).
    destruct (drain_run cancelled w Hc Hb W) as ((k & E) & _ & Hall & Hatt). specialize (Hall Hcn Hsql). rewrite Forall_forall in Hatt.
    pose proof (drain_row cancelled w (i_id i) Hc Hb W) as Hrow. rewrite (intro_by_id_key _ _ (wf_intros_id _ W) Hi) in Hrow. simpl in Hrow.
    apply head_sel_some in Hrow as [Hi1 _].
    assert (target_of (i_node r) (w_db (drain cfg cancelled w).2) = Some t) as Ht1 by (by rewrite E).
    change (all_turns (Day _ _ :: days)) with (drain_log cancelled w ++ all_turns days). rewrite of_request_app, log_posts_app.
    assert (i_id i = i_id r) as Hir by apply Hti. unfold due_days. rewrite filter_cons. cbn [day_batch].
    destruct (of_request_cases (i_id r) (drain_log cancelled w) Hnd) as [(e & He & Eid & ->)|[Hno ->]].
    + rewrite decide_True by (rewrite <- Hall, <- Eid; by do 2 apply list_elem_of_fmap_2).
      destruct (Hrows e He) as [Hin Hp]. assert (e_row e = i) as Er
        by (eapply (NoDup_fmap_inj_on i_id); [apply (wf_intros_id _ W)|done|done|congruence]).
      rewrite <- Er, (after_log_hit _ _ Hnd Hid He) in Hi1. specialize (Hatt e He). rewrite Er in Hatt, Hp.
      destruct (tried_again _ _ _ _ _ _ _ Hti Hp Ht Hu Hatt) as [Eps Hti1].
      destruct (IH (S n) (e_after e) Hc1 W1 Hi1 Hti1 Ht1) as (i' & Hi' & W' & Hti' & ->). exists i'.
      split_and!; [done|done|simpl; by rewrite Nat.add_succ_r|]. unfold log_posts. simpl. by rewrite Eps.
    + rewrite decide_False.
      * rewrite after_log_other in Hi1 by (intros e He; rewrite Hir; by apply Hno).
        destruct (IH n i Hc1 W1 Hi1 Hti Ht1) as (i' & ? & ? & ? & ->). by exists i'.
      * rewrite <- Hall. intros (x & Ex & Hx)%list_elem_of_fmap. apply list_elem_of_fmap in Hx as (e & -> & He). by apply (Hno e He).
  - apply (IH n i Hc1 (evolves_preserves_wf _ _ Ev W)); [|done|congruence]. apply Hkeep; [done|apply Hti].
Qed.

(** C20: a request whose node keeps failing is given up, and not before.  Take a worker that is
    not cancelled, where no statement fails and every delivery fails, and a queued request
    whose node can be posted to; other goroutines do what they like between the drains, but
    leave this request and its target.  However many drains have found it in their batch,
    [m], they have posted it [m] times, always the same signed request; its count is [m];
    [m] is never more than MaxAttempts, and the request is failed exactly when it is
    MaxAttempts, waiting for its next attempt before that. *)
Theorem gives_up cancelled r t w days w' :
  (forall k, cancelled k = false) -> w_conn w = true -> db_wf (w_db w) ->
  r ∈ introduction_requests (w_db w) -> i_status r = IQueued -> i_attempts r = 0 ->
  target_of (i_node r) (w_db w) = Some t -> url_ok (inbox_url t) = true ->
  life cancelled (leaves r) w days w' ->
  let m := length (due_days (i_id r) days) in
  log_posts (of_request (i_id r) (all_turns days)) = replicate m (delivery_request t (buildPayload r)) /\
  Z.of_nat m <= MaxAttempts cfg /\
  exists r', Repo.intro_by_id (i_id r) (w_db w') = Some r' /\ i_attempts r' = Z.of_nat m /\
    i_status r' = (if (m =? 0)%nat then IQueued else if MaxAttempts cfg <=? Z.of_nat m then IFailed else IRetrying).
Proof.
  intros Hcn Hc W Hr Hq Ha Ht Hu Hl m.
  destruct (failing_life cancelled r t w days w' Hcn Hu Hl 0 r Hc W Hr) as (r' & Hr' & W' & (Hid & _ & _ & Hat & Hle & Hst) & Hps); [|done|].
  { split_and!; try done; simpl; lia. }
  split_and!; [done|exact Hle|]. exists r'. split_and!; [|done|done]. rewrite <- Hid. by apply intro_by_id_key; [apply W'|].
Qed.

End Failing.

End Attempts.

(** *** Witnesses *)

Section Witnesses.
#[local] Existing Instance failing_env.
#[local] Existing Instance sample_engine.

Definition all_urls : Urls := {| url_ok _ := true |}.
Definition no_urls : Urls := {| url_ok _ := false |}.
#[local] Existing Instance all_urls.

(** A LivingCV node with an owner and a secret, and a queued introduction to it. *)
Definition queue_intro : M unit :=
  '(dc, uc) ← Repo.InsertDeviceSession (Some "LivingCV") (Some "https://cv.example") None (900 * second);
  u ← Repo.CreateUser "ada@example.org";
  d ← db_query id;
  let node := match nodes d with n :: _ => n_id n | [] => EmptyString end in
  _ ← Repo.SetNodeUser node u;
  _ ← Repo.RotateNodeIntroSecret node;
  Repo.InsertIntroductionRequest "req-1" "cand-1" u node "Grace" "grace@example.org" "Navy".

Lemma good_queue_intro : good queue_intro.
Proof. unfold queue_intro. solve_good. Qed.

Definition queued_world : world := after queue_intro start_world.
Definition queued_intro : intro :=
  match introduction_requests (w_db queued_world) with r :: _ => r
  | [] => Intro EmptyString EmptyString EmptyString EmptyString IFailed 0 None EmptyString EmptyString None 0 None None end.
Definition queued_target : Repo.DeliveryTarget :=
  default (Repo.Target EmptyString EmptyString EmptyString) (target_of (i_node queued_intro) (w_db queued_world)).

Lemma queued_wf : db_wf (w_db queued_world).
Proof. apply good_wf; [apply good_queue_intro|done|apply empty_db_wf]. Qed.

Abbreviation never := (fun _ : nat => false).

Theorem drain_safe_witness :
  e_row <$> drain_log production never queued_world = [queued_intro] /\
  w_sent (drain production never queued_world).2 = [delivery_request queued_target (buildPayload queued_intro)].
Proof.
  destruct (drain_safe production never queued_world) as (_ & Hall & _ & _ & Hs & _); [done|done|apply queued_wf|].
  split; [rewrite Hall by done; vm_compute; reflexivity|]. rewrite Hs. vm_compute. reflexivity.
Defined.

Lemma attempt_exact_witness :
  exists w', processOne production queued_intro queued_world = (Ok tt, w') /\
    w_sent w' = [delivery_request queued_target (buildPayload queued_intro)].
Proof.
  destruct (@attempt_exact failing_env sample_engine all_urls production (fun _ => eq_refl) queued_intro queued_world queued_target)
    as (w' & E & _ & Es & _); [vm_compute; done..|]. exists w'. by split; [exact E|rewrite Es].
Defined.

(** Drains a good hour apart. *)
Definition sleep (w : world) : world := set_tick (w_tick w + 4000) w.

Fixpoint nights (n : nat) (w : world) : list day * world :=
  match n with
  | O => ([], w)
  | S n' => let x := nights n' (sleep (drain production never w).2) in
            (Day (batch production w) (drain_log production never w) :: x.1, x.2)
  end.

Lemma nights_life others n w : (forall w, w_conn w = true -> others w (sleep w)) -> w_conn w = true ->
  life production never others w (nights n w).1 (nights n w).2.
Proof.
  intros Ho. revert w. induction n as [|n IH]; intros w Hc; [apply life_end|].
  destruct (good_drain production never w Hc) as (_ & Hc' & _). apply life_drain. eapply life_others; [by apply Ho|by apply IH].
Qed.

(** Seven nights: the request is posted five times, and given up. *)
Theorem attempts_bounded_witness :
  let turns := of_request "req-1" (all_turns (nights 7 queued_world).1) in
  length (log_posts turns) = 5%nat /\ Z.of_nat (length (log_posts turns)) <= 5 + Z.of_nat (length (filter (fun e => lost e = true) turns)).
Proof.
  intros turns. split; [vm_compute; reflexivity|].
  apply (attempts_bounded production never queued_world (nights 7 queued_world).1 (nights 7 queued_world).2 "req-1");
    [done|done|done|apply queued_wf|]. apply nights_life; [|done]. intros w Hc. by split; [apply rtc_refl|].
Defined.

Theorem gives_up_witness :
  length (due_days (i_id queued_intro) (nights 7 queued_world).1) = 5%nat /\
  exists r', Repo.intro_by_id (i_id queued_intro) (w_db (nights 7 queued_world).2) = Some r' /\ i_status r' = IFailed /\ i_attempts r' = 5.
Proof.
  assert (length (due_days (i_id queued_intro) (nights 7 queued_world).1) = 5%nat) as Hm by (vm_compute; reflexivity).
  split; [exact Hm|].
  destruct (@gives_up failing_env sample_engine all_urls production (fun _ => eq_refl) (fun _ _ => eq_refl) ltac:(done) ltac:(done)
    never queued_intro queued_target queued_world (nights 7 queued_world).1 (nights 7 queued_world).2) as (_ & _ & r' & Er & Ea & Es);
    [done|done|apply queued_wf|vm_compute; by apply list_elem_of_here|done|done|vm_compute; done|done| |].
  { apply nights_life; [|done]. intros w Hc. split; [by split; [apply rtc_refl|]|by split; [intros i Hi|]]. }
  rewrite Hm in Ea, Es. exists r'. split_and!; [exact Er|exact Es|exact Ea].
Defined.

(** A stored endpoint that net/url does not parse makes the attempt return before anything
    is recorded: the row keeps its count and its place in the queue, so the limit of attempts
    never applies to it. *)
Example bad_endpoint_is_never_given_up :
  let w' := (@drain failing_env sample_engine no_urls production (fun _ => false) queued_world).2 in
  introduction_requests (w_db w') = introduction_requests (w_db queued_world) /\
  Repo.pending_intros 9999999999 32 (w_db w') = [queued_intro].
Proof. by vm_compute. Qed.

End Witnesses.
