(* ===== verification/Federation.v ===== *)
(** * Federation (src/internal/federation: identity.go, client.go, handler.go, sync.go, discovery.go)

    Instances sign their requests with an ed25519 identity; a peer's requests are let through
    when their signature verifies and the peer is active.  The syncer pulls the snapshots of
    every active peer.  Key derivation and signing are parameters, and so are the rows a
    full-text match yields and SQLite's comparison of an integer column with a bound text. *)

From S2P Require Import Prelude RateLimit AdminStore Schema Statements Invariants World.
From S2P Require Import GoStrings GoJson GoTime Sha256 Float Runs Samples Repo RepoFacts Auth AuthFacts Http.
From S2P Require Import Middleware AuthHandlers FedRepo Ingest Search Outbox.

Open Scope Z_scope.

(** crypto/ed25519 signing: a 32-byte seed determines the key pair, and what is signed with it
    verifies. *)
Class Ed25519Keys `{Ed25519} := {
  ed25519_Public : string -> string;
  ed25519_Sign : string -> string -> string;
  public_length : forall seed, String.length (ed25519_Public seed) = 32%nat;
  sign_length : forall seed msg, String.length (ed25519_Sign seed msg) = 64%nat;
  sign_verifies : forall seed msg, ed25519_Verify (ed25519_Public seed) msg (ed25519_Sign seed msg) = true }.

(** What SQLite makes of [candidate_id ... MATCH ?] without an order, up to the first row it
    fails on, and of [ingested_at > ?] with a text parameter. *)
Class FedEngine := {
  fts_rows : list fts_row -> string -> list string;
  after_text : string -> Z -> bool }.

(** ** identity.go *)

Record Identity := mkIdentity { id_PublicKey : string; id_Seed : string; id_priv : string }.

Section Identity.
Context `{Ed25519Keys}.

Definition id_Sign (id : Identity) (message : string) : string := Hex.encode (ed25519_Sign (id_priv id) message).
Definition PublicKeyBytes (id : Identity) : string := ed25519_Public (id_priv id).

Definition VerifySignatureStr (pubKeyHex message sigHex : string) : bool :=
  match Hex.decode pubKeyHex with
  | None => false
  | Some pub =>
      if negb (String.length pub =? 32)%nat then false
      else match Hex.decode sigHex with
           | None => false
           | Some sig => if negb (String.length sig =? 64)%nat then false else ed25519_Verify pub message sig
           end
  end.

(** [json.MarshalIndent(id, "", "  ")] *)
Definition identity_file (id : Identity) : string :=
  "{" ++s lf ++s "  " ++s quoted "public_key" ++s ": " ++s quoted (escape (id_PublicKey id)) ++s "," ++s lf
  ++s "  " ++s quoted "seed" ++s ": " ++s quoted (escape (id_Seed id)) ++s lf ++s "}".

Definition load_identity (data : string) : outcome Identity :=
  match parse data with
  | Some v =>
      if struct_ok v && string_field_ok "public_key" v && string_field_ok "seed" v then
        let seedHex := string_field "seed" v in
        match Hex.decode seedHex with
        | None => Err (ErrWrap "decode seed" (ErrText "encoding/hex"))
        | Some seed =>
            if (String.length seed =? 32)%nat then Ok (mkIdentity (string_field "public_key" v) seedHex seed)
            else Panic "ed25519: bad seed length"
        end
      else Err (ErrWrap "parse identity" (ErrText "encoding/json"))
  | None => Err (ErrWrap "parse identity" (ErrText "encoding/json"))
  end.

(** What a fresh 32-byte seed gives. *)
Definition new_identity (seed : string) : Identity :=
  mkIdentity (Hex.encode (ed25519_Public seed)) (Hex.encode seed) seed.

(** [LoadOrCreateIdentity]: from the file's content ([None] when it cannot be read), the draw
    of [GenerateKey] ([None] when it fails) and whether the file can be written, to the
    result and the text written. *)
Definition LoadOrCreateIdentity (file draw : option string) (writable : bool) : outcome Identity * option string :=
  match file with
  | Some data => (load_identity data, None)
  | None =>
      match draw with
      | None => (Err (ErrWrap "generate key" ErrRand), None)
      | Some seed =>
          let id := new_identity seed in
          if writable then (Ok id, Some (identity_file id)) else (Err (ErrWrap "write" ErrIO), None)
      end
  end.

End Identity.

(** ** client.go *)

Section Client.
Context `{Env, Engine, Ed25519Keys, Urls}.

Definition client_do (rq : http_request) : M string :=
  r ← http_send rq;
  match r with
  | inl msg => throw (ErrWrap "request" (ErrText msg))
  | inr (_, body) => mret (limit_read 1048576 body)
  end.

Definition signed_headers (ident : Identity) (body : string) : list (string * string) :=
  [("X-Fed-Public-Key", id_PublicKey ident); ("X-Fed-Signature", id_Sign ident body)].

Definition SignedGet (ident : Identity) (url : string) : M string :=
  if url_ok url then client_do (HttpRequest "GET" url (signed_headers ident EmptyString) EmptyString)
  else throw (ErrText "net/url").

Definition SignedPost (ident : Identity) (url : string) (payload : json) : M string :=
  let jsonBody := encode payload in
  if url_ok url
  then client_do (HttpRequest "POST" url (signed_headers ident jsonBody ++ [("Content-Type", "application/json")]) jsonBody)
  else throw (ErrText "net/url").

(** ** discovery.go *)

Definition discovery_payload (ident : Identity) (name endpoint : string) : json :=
  jmap [("instance_name", JStr name); ("endpoint_url", JStr endpoint); ("public_key", JStr (id_PublicKey ident))].

Definition Discovery_Register (ident : Identity) (url name endpoint : string) : M unit :=
  ignore (SignedPost ident (url ++s "/fed/register") (discovery_payload ident name endpoint)).

End Client.

(** ** handler.go *)

Record FedConfig := mkFed { fc_InstanceName : string; fc_JoinSecret : string; fc_Identity : Identity }.

Module Fed.
Section Fed.
Context `{Env, Engine, Unicode, Ed25519Keys, FedEngine}.
Context (cfg : FedConfig).

Definition bootstrap (path : string) : bool :=
  str_eqb path "/fed/health" || str_eqb path "/fed/register" || str_eqb path "/fed/handshake".

(** The row the gate looks up: WHERE instance_key = ? AND revoked_at IS NULL *)
Definition peer_by_key (key : string) (d : db) : option fed_instance :=
  head (sel (fun f => str_eqb (f_key f) key && is_null (f_revoked f)) (federated_instances d)).

Definition fedAuth : middleware := fun next c r =>
  let sig := header r "X-Fed-Signature" in
  let pubKey := header r "X-Fed-Public-Key" in
  if is_empty sig || is_empty pubKey then mret (http_error (error_text "missing federation auth headers") 401)
  else if negb (VerifySignatureStr pubKey (r_body r) sig)
  then mret (http_error (error_text "invalid federation signature") 401)
  else if bootstrap (r_path r) then next c r
  else
    row ← try_ (db_query_row (peer_by_key pubKey));
    match row with
    | inr f => if f_active f then next c r else mret (http_error (error_text "unknown or inactive peer") 401)
    | inl _ => mret (http_error (error_text "unknown or inactive peer") 401)
    end.

Definition joinSecretMatches (r : request) : bool :=
  if is_empty (fc_JoinSecret cfg) then false
  else let got := header r "X-Fed-Join-Secret" in
       if is_empty got then false else str_eqb got (fc_JoinSecret cfg).

(** The request body both bootstrap endpoints decode: name, endpoint and key. *)
Definition decode_peer (body : string) : option (string * string * string) :=
  match decode_first body with
  | Some v =>
      if struct_ok v && string_field_ok "instance_name" v && string_field_ok "public_key" v && string_field_ok "endpoint_url" v
      then Some (string_field "instance_name" v, string_field "endpoint_url" v, string_field "public_key" v)
      else None
  | None => None
  end.

Definition peer_active (id : string) (d : db) : option bool :=
  f_active <$> head (sel (fun f => str_eqb (f_id f) id) (federated_instances d)).

(** The common part of [handshake] and [register]; the two read the clock at different
    points, [early] before the lookup. *)
Definition enlist (early : bool) (r : request) (answer : string -> bool -> response) : M response :=
  match decode_peer (r_body r) with
  | None => mret (http_error (error_text "invalid_request") 400)
  | Some (name, endpoint, pubkey) =>
      t0 ← (if early then unix_now else mret 0);
      let instanceID := "fed_" ++s name in
      existing ← try_ (db_query_row (peer_active instanceID));
      match existing with
      | inr true => mret (http_error (error_text "peer already registered and active") 409)
      | _ =>
          now ← (if early then mret t0 else unix_now);
          let trusted := joinSecretMatches r in
          _ ← ignore (db_exec (ReplaceFedInstance instanceID name endpoint pubkey pubkey trusted now));
          mret (answer instanceID trusted)
      end
  end.

Definition status_text (trusted : bool) : string := if trusted then "active" else "pending_approval".

Definition handshake : handler := fun _ r =>
  enlist true r (fun instanceID trusted =>
    json_resp 200 (jmap [("accepted", JBool true); ("instance_id", JStr instanceID);
      ("public_key", JStr (id_PublicKey (fc_Identity cfg))); ("version", JStr "1.0.0");
      ("status", JStr (status_text trusted))])).

Definition register : handler := fun _ r =>
  enlist false r (fun _ trusted =>
    json_resp 200 (jmap [("status", JStr "registered"); ("state", JStr (status_text trusted))])).

Definition health : handler := fun _ _ =>
  count ← try_ (db_query (fun d => Z.of_nat (length (snapshots d))));
  mret (json_resp 200 (jmap [("instance_name", JStr (fc_InstanceName cfg)); ("version", JStr "1.0.0");
    ("snapshot_count", JInt (match count with inr n => n | inl _ => 0 end));
    ("public_key", JStr (id_PublicKey (fc_Identity cfg)))])).

(** ORDER BY ingested_at ASC *)
Definition ingested_le (a b : snapshot) : Prop := s_at a <= s_at b.

#[local] Instance ingested_le_dec a b : Decision (ingested_le a b).
Proof. unfold ingested_le. apply _. Defined.

Definition snapshot_page (since : string) (d : db) : list snapshot :=
  take 100 (merge_sort ingested_le (sel (fun s => after_text since (s_at s)) (snapshots d))).

Definition snapshot_json (s : snapshot) : json :=
  jmap [("candidate_id", JStr (s_cand s)); ("payload_json", JStr (s_payload s)); ("node_id", JStr (s_node s));
        ("ingested_at", JInt (s_at s)); ("signature", JStr (Hex.encode (default EmptyString (s_sig s))))].

(** A nil slice is [null]. *)
Definition json_list (l : list json) : json := match l with [] => JNull | _ => JArr l end.

Definition fed_snapshots : handler := fun _ r =>
  let since := query_get r "since" in
  let since := if is_empty since then "0" else since in
  rows ← try_ (db_query (snapshot_page since));
  match rows with
  | inl _ => mret (http_error (error_text "db_error") 500)
  | inr l => mret (json_resp 200 (json_list (snapshot_json <$> l)))
  end.

Definition profile_prefix : string := "/fed/profile/".

Definition fed_profile : handler := fun _ r =>
  let cid := Utf8.str_drop (String.length profile_prefix) (r_path r) in
  if is_empty cid then mret (http_error (error_text "missing candidate_id") 400)
  else
    row ← try_ (db_query_row (fun d => head (sel (fun s => str_eqb (s_cand s) cid) (snapshots d))));
    match row with
    | inl _ => mret (http_error (error_text "not_found") 404)
    | inr s =>
        mret (json_resp 200 (jmap [("candidate_id", JStr (s_cand s)); ("payload_json", JStr (s_payload s));
          ("node_id", JStr (s_node s)); ("ingested_at", JInt (s_at s))]))
    end.

Definition fed_search : handler := fun _ r =>
  match decode_first (r_body r) with
  | None => mret (http_error (error_text "invalid_request") 400)
  | Some v =>
      if negb (struct_ok v && string_field_ok "query" v && int_field_ok "limit" v)
      then mret (http_error (error_text "invalid_request") 400)
      else
        let limit := int_field "limit" v in
        let limit := if limit <=? 0 then 20 else limit in
        let sanitized := SanitizeFTS5Query (string_field "query" v) in
        if is_empty sanitized then mret (json_resp 200 (JArr []))
        else
          rows ← try_ (db_query (fun d => sql_limit limit (fts_rows (snapshots_fts d) sanitized)));
          match rows with
          | inl _ => mret (json_resp 200 (JArr []))
          | inr l => mret (json_resp 200 (json_list ((fun cid => jmap [("candidate_id", JStr cid)]) <$> l)))
          end
  end.

(** [rows.Scan] stops at a NULL [last_seen_at], leaving the fields after it zero. *)
Definition peer_json (f : fed_instance) : json :=
  jmap [("instance_id", JStr (f_id f)); ("name", JStr (f_name f)); ("endpoint_url", JStr (f_endpoint f));
        ("public_key", JStr (f_pubkey f)); ("last_seen_at", JInt (default 0 (f_seen f)));
        ("is_active", JBool (match f_seen f with Some _ => f_active f | None => false end))].

Definition peers : handler := fun _ _ =>
  rows ← try_ (db_query (fun d => merge_sort name_le (sel f_active (federated_instances d))));
  match rows with
  | inl _ => mret (http_error (error_text "db_error") 500)
  | inr l => mret (json_resp 200 (json_list (peer_json <$> l)))
  end.

Definition heartbeat : handler := fun _ r =>
  now ← unix_now;
  _ ← ignore (db_exec (FedHeartbeat now (header r "X-Fed-Public-Key")));
  mret (json_resp 200 (jmap [("status", JStr "ok")])).

(** The paths of the [http.ServeMux]. *)
Inductive route := RHandshake | RHealth | RSnapshots | RProfile | RSearch | RRegister | RPeers | RHeartbeat.

Definition route_of (path : string) : option route :=
  if str_eqb path "/fed/handshake" then Some RHandshake
  else if str_eqb path "/fed/health" then Some RHealth
  else if str_eqb path "/fed/snapshots" then Some RSnapshots
  else if has_prefix path profile_prefix then Some RProfile
  else if str_eqb path "/fed/search" then Some RSearch
  else if str_eqb path "/fed/register" then Some RRegister
  else if str_eqb path "/fed/peers" then Some RPeers
  else if str_eqb path "/fed/heartbeat" then Some RHeartbeat
  else None.

Definition serve (rt : route) : handler :=
  match rt with
  | RHandshake => handshake | RHealth => health | RSnapshots => fed_snapshots | RProfile => fed_profile
  | RSearch => fed_search | RRegister => register | RPeers => peers | RHeartbeat => heartbeat
  end.

(** [Routes]: for a clean path (the mux redirects any other to its clean form). *)
Definition Routes : handler :=
  fedAuth (fun c r =>
    match route_of (r_path r) with
    | Some rt => serve rt c r
    | None => if str_eqb (r_path r) "/fed/profile" then mret (Resp 301 [] [] (BRedirect profile_prefix)) else mret not_found
    end).

(** ** Pool discipline *)

Lemma good_enlist e r a : good (enlist e r a).
Proof. unfold enlist. solve_good. Qed.
Lemma good_endpoint rt c r : good (serve rt c r).
Proof.
  destruct rt; simpl; unfold handshake, register; try apply good_enlist;
    unfold health, fed_snapshots, fed_profile, fed_search, peers, heartbeat; solve_good.
Qed.
#[local] Hint Resolve good_enlist good_endpoint : good.
Lemma good_Routes c r : good (Routes c r).
Proof. unfold Routes, fedAuth. solve_good. Qed.

End Fed.
End Fed.

(** ** sync.go *)

Fixpoint rune_boundary (s : string) (n : nat) : nat :=
  match n with
  | O => O
  | S n' => match String.get n s with
            | Some c => if Utf8.RuneStart c then n else rune_boundary s n'
            | None => n
            end
  end.

Definition truncate (s : string) (maxLen : nat) : string :=
  if (String.length s <=? maxLen)%nat then s else Utf8.str_take (rune_boundary s maxLen) s.

Record peerSnapshot := mkPeerSnapshot { ps_CandidateID : string; ps_PayloadJSON : string; ps_NodeID : string; ps_IngestedAt : Z }.

Definition decode_snapshot (v : jval) : option peerSnapshot :=
  if struct_ok v && string_field_ok "candidate_id" v && string_field_ok "payload_json" v
     && string_field_ok "node_id" v && int_field_ok "ingested_at" v
  then Some (mkPeerSnapshot (string_field "candidate_id" v) (string_field "payload_json" v) (string_field "node_id" v)
               (int_field "ingested_at" v))
  else None.

(** [json.Unmarshal(resp, &snaps)] *)
Definition decode_snapshots (resp : string) : option (list peerSnapshot) :=
  match parse resp with
  | Some (VArr l) => mapM decode_snapshot l
  | Some VNull => Some []
  | _ => None
  end.

Module Sync.
Section Sync.
Context `{Env, Engine, Ed25519Keys, Urls}.
Context (ident : Identity).

(** SELECT coalesce(max(ingested_at), 0) ... WHERE peer_instance_id = ? *)
Definition last_ingested (instanceID : string) (d : db) : Z :=
  match fs_at <$> sel (fun s => str_eqb (fs_peer s) instanceID) (federated_snapshots d) with
  | [] => 0
  | t :: l => foldl Z.max t l
  end.

Definition lastSyncFor (instanceID : string) : M Z :=
  ts ← try_ (db_query (last_ingested instanceID));
  match ts with inr t => mret t | inl _ => mret 0 end.

Definition sync_url (endpointURL : string) (since : Z) : string :=
  endpointURL ++s "/fed/snapshots?since=" ++s itoa since ++s "&limit=50".

(** The two INSERTs for one snapshot; their errors are logged. *)
Definition store_snapshot (instanceID endpointURL : string) (snap : peerSnapshot) : M unit :=
  let preview := truncate (ps_PayloadJSON snap) 2048 in
  _ ← ignore (db_exec (ReplaceFedSnapshot ("fs_" ++s ps_CandidateID snap) instanceID (ps_CandidateID snap)
        preview (ps_NodeID snap) endpointURL (ps_IngestedAt snap)));
  ignore (db_exec (InsertFedFts (ps_CandidateID snap) preview)).

Definition syncPeer (instanceID endpointURL : string) : M unit :=
  since ← lastSyncFor instanceID;
  resp ← try_ (SignedGet ident (sync_url endpointURL since));
  match resp with
  | inl _ => mret tt
  | inr body =>
      match decode_snapshots body with
      | None => mret tt
      | Some snaps =>
          _ ← for_each snaps (store_snapshot instanceID endpointURL);
          now ← unix_now;
          ignore (db_exec (FedSeen now instanceID))
      end
  end.

(** The peers' rows stay open, and with them the pool's connection, while each is synced. *)
Definition syncOnce : M unit :=
  ignore (db_rows (fun d => sel f_active (federated_instances d)) (fun p => syncPeer (f_id p) (f_endpoint p))).

End Sync.
End Sync.
