(* ===== verification/FederationFacts.v ===== *)
(** * What federation guarantees, and what it does not

    Who becomes an active peer, who passes the signature gate, that a signed request of the
    client is accepted by the gate of its peer, that an identity survives its file, that
    previews are cut between characters, and that the syncer waits forever on the connection
    it holds. *)

From S2P Require Import Prelude RateLimit AdminStore Schema Statements Invariants World.
From S2P Require Import GoStrings Utf8Facts GoJson JsonFacts GoTime Sha256 Float Runs Samples Repo RepoFacts Auth AuthFacts Http.
From S2P Require Import Middleware AuthHandlers FedRepo Ingest Search Outbox Federation.

Open Scope Z_scope.

Section Gate.
Context `{Env, Engine, Unicode, Ed25519Keys, FedEngine}.
Context (cfg : FedConfig).

Definition fed_key (r : request) : string := header r "X-Fed-Public-Key".
Definition fed_sig (r : request) : string := header r "X-Fed-Signature".
Definition signed (r : request) : bool := VerifySignatureStr (fed_key r) (r_body r) (fed_sig r).

(** ** Becoming active *)

(** A peer as the gate and the syncer know it. *)
Definition same_peer (f0 f : fed_instance) : Prop :=
  f_id f0 = f_id f /\ f_key f0 = f_key f /\ f_endpoint f0 = f_endpoint f /\ f_active f0 = f_active f.

(** The active peers of [d'] were active in [d], but for the one the request enlists. *)
Definition activates (r : request) (d d' : db) : Prop :=
  forall f, f ∈ federated_instances d' -> f_active f = true ->
    (exists f0, f0 ∈ federated_instances d /\ same_peer f0 f) \/
    (fc_JoinSecret cfg <> EmptyString /\ header r "X-Fed-Join-Secret" = fc_JoinSecret cfg /\ signed r = true /\
     r_path r ∈ ["/fed/handshake"; "/fed/register"] /\
     exists name, Fed.decode_peer (r_body r) = Some (name, f_endpoint f, f_key f) /\ f_id f = "fed_" ++s name).

#[local] Instance activates_refl r : Reflexive (activates r).
Proof. intros d f Hf Ha. left. by exists f. Qed.

Lemma join_secret r :
  Fed.joinSecretMatches cfg r = true -> fc_JoinSecret cfg <> EmptyString /\ header r "X-Fed-Join-Secret" = fc_JoinSecret cfg.
Proof.
  unfold Fed.joinSecretMatches. destruct (is_empty (fc_JoinSecret cfg)) eqn:E; [done|].
  destruct (is_empty (header _ _)); [done|]. intros ?. by bool_prop.
Qed.

Lemma moves_enlist early r a :
  signed r = true -> r_path r ∈ ["/fed/handshake"; "/fed/register"] -> moves (activates r) (Fed.enlist cfg early r a).
Proof.
  intros Hs Hp. unfold Fed.enlist. destruct (Fed.decode_peer (r_body r)) as [[[name ep] pk]|] eqn:Ed;
    [|apply moves_quiet; [apply _|solve_frame]].
  apply moves_bind_l; [apply _|destruct early; solve_frame|intros t0].
  apply moves_bind_l; [apply _|solve_frame|intros ex].
  assert (moves (activates r)
    (now ← (if early then mret t0 else unix_now); let trusted := Fed.joinSecretMatches cfg r in
     _ ← ignore (db_exec (ReplaceFedInstance ("fed_" ++s name) name ep pk pk trusted now)); mret (a ("fed_" ++s name) trusted))) as Hm.
  { apply moves_bind_l; [apply _|destruct early; solve_frame|intros now]. cbv zeta.
    apply moves_bind_r; [|solve_frame]. apply moves_ignore,  moves_db_exec; [apply _|].
    intros d d' n E f Hf Ha. cbn [exec_stmt] in E. destruct (fed_fk_ok _); [|done]. injection E as <- <-.
    simpl in Hf. apply elem_of_app in Hf as [[_ Hf]%elem_of_del| ->%list_elem_of_singleton]; [left; by exists f|right].
    simpl in *. destruct (join_secret r Ha). split_and!; eauto. }
  destruct ex as [e|[]]; [exact Hm|apply moves_quiet; [apply _|solve_frame]|exact Hm].
Qed.

Lemma bootstrap_path p rt :
  Fed.route_of p = Some rt -> rt = Fed.RHandshake \/ rt = Fed.RRegister -> p ∈ ["/fed/handshake"; "/fed/register"].
Proof.
  unfold Fed.route_of. intros E Hr.
  destruct (str_eqb p "/fed/handshake") eqn:E1; [apply str_eqb_true in E1 as ->; apply list_elem_of_here|].
  destruct (str_eqb p "/fed/register") eqn:E2; [apply str_eqb_true in E2 as ->; apply list_elem_of_further, list_elem_of_here|].
  destruct Hr; repeat case_match; congruence.
Qed.

Lemma moves_serve r c rt :
  signed r = true -> Fed.route_of (r_path r) = Some rt -> moves (activates r) (Fed.serve cfg rt c r).
Proof.
  intros Hs Hr. destruct rt; cbn [Fed.serve];
    try (apply moves_enlist; [done|by eapply bootstrap_path; eauto]).
  1-5: apply moves_quiet; [apply _|unfold Fed.health, Fed.fed_snapshots, Fed.fed_profile, Fed.fed_search, Fed.peers; solve_frame].
  unfold Fed.heartbeat. apply moves_bind_l; [apply _|solve_frame|intros now]. apply moves_bind_r; [|solve_frame].
  apply moves_ignore,  moves_db_exec; [apply _|]. intros d d' n E f Hf Ha. cbn [exec_stmt] in E. unfold updating in E. simplify_eq.
  left. simpl in Hf. apply elem_of_upd in Hf as (f0 & Hf & ->). exists f0. split; [done|]. by destruct (str_eqb _ _).
Qed.

(** C11: nobody becomes an active peer without the join secret.  Whatever request arrives,
    at whatever route and with whatever outcome, an instance that is active afterwards was
    active before under the same id, key and endpoint, unless the request was signed, went to
    a bootstrap endpoint and showed the configured, non-empty join secret; then it is the
    instance the request's body names. *)
Theorem activation_needs_secret c r w : activates r (w_db w) (w_db (Fed.Routes cfg c r w).2).
Proof.
  revert w. change (moves (activates r) (Fed.Routes cfg c r)). unfold Fed.Routes, Fed.fedAuth. fold (fed_key r) (fed_sig r).
  assert (signed r = true -> moves (activates r) (match Fed.route_of (r_path r) with
    | Some rt => Fed.serve cfg rt c r
    | None => if str_eqb (r_path r) "/fed/profile" then mret (Resp 301 [] [] (BRedirect Fed.profile_prefix)) else mret not_found
    end)) as Hn.
  { intros Hs. destruct (Fed.route_of (r_path r)) as [rt|] eqn:E; [by apply moves_serve|].
    apply moves_quiet; [apply _|solve_frame]. }
  cbv zeta. fold (fed_key r) (fed_sig r) (signed r). destruct (_ || _); [apply moves_quiet; [apply _|solve_frame]|].
  destruct (signed r); simpl; [|apply moves_quiet; [apply _|solve_frame]]. specialize (Hn eq_refl).
  destruct (Fed.bootstrap _); [exact Hn|]. apply moves_bind_l; [apply _|solve_frame|]. intros [e|f].
  - apply moves_quiet; [apply _|solve_frame].
  - destruct (f_active f); [exact Hn|]. apply moves_quiet; [apply _|solve_frame].
Qed.

(** ** The gate *)

Definition refused (code : string) : outcome response := Ok (http_error (error_text code) 401).

(** The gate on a signed request away from the bootstrap endpoints. *)
Lemma gate_row next c r w :
  w_conn w = true -> is_empty (fed_sig r) = false -> is_empty (fed_key r) = false -> signed r = true ->
  Fed.bootstrap (r_path r) = false ->
  Fed.fedAuth next c r w =
    match (if sql_fails (w_tick w) then None else Fed.peer_by_key (fed_key r) (w_db w)) with
    | Some f => if f_active f then next c r (tick w) else (refused "unknown or inactive peer", tick w)
    | None => (refused "unknown or inactive peer", tick w)
    end.
Proof.
  intros Hc Es Ek Ev Ep. unfold Fed.fedAuth. fold (fed_key r) (fed_sig r). fold (signed r). rewrite Es, Ek, Ev, Ep. simpl.
  unfold db_query_row, with_conn, sql_read, try_, mbind, M_bind. rewrite Hc. simpl.
  pose proof (set_conn_same _ Hc) as Hs. unfold tick in *. simpl in Hs.
  destruct (sql_fails (w_tick w)); simpl; [by rewrite Hs|].
  destruct (Fed.peer_by_key _ _) as [f|]; simpl; rewrite Hs; [|done]. by destruct (f_active f).
Qed.

(** Who passes the gate, exactly.  Without both headers, or with a signature of the body
    that does not verify under the key shown, the answer is 401 and nothing is read.  A
    verified request goes through at a bootstrap endpoint; anywhere else it goes through
    exactly when the row of its key, looked up among the rows not revoked, is active, and a
    failing lookup refuses it. *)
Theorem fed_gate next c r w :
  w_conn w = true ->
  Fed.fedAuth next c r w =
    if is_empty (fed_sig r) || is_empty (fed_key r) then (refused "missing federation auth headers", w)
    else if negb (signed r) then (refused "invalid federation signature", w)
    else if Fed.bootstrap (r_path r) then next c r w
    else match (if sql_fails (w_tick w) then None else Fed.peer_by_key (fed_key r) (w_db w)) with
         | Some f => if f_active f then next c r (tick w) else (refused "unknown or inactive peer", tick w)
         | None => (refused "unknown or inactive peer", tick w)
         end.
Proof.
  intros Hc. destruct (is_empty (fed_sig r)) eqn:Es; [|destruct (is_empty (fed_key r)) eqn:Ek].
  3: destruct (signed r) eqn:Ev; [destruct (Fed.bootstrap (r_path r)) eqn:Ep|]; [|by apply gate_row|].
  all: unfold Fed.fedAuth; fold (fed_key r) (fed_sig r); fold (signed r); rewrite ?Es, ?Ek, ?Ev, ?Ep; done.
Qed.

End Gate.

(** ** Registration *)

Section Register.
Context `{Env, Engine, Unicode, Ed25519Keys, FedEngine}.
Context (cfg : FedConfig) (Hsql : forall k, sql_fails k = false).

(** INSERT OR REPLACE: the new row takes the place of every row with its id or its key, unless
    a federated snapshot of one of these is left without its peer. *)
Definition enlisted (name ep pk : string) (active : bool) (now : Z) (d : db) : db :=
  match exec_stmt (ReplaceFedInstance ("fed_" ++s name) name ep pk pk active now) d with Some (d', _) => d' | None => d end.

Definition registered (trusted : bool) : response :=
  json_resp 200 (jmap [("status", JStr "registered"); ("state", JStr (Fed.status_text trusted))]).

Lemma try_row {A} (f : db -> option A) w :
  w_conn w = true ->
  try_ (db_query_row f) w = (Ok (match f (w_db w) with Some a => inr a | None => inl ErrNoRows end), tick w).
Proof.
  intros Hc. unfold db_query_row, with_conn, mbind, M_bind, try_, sql_read. rewrite Hc, Hsql. simpl.
  pose proof (set_conn_same _ Hc) as Hs. unfold tick in *. simpl in Hs. destruct (f (w_db w)); simpl; by rewrite Hs.
Qed.

Lemma ignore_exec s w :
  w_conn w = true ->
  ignore (db_exec s) w = (Ok tt, set_db (match exec_stmt s (w_db w) with Some (d, _) => d | None => w_db w end) (tick w)).
Proof.
  intros Hc. unfold ignore, db_exec, with_conn, sql_stmt, mbind, M_bind, try_. rewrite Hc, Hsql. simpl.
  destruct (exec_stmt s (w_db w)) as [[d n]|]; simpl; destruct w; simpl in *; by subst.
Qed.

Lemma run_register c r w :
  w_conn w = true ->
  Fed.register cfg c r w =
    match Fed.decode_peer (r_body r) with
    | None => (Ok (http_error (error_text "invalid_request") 400), w)
    | Some (name, ep, pk) =>
        let trusted := Fed.joinSecretMatches cfg r in
        match Fed.peer_active ("fed_" ++s name) (w_db w) with
        | Some true => (Ok (http_error (error_text "peer already registered and active") 409), tick w)
        | _ => (Ok (registered trusted),
                set_db (enlisted name ep pk trusted (unix (clock (S (w_tick w)))) (w_db w)) (tick (tick (tick w))))
        end
    end.
Proof.
  intros Hc. unfold Fed.register, Fed.enlist. destruct (Fed.decode_peer (r_body r)) as [[[name ep] pk]|]; [|done].
  erewrite run_bind by done. erewrite run_bind by exact (try_row _ _ Hc). cbv zeta.
  assert (Hk : (now ← unix_now; _ ← ignore (db_exec (ReplaceFedInstance ("fed_" ++s name) name ep pk pk (Fed.joinSecretMatches cfg r) now));
    mret (registered (Fed.joinSecretMatches cfg r))) (tick w) =
    (Ok (registered (Fed.joinSecretMatches cfg r)),
     set_db (enlisted name ep pk (Fed.joinSecretMatches cfg r) (unix (clock (S (w_tick w)))) (w_db w)) (tick (tick (tick w))))).
  { erewrite run_bind by done. by erewrite run_bind by (apply ignore_exec; exact Hc). }
  destruct (Fed.peer_active _ _) as [[]|]; [done|exact Hk..].
Qed.

(** Registration, exactly, when no statement fails for a reason outside the schema.  A body
    that does not decode is a 400; a name whose row is active a 409; otherwise the answer is
    [registered], active or pending by the join secret alone, whatever key the request was
    signed with and whether or not the row could be written. *)
Theorem register_exact c r w :
  w_conn w = true ->
  Fed.register cfg c r w =
    match Fed.decode_peer (r_body r) with
    | None => (Ok (http_error (error_text "invalid_request") 400), w)
    | Some (name, ep, pk) =>
        let trusted := Fed.joinSecretMatches cfg r in
        match Fed.peer_active ("fed_" ++s name) (w_db w) with
        | Some true => (Ok (http_error (error_text "peer already registered and active") 409), tick w)
        | _ => (Ok (registered trusted),
                set_db (enlisted name ep pk trusted (unix (clock (S (w_tick w)))) (w_db w)) (tick (tick (tick w))))
        end
    end.
Proof. apply run_register. Qed.

End Register.

(** ** Identities and signed requests *)

Section Identities.
Context `{Env, Engine, Unicode, Ed25519Keys, FedEngine, Urls}.

Lemma parse_identity id :
  Utf8.valid (id_PublicKey id) = true -> Utf8.valid (id_Seed id) = true ->
  exists raw1 raw2, parse (identity_file id)
    = Some (VObj [("public_key", raw1, VStr (id_PublicKey id)); ("seed", raw2, VStr (id_Seed id))]).
Proof.
  intros Hp Hs. unfold identity_file, quoted. rewrite !append_assoc.
  set (tail2 := lf ++s "}"). set (val2 := " " ++s dq ++s escape (id_Seed id) ++s dq ++s tail2).
  set (mem2 := lf ++s "  " ++s dq ++s escape "seed" ++s dq ++s ":" ++s val2).
  set (val1 := " " ++s dq ++s escape (id_PublicKey id) ++s dq ++s "," ++s mem2).
  set (mem1 := lf ++s "  " ++s dq ++s escape "public_key" ++s dq ++s ":" ++s val1).
  change (exists raw1 raw2, parse ("{" ++s mem1) = Some (VObj [("public_key", raw1, VStr (id_PublicKey id)); ("seed", raw2, VStr (id_Seed id))])).
  destruct (parse_member mem2 "seed" val2 (id_Seed id) tail2) as [raw2 E2]; [done..|].
  destruct (parse_member mem1 "public_key" val1 (id_PublicKey id) ("," ++s mem2)) as [raw1 E1]; [done..|].
  exists raw1, raw2. apply (parse_object mem1 _ 4); [unfold mem1; rewrite length_append; simpl; lia|done|].
  intros f. exists EmptyString. change (4 + f)%nat with (S (S (S (S f)))). rewrite E1.
  change (skip_ws ("," ++s mem2)) with (String "," mem2). cbv iota beta. by rewrite E2.
Qed.

Lemma own_signature seed msg :
  VerifySignatureStr (id_PublicKey (new_identity seed)) msg (id_Sign (new_identity seed) msg) = true.
Proof.
  unfold VerifySignatureStr, id_Sign, new_identity. cbn [id_PublicKey id_priv].
  rewrite !Hex.decode_encode, public_length, sign_length. apply sign_verifies.
Qed.

(** C23: an identity survives its file.  A first start writes a file from which every later start,
    whatever else it would have drawn, loads the same identity without writing, and what that
    identity signs verifies under the public key it shows its peers. *)
Theorem identity_survives_restart seed draw writable id text :
  String.length seed = 32%nat ->
  LoadOrCreateIdentity None (Some seed) true = (Ok id, Some text) ->
  LoadOrCreateIdentity (Some text) draw writable = (Ok id, None) /\
  forall msg, VerifySignatureStr (id_PublicKey id) msg (id_Sign id msg) = true.
Proof.
  intros Hl E. unfold LoadOrCreateIdentity in E. injection E as <- <-. split.
  - unfold LoadOrCreateIdentity, load_identity.
    destruct (parse_identity (new_identity seed)) as (raw1 & raw2 & ->); [apply valid_hex..|].
    unfold new_identity, string_field, string_field_ok, field_values. cbn [id_PublicKey id_Seed].
    set (ms := members _). assert (filter (fun m : string * string * jval => fold_name m.1.1 = fold_name "seed") ms
      = [("seed", raw2, VStr (Hex.encode seed))]) as -> by done.
    assert (filter (fun m : string * string * jval => fold_name m.1.1 = fold_name "public_key") ms
      = [("public_key", raw1, VStr (Hex.encode (ed25519_Public seed)))]) as -> by done.
    simpl. by rewrite Hex.decode_encode, Hl.
  - apply own_signature.
Qed.

(** The request [r] as the peer's server reads what the client sent as [rq]. *)
Definition delivers (rq : http_request) (r : request) : Prop :=
  r_body r = rq_body rq /\ forall k, header r k = default EmptyString (assoc k (rq_headers rq)).

(** What both kinds of request have in common. *)
Lemma request_signed id url payload w o w1 rq r :
  SignedPost id url payload w = (o, w1) \/ SignedGet id url w = (o, w1) ->
  w_sent w1 = rq :: w_sent w -> delivers rq r ->
  fed_key r = id_PublicKey id /\ fed_sig r = id_Sign id (r_body r).
Proof.
  intros Hrun Hs [Hb Hh]. unfold fed_key, fed_sig. rewrite !Hh, Hb.
  enough (exists body extra, rq_body rq = body /\ rq_headers rq = signed_headers id body ++ extra) as (body & extra & -> & ->) by done.
  assert (Hn : forall {A} (l : list A) x, l <> x :: l).
  { intros A l x E. apply (f_equal length) in E. simpl in E. lia. }
  unfold SignedPost, SignedGet, client_do in Hrun.
  destruct Hrun as [E|E]; (destruct (url_ok url); [|by injection E as _ <-; destruct (Hn _ _ _ Hs)]);
    unfold http_send, mbind, M_bind in E; simpl in E; destruct (http_answer _ _) as [?|[]]; injection E as _ <-;
    simpl in Hs; injection Hs as <-; simpl; eauto.
Qed.

Lemma posted_body id url payload w o w1 rq :
  SignedPost id url payload w = (o, w1) -> w_sent w1 = rq :: w_sent w -> rq_body rq = encode payload.
Proof.
  unfold SignedPost. destruct (url_ok url).
  - unfold client_do, http_send, mbind, M_bind. intros E Hs. destruct (http_answer _ _) as [?|[]]; injection E as _ <-;
      simpl in Hs; by injection Hs as <-.
  - intros [= _ <-] Hs. apply (f_equal length) in Hs. simpl in Hs. lia.
Qed.

(** Client and gate agree.  Every request the client sends with a created identity (a signed
    GET or POST, whatever the URL and payload), read as it was sent, passes the signature
    check of the peer's gate; so the peer serves it exactly when the row of the identity's key
    is active. *)
Theorem client_passes_gate seed url payload w o w1 rq next c r w2 :
  let id := new_identity seed in
  (SignedPost id url payload w = (o, w1) \/ SignedGet id url w = (o, w1)) ->
  w_sent w1 = rq :: w_sent w -> delivers rq r -> Fed.bootstrap (r_path r) = false ->
  w_conn w2 = true -> sql_fails (w_tick w2) = false ->
  Fed.fedAuth next c r w2 =
    match Fed.peer_by_key (id_PublicKey id) (w_db w2) with
    | Some f => if f_active f then next c r (tick w2) else (refused "unknown or inactive peer", tick w2)
    | None => (refused "unknown or inactive peer", tick w2)
    end.
Proof.
  intros id Hrun Hs Hd Hp Hc Hf. destruct (request_signed _ _ _ _ _ _ _ _ Hrun Hs Hd) as [Ek Es].
  rewrite gate_row; [by rewrite Hf, Ek|done| | | |done].
  - rewrite Es. eapply Hex.encode_is_empty, sign_length.
  - rewrite Ek. eapply Hex.encode_is_empty, public_length.
  - unfold signed. rewrite Ek, Es. apply own_signature.
Qed.

(** ** Registration, from one instance to the other *)

Lemma discovery_sorted id name ep :
  discovery_payload id name ep
  = JObj [("endpoint_url", JStr ep); ("instance_name", JStr name); ("public_key", JStr (id_PublicKey id))].
Proof. vm_compute. reflexivity. Qed.

Lemma decode_first_parse s v : parse s = Some v -> decode_first s = Some v.
Proof. unfold parse, decode_first. destruct (parse_value _ _) as [[v' r]|]; [|done]. destruct (is_empty _); [|done]. by intros [= ->]. Qed.

Lemma discovery_read_back id name ep :
  Utf8.valid (id_PublicKey id) = true -> Utf8.valid name = true -> Utf8.valid ep = true ->
  Fed.decode_peer (encode (discovery_payload id name ep)) = Some (name, ep, id_PublicKey id).
Proof.
  intros Hk Hn He. rewrite discovery_sorted. set (j := JObj _). assert (plain j) as Hc.
  { constructor. repeat (constructor; [split; [reflexivity|by constructor]|]). constructor. }
  unfold Fed.decode_peer. rewrite (decode_first_parse _ _ (parse_encoded j Hc)). subst j. cbn [tree map fst snd].
  generalize (encode (JStr ep)) as raw1, (encode (JStr name)) as raw2, (encode (JStr (id_PublicKey id))) as raw3.
  intros raw1 raw2 raw3. set (v := VObj _).
  assert (field_values "endpoint_url" v = [(raw1, VStr ep)]) as Hf1 by (vm_compute; reflexivity).
  assert (field_values "instance_name" v = [(raw2, VStr name)]) as Hf2 by (vm_compute; reflexivity).
  assert (field_values "public_key" v = [(raw3, VStr (id_PublicKey id))]) as Hf3 by (vm_compute; reflexivity).
  change (struct_ok v) with true. unfold string_field, string_field_ok. by rewrite Hf1, Hf2, Hf3.
Qed.

(** What the client posts carries no join secret. *)
Lemma post_no_secret cfg id url payload w o w1 rq r :
  SignedPost id url payload w = (o, w1) -> w_sent w1 = rq :: w_sent w -> delivers rq r ->
  Fed.joinSecretMatches cfg r = false.
Proof.
  intros E Hs [_ Hh]. unfold Fed.joinSecretMatches. rewrite Hh. destruct (is_empty (fc_JoinSecret cfg)); [done|].
  enough (assoc "X-Fed-Join-Secret" (rq_headers rq) = None) as -> by done. unfold SignedPost in E. destruct (url_ok url).
  - unfold client_do, http_send, mbind, M_bind in E. by destruct (http_answer _ _) as [?|[]]; injection E as _ <-; simpl in Hs; injection Hs as <-.
  - injection E as _ <-. apply (f_equal length) in Hs. simpl in Hs. lia.
Qed.

(** Snapshots are cached from an instance that registered under [key] by another name. *)
Definition orphaned (id key : string) (d : db) : bool :=
  has (fun s => has (fun f => str_eqb (f_id f) (fs_peer s) && str_eqb (f_key f) key) (federated_instances d)
                && negb (str_eqb (fs_peer s) id)) (federated_snapshots d).

(** REPLACE drops the rows of the same id and of the same key; it fails when that would leave
    a cached snapshot without its instance. *)
Lemma replace_fk id key r d : db_wf d -> f_id r = id ->
  fed_fk_ok (set_fed (fun t => del (fun f => str_eqb (f_id f) id || str_eqb (f_key f) key) t ++ [r]) d) = negb (orphaned id key d).
Proof.
  intros W Hid. apply eq_true_iff_eq. rewrite negb_true_iff. unfold fed_fk_ok, orphaned. simpl. rewrite has_false, forallb_forall. split.
  - intros Hall s Hs. apply not_true_iff_false. intros [(f & Hf & Hk)%has_true Hne]%andb_true_iff. bool_prop.
    specialize (Hall s (proj1 (list_elem_of_In _ _) Hs)). unfold has_peer in Hall. simpl in Hall.
    apply has_true in Hall as (f' & [Hf'|Hf']%elem_of_app & Ek); bool_prop.
    + apply elem_of_del in Hf' as [Hc Hf']. assert (f' = f) as -> by (eapply (NoDup_fmap_inj_on f_id); [apply W|done|done|congruence]).
      apply orb_false_iff in Hc as [_ Hc]. apply str_eqb_false in Hc. congruence.
    + apply list_elem_of_singleton in Hf' as ->. congruence.
  - intros Hno s Hs%list_elem_of_In. specialize (Hno s Hs). unfold has_peer. simpl. apply has_true.
    destruct (str_eqb (fs_peer s) id) eqn:E; bool_prop.
    + exists r. split; [apply elem_of_app; right; by apply list_elem_of_singleton|]. rewrite Hid, E. apply str_eqb_refl.
    + pose proof (wf_fedsnaps_rows _ W s Hs) as (f & Hf & Ef)%has_true. exists f. split; [|done]. apply elem_of_app. left.
      apply elem_of_del. split; [|done]. bool_prop. apply orb_false_iff. rewrite !str_eqb_false. split; [congruence|]. intros Hk.
      assert (has (fun f => str_eqb (f_id f) (fs_peer s) && str_eqb (f_key f) key) (federated_instances d) = true) as Hh.
      { apply has_true. exists f. split; [done|]. by rewrite Ef, Hk, !str_eqb_refl. }
      rewrite Hh in Hno. simpl in Hno. by bool_prop.
Qed.

Lemma enlisted_row name ep key now d : db_wf d ->
  let id := "fed_" ++s name in
  if orphaned id key d then enlisted name ep key false now d = d
  else exists t, Fed.peer_by_key key (enlisted name ep key false now d) = Some (FedInstance id name ep key key (Some t) false t None).
Proof.
  intros W id. unfold enlisted. cbn [exec_stmt]. fold id. set (row := FedInstance id name ep key key (Some now) false now None).
  rewrite (replace_fk id key row d W eq_refl). destruct (orphaned id key d); [done|]. exists now. cbn [negb].
  unfold Fed.peer_by_key. cbn [federated_instances set_fed]. rewrite sel_app, sel_miss.
  - unfold sel, row. cbn [f_key f_revoked]. rewrite filter_cons. by rewrite decide_True by (by rewrite str_eqb_refl).
  - intros f [Hf _]%elem_of_del. apply orb_false_iff in Hf as [_ Hf]. by rewrite Hf.
Qed.

(** C22: what becomes of a registration.  What an instance announces (its name, its endpoint
    and the key of its identity, as JSON, signed) passes the gate of the peer's server and is
    read back as it was meant.  It never carries the join secret, so whatever secret the peer
    has set: a name that an active peer has is answered 409 and nothing changes; any other
    announcement is answered as pending, and the peer's next lookup of the key finds a row
    with exactly that name, endpoint and key, not active, until an admin approves it.  The one
    exception: while snapshots are cached from an instance with the same key and another name,
    the row is not stored, and the answer is the same. *)
Theorem registration_reaches_peer seed url name ep w o w1 rq cfg c r w2 :
  let id := new_identity seed in let row_id := "fed_" ++s name in
  Utf8.valid name = true -> Utf8.valid ep = true ->
  Discovery_Register id url name ep w = (o, w1) -> w_sent w1 = rq :: w_sent w ->
  delivers rq r -> r_path r = "/fed/register" ->
  (forall k, sql_fails k = false) -> w_conn w2 = true -> db_wf (w_db w2) ->
  let run := Fed.Routes cfg c r w2 in
  match Fed.peer_active row_id (w_db w2) with
  | Some true => run.1 = Ok (http_error (error_text "peer already registered and active") 409) /\ w_db run.2 = w_db w2
  | _ =>
      run.1 = Ok (registered false) /\
      if orphaned row_id (id_PublicKey id) (w_db w2) then w_db run.2 = w_db w2
      else exists t, Fed.peer_by_key (id_PublicKey id) (w_db run.2)
             = Some (FedInstance row_id name ep (id_PublicKey id) (id_PublicKey id) (Some t) false t None)
  end.
Proof.
  intros id row_id Hn He Hrun Hs Hd Hp Hsql Hc W run. unfold Discovery_Register in Hrun.
  destruct (SignedPost id (url ++s "/fed/register") (discovery_payload id name ep) w) as [o1 w1'] eqn:E.
  assert (w1' = w1) as -> by (unfold ignore, try_, mbind, M_bind in Hrun; rewrite E in Hrun; by destruct o1; injection Hrun as _ <-).
  destruct (request_signed _ _ _ _ _ _ _ _ (or_introl E) Hs Hd) as [Ek Es].
  assert (Hbody : r_body r = encode (discovery_payload id name ep)) by (rewrite (proj1 Hd); by eapply posted_body).
  assert (Fed.decode_peer (r_body r) = Some (name, ep, id_PublicKey id)) as Hdec.
  { rewrite Hbody. apply discovery_read_back; [apply valid_hex|done..]. }
  assert (Hroute : run = Fed.register cfg c r w2).
  { unfold run, Fed.Routes, Fed.fedAuth. fold (fed_key r) (fed_sig r). fold (signed r).
    assert (is_empty (fed_sig r) = false) as -> by (rewrite Es; eapply Hex.encode_is_empty, sign_length).
    assert (is_empty (fed_key r) = false) as -> by (rewrite Ek; eapply Hex.encode_is_empty, public_length).
    assert (signed r = true) as -> by (unfold signed; rewrite Ek, Es; apply own_signature). by rewrite Hp. }
  rewrite Hroute, (run_register cfg Hsql c r w2 Hc), Hdec. cbv zeta iota beta. rewrite (post_no_secret cfg _ _ _ _ _ _ _ _ E Hs Hd).
  fold row_id. set (now := unix (clock (S (w_tick w2)))).
  assert (Hstored : if orphaned row_id (id_PublicKey id) (w_db w2) then enlisted name ep (id_PublicKey id) false now (w_db w2) = w_db w2
    else exists t, Fed.peer_by_key (id_PublicKey id) (enlisted name ep (id_PublicKey id) false now (w_db w2))
           = Some (FedInstance row_id name ep (id_PublicKey id) (id_PublicKey id) (Some t) false t None)) by by apply enlisted_row.
  destruct (Fed.peer_active _ _) as [[]|]; [done|by split..].
Qed.

End Identities.

(** ** Previews *)

Lemma rune_boundary_spec s n : (n < String.length s)%nat ->
  (rune_boundary s n <= n)%nat /\ boundary s (rune_boundary s n) /\ forall k, (k <= n)%nat -> boundary s k -> (k <= rune_boundary s n)%nat.
Proof.
  induction n as [|n IH]; intros Hn; cbn [rune_boundary].
  - split_and!; [lia| |lia]. unfold boundary. destruct s; [simpl in Hn; lia|by left].
  - destruct (get_inside (S n) s Hn) as [c Hc]. rewrite Hc. destruct (Utf8.RuneStart c) eqn:E.
    + split_and!; [lia| |lia]. unfold boundary. rewrite Hc. by right.
    + destruct IH as (H1 & H2 & H3); [lia|]. split_and!; [lia|done|]. intros k Hk Hb.
      destruct (decide (k = S n)) as [->|]; [|apply H3; [lia|done]].
      unfold boundary in Hb. rewrite Hc in Hb. destruct Hb; [lia|congruence].
Qed.

Lemma take_prefix k s : has_prefix s (Utf8.str_take k s) = true.
Proof. apply has_prefix_iff. exists (Utf8.str_drop k s). by rewrite Utf8.take_drop. Qed.

(** C37: what the preview of a peer's profile keeps.  [truncate] returns a prefix of at most
    [maxLen] bytes, all of a text that fits; from valid UTF-8 it never leaves half a
    character, and it drops at most three bytes more than it must. *)
Theorem truncate_keeps_characters s n :
  has_prefix s (truncate s n) = true /\ (String.length (truncate s n) <= n)%nat /\
  ((String.length s <= n)%nat -> truncate s n = s) /\
  (Utf8.valid s = true ->
     Utf8.valid (truncate s n) = true /\ ((n < String.length s)%nat -> (n <= String.length (truncate s n) + 3)%nat)).
Proof.
  unfold truncate. destruct (Nat.leb_spec (String.length s) n) as [Hl|Hl].
  - split_and!; [apply has_prefix_refl|done|done|]. intros Hv. split; [done|lia].
  - destruct (rune_boundary_spec s n Hl) as (H1 & H2 & H3). rewrite !Utf8.length_take.
    split_and!; [apply take_prefix|lia|lia|]. intros Hv. split; [by apply take_boundary|]. intros _.
    destruct (boundary_near s Hv n Hl) as (k & Hk & Hb). specialize (H3 k ltac:(lia) Hb). lia.
Qed.

(** ** The syncer and the pool *)

Section SyncFacts.
Context `{Env, Engine, Unicode, Ed25519Keys, FedEngine, Urls}.

Lemma syncPeer_blocked ident i e w : w_conn w = false -> Sync.syncPeer ident i e w = (Blocked, w).
Proof.
  intros Hc. unfold Sync.syncPeer, Sync.lastSyncFor, db_query, mbind, M_bind, try_. by rewrite blocked_without_conn.
Qed.

Lemma syncOnce_run ident w :
  w_conn w = true ->
  Sync.syncOnce ident w =
    if sql_fails (w_tick w) then (Ok tt, tick w)
    else match sel f_active (federated_instances (w_db w)) with
         | [] => (Ok tt, tick w)
         | _ :: _ => (Blocked, set_conn false (tick w))
         end.
Proof.
  intros Hc. pose proof (set_conn_same _ Hc) as Hs. unfold Sync.syncOnce. set (b := fun p => Sync.syncPeer _ _ _).
  assert (forall p l w', w_conn w' = false -> for_each (p :: l) b w' = (Blocked, w')) as Hb.
  { intros p l w' Hc'. cbn [for_each]. unfold mbind, M_bind, b. by rewrite syncPeer_blocked. }
  clearbody b. unfold ignore, db_rows, with_conn, try_, sql_read, mbind, M_bind.
  rewrite Hc. unfold tick in *. cbn [w_tick w_db set_conn fst snd] in *. destruct (sql_fails (w_tick w)).
  - simpl. by rewrite Hs.
  - destruct (sel f_active _) as [|p l]; [simpl; by rewrite Hs|]. by rewrite Hb.
Qed.

(** A sync pass never gets past its first peer.  The pass returns when its query fails or
    finds no active peer.  With an active peer it waits forever for the one pooled connection,
    which its own open rows hold: no request is sent, nothing is stored, and whatever handler
    or worker then asks for the database waits forever as well. *)
Theorem sync_pass_outcome ident w :
  w_conn w = true ->
  let run := Sync.syncOnce ident w in
  if sql_fails (w_tick w) then run = (Ok tt, tick w)
  else match sel f_active (federated_instances (w_db w)) with
       | [] => run = (Ok tt, tick w)
       | _ :: _ => run = (Blocked, set_conn false (tick w)) /\
                   (forall s, (db_exec s run.2).1 = Blocked) /\ (forall A (f : db -> A), (db_query f run.2).1 = Blocked) /\
                   (forall A (b : M (tx_end A)), (with_tx b run.2).1 = Blocked)
       end.
Proof.
  intros Hc run. unfold run. rewrite syncOnce_run by done. destruct (sql_fails _); [done|].
  destruct (sel f_active _); [done|]. by split_and!.
Qed.

End SyncFacts.

(** ** A concrete federation *)

#[local] Existing Instance sample_env.
#[local] Existing Instance sample_engine.
#[local] Existing Instance ascii_unicode.

(** A signature scheme without secrets: the key is the seed, a signature the key and the first
    bytes of the message. *)
Definition pad32 (s : string) : string := Utf8.str_take 32 (s ++s repeat_byte 32 "0").

Lemma length_pad32 s : String.length (pad32 s) = 32%nat.
Proof. unfold pad32. rewrite Utf8.length_take, length_append. change (String.length (repeat_byte 32 "0")) with 32%nat. lia. Qed.

Definition open_ed25519 : Ed25519 := {| ed25519_Verify key msg sig := str_eqb sig (key ++s pad32 msg) |}.
#[local] Existing Instance open_ed25519.

Definition open_keys : Ed25519Keys := {|
  ed25519_Public := pad32;
  ed25519_Sign seed msg := pad32 seed ++s pad32 msg;
  public_length := length_pad32;
  sign_length seed msg := eq_trans (length_append _ _) (f_equal2 Nat.add (length_pad32 seed) (length_pad32 msg));
  sign_verifies seed msg := str_eqb_refl _ |}.
#[local] Existing Instance open_keys.

(** A full-text match that finds nothing, and a comparison that reads the text as an integer. *)
Definition sample_fed : FedEngine :=
  {| fts_rows _ _ := []; after_text text t := match atoi text with Some z => z <? t | None => false end |}.
#[local] Existing Instance sample_fed.
#[local] Instance any_url : Urls := {| url_ok _ := true |}.

Definition peer_id : Identity := new_identity "peer".
Definition sample_cfg : FedConfig := mkFed "hb" "hunter2" (new_identity "host").

(** The row of the peer, approved. *)
Definition peer_row (active : bool) : fed_instance :=
  FedInstance "fed_peer" "peer" "https://peer.example" (id_PublicKey peer_id) (id_PublicKey peer_id) (Some 5) active 5 None.
Definition peer_world (active : bool) : world := set_db (set_fed (fun _ => [peer_row active]) empty_db) start_world.

(** A request signed by [id]. *)
Definition fed_request (id : Identity) (method path body : string) (extra : list (string * string)) : request :=
  Req method path "hb.example" "10.0.0.9:4711" true (signed_headers id body ++ extra) [] [] [] true [] body.

(** The registration another instance sends in the name [name], with the key of [id]. *)
Definition join_body (id : Identity) (name : string) : string := encode (discovery_payload id name "https://evil.example").

(** Showing the secret activates, leaving it out does not. *)
Theorem activation_needs_secret_witness :
  let other := new_identity "other" in
  let r extra := fed_request other "POST" "/fed/register" (join_body other "other") extra in
  let run extra := w_db (Fed.Routes sample_cfg empty_ctx (r extra) start_world).2 in
  (activates sample_cfg (r []) (w_db start_world) (run []) /\ sel f_active (federated_instances (run [])) = []) /\
  (activates sample_cfg (r [("X-Fed-Join-Secret", "hunter2")]) (w_db start_world) (run [("X-Fed-Join-Secret", "hunter2")]) /\
   f_id <$> sel f_active (federated_instances (run [("X-Fed-Join-Secret", "hunter2")])) = ["fed_other"]).
Proof.
  split; (split; [apply activation_needs_secret|vm_compute; reflexivity]).
Defined.

Theorem fed_gate_witness :
  Fed.fedAuth (fun _ _ => mret not_found) empty_ctx (fed_request peer_id "GET" "/fed/peers" EmptyString []) (peer_world false)
  = (refused "unknown or inactive peer", tick (peer_world false)).
Proof. rewrite fed_gate by reflexivity. vm_compute. reflexivity. Defined.

(** A stranger who registers under a new name with the key of an active peer, signing with its
    own, evicts it: the row is replaced by an inactive one. *)
Theorem register_exact_witness :
  let r := fed_request (new_identity "stranger") "POST" "/fed/register" (join_body peer_id "stranger") [] in
  signed r = true /\
  (Fed.register sample_cfg empty_ctx r (peer_world true)).1 = Ok (registered false) /\
  f_id <$> federated_instances (w_db (Fed.register sample_cfg empty_ctx r (peer_world true)).2) = ["fed_stranger"] /\
  Fed.fedAuth (fun _ _ => mret not_found) empty_ctx (fed_request peer_id "GET" "/fed/peers" EmptyString [])
    (Fed.register sample_cfg empty_ctx r (peer_world true)).2
  = (refused "unknown or inactive peer", tick (Fed.register sample_cfg empty_ctx r (peer_world true)).2).
Proof.
  cbv zeta. rewrite (register_exact sample_cfg (fun k => eq_refl : @sql_fails sample_env k = false) empty_ctx _ (peer_world true) eq_refl).
  split_and!; vm_compute; reflexivity.
Defined.

Theorem identity_survives_restart_witness :
  let seed := repeat_byte 32 "s" in
  LoadOrCreateIdentity (Some (identity_file (new_identity seed))) None false = (Ok (new_identity seed), None).
Proof. apply (identity_survives_restart (repeat_byte 32 "s") None false _ _ eq_refl eq_refl). Defined.

Theorem client_passes_gate_witness :
  let sent := SignedGet peer_id "https://hb.example/fed/peers" start_world in
  exists rq, w_sent sent.2 = [rq] /\
  Fed.fedAuth (fun _ _ => mret not_found) empty_ctx
    (Req (rq_method rq) "/fed/peers" "hb.example" "10.0.0.9:1" true (rq_headers rq) [] [] [] true [] (rq_body rq)) (peer_world true)
  = (Ok not_found, tick (peer_world true)).
Proof.
  eexists. split; [vm_compute; reflexivity|].
  etrans; [eapply (client_passes_gate "peer" "https://hb.example/fed/peers" JNull start_world)|].
  - right. vm_compute. reflexivity.
  - vm_compute. reflexivity.
  - split; [reflexivity|]. intros k. reflexivity.
  - reflexivity.
  - reflexivity.
  - reflexivity.
  - vm_compute. reflexivity.
Defined.

Theorem sync_pass_outcome_witness :
  Sync.syncOnce peer_id (peer_world true) = (Blocked, set_conn false (tick (peer_world true))) /\
  Sync.syncOnce peer_id (peer_world false) = (Ok tt, tick (peer_world false)).
Proof.
  split; [exact (proj1 (sync_pass_outcome peer_id (peer_world true) eq_refl))|exact (sync_pass_outcome peer_id (peer_world false) eq_refl)].
Defined.

Lemma peer_world_wf : db_wf (w_db (peer_world true)).
Proof.
  pose proof empty_db_wf as W. constructor; simpl; try apply NoDup_nil_2; try (by apply NoDup_singleton);
    try (by intros r []%elem_of_nil). all: by intros r ->%list_elem_of_singleton.
Qed.

(** The announcement of [peer_id], delivered to an instance that knows nobody, and again
    once an admin has approved it. *)
Definition announced : http_request :=
  default (HttpRequest EmptyString EmptyString [] EmptyString)
    (head (w_sent (Discovery_Register peer_id "https://hb.example" "peer" "https://peer.example" start_world).2)).

Definition announcement : request :=
  Req "POST" "/fed/register" "hb.example" "10.0.0.9:1" true (rq_headers announced) [] [] [] true [] (rq_body announced).

Theorem registration_reaches_peer_witness :
  let first := Fed.Routes sample_cfg empty_ctx announcement start_world in
  let again := Fed.Routes sample_cfg empty_ctx announcement (peer_world true) in
  first.1 = Ok (registered false) /\
  (exists t, Fed.peer_by_key (id_PublicKey peer_id) (w_db first.2)
    = Some (FedInstance "fed_peer" "peer" "https://peer.example" (id_PublicKey peer_id) (id_PublicKey peer_id) (Some t) false t None)) /\
  again.1 = Ok (http_error (error_text "peer already registered and active") 409) /\ w_db again.2 = w_db (peer_world true).
Proof.
  assert (forall w2, w_conn w2 = true -> db_wf (w_db w2) ->
    let run := Fed.Routes sample_cfg empty_ctx announcement w2 in
    match Fed.peer_active ("fed_" ++s "peer") (w_db w2) with
    | Some true => run.1 = Ok (http_error (error_text "peer already registered and active") 409) /\ w_db run.2 = w_db w2
    | _ => run.1 = Ok (registered false) /\
        if orphaned ("fed_" ++s "peer") (id_PublicKey peer_id) (w_db w2) then w_db run.2 = w_db w2
        else exists t, Fed.peer_by_key (id_PublicKey peer_id) (w_db run.2)
          = Some (FedInstance ("fed_" ++s "peer") "peer" "https://peer.example" (id_PublicKey peer_id) (id_PublicKey peer_id) (Some t) false t None)
    end) as Hrun.
  { intros w2 Hc W.
    apply (registration_reaches_peer "peer" "https://hb.example" "peer" "https://peer.example" start_world (Ok tt)
      (Discovery_Register peer_id "https://hb.example" "peer" "https://peer.example" start_world).2 announced sample_cfg empty_ctx announcement w2).
    - vm_compute. reflexivity.
    - vm_compute. reflexivity.
    - vm_compute. reflexivity.
    - vm_compute. reflexivity.
    - split; [reflexivity|intros k; reflexivity].
    - reflexivity.
    - intros k. reflexivity.
    - exact Hc.
    - exact W. }
  pose proof (Hrun start_world eq_refl empty_db_wf) as [Ha Hb].
  pose proof (Hrun (peer_world true) eq_refl peer_world_wf) as [Hc Hd].
  intros first again. exact (conj Ha (conj Hb (conj Hc Hd))).
Defined.
