(* ===== verification/Ledger.v ===== *)
(** * The ledger: what the database promises, without its rows

    An abstract machine of one-shot tickets: login links, device grants, API tokens and
    introduction orders, each a finite map from its key to its phase.  What may happen to a
    ticket is an event, with the time it happens where a deadline matters; [ledger_do] says
    when an event is allowed and what it leaves.  [ledger_of] reads the phases off the tables,
    [observed] the events off a statement and the number of rows it reports: every statement
    of the code is, in the ledger, exactly the events it was seen as.  [written] is the list of
    statements a run leaves in the tables, so every handler and every worker, failing or not,
    is a run of the machine whose events the statements name. *)

From S2P Require Import Prelude RateLimit AdminStore Schema Statements Invariants World.
From S2P Require Import GoStrings Samples Repo RepoFacts Auth AuthFacts.

Open Scope Z_scope.

(** ** The machine *)

(** A link can be redeemed until its deadline, once. *)
Inductive link := LOpen (deadline : Z) | LSpent (at_ : Z).
(** A grant waits for a user, is approved by one until its deadline, and is exchanged once. *)
Inductive grant := GPending (deadline : Z) | GApproved (user : string) (at_ : Z) | GExchanged (user : string) (at_ : Z) | GClosed.
(** A token acts for a user until it is revoked. *)
Inductive token := TLive (user scope : string) | TRevoked (at_ : Z).
(** An introduction is tried until it is delivered or given up; its tries are counted. *)
Inductive order := OOpen (tries : Z) | ODelivered (tries : Z) | OFailed (tries : Z) | OUndeliverable (tries : Z).

Record ledger := Ledger {
  l_links : gmap string link;
  l_grants : gmap string grant;
  l_tokens : gmap string token;
  l_orders : gmap string order }.

Inductive ticket_event :=
| LinkIssued (k : string) (deadline : Z) | LinkRedeemed (k : string) (now : Z)
| GrantStarted (k : string) (deadline : Z) | GrantApproved (k user : string) (now : Z) | GrantExchanged (k : string) (now : Z)
| TokenIssued (k user scope : string) | TokenRevoked (k : string) (now : Z)
| OrderQueued (k : string) | OrderRetried (k : string) | OrderDelivered (k : string) | OrderFailed (k : string)
| OrderDropped (k : string).

(** What an event makes of the ticket it is about ([None]: not issued yet), if it is allowed. *)
Definition link_do (e : ticket_event) (l : option link) : option link :=
  match e, l with
  | LinkIssued _ d, None => Some (LOpen d)
  | LinkRedeemed _ now, Some (LOpen d) => if now <=? d then Some (LSpent now) else None
  | _, _ => None
  end.

Definition grant_do (e : ticket_event) (g : option grant) : option grant :=
  match e, g with
  | GrantStarted _ d, None => Some (GPending d)
  | GrantApproved _ u now, Some (GPending d) => if now <=? d then Some (GApproved u now) else None
  | GrantExchanged _ now, Some (GApproved u _) => Some (GExchanged u now)
  | _, _ => None
  end.

(** A revoked token may be revoked again: the time of its revocation moves, nothing else. *)
Definition token_do (e : ticket_event) (t : option token) : option token :=
  match e, t with
  | TokenIssued _ u s, None => Some (TLive u s)
  | TokenRevoked _ now, Some _ => Some (TRevoked now)
  | _, _ => None
  end.

(** A delivered order may still be dropped: the node answered, then was gone. *)
Definition order_do (e : ticket_event) (o : option order) : option order :=
  match e, o with
  | OrderQueued _, None => Some (OOpen 0)
  | OrderRetried _, Some (OOpen n) => Some (OOpen (n + 1))
  | OrderDelivered _, Some (OOpen n) => Some (ODelivered n)
  | OrderFailed _, Some (OOpen n) => Some (OFailed (n + 1))
  | OrderDropped _, Some (OOpen n) | OrderDropped _, Some (ODelivered n) => Some (OUndeliverable n)
  | _, _ => None
  end.

Definition ledger_do (e : ticket_event) (L : ledger) : option ledger :=
  match e with
  | LinkIssued k _ | LinkRedeemed k _ =>
      (fun l => Ledger (<[k := l]> (l_links L)) (l_grants L) (l_tokens L) (l_orders L)) <$> link_do e (l_links L !! k)
  | GrantStarted k _ | GrantApproved k _ _ | GrantExchanged k _ =>
      (fun g => Ledger (l_links L) (<[k := g]> (l_grants L)) (l_tokens L) (l_orders L)) <$> grant_do e (l_grants L !! k)
  | TokenIssued k _ _ | TokenRevoked k _ =>
      (fun t => Ledger (l_links L) (l_grants L) (<[k := t]> (l_tokens L)) (l_orders L)) <$> token_do e (l_tokens L !! k)
  | OrderQueued k | OrderRetried k | OrderDelivered k | OrderFailed k | OrderDropped k =>
      (fun o => Ledger (l_links L) (l_grants L) (l_tokens L) (<[k := o]> (l_orders L))) <$> order_do e (l_orders L !! k)
  end.

(** A trace of events, every one of them allowed where it comes. *)
Fixpoint ledger_run (tr : list ticket_event) (L : ledger) : option ledger :=
  match tr with [] => Some L | e :: tr' => ledger_do e L ≫= ledger_run tr' end.

Definition ledger_step (L L' : ledger) : Prop := exists e, ledger_do e L = Some L'.

Lemma ledger_run_app tr1 tr2 L : ledger_run (tr1 ++ tr2) L = ledger_run tr1 L ≫= ledger_run tr2.
Proof. revert L. induction tr1 as [|e tr1 IH]; intros L; [done|]. simpl. by destruct (ledger_do e L); simpl. Qed.

Lemma ledger_run_steps tr L L' : ledger_run tr L = Some L' -> rtc ledger_step L L'.
Proof.
  revert L. induction tr as [|e tr IH]; intros L; simpl; [intros [= ->]; apply rtc_refl|].
  destruct (ledger_do e L) as [L1|] eqn:E; [|done]. intros Hr. eapply rtc_l; [by exists e|by apply IH].
Qed.

(** ** What the machine promises of its traces *)

(** Which ticket an event uses up. *)
Definition redeems (e : ticket_event) : option string := match e with LinkRedeemed k _ => Some k | _ => None end.
Definition approves (e : ticket_event) : option string := match e with GrantApproved k _ _ => Some k | _ => None end.
Definition exchanges (e : ticket_event) : option string := match e with GrantExchanged k _ => Some k | _ => None end.
Definition closes (e : ticket_event) : option string :=
  match e with OrderDelivered k | OrderFailed k => Some k | _ => None end.

(** No ticket is used twice in a trace, and none that was used up before it. *)
Definition one_shot (tr : list ticket_event) : Prop :=
  NoDup (omap redeems tr) /\ NoDup (omap approves tr) /\ NoDup (omap exchanges tr) /\ NoDup (omap closes tr).

Definition link_rank (o : option link) : nat := match o with Some (LSpent _) => 1 | _ => 0 end.
Definition grant_rank (o : option grant) : nat :=
  match o with Some (GApproved _ _) => 1 | Some (GExchanged _ _) => 2 | _ => 0 end.
Definition order_rank (o : option order) : nat := match o with None | Some (OOpen _) => 0 | _ => 1 end.

Section OneShot.
Context (pick : ticket_event -> option string) (rank : ledger -> string -> nat) (used : nat).
Context (Hmono : forall e L L' k, ledger_do e L = Some L' -> (rank L k <= rank L' k)%nat).
Context (Huse : forall e L L' k, ledger_do e L = Some L' -> pick e = Some k -> (rank L k < used <= rank L' k)%nat).

Lemma run_uses tr L L' : ledger_run tr L = Some L' ->
  NoDup (omap pick tr) /\ forall k, k ∈ omap pick tr -> (rank L k < used)%nat.
Proof.
  revert L. induction tr as [|e tr IH]; intros L; simpl; [intros _; split; [constructor|by intros k ?%elem_of_nil]|].
  destruct (ledger_do e L) as [L1|] eqn:E; [|done]. intros [Hd Hk]%IH.
  assert (forall k, k ∈ omap pick tr -> (rank L k < used)%nat) as Hk'.
  { intros k Hin. pose proof (Hk k Hin). pose proof (Hmono _ _ _ k E). lia. }
  destruct (pick e) as [k0|] eqn:Ek; [|done]. pose proof (Huse _ _ _ _ E Ek). split.
  - apply NoDup_cons. split; [|done]. intros Hin. pose proof (Hk k0 Hin). lia.
  - intros k [->|Hin]%elem_of_cons; [lia|by apply Hk'].
Qed.
End OneShot.

(** One event, case by case. *)
Ltac one_event :=
  let key := fresh in intros [] ? ? key; simpl; intros (x & Ex & ->)%fmap_Some; try (intros [= ->]); try done; simpl;
  rewrite ?lookup_insert_eq, ?lookup_insert; repeat (case_match; simplify_eq/=); try done;
  repeat match goal with E : ?m !! _ = _ |- context [?m !! _] => rewrite E end; simpl; lia.

Lemma run_one_shot tr L L' : ledger_run tr L = Some L' -> one_shot tr.
Proof.
  intros Hr. split_and!.
  - eapply (run_uses redeems (fun L k => link_rank (l_links L !! k)) 1); [..|exact Hr]; one_event.
  - eapply (run_uses approves (fun L k => grant_rank (l_grants L !! k)) 1); [..|exact Hr]; one_event.
  - eapply (run_uses exchanges (fun L k => grant_rank (l_grants L !! k)) 2); [..|exact Hr]; one_event.
  - eapply (run_uses closes (fun L k => order_rank (l_orders L !! k)) 1); [..|exact Hr]; one_event.
Qed.

(** ** Reading the ledger off the tables *)

Definition link_phase (m : magic_token) : link :=
  match m_used m with None => LOpen (m_expires m) | Some t => LSpent t end.

Definition grant_phase (s : device_session) : grant :=
  let u := default EmptyString (d_user s) in
  match d_status s with
  | DPending => GPending (d_expires s)
  | DApproved => GApproved u (default 0 (d_approved s))
  | DConsumed => GExchanged u (default 0 (d_consumed s))
  | DDenied | DExpired => GClosed
  end.

Definition token_phase (t : api_token) : token :=
  match t_revoked t with None => TLive (t_user t) (default EmptyString (t_scope t)) | Some at_ => TRevoked at_ end.

Definition order_phase (i : intro) : order :=
  match i_status i with
  | IQueued | IRetrying => OOpen (i_attempts i)
  | IDelivered => ODelivered (i_attempts i)
  | IFailed => OFailed (i_attempts i)
  | IUndeliverable => OUndeliverable (i_attempts i)
  end.

(** A keyed table as a finite map. *)
Definition view {A B} (key : A -> string) (phase : A -> B) (t : list A) : gmap string B :=
  list_to_map ((fun r => (key r, phase r)) <$> t).

Definition ledger_of (d : db) : ledger :=
  Ledger (view m_hash link_phase (magic_tokens d)) (view d_hash grant_phase (device_sessions d))
    (view t_hash token_phase (api_tokens d)) (view i_id order_phase (introduction_requests d)).

(** ** Views under INSERT and UPDATE *)

Section View.
Context {A B : Type} (key : A -> string) (phase : A -> B).

Lemma view_cons x t : view key phase (x :: t) = <[key x := phase x]> (view key phase t).
Proof. done. Qed.

Lemma view_snoc t r : (forall r', r' ∈ t -> key r' <> key r) -> view key phase (t ++ [r]) = <[key r := phase r]> (view key phase t).
Proof.
  induction t as [|x t IH]; intros Hn; [done|]. rewrite <- app_comm_cons, !view_cons, IH.
  - rewrite insert_insert_ne; [done|]. apply Hn. left.
  - intros r' Hr'. apply Hn. by right.
Qed.

Lemma view_none t k : (forall r, r ∈ t -> key r <> k) -> view key phase t !! k = None.
Proof.
  intros Hn. apply not_elem_of_list_to_map_1. rewrite <- list_fmap_compose.
  intros (r & E & Hr)%list_elem_of_fmap. by eapply Hn; [exact Hr|].
Qed.

Lemma view_some t r : NoDup (key <$> t) -> r ∈ t -> view key phase t !! key r = Some (phase r).
Proof.
  intros Hd Hr. apply elem_of_list_to_map_1.
  - by rewrite <- list_fmap_compose.
  - apply list_elem_of_fmap. by exists r.
Qed.

(** An UPDATE that moves no phase. *)
Lemma view_same p f t : (forall r, key (f r) = key r) -> (forall r, p r = true -> phase (f r) = phase r) ->
  view key phase (upd p f t) = view key phase t.
Proof.
  intros Hk Hp. unfold view, upd. f_equal. rewrite <- list_fmap_compose. apply list_fmap_ext. intros _ r _. simpl.
  destruct (p r) eqn:E; [by rewrite Hk, Hp|done].
Qed.

Lemma sel_cons p x (t : list A) : sel p (x :: t) = if p x then x :: sel p t else sel p t.
Proof. unfold sel. rewrite filter_cons. by destruct (p x). Qed.

(** An UPDATE of the row under one key: it reports no row and changes nothing, or it finds the
    ticket and moves its phase. *)
Lemma view_upd p f t k :
  NoDup (key <$> t) -> (forall r, key (f r) = key r) -> (forall r, p r = true -> key r = k) ->
  (length (sel p t) = 0%nat /\ upd p f t = t) \/
  (exists r n, r ∈ t /\ p r = true /\ length (sel p t) = S n /\ view key phase t !! k = Some (phase r) /\
    view key phase (upd p f t) = <[k := phase (f r)]> (view key phase t)).
Proof.
  intros Hd Hk Hp. induction t as [|x t IH]; [by left|]. simpl in Hd. apply NoDup_cons in Hd as [Hx Hd].
  change (upd p f (x :: t)) with ((if p x then f x else x) :: upd p f t). rewrite sel_cons. destruct (p x) eqn:E.
  - right. exists x, (length (sel p t)). split_and!; [left|done|done| |].
    + rewrite view_cons, (Hp x E). apply lookup_insert_eq.
    + rewrite (upd_id p f t).
      * by rewrite !view_cons, Hk, (Hp x E), insert_insert_eq.
      * apply has_false. intros r Hr. destruct (p r) eqn:Er; [|done]. exfalso. apply Hx.
        rewrite (Hp x E), <- (Hp r Er). by apply list_elem_of_fmap_2.
  - destruct (IH Hd) as [[-> ->]|(r & n & Hr & Er & En & El & Ev)]; [by left|right].
    assert (key x <> k) as Hxk. { intros <-. apply Hx. rewrite <- (Hp r Er). by apply list_elem_of_fmap_2. }
    exists r, n. split_and!; [by right|done|done| |].
    + by rewrite view_cons, lookup_insert_ne.
    + rewrite !view_cons, Ev. by rewrite insert_insert_ne.
Qed.

End View.

(** ** Every statement is the events it is seen as *)

(** The events of a statement that reported [n] rows. *)
Definition observed (s : stmt) (n : nat) : list ticket_event :=
  match n with
  | O => []
  | S _ =>
      match s with
      | InsertMagic h _ _ exp => [LinkIssued h exp]
      | UseMagic now h => [LinkRedeemed h now]
      | InsertDevice h _ _ _ exp => [GrantStarted h exp]
      | ApproveDevice u now h => [GrantApproved h u now]
      | ConsumeDevice now h => [GrantExchanged h now]
      | InsertAPI h u _ _ sc _ => [TokenIssued h u sc]
      | RevokeAPI now h => [TokenRevoked h now]
      | InsertIntro id _ _ _ _ _ _ _ => [OrderQueued id]
      | IntroRetrying _ _ id => [OrderRetried id]
      | IntroDelivered _ id => [OrderDelivered id]
      | IntroFailed _ id => [OrderFailed id]
      | IntroUndeliverable _ id => [OrderDropped id]
      | _ => []
      end
  end.

Definition events (l : list (stmt * nat)) : list ticket_event := l ≫= fun x => observed x.1 x.2.

Lemma key_fresh {A} (key : A -> string) t k : negb (has (fun r => str_eqb (key r) k) t) = true -> forall r, r ∈ t -> key r <> k.
Proof. intros Hn%negb_true_iff. by apply has_key_fresh. Qed.

Lemma run_one e L L' : ledger_do e L = Some L' -> ledger_run [e] L = Some L'.
Proof. intros E. simpl. by rewrite E. Qed.

(** An INSERT is the first event of a new ticket. *)
Lemma issued {A B} (key : A -> string) (phase : A -> B) (do : option B -> option B) t r :
  (forall r', r' ∈ t -> key r' <> key r) -> do None = Some (phase r) ->
  (fun x => <[key r := x]> (view key phase t)) <$> do (view key phase t !! key r) = Some (view key phase (t ++ [r])).
Proof. intros Hn Hd. rewrite view_none by done. rewrite Hd. simpl. by rewrite view_snoc. Qed.

(** An UPDATE by key reports nothing and changes nothing, or it is an event of the ticket. *)
Lemma moved {A B} (key : A -> string) (phase : A -> B) (do : option B -> option B) t p f k :
  NoDup (key <$> t) -> (forall r, key (f r) = key r) -> (forall r, p r = true -> key r = k) ->
  (forall r, p r = true -> do (Some (phase r)) = Some (phase (f r))) ->
  (length (sel p t) = 0%nat /\ view key phase (upd p f t) = view key phase t) \/
  (exists n, length (sel p t) = S n /\
    (fun x => <[k := x]> (view key phase t)) <$> do (view key phase t !! k) = Some (view key phase (upd p f t))).
Proof.
  intros Hd Hk Hp He. destruct (view_upd key phase p f t k Hd Hk Hp) as [[-> ->]|(r & n & _ & Er & -> & El & Ev)]; [by left|right].
  exists n. split; [done|]. by rewrite El, He, Ev.
Qed.

(** One event per guarded statement. *)
Lemma use_magic_event h now m : magic_usable h now m = true ->
  link_do (LinkRedeemed h now) (Some (link_phase m)) = Some (link_phase (magic_used now m)).
Proof.
  unfold magic_usable, link_phase. intros ?. bool_prop. destruct (m_used m); [done|]. simpl. by rewrite (proj2 (Z.leb_le _ _)).
Qed.

Lemma approve_event h u now s : dev_approvable h now s = true ->
  grant_do (GrantApproved h u now) (Some (grant_phase s)) = Some (grant_phase (dev_approved u now s)).
Proof.
  unfold dev_approvable, grant_phase. intros ?. bool_prop. simpl.
  match goal with E : d_status s = _ |- _ => rewrite E end. by rewrite (proj2 (Z.leb_le _ _)).
Qed.

Lemma consume_event h now s : dev_consumable h s = true ->
  grant_do (GrantExchanged h now) (Some (grant_phase s)) = Some (grant_phase (dev_consumed now s)).
Proof.
  unfold dev_consumable, grant_phase. intros ?. bool_prop. simpl.
  by match goal with E : d_status s = _ |- _ => rewrite E end.
Qed.

Lemma revoke_event h now t : token_do (TokenRevoked h now) (Some (token_phase t)) = Some (token_phase (revoked now t)).
Proof. done. Qed.

Lemma pending_event id e (f : intro -> intro) i : intro_is id pending_status i = true ->
  order_do e (Some (OOpen (i_attempts i))) = Some (order_phase (f i)) ->
  order_do e (Some (order_phase i)) = Some (order_phase (f i)).
Proof. unfold intro_is. intros ? <-. bool_prop. unfold order_phase at 1. by destruct (i_status i). Qed.

Lemma undeliverable_event id e i : intro_is id undeliverable_from i = true ->
  order_do (OrderDropped id) (Some (order_phase i)) = Some (order_phase (intro_undeliverable e i)).
Proof. unfold intro_is, order_phase. intros ?. bool_prop. simpl. by destruct (i_status i). Qed.

Lemma intro_key id from i : intro_is id from i = true -> i_id i = id.
Proof. unfold intro_is. intros ?. by bool_prop. Qed.

(** An UPDATE seen as an event of one of the four tables. *)
Ltac seen Hv := apply run_one; apply fmap_Some in Hv as (x & Hx & Hv); unfold ledger_of; simpl in *; rewrite Hx; simpl; by rewrite Hv.
Ltac by_update Hmoved :=
  let Hn := fresh in let Hv := fresh in let n := fresh in
  destruct Hmoved as [[Hn Hv]|(n & Hn & Hv)];
  [done|done| | |rewrite Hn; simpl; unfold ledger_of; simpl; by rewrite Hv|rewrite Hn; seen Hv].
Ltac by_insert Hissued := let Hv := fresh in pose proof Hissued as Hv; seen Hv.

Section Refinement.
Context `{Engine}.

(** A statement that is no event of a ticket leaves the ledger as it is. *)
Lemma unseen (s : stmt) n L L' : (forall n, observed s n = []) -> L' = L -> ledger_run (observed s n) L = Some L'.
Proof. intros Ho ->. by rewrite Ho. Qed.

Lemma exec_stmt_observed s d d' n : db_wf d -> exec_stmt s d = Some (d', n) ->
  ledger_run (observed s n) (ledger_of d) = Some (ledger_of d').
Proof.
  intros W E. pose proof (wf_magic_id _ W). pose proof (wf_devices_id _ W). pose proof (wf_api_id _ W). pose proof (wf_intros_id _ W).
  destruct s; simpl in E; unfold updating, deleting, inserting in E;
    repeat (case_match; try discriminate); simplify_eq; try (apply unseen; [by intros []|reflexivity]);
    repeat match goal with H : (_ && _)%bool = true |- _ => apply andb_true_iff in H as [H _] end.
  - (* InsertMagic *) by_insert (issued m_hash link_phase (link_do (LinkIssued hash expiresAt)) (magic_tokens d)
      (MagicToken hash userID deviceCodeHash expiresAt None) ltac:(by apply key_fresh) eq_refl).
  - (* UseMagic *) by_update (moved m_hash link_phase (link_do (LinkRedeemed hash now)) (magic_tokens d)
      (magic_usable hash now) (magic_used now) hash).
    + unfold magic_usable. intros r Hr. by bool_prop.
    + apply use_magic_event.
  - (* InsertAPI *) by_insert (issued t_hash token_phase (token_do (TokenIssued hash userID scope)) (api_tokens d)
      (APIToken hash userID nodeID (Some label) (Some scope) now None None) ltac:(by apply key_fresh) eq_refl).
  - (* TouchAPI *) apply unseen; [by intros []|]. unfold ledger_of. simpl. by rewrite view_same.
  - (* RevokeAPI *) by_update (moved t_hash token_phase (token_do (TokenRevoked hash now)) (api_tokens d)
      (fun a => str_eqb (t_hash a) hash) (revoked now) hash).
    + intros r Hr. by bool_prop.
    + intros r _. by apply revoke_event.
  - (* InsertDevice *) by_insert (issued d_hash grant_phase (grant_do (GrantStarted codeHash expiresAt)) (device_sessions d)
      (DeviceSession codeHash userCode None DPending nodeID now expiresAt None None 5 None) ltac:(by apply key_fresh) eq_refl).
  - (* ApproveDevice *) by_update (moved d_hash grant_phase (grant_do (GrantApproved codeHash userID now)) (device_sessions d)
      (dev_approvable codeHash now) (dev_approved userID now) codeHash).
    + unfold dev_approvable. intros r Hr. by bool_prop.
    + apply approve_event.
  - (* ConsumeDevice *) by_update (moved d_hash grant_phase (grant_do (GrantExchanged codeHash now)) (device_sessions d)
      (dev_consumable codeHash) (dev_consumed now) codeHash).
    + unfold dev_consumable. intros r Hr. by bool_prop.
    + apply consume_event.
  - (* SetLastPoll *) apply unseen; [by intros []|]. unfold ledger_of. simpl. by rewrite view_same.
  - (* InsertIntro *) by_insert (issued i_id order_phase (order_do (OrderQueued id)) (introduction_requests d)
      (Intro id candidateID recruiterUserID nodeID IQueued now None name email company 0 None None) ltac:(by apply key_fresh) eq_refl).
  - (* IntroDelivered *) by_update (moved i_id order_phase (order_do (OrderDelivered id)) (introduction_requests d)
      (intro_is id pending_status) (intro_delivered now) id).
    + apply intro_key.
    + intros r Hr. by apply (pending_event id _ (intro_delivered now)).
  - (* IntroRetrying *) by_update (moved i_id order_phase (order_do (OrderRetried id)) (introduction_requests d)
      (intro_is id pending_status) (intro_retrying lastErr nextAttemptAt) id).
    + apply intro_key.
    + intros r Hr. by apply (pending_event id _ (intro_retrying lastErr nextAttemptAt)).
  - (* IntroFailed *) by_update (moved i_id order_phase (order_do (OrderFailed id)) (introduction_requests d)
      (intro_is id pending_status) (intro_failed lastErr) id).
    + apply intro_key.
    + intros r Hr. by apply (pending_event id _ (intro_failed lastErr)).
  - (* IntroUndeliverable *) by_update (moved i_id order_phase (order_do (OrderDropped id)) (introduction_requests d)
      (intro_is id undeliverable_from) (intro_undeliverable reason) id).
    + apply intro_key.
    + intros r Hr. by apply undeliverable_event.
Qed.

Lemma evolves_simulated d d' : evolves d d' -> db_wf d -> rtc ledger_step (ledger_of d) (ledger_of d').
Proof.
  induction 1 as [d|d1 d2 d3 (s & n & E) _ IH]; intros W; [apply rtc_refl|].
  etrans; [|exact (IH (exec_stmt_wf _ _ _ _ E W))]. eapply ledger_run_steps, exec_stmt_observed; eauto.
Qed.

(** Statements that succeed one after another, each with the number of rows it reports. *)
Inductive executes : list (stmt * nat) -> db -> db -> Prop :=
| exec_none d : executes [] d d
| exec_then s n l d1 d2 d3 : exec_stmt s d1 = Some (d2, n) -> executes l d2 d3 -> executes ((s, n) :: l) d1 d3.

Lemma executes_app l1 l2 d1 d2 d3 : executes l1 d1 d2 -> executes l2 d2 d3 -> executes (l1 ++ l2) d1 d3.
Proof. induction 1; [done|]. intros. econstructor; eauto. Qed.

Lemma executes_wf l d d' : executes l d d' -> db_wf d -> db_wf d'.
Proof. induction 1; eauto using exec_stmt_wf. Qed.

Lemma executes_events l d d' : executes l d d' -> db_wf d -> ledger_run (events l) (ledger_of d) = Some (ledger_of d').
Proof.
  induction 1 as [d|s n l d1 d2 d3 E _ IH]; intros W; [done|]. unfold events. simpl.
  rewrite ledger_run_app, (exec_stmt_observed _ _ _ _ W E). simpl. apply IH. by eapply exec_stmt_wf.
Qed.

End Refinement.

(** ** The statements of a run *)

Section Written.
Context `{Env, Engine}.

Definition issued_stmt {A} {m : M A} (a : access A m) (w : world) : list (stmt * nat) :=
  match a with
  | acc_stmt s =>
      if sql_fails (w_tick w) then [] else match exec_stmt s (w_db w) with Some (_, n) => [(s, n)] | None => [] end
  | _ => []
  end.

(** The statements whose writes a run leaves in the tables, in their order: those of its
    committed transactions and those outside of any; a goroutine left waiting inside a
    transaction leaves what it wrote. *)
Fixpoint written {n p A} {m : M A} (c : code n p A m) (w : world) : list (stmt * nat) :=
  match c with
  | Effect _ _ _ _ _ => []
  | Access _ A m a => issued_stmt a w
  | Seq _ _ _ _ m f cm cf => written cm w ++ match m w with (Ok a, w1) => written (cf a) w1 | _ => [] end
  | Try _ _ _ m cm => written cm w
  | Tx _ _ body cb =>
      match body w with
      | (Ok (Commit _), w1) => if sql_fails (w_tick w1) then [] else written cb w
      | (Blocked, _) => written cb w
      | _ => []
      end
  | Conn _ _ m cm => if w_conn w then written cm (set_conn false w) else []
  | Nested _ _ _ _ => []
  end.

(** What is written for a place is run where it may be: a session holds the connection. *)
Lemma written_executes {n p A} {m : M A} (c : code n p A m) w : (p = Inside -> w_conn w = false) ->
  executes (written c w) (w_db w) (w_db (m w).2) /\ ((m w).1 <> Blocked -> w_conn (m w).2 = w_conn w).
Proof.
  revert w. induction c as [p A m Hm|A m a|p A B m f cm IHm cf IHf|p A m cm IHm|A body cb IHb|A m cm IHm|A m E]; intros w Hp; simpl.
  - destruct (effect_keeps_pool Anywhere m w Hm) as (-> & -> & _). split; [constructor|done].
  - destruct a as [s|B f|]; simpl; unfold sql_stmt, sql_read.
    + destruct (sql_fails _); [split; [constructor|done]|].
      destruct (exec_stmt s (w_db w)) as [[d k]|] eqn:E; simpl; (split; [|done]); repeat (econstructor; eauto).
    + destruct (sql_fails _); split; try done; constructor.
    + split; [constructor|done].
  - destruct (IHm w Hp) as [Em Ec]. unfold mbind, M_bind. destruct (m w) as [[a|e|q|] w1]; simpl in *;
      try (rewrite app_nil_r; split; [done|intros; by apply Ec]).
    destruct (IHf a w1) as [Ef Ec']; [by rewrite Ec; [apply Hp|]|].
    split; [by eapply executes_app|]. intros Hb. by rewrite Ec', Ec.
  - destruct (IHm w Hp) as [Em Ec]. unfold try_. destruct (m w) as [[a|e|q|] w1]; simpl in *; (split; [done|intros; by apply Ec]).
  - destruct (IHb w Hp) as [Eb Ec]. unfold run_tx. destruct (body w) as [[[a|a]|e|q|] w1]; simpl in *;
      try (split; [by constructor|intros; by apply Ec]); try by split.
    unfold sql_read. destruct (sql_fails (w_tick w1)); simpl; (split; [by try constructor|intros; by apply Ec]).
  - destruct (w_conn w) eqn:Hc; [|rewrite blocked_without_conn by done; split; [constructor|done]].
    destruct (IHm (set_conn false w) ltac:(done)) as [Em _]. unfold with_conn. rewrite Hc.
    destruct (m (set_conn false w)) as [[a|e|q|] w1]; by split.
  - rewrite blocked_without_conn by auto. split; [constructor|done].
Qed.

End Written.

(** ** Every handler and worker refines it *)

Section Handlers.
Context `{Env, Engine}.

(** C2: the program refines the ledger.  Take any handler or worker of the development (the
    evidence [c] is what [solve_good] builds for each of them, and Interleaving.sync_code for
    the syncer, which asks for a second connection), on an intact database, with any clock,
    any random draws, any statements failing, the connection free or taken.  The statements it
    leaves in the tables, in their order, lead from the tables it found to those it left; the
    events they are seen as, by their arguments and the rows they report, are a run of the
    abstract machine between the two ledgers.  So no link is redeemed, no grant approved or
    exchanged, no introduction delivered or failed twice, or after it already was; redeeming
    and approving happen before the deadline; and the database stays intact. *)
Theorem handlers_refine_ledger {n A} (m : M A) (c : code n Outside A m) w :
  db_wf (w_db w) ->
  let w' := (m w).2 in
  executes (written c w) (w_db w) (w_db w') /\
  ledger_run (events (written c w)) (ledger_of (w_db w)) = Some (ledger_of (w_db w')) /\
  one_shot (events (written c w)) /\ db_wf (w_db w').
Proof.
  intros W w'. destruct (written_executes c w ltac:(discriminate)) as [Ew _].
  pose proof (executes_events _ _ _ Ew W) as Hr. split_and!; [done|done|by eapply run_one_shot|by eapply executes_wf].
Qed.

End Handlers.

#[local] Existing Instance sample_env.
#[local] Existing Instance sample_engine.

(** A link is sent and followed twice, and a device flow is begun and approved. *)
Definition sample_flow : M (string * string) :=
  u ← Repo.CreateUser "ada@example.com";
  _ ← Repo.InsertMagicToken "link" (Some u) None (15 * minute);
  _ ← ignore (Repo.ConsumeMagicToken "link");
  _ ← ignore (Repo.ConsumeMagicToken "link");
  codes ← Repo.InsertDeviceSession None None None (15 * minute);
  _ ← Repo.ApproveDeviceSession (Repo.deviceCodeHash codes.1) u;
  mret codes.

Lemma good_sample_flow : good sample_flow.
Proof. unfold sample_flow. solve_good. Qed.

(** The second click comes too late: the link is spent at the time of the first. *)
Theorem handlers_refine_ledger_witness :
  (exists l, executes l empty_db (w_db (after sample_flow start_world)) /\
    ledger_run (events l) (ledger_of empty_db) = Some (ledger_of (w_db (after sample_flow start_world))) /\ one_shot (events l)) /\
  snd <$> map_to_list (l_links (ledger_of (w_db (after sample_flow start_world)))) = [LSpent 1700000005] /\
  snd <$> map_to_list (l_grants (ledger_of (w_db (after sample_flow start_world))))
    = [GApproved (repeat_byte 32 "0") 1700000017].
Proof.
  split; [|split; vm_compute; reflexivity].
  destruct (handlers_refine_ledger sample_flow good_sample_flow start_world empty_db_wf) as (Ex & Er & Eo & _).
  exists (written good_sample_flow start_world). exact (conj Ex (conj Er Eo)).
Defined.
