(* ===== verification/WebUI.v ===== *)
(** * The users' pages (src/internal/httpapi/handler/webui.go)

    Static pages, the two dashboards, the button that mints a key for MCP clients and the one
    that revokes a node.  The user is the one [OptionalAuth] put in the context. *)

From S2P Require Import Prelude RateLimit AdminStore Schema Statements Invariants World.
From S2P Require Import GoStrings GoJson GoTime Runs Samples Repo RepoFacts Auth AuthFacts Http.
From S2P Require Import Middleware AuthHandlers.

Open Scope Z_scope.

(** The server's local time zone: seconds east of UTC at a Unix time. *)
Class Zone := { utc_offset : Z -> Z }.

(** The handler's fields. *)
Record WebConfig := mkWeb { wc_BaseURL : string; wc_StaleAge : Z }.

(** [t.Sub(u)] saturates at the bounds of [time.Duration]. *)
Definition saturate (z : Z) : Z := Z.max (- 2 ^ 63) (Z.min (2 ^ 63 - 1) z).

Module WebUI.
Section WebUI.
Context `{Env, Engine, Zone}.
Context (h : WebConfig).

Definition Landing : handler := fun _ _ => mret (html "landing.html" JNull).
Definition Docs : handler := fun _ _ => mret (html "docs.html" JNull).
Definition InstructionsTalent : handler := fun _ _ => mret (html "instructions_talent.html" JNull).
Definition InstructionsRecruiter : handler := fun _ _ => mret (html "instructions_recruiter.html" JNull).

Definition DashboardRedirect : handler := fun c _ =>
  let userID := UserIDFromContext c in
  if is_empty userID then mret (redirect "/")
  else
    ns ← try_ (Repo.NodesByUser userID);
    match ns with
    | inr (_ :: _) => mret (redirect "/dashboard/talent")
    | _ => mret (redirect "/dashboard/recruiter")
    end.

Definition local_minute (s : Z) : string := minute_text (utc_offset s) s.

Definition is_online (now ping : Z) : bool := saturate (now - ping * second) <? wc_StaleAge h.

(** One row of the page; [None] is the panic of [n.ID[:8]] on a shorter id. *)
Definition node_view (now : Z) (n : node) : option json :=
  if (String.length (n_id n) <? 8)%nat then None
  else
    let '(online, sync) := match n_ping n with
      | Some ts => (is_online now ts, local_minute ts)
      | None => (false, EmptyString)
      end in
    Some (JObj [("ID", JStr (n_id n)); ("DisplayName", JStr (default (Utf8.str_take 8 (n_id n)) (n_display n)));
                ("NodeType", JStr (n_type n)); ("EndpointURL", JStr (n_endpoint n)); ("IsOnline", JBool online);
                ("LastSync", JStr sync); ("IsActive", JBool (n_active n))]).

Definition TalentDashboard : handler := fun c _ =>
  let userID := UserIDFromContext c in
  if is_empty userID then mret (redirect "/")
  else
    ns ← try_ (Repo.NodesByUser userID);
    match ns with
    | inl _ => mret (http_error "internal error" 500)
    | inr l =>
        now ← time_now;
        match mapM (node_view now) l with
        | None => panic "slice bounds out of range"
        | Some views => mret (html "talent_dashboard.html" (jmap [("Nodes", JArr views)]))
        end
    end.

(** [QueryRow(...).Scan(&n)] with the error dropped. *)
Definition count_or_zero (f : db -> nat) : M Z :=
  r ← try_ (db_query (fun d => Z.of_nat (f d)));
  mret (match r with inr n => n | inl _ => 0 end).

Definition online_node (since : Z) (n : node) : bool :=
  n_active n && match n_ping n with Some t => since <? t | None => false end.

(** The two numbers of the recruiter's page. *)
Definition counts : M (Z * Z) :=
  candidateCount ← count_or_zero (fun d => length (snapshots d));
  now ← time_now;
  activeNodeCount ← count_or_zero (fun d => length (sel (online_node (unix (now - wc_StaleAge h))) (nodes d)));
  mret (candidateCount, activeNodeCount).

Definition recruiter_page (token : string) (n : Z * Z) (activity : json) : response :=
  html "recruiter_dashboard.html"
    (jmap [("FreshToken", JStr token); ("BaseURL", JStr (wc_BaseURL h)); ("TalentCount", JInt n.1);
           ("NodeCount", JInt n.2); ("RecentActivity", activity)]).

Definition latest_first (a b : audit) : Prop := a_ts b <= a_ts a.
#[local] Instance latest_first_dec a b : Decision (latest_first a b).
Proof. unfold latest_first. apply _. Defined.

Definition recent (userID : string) (d : db) : list audit :=
  take 10 (merge_sort latest_first (sel (fun a => col_is (a_actor a) userID) (audit_log d))).

Definition activity_row (a : audit) : json :=
  JObj [("Action", JStr (a_action a)); ("Time", JStr (local_minute (a_ts a)))].

Definition RecruiterDashboard : handler := fun c _ =>
  let userID := UserIDFromContext c in
  if is_empty userID then mret (redirect "/")
  else
    n ← counts;
    rows ← try_ (db_query (recent userID));
    mret (recruiter_page EmptyString n
            (match rows with inr l => JArr (activity_row <$> l) | inl _ => JArr [] end)).

Definition GenerateAPIKey : handler := fun c _ =>
  let userID := UserIDFromContext c in
  if is_empty userID then mret (redirect "/")
  else
    key ← try_ (Repo.CreateAPIToken userID None "mcp-api" "talent:search");
    match key with
    | inl _ => mret (http_error "internal error" 500)
    | inr (rawToken, _) =>
        _ ← ignore (Repo.InsertAuditLog userID "apikey_generated" "mcp-api");
        n ← counts;
        mret (recruiter_page rawToken n JNull)
    end.

(** The nodes the revoke button finds: the user's own. *)
Definition owned (userID : string) (n : node) : bool := col_is (n_user n) userID.

Definition RevokeNode : handler := fun c r =>
  let userID := UserIDFromContext c in
  if is_empty userID then mret (http_error "unauthorized" 401)
  else
    let nodeID := url_param r "nodeID" in
    if is_empty nodeID then mret (http_error "missing node id" 400)
    else
      n ← try_ (Repo.NodeByID nodeID);
      match n with
      | inr (Some n) =>
          if owned userID n then
            done_ ← try_ (Repo.RevokeNode nodeID);
            match done_ with
            | inl _ => mret (http_error "failed" 500)
            | inr _ => mret (redirect "/dashboard/talent")
            end
          else mret (http_error "not found" 404)
      | _ => mret (http_error "not found" 404)
      end.

(** ** Pool discipline *)

Lemma good_counts : good counts.
Proof. unfold counts, count_or_zero. solve_good. Qed.
#[local] Hint Resolve good_counts : good.

Lemma good_pages :
  Middleware.good_handler Landing * Middleware.good_handler Docs * Middleware.good_handler InstructionsTalent *
  Middleware.good_handler InstructionsRecruiter * Middleware.good_handler DashboardRedirect *
  Middleware.good_handler TalentDashboard * Middleware.good_handler RecruiterDashboard *
  Middleware.good_handler GenerateAPIKey * Middleware.good_handler RevokeNode.
Proof.
  repeat split; intros c r; unfold Landing, Docs, InstructionsTalent, InstructionsRecruiter, DashboardRedirect,
    TalentDashboard, RecruiterDashboard, GenerateAPIKey, RevokeNode; solve_good.
Qed.

End WebUI.
End WebUI.
