(* ===== verification/Mcp.v ===== *)
(** * The MCP tools (src/internal/mcp/server.go)

    Search, profile and introduction, as an MCP client calls them.  The protocol and the
    typed access to a call's arguments are mcp-go's: parameters.  A tool answers with a text
    or with an error. *)

From S2P Require Import Prelude RateLimit AdminStore Schema Statements Invariants World.
From S2P Require Import GoStrings GoJson Sha256 Float Runs Samples Repo RepoFacts Auth AuthFacts Http.
From S2P Require Import Middleware AuthHandlers Ingest Search.

Open Scope Z_scope.

(** The arguments of a call, a decoded JSON object; [req.RequireString(k)], whose error is
    dropped or tested; and [req.GetFloat(k, default)]. *)
Abbreviation tool_args := (list (string * jval)).
Class McpGo := {
  RequireString : tool_args -> string -> option string;
  GetFloat : tool_args -> string -> float64 -> float64;
  (** [int(f)] of a float64 that is no int64: the language leaves it to the platform *)
  int_outside : float64 -> Z;
  RequireString_string : forall l l' k s, (forall v, (k, v) ∉ l) -> RequireString (l ++ (k, VStr s) :: l') k = Some s }.

(** [int(f)] *)
Definition int_of `{McpGo} (f : float64) : Z :=
  match f with
  | S754_zero _ => 0
  | S754_finite s m e =>
      let mag := if 0 <=? e then Z.pos m * 2 ^ e else Z.pos m / 2 ^ (- e) in
      let z := if s then - mag else mag in
      if (- 2 ^ 63 <=? z) && (z <? 2 ^ 63) then z else int_outside f
  | _ => int_outside f
  end.

Inductive tool_result :=
| ToolText (text : string)
(** a message, and the error formatted into it *)
| ToolError (msg : string) (e : option goerr).

Module Mcp.
Section Mcp.
Context `{Env, Engine, Unicode, SearchEngine, Sorter, FloatText, McpGo}.

Definition required (args : tool_args) (k : string) : string := default EmptyString (RequireString args k).

Definition arg (args : tool_args) (k : string) : option jval := snd <$> head (filter (fun p => p.1 = k) args).

(** The numbers of [query_vector]; anything else in the list is skipped. *)
Definition query_vector (args : tool_args) : list float64 :=
  match arg args "query_vector" with
  | Some (VArr l) => omap (fun v => match v with VNum n => parse_float n | _ => None end) l
  | _ => []
  end.

Definition finite (f : float64) : bool := match f with S754_zero _ | S754_finite _ _ _ => true | _ => false end.
Definition omit_float (k : string) (f : float64) : list (string * json) :=
  match f with S754_zero _ => [] | _ => [(k, JNum (format_float f))] end.

Definition pointer_json (p : TalentPointer) : json :=
  JObj ([("candidate_id", JStr (tpt_CandidateID p)); ("node_id", JStr (tpt_NodeID p)); ("endpoint_url", JStr (tpt_EndpointURL p))]
        ++ omit_str "display_name" (tpt_DisplayName p)
        ++ [("bm25_score", JNum (format_float (tpt_BM25Score p)))]
        ++ omit_float "vec_score" (tpt_VecScore p)
        ++ [("rank", JInt (tpt_Rank p)); ("last_sync", JInt (tpt_LastSync p)); ("is_active", JBool (tpt_IsActive p))]).

(** [json.Marshal] of the result, its error dropped: a number that is none leaves no text. *)
Definition result_text (l : list TalentPointer) : string :=
  if forallb (fun p => finite (tpt_BM25Score p) && finite (tpt_VecScore p)) l
  then encode (JObj [("candidates", match l with [] => JNull | _ => JArr (pointer_json <$> l) end)])
  else EmptyString.

Definition handleSearchTalent (c : ctx) (args : tool_args) : M tool_result :=
  let query := required args "query" in
  let limit := int_of (GetFloat args "limit" (f64_of_Z 20)) in
  result ← try_ (Search.SearchTalent query limit (query_vector args));
  match result with
  | inl e => mret (ToolError "search failed: " (Some e))
  | inr l => mret (ToolText (result_text l))
  end.

Definition profile_json (p : TalentProfile) : json :=
  JObj [("candidate_id", JStr (pf_CandidateID p)); ("node_id", JStr (pf_NodeID p)); ("endpoint_url", JStr (pf_EndpointURL p));
        ("payload", JStr (pf_Payload p)); ("signature", JStr (pf_Signature p)); ("public_key", JStr (pf_PublicKey p));
        ("ingested_at", JInt (pf_IngestedAt p))].

Definition handleGetTalentProfile (c : ctx) (args : tool_args) : M tool_result :=
  match RequireString args "candidate_id" with
  | None => mret (ToolError "candidate_id required" None)
  | Some candidateID =>
      profile ← try_ (Search.GetTalentProfile candidateID);
      match profile with
      | inl e => mret (ToolError "lookup failed: " (Some e))
      | inr None => mret (ToolError "candidate not found" None)
      | inr (Some p) => mret (ToolText (encode (profile_json p)))
      end
  end.

Definition deliveryPath (t : option Repo.DeliveryTarget) : string :=
  match t with None => EmptyString | Some t => Repo.dt_EndpointURL t ++s "/api/inbox" end.

Definition queued_json (requestID candidateID nodeID : string) (target : option Repo.DeliveryTarget) : json :=
  jmap ([("request_id", JStr requestID); ("status", JStr "queued"); ("candidate_id", JStr candidateID);
         ("node_id", JStr nodeID); ("deliverable", JBool (negb (is_null target)));
         ("delivery_path", JStr (deliveryPath target))]
        ++ match target with
           | None => [("delivery_reason", JStr "no active LivingCV node with intro_secret for this candidate's owner")]
           | Some _ => []
           end).

(** The call's own work once its arguments are there. *)
Definition queue_introduction (recruiterUserID candidateID name email company : string) : M tool_result :=
  snap ← try_ (Search.GetSnapshotByCandidate candidateID);
  match snap with
  | inl e => mret (ToolError "lookup failed: " (Some e))
  | inr None => mret (ToolError "candidate not found" None)
  | inr (Some s) =>
      let nodeID := sd_NodeID s in
      target ← try_ (Repo.ResolveDeliveryTarget nodeID);
      match target with
      | inl e => mret (ToolError "resolve target: " (Some e))
      | inr t =>
          requestID ← Repo.NewID;
          queued ← try_ (Repo.InsertIntroductionRequest requestID candidateID recruiterUserID nodeID name email company);
          match queued with
          | inl e => mret (ToolError "failed to queue introduction: " (Some e))
          | inr _ =>
              _ ← ignore (Repo.InsertAuditLog recruiterUserID "intro_requested" candidateID);
              _ ← signal_wake;
              mret (ToolText (encode (queued_json requestID candidateID nodeID t)))
          end
      end
  end.

Definition handleRequestIntroduction (c : ctx) (args : tool_args) : M tool_result :=
  let candidateID := required args "candidate_id" in
  let recruiterName := required args "recruiter_name" in
  let recruiterEmail := required args "recruiter_email" in
  let recruiterCompany := required args "recruiter_company" in
  if is_empty candidateID || is_empty recruiterName || is_empty recruiterEmail
  then mret (ToolError "candidate_id, recruiter_name, recruiter_email are required" None)
  else queue_introduction (UserIDFromContext c) candidateID recruiterName recruiterEmail recruiterCompany.

(** [registerTools] *)
Definition registerTools : list (string * (ctx -> tool_args -> M tool_result)) :=
  [("search_talent", handleSearchTalent); ("get_talent_profile", handleGetTalentProfile);
   ("request_introduction", handleRequestIntroduction)].

(** ** Pool discipline *)

Lemma good_GetSnapshot cid : good (Search.GetSnapshotByCandidate cid).
Proof. unfold Search.GetSnapshotByCandidate. solve_good. Qed.
#[local] Hint Resolve good_GetSnapshot : good.

Lemma good_tools : each (fun t => forall c args, good (t.2 c args)) registerTools.
Proof.
  repeat split; intros c args; simpl;
    unfold handleSearchTalent, handleGetTalentProfile, handleRequestIntroduction, queue_introduction; solve_good.
Qed.

End Mcp.
End Mcp.
