(* ===== verification/McpFacts.v ===== *)
(** * What the MCP tools guarantee

    An introduction is queued exactly when the tool says so, in the name of the token's user,
    with the worker woken and the request due; a tool that fails has changed nothing. *)

From S2P Require Import Prelude RateLimit AdminStore Schema Statements Invariants World.
From S2P Require Import GoStrings GoJson Sha256 Float Runs Samples Repo RepoFacts Auth AuthFacts Http.
From S2P Require Import Middleware MiddlewareFacts AuthHandlers Ingest IngestFacts Search SearchFacts.
From S2P Require Import GoTime Outbox OutboxFacts Mcp.

Open Scope Z_scope.

Section McpFacts.
Context `{Env, Engine, Unicode, SearchEngine, Sorter, FloatText, McpGo}.

(** The request a call queues. *)
Definition requested (id user nodeID : string) (now : Z) (cid name email company : string) : intro :=
  Intro id cid user nodeID IQueued now None name email (Repo.null_string company) 0 None None.

Lemma resolve_ok n w t w1 :
  Repo.ResolveDeliveryTarget n w = (Ok t, w1) -> t = target_of n (w_db w) /\ w_db w1 = w_db w.
Proof.
  unfold Repo.ResolveDeliveryTarget, target_of. intros (u & w2 & (Hc & -> & ->)%row_or_nil_ok & E)%bind_ok.
  destruct (n_user <$> _) as [[u|]|]; [|by apply ret_ok in E as [-> ->]..].
  destruct (is_empty u); [by apply ret_ok in E as [-> ->]|]. by apply row_or_nil_ok in E as (_ & -> & ->).
Qed.

Lemma NewID_ok w id w1 : Repo.NewID w = (Ok id, w1) -> exists b, entropy (w_tick w) 16 = Some b /\ id = Hex.encode b /\ w1 = tick w.
Proof.
  unfold Repo.NewID, Repo.must_rand. intros (b & w2 & E & [-> ->]%ret_ok)%bind_ok. inv_run. eauto.
Qed.

Lemma keeps_intros_audit u a t : keeps introduction_requests (ignore (Repo.InsertAuditLog u a t)).
Proof. apply keeps_ignore. unfold Repo.InsertAuditLog, Repo.exec_. apply keeps_bind; [apply keeps_NewID|]. solve_frame. Qed.

Lemma queue_ok user cid name email company w res w' :
  Mcp.queue_introduction user cid name email company w = (Ok res, w') ->
  match res with
  | ToolError _ _ => w_db w' = w_db w
  | ToolText text =>
      exists s t id now, detail_of cid (w_db w) = Some s /\ t = target_of (sd_NodeID s) (w_db w) /\
        (forall i, i ∈ introduction_requests (w_db w) -> i_id i <> id) /\ has_user user (w_db w) = true /\
        introduction_requests (w_db w') = introduction_requests (w_db w) ++ [requested id user (sd_NodeID s) now cid name email company] /\
        w_wake w' = true /\ text = encode (Mcp.queued_json id cid (sd_NodeID s) t)
  end.
Proof.
  unfold Mcp.queue_introduction, Search.GetSnapshotByCandidate. intros (r & w1 & Hs & E)%bind_ok.
  apply try_ok in Hs as [(o & -> & (Hc & -> & ->)%row_or_nil_ok)|(e & -> & Hs)].
  2: { apply ret_ok in E as [-> ->]. pose proof (keeps_row_or_nil (fun d => d) (detail_of cid) w) as Hk. by rewrite Hs in Hk. }
  destruct (detail_of cid (w_db w)) as [s|]; [|by apply ret_ok in E as [-> ->]].
  apply bind_ok in E as (r & w2 & Ht & E). apply try_ok in Ht as [(t & -> & Ht)|(e & -> & Ht)].
  2: { apply ret_ok in E as [-> ->]. pose proof (keeps_ResolveDeliveryTarget (fun d => d) (sd_NodeID s) (tick w)) as Hk.
       by rewrite Ht in Hk. }
  apply resolve_ok in Ht as [Ht Ed]. change (w_db (tick w)) with (w_db w) in *.
  apply bind_ok in E as (id & w3 & (b & _ & -> & ->)%NewID_ok & E). apply bind_ok in E as (r & w4 & Hi & E).
  apply try_ok in Hi as [(u & -> & Hi)|(e & -> & Hi)].
  2: { apply ret_ok in E as [-> ->]. unfold Repo.InsertIntroductionRequest, Repo.exec_ in Hi.
       apply bind_err in Hi as [Hi|(now & w5 & [-> ->]%unix_now_ok & Hi)]; [done|].
       apply bind_err in Hi as [[_ ->]%db_exec_err|(n & w5 & _ & Hi)]; [by rewrite <- Ed|done]. }
  unfold Repo.InsertIntroductionRequest, Repo.exec_ in Hi. inv_run.
  match goal with H : (_ && _)%bool = true |- _ => rename H into Hok end.
  match goal with H : ignore _ ?wa = (Ok _, ?wb) |- _ => pose proof (keeps_intros_audit user "intro_requested" cid wa) as Hk; rewrite H in Hk end.
  unfold signal_wake in *. simplify_eq/=. rewrite Ed in *.
  apply andb_true_iff in Hok as [[Hf Hu]%andb_true_iff _]. eexists s, _, _, _. split_and!; [done|done| |done|exact Hk|done|done].
  apply has_key_fresh. by apply negb_true_iff.
Qed.

(** C13: what a call of [request_introduction] did, whatever failed.  If it answers with a text,
    the candidate had a snapshot, one new request was queued, in the name of the token's user
    and to the snapshot's node, under an id no request had, due at once; the worker's wake
    signal is set, and the text says whether and where it can be delivered as the database
    stood.  If it answers with an error, the database is unchanged. *)
Theorem introduction_outcomes c args w res w' :
  Mcp.handleRequestIntroduction c args w = (Ok res, w') ->
  let cid := Mcp.required args "candidate_id" in
  match res with
  | ToolError _ _ => w_db w' = w_db w
  | ToolText text =>
      exists s t id now, detail_of cid (w_db w) = Some s /\ t = target_of (sd_NodeID s) (w_db w) /\
        let i := requested id (UserIDFromContext c) (sd_NodeID s) now cid (Mcp.required args "recruiter_name")
                   (Mcp.required args "recruiter_email") (Mcp.required args "recruiter_company") in
        introduction_requests (w_db w') = introduction_requests (w_db w) ++ [i] /\
        (forall j, j ∈ introduction_requests (w_db w) -> i_id j <> id) /\ has_user (UserIDFromContext c) (w_db w) = true /\
        (forall time, Repo.intro_due time i = true) /\ w_wake w' = true /\
        text = encode (Mcp.queued_json id cid (sd_NodeID s) t)
  end.
Proof.
  unfold Mcp.handleRequestIntroduction. destruct (_ || _); [by intros [= <- <-]|]. intros E%queue_ok. cbv zeta.
  destruct res; [|done]. destruct E as (s & t & id & now & ?). destruct_and!. exists s, t, id, now. by split_and!.
Qed.

(** ** From the tool to the node *)

(** A snapshot that is found was joined with its node. *)
Lemma detail_has_node cid d s : detail_of cid d = Some s -> has_node (sd_NodeID s) d = true.
Proof.
  unfold detail_of. destruct (head _) as [[s0 n]|] eqn:E; [|done]. intros [= <-]. simpl.
  apply head_sel_some in E as [Hj _]. apply elem_of_joined in Hj as (_ & Hn & Hk).
  unfold has_node. apply has_true. exists n. split; [done|]. unfold node_is. by rewrite Hk, str_eqb_refl.
Qed.

Section Delivery.
Context `{Urls}.
Context (Hsql : forall k, sql_fails k = false) (Hrand : forall k n, entropy k n <> None).

(** A call whose arguments, candidate and recruiter are there. *)
Lemma run_queue user cid name email company w s :
  w_conn w = true -> detail_of cid (w_db w) = Some s -> has_user user (w_db w) = true -> has_node (sd_NodeID s) (w_db w) = true ->
  (forall i k b, i ∈ introduction_requests (w_db w) -> entropy k 16 = Some b -> i_id i <> Hex.encode b) ->
  let t := target_of (sd_NodeID s) (w_db w) in
  exists id now f w1, let i := requested id user (sd_NodeID s) now cid name email company in
    Mcp.queue_introduction user cid name email company w = (Ok (ToolText (encode (Mcp.queued_json id cid (sd_NodeID s) t))), w1) /\
    w_db w1 = set_audit f (set_intros (fun l => l ++ [i]) (w_db w)) /\ w_conn w1 = true /\ w_sent w1 = w_sent w.
Proof.
  intros Hc Hs Hu Hn Hfresh t. unfold Mcp.queue_introduction, Search.GetSnapshotByCandidate.
  erewrite run_bind by (apply run_try, (run_row_or_nil Hsql); done). rewrite Hs.
  destruct (run_resolve Hsql (sd_NodeID s) (tick w) Hc) as (w2 & Et & Ed & Hc2 & Hs2 & _).
  erewrite run_bind by (apply run_try; exact Et). change (w_db (tick w)) with (w_db w) in *. fold t.
  destruct (run_NewID Hrand w2) as (b & Hb & Eid). erewrite run_bind by exact Eid. unfold Repo.InsertIntroductionRequest.
  set (i := requested (Hex.encode b) user (sd_NodeID s) (unix (clock (S (w_tick w2)))) cid name email company).
  assert (Ei : (now ← unix_now; exec_ (db_exec (InsertIntro (Hex.encode b) cid user (sd_NodeID s) now name email (Repo.null_string company)))) (tick w2)
    = (Ok tt, set_db (set_intros (fun l => l ++ [i]) (w_db w)) (tick (tick (tick w2))))).
  { erewrite run_bind by reflexivity. unfold exec_. erewrite run_bind; [reflexivity|].
    apply (run_exec Hsql); [done|]. simpl. unfold inserting. rewrite Ed, Hu, Hn.
    replace (has _ _) with false; [reflexivity|]. symmetry. apply has_false. intros j Hj. apply str_eqb_false. by eapply Hfresh. }
  erewrite run_bind by (apply run_try; exact Ei).
  destruct (run_audit Hsql Hrand user "intro_requested" cid (set_db (set_intros (fun l => l ++ [i]) (w_db w)) (tick (tick (tick w2)))) Hc2)
    as (w3 & f & Ea & Hd3 & Hc3 & Hs3).
  erewrite run_bind by exact Ea. erewrite run_bind by reflexivity.
  eexists _, _, f, _. split_and!; [reflexivity|exact Hd3|done|]. simpl. by rewrite Hs3.
Qed.

(** C12: from the tool to the node.  When statements and random draws succeed, a complete call
    about a candidate with a snapshot and a delivery target, by a token of a known user,
    answers with a text; the worker's first attempt on the request it queued posts it, signed
    with the node's secret, to the very URL the text named; and if the node answers 2xx, the
    request is delivered. *)
Theorem introduction_reaches_node cfg c args w s t :
  w_conn w = true -> Outbox.Backoffs cfg <> [] ->
  let cid := Mcp.required args "candidate_id" in
  cid <> EmptyString -> Mcp.required args "recruiter_name" <> EmptyString -> Mcp.required args "recruiter_email" <> EmptyString ->
  detail_of cid (w_db w) = Some s -> has_user (UserIDFromContext c) (w_db w) = true ->
  target_of (sd_NodeID s) (w_db w) = Some t -> url_ok (Outbox.inbox_url t) = true ->
  (forall i k b, i ∈ introduction_requests (w_db w) -> entropy k 16 = Some b -> i_id i <> Hex.encode b) ->
  exists i w1 w2,
    let rq := Outbox.delivery_request t (Outbox.buildPayload i) in
    Mcp.handleRequestIntroduction c args w
      = (Ok (ToolText (encode (Mcp.queued_json (i_id i) cid (sd_NodeID s) (Some t)))), w1) /\
    i ∈ introduction_requests (w_db w1) /\ i_recruiter i = UserIDFromContext c /\ i_cand i = cid /\
    Outbox.processOne cfg i w1 = (Ok tt, w2) /\
    w_sent w2 = rq :: w_sent w /\ rq_url rq = Mcp.deliveryPath (Some t) /\
    (is_success (http_answer (S (S (w_tick w1))) rq) = true ->
     exists i', i' ∈ introduction_requests (w_db w2) /\ i_id i' = i_id i /\ i_status i' = IDelivered).
Proof.
  intros Hc Hb cid Hcid Hname Hemail Hs Hu Ht Hurl Hfresh. pose proof (detail_has_node _ _ _ Hs) as Hn.
  destruct (run_queue (UserIDFromContext c) cid (Mcp.required args "recruiter_name") (Mcp.required args "recruiter_email")
    (Mcp.required args "recruiter_company") w s Hc Hs Hu Hn Hfresh) as (id & now & f & w1 & E & Hd & Hc1 & Hs1).
  set (i := requested _ _ _ _ _ _ _ _) in *. rewrite Ht in E.
  assert (Hi : i ∈ introduction_requests (w_db w1)) by (rewrite Hd; apply elem_of_app; right; by apply list_elem_of_singleton).
  destruct (run_attempt cfg Hsql i w1 t Hc1 Hb) as (w2 & E2 & Hc2 & Hs2 & Hd2); [done| |done|].
  { rewrite Hd. exact Ht. }
  exists i, w1, w2. cbv zeta. split_and!; [|done|done|done|exact E2|by rewrite Hs2, Hs1|done|].
  - unfold Mcp.handleRequestIntroduction. fold cid.
    apply is_empty_false in Hcid, Hname, Hemail. by rewrite Hcid, Hname, Hemail.
  - intros Hok. rewrite Hd2. unfold attempt_update. rewrite Hok.
    eexists. split; [apply upd_hit; [exact Hi|]|done]. unfold intro_is. simpl. by rewrite str_eqb_refl.
Qed.

End Delivery.

End McpFacts.

(** ** A concrete call *)

#[local] Existing Instance sample_env.
#[local] Existing Instance sample_engine.
#[local] Existing Instance ascii_unicode.
#[local] Existing Instance insertion_sorter.
#[local] Existing Instance sample_search.
#[local] Existing Instance no_floats.
#[local] Existing Instance all_urls.

(** The first argument of the name decides. *)
Definition first_string (args : tool_args) (k : string) : option string :=
  match Mcp.arg args k with Some (VStr s) => Some s | _ => None end.

Lemma first_string_found l l' k s : (forall v, (k, v) ∉ l) -> first_string (l ++ (k, VStr s) :: l') k = Some s.
Proof.
  intros Hl. unfold first_string, Mcp.arg. induction l as [|[k' v] l IH]; simpl; rewrite filter_cons.
  - by case_decide.
  - case_decide as Hk; [simpl in Hk; subst; exfalso; apply (Hl v); left|]. apply IH. intros v' Hv'. apply (Hl v'). by right.
Qed.

Definition sample_mcp : McpGo := {|
  RequireString := first_string;
  GetFloat _ _ d := d;
  int_outside _ := - 2 ^ 63;
  RequireString_string := first_string_found |}.
#[local] Existing Instance sample_mcp.

(** A LivingCV node with an owner, a secret and one snapshot. *)
Definition publish : M unit :=
  _ ← Repo.InsertDeviceSession (Some "LivingCV") (Some "https://cv.example") None (900 * second);
  u ← Repo.CreateUser "ada@example.org";
  d ← get_db;
  let node := match nodes d with n :: _ => n_id n | [] => EmptyString end in
  _ ← Repo.SetNodeUser node u;
  _ ← Repo.RotateNodeIntroSecret node;
  Repo.UpsertSnapshot "snap-1" node "cand-1" "{}" None.

Definition published : world := after publish start_world.
Definition ada : ctx := Ctx (u_id <$> head (users (w_db published))) None (Some "talent:search") None.

Definition ask : tool_args :=
  [("candidate_id", VStr "cand-1"); ("recruiter_name", VStr "Grace"); ("recruiter_email", VStr "grace@example.org")].

Theorem introduction_outcomes_witness :
  exists text w', Mcp.handleRequestIntroduction ada ask published = (Ok (ToolText text), w') /\ w_wake w' = true.
Proof.
  assert (match (Mcp.handleRequestIntroduction ada ask published).1 with Ok (ToolText _) => true | _ => false end = true) as Hok
    by (vm_compute; reflexivity).
  destruct (Mcp.handleRequestIntroduction ada ask published) as [[[text|m e]|e|p|] w'] eqn:E; try discriminate Hok.
  exists text, w'. split; [reflexivity|].
  destruct (introduction_outcomes _ _ _ _ _ E) as (s & t & id & now & _ & _ & _ & _ & _ & _ & Hw & _). exact Hw.
Defined.

Theorem introduction_reaches_node_witness :
  exists i w1 w2,
    Mcp.handleRequestIntroduction ada ask published = (Ok (ToolText (encode (Mcp.queued_json (i_id i) "cand-1"
      (match detail_of "cand-1" (w_db published) with Some s => sd_NodeID s | None => EmptyString end)
      (target_of (match detail_of "cand-1" (w_db published) with Some s => sd_NodeID s | None => EmptyString end) (w_db published))))), w1) /\
    Outbox.processOne Outbox.production i w1 = (Ok tt, w2) /\
    exists i', i' ∈ introduction_requests (w_db w2) /\ i_id i' = i_id i /\ i_status i' = IDelivered.
Proof.
  destruct (detail_of "cand-1" (w_db published)) as [s|] eqn:Es; [|exfalso; vm_compute in Es; congruence].
  destruct (target_of (sd_NodeID s) (w_db published)) as [t|] eqn:Et;
    [|exfalso; vm_compute in Es; injection Es as <-; vm_compute in Et; congruence].
  destruct (introduction_reaches_node (fun k => eq_refl : @sql_fails sample_env k = false)
    (fun k n (E : @entropy sample_env k n = None) => ltac:(discriminate E)) Outbox.production ada ask published s t)
    as (i & w1 & w2 & E1 & _ & _ & _ & E2 & _ & _ & Hd).
  - vm_compute. reflexivity.
  - vm_compute. congruence.
  - vm_compute. congruence.
  - vm_compute. congruence.
  - vm_compute. congruence.
  - exact Es.
  - vm_compute. reflexivity.
  - exact Et.
  - reflexivity.
  - intros j k b Hj. exfalso. revert Hj. vm_compute. apply not_elem_of_nil.
  - exists i, w1, w2. split_and!; [exact E1|exact E2|]. apply Hd. reflexivity.
Defined.
