(* ===== verification/Config.v ===== *)
(** * Configuration (src/internal/config/config.go, src/internal/federation/config.go)

    The settings are environment variables with defaults; a number or a duration that does
    not parse falls back.  [ParseDuration] is [time.ParseDuration], with its unsigned 64-bit
    arithmetic and its float64 fractions. *)

From S2P Require Import Prelude RateLimit GoStrings Utf8Facts Float GoJson Decimal Http.

Open Scope Z_scope.

(** ** time.ParseDuration *)

Definition uint64 (z : Z) : Z := z mod 2 ^ 64.

(** [leadingInt]: [None] is an overflow. *)
Fixpoint leadingInt (x : Z) (s : string) : option (Z * string) :=
  match s with
  | String c s' =>
      if is_digit c then
        if 2 ^ 63 / 10 <? x then None
        else let y := uint64 (x * 10 + (byte_val c - 48)) in
             if 2 ^ 63 <? y then None else leadingInt y s'
      else Some (x, s)
  | EmptyString => Some (x, s)
  end.

(** [leadingFraction]: digits beyond the precision are read and dropped. *)
Fixpoint leadingFraction (x : Z) (scale : float64) (overflow : bool) (s : string) : Z * float64 * string :=
  match s with
  | String c s' =>
      if is_digit c then
        if overflow then leadingFraction x scale true s'
        else if (2 ^ 63 - 1) / 10 <? x then leadingFraction x scale true s'
        else let y := uint64 (x * 10 + (byte_val c - 48)) in
             if 2 ^ 63 <? y then leadingFraction x scale true s'
             else leadingFraction y (SFmul 53 1024 scale (f64_of_Z 10)) false s'
      else (x, scale, s)
  | EmptyString => (x, scale, s)
  end.

(** A unit is everything up to the next digit or point. *)
Fixpoint span_unit (s : string) : string * string :=
  match s with
  | String c s' =>
      if (byte_val c =? 46) || is_digit c then (EmptyString, s)
      else let '(u, r) := span_unit s' in (String c u, r)
  | EmptyString => (EmptyString, EmptyString)
  end.

(** The two spellings of the micro sign. *)
Definition micro_sign : string := String (byte_of 194) (String (byte_of 181) EmptyString).
Definition micro_mu : string := String (byte_of 206) (String (byte_of 188) EmptyString).

Definition unitMap (u : string) : option Z :=
  if str_eqb u "ns" then Some 1
  else if str_eqb u "us" || str_eqb u (micro_sign ++s "s") || str_eqb u (micro_mu ++s "s") then Some 1000
  else if str_eqb u "ms" then Some 1000000
  else if str_eqb u "s" then Some second
  else if str_eqb u "m" then Some minute
  else if str_eqb u "h" then Some hour
  else None.

(** [uint64(f)] of a float64 that is not negative *)
Definition truncated (f : float64) : Z :=
  match f with
  | S754_finite false m e => uint64 (if 0 <=? e then Z.pos m * 2 ^ e else Z.pos m / 2 ^ (- e))
  | _ => 0
  end.

(** [v.f] units, in nanoseconds; [None] is an overflow. *)
Definition amount (v f : Z) (scale : float64) (unit_ : Z) : option Z :=
  if 2 ^ 63 / unit_ <? v then None
  else
    let v := uint64 (v * unit_) in
    if 0 <? f then
      let v := uint64 (v + truncated (SFmul 53 1024 (f64_of_Z f) (f64_div (f64_of_Z unit_) scale))) in
      if 2 ^ 63 <? v then None else Some v
    else Some v.

(** The loop; every round reads at least one byte. *)
Fixpoint parse_terms (fuel : nat) (d : Z) (s : string) : option Z :=
  match fuel with
  | O => None
  | S fuel' =>
      match s with
      | EmptyString => Some d
      | String c _ =>
          if negb ((byte_val c =? 46) || is_digit c) then None
          else match leadingInt 0 s with
          | None => None
          | Some (v, s1) =>
              let pre := negb (String.length s1 =? String.length s)%nat in
              let '(f, scale, s2, post) := match s1 with
                | String "." s1' =>
                    let '(f, scale, s2) := leadingFraction 0 (f64_of_Z 1) false s1' in
                    (f, scale, s2, negb (String.length s2 =? String.length s1')%nat)
                | _ => (0, f64_of_Z 1, s1, false)
                end in
              if negb pre && negb post then None
              else
                let '(u, s3) := span_unit s2 in
                match unitMap u with
                | None => None
                | Some unit_ =>
                    match amount v f scale unit_ with
                    | None => None
                    | Some v =>
                        let d := uint64 (d + v) in
                        if 2 ^ 63 <? d then None else parse_terms fuel' d s3
                    end
                end
          end
      end
  end.

Definition ParseDuration (s : string) : option Z :=
  let '(neg, s) := match s with
    | String "-" t => (true, t) | String "+" t => (false, t) | _ => (false, s) end in
  if str_eqb s "0" then Some 0
  else if is_empty s then None
  else match parse_terms (S (String.length s)) 0 s with
       | None => None
       | Some d => if neg : bool then Some (- d) else if 2 ^ 63 - 1 <? d then None else Some d
       end.

Example parse_duration_ex :
  ParseDuration "15m" = Some (15 * minute) /\ ParseDuration "1h30m" = Some (90 * minute) /\
  ParseDuration "1.5s" = Some 1500000000 /\ ParseDuration "-.5ms" = Some (-500000) /\
  ParseDuration "90" = None /\ ParseDuration "." = None /\ ParseDuration "1d" = None /\
  ParseDuration ("2" ++s micro_sign ++s "s") = Some 2000 /\ ParseDuration "0.1h" = Some (6 * minute) /\
  ParseDuration "9223372036854775808ns" = None /\ ParseDuration "-9223372036854775808ns" = Some (- 2 ^ 63).
Proof. by vm_compute. Qed.

(** ** config.go *)

Record Config := mkConfig {
  BaseURL : string; DBPath : string; Vec0Path : string; EmbedDim : Z; TLSDomain : string; ListenAddr : string;
  MailerProvider : string; ResendAPIKey : string; PurelymailAPIToken : string;
  SMTPHost : string; SMTPPort : Z; SMTPUser : string; SMTPPass : string; SMTPFrom : string;
  MagicTTL : Z; NodeStaleAge : Z; MCPEndpoint : string; AdminEmail : string }.

Record FedSettings := mkFedSettings {
  fs_Enabled : bool; fs_Port : string; fs_EndpointURL : string; fs_InstanceName : string; fs_KeyPath : string;
  fs_DiscoveryURL : string; fs_SyncInterval : string; fs_ExportFilter : string; fs_ImportMaxPeer : Z; fs_JoinSecret : string }.

Section Load.
(** [os.Getenv]: a variable that is not set is empty. *)
Context (getenv : string -> string).

Definition env (key fallback : string) : string :=
  let v := getenv key in if negb (is_empty v) then v else fallback.

Definition envInt (key : string) (fallback : Z) : Z :=
  let v := getenv key in
  if negb (is_empty v) then match atoi v with Some n => n | None => fallback end else fallback.

Definition envDuration (key : string) (fallback : Z) : Z :=
  let v := getenv key in
  if negb (is_empty v) then match ParseDuration v with Some d => d | None => fallback end else fallback.

Definition Load : Config :=
  mkConfig (env "HB_BASE_URL" "http://localhost:8080") (env "HB_DB_PATH" "data/hirebridge.db")
    (env "HB_VEC0_PATH" "/app/ext/vec0.so") (envInt "HB_EMBED_DIM" 384) (env "HB_TLS_DOMAIN" EmptyString)
    (env "HB_LISTEN" ":8080") (env "HB_MAILER_PROVIDER" EmptyString) (env "HB_RESEND_API_KEY" EmptyString)
    (env "HB_PURELYMAIL_API_TOKEN" EmptyString) (env "HB_SMTP_HOST" EmptyString) (envInt "HB_SMTP_PORT" 587)
    (env "HB_SMTP_USER" EmptyString) (env "HB_SMTP_PASS" EmptyString) (env "HB_SMTP_FROM" "hirebridge@localhost")
    (envDuration "HB_MAGIC_TTL" (15 * minute)) (envDuration "HB_NODE_PING_STALE" (90 * second))
    (env "HB_MCP_ENDPOINT" "/mcp") (env "HB_ADMIN_EMAIL" EmptyString).

Definition LoadConfig : FedSettings :=
  mkFedSettings (str_eqb (getenv "HB_FEDERATION_ENABLED") "true") (env "HB_FEDERATION_PORT" ":8400")
    (env "HB_FEDERATION_ENDPOINT" EmptyString) (env "HB_FEDERATION_INSTANCE_NAME" EmptyString)
    (env "HB_FEDERATION_KEY_PATH" "federation_key.json") (env "HB_FEDERATION_DISCOVERY_URL" EmptyString)
    (env "HB_FEDERATION_SYNC_INTERVAL" "5m") (env "HB_FEDERATION_EXPORT_FILTER" EmptyString)
    (envInt "HB_FEDERATION_IMPORT_MAX" 10000) (env "HB_FEDERATION_JOIN_SECRET" EmptyString).

End Load.

(** ** Durations in nanoseconds are read back *)

(** A 64-bit [int] or [time.Duration]. *)
Definition int64 (z : Z) : Prop := - 2 ^ 63 <= z < 2 ^ 63.

Lemma digits_val_grows x s : str_all is_digit s = true -> 0 <= x -> x <= digits_val x s.
Proof.
  revert x. induction s as [|c s IH]; intros x Hs Hx; [done|]. simpl in *. apply andb_true_iff in Hs as [Hc Hs].
  assert (48 <= byte_val c) by (unfold is_digit in Hc; lia). etrans; [|apply IH; [done|lia]]. lia.
Qed.

Lemma leadingInt_digits s rest x : str_all is_digit s = true -> 0 <= x -> digits_val x s <= 2 ^ 63 ->
  (forall c t, rest = String c t -> is_digit c = false) -> leadingInt x (s ++s rest) = Some (digits_val x s, rest).
Proof.
  revert x. induction s as [|c s IH]; intros x Hs Hx Hv Hr; cbn [String.append].
  - destruct rest as [|c t]; [done|]. simpl. by rewrite (Hr c t).
  - simpl in Hs. apply andb_true_iff in Hs as [Hc Hs]. cbn [leadingInt digits_val] in *. rewrite Hc.
    assert (48 <= byte_val c <= 57) as Hb by (unfold is_digit in Hc; lia).
    assert (10 * x + (byte_val c - 48) <= 2 ^ 63) as Hy by (etrans; [apply (digits_val_grows _ s); [done|lia]|exact Hv]).
    rewrite (proj2 (Z.ltb_ge _ _)) by (apply Z.div_le_lower_bound; lia).
    unfold uint64. rewrite Z.mod_small by lia. rewrite (proj2 (Z.ltb_ge _ _)) by lia.
    replace (x * 10 + (byte_val c - 48)) with (10 * x + (byte_val c - 48)) by lia. apply IH; [done|lia|done|done].
Qed.

Lemma parse_ns s : numeral_text s -> digits_val 0 s <= 2 ^ 63 -> forall fuel, (1 < fuel)%nat ->
  parse_terms fuel 0 (s ++s "ns") = Some (digits_val 0 s).
Proof.
  destruct s as [|c t]; [done|]. intros [Hall _] Hv [|[|fuel]] Hf; [lia..|].
  assert (is_digit c = true) as Hc by (simpl in Hall; by apply andb_true_iff in Hall as [? _]).
  pose proof (digits_val_grows 0 _ Hall ltac:(lia)) as H0.
  set (v := digits_val 0 (String c t)) in *. cbn [parse_terms]. cbn [String.append]. rewrite Hc, orb_true_r. cbn [negb].
  change (String c (t ++s "ns")) with (String c t ++s "ns"). rewrite leadingInt_digits; [|done|lia|done|by intros ? ? [= <- <-]].
  fold v. cbv zeta iota beta. rewrite !length_append. simpl String.length.
  replace (2 =? S (String.length t) + 2)%nat with false by (symmetry; apply Nat.eqb_neq; lia). cbn [negb andb].
  change (span_unit "ns") with ("ns", EmptyString). cbv iota beta. change (unitMap "ns") with (Some 1).
  cbv iota beta. unfold amount. rewrite Z.div_1_r, (proj2 (Z.ltb_ge _ _)) by lia. cbv zeta. unfold uint64. rewrite Z.mul_1_r, (Z.mod_small v) by lia.
  change (0 <? 0) with false. cbv iota. rewrite Z.add_0_l, (Z.mod_small v) by lia. by rewrite (proj2 (Z.ltb_ge _ _)) by lia.
Qed.

Lemma ParseDuration_ns z : int64 z -> ParseDuration (itoa z ++s "ns") = Some z.
Proof.
  unfold int64. intros Hz. destruct (itoa_text z) as (s & Hs & -> & Hv). destruct s as [|c t] eqn:Es; [done|]. rewrite <- Es in *.
  assert (is_digit c = true) as Hc by (subst s; destruct Hs as [Hall _]; simpl in Hall; by apply andb_true_iff in Hall as [? _]).
  assert (str_eqb (s ++s "ns") "0" = false) as H0 by (apply str_eqb_false; subst s; intros [= _ E]; by destruct t).
  assert (is_empty (s ++s "ns") = false) as He by by subst s.
  pose proof (parse_ns s Hs ltac:(lia) (S (String.length (s ++s "ns"))) ltac:(rewrite length_append; simpl; lia)) as Hp.
  unfold ParseDuration. destruct (z <? 0) eqn:E; [apply Z.ltb_lt in E|apply Z.ltb_ge in E]; cbn [String.append].
  - rewrite H0, He, Hp, Hv. f_equal. lia.
  - replace (match s ++s "ns" with String "-" t => (true, t) | String "+" t => (false, t) | _ => (false, s ++s "ns") end)
      with (false, s ++s "ns") by (subst s; destruct c as [[] [] [] [] [] [] [] []]; done).
    rewrite H0, He, Hp, Hv. rewrite (proj2 (Z.ltb_ge _ _)) by lia. f_equal. lia.
Qed.

(** ** What an operator writes, and what the server reads *)

(** A variable of the environment file, with the value meant. *)
Inductive variable :=
| TextVar (k v : string)
| NumberVar (k : string) (n : Z)
| SpanVar (k : string) (d : Z)
| FlagVar (k : string) (b : bool).

Definition var_key (r : variable) : string := match r with TextVar k _ | NumberVar k _ | SpanVar k _ | FlagVar k _ => k end.

(** How the value is written: durations in nanoseconds. *)
Definition written_as (r : variable) : string :=
  match r with
  | TextVar _ v => v
  | NumberVar _ n => itoa n
  | SpanVar _ d => itoa d ++s "ns"
  | FlagVar _ b => if b then "true" else "false"
  end.

(** A value that says nothing: unset, or not a number, not a duration, not the word [true]. *)
Definition says_nothing (r : variable) (v : string) : Prop :=
  match r with
  | TextVar _ _ => v = EmptyString
  | NumberVar _ _ => atoi v = None
  | SpanVar _ _ => ParseDuration v = None
  | FlagVar _ _ => v <> "true"
  end.

(** One variable for each setting. *)
Definition variables (c : Config) (f : FedSettings) : list variable :=
  [TextVar "HB_BASE_URL" (BaseURL c); TextVar "HB_DB_PATH" (DBPath c); TextVar "HB_VEC0_PATH" (Vec0Path c);
   NumberVar "HB_EMBED_DIM" (EmbedDim c); TextVar "HB_TLS_DOMAIN" (TLSDomain c); TextVar "HB_LISTEN" (ListenAddr c);
   TextVar "HB_MAILER_PROVIDER" (MailerProvider c); TextVar "HB_RESEND_API_KEY" (ResendAPIKey c);
   TextVar "HB_PURELYMAIL_API_TOKEN" (PurelymailAPIToken c); TextVar "HB_SMTP_HOST" (SMTPHost c);
   NumberVar "HB_SMTP_PORT" (SMTPPort c); TextVar "HB_SMTP_USER" (SMTPUser c); TextVar "HB_SMTP_PASS" (SMTPPass c);
   TextVar "HB_SMTP_FROM" (SMTPFrom c); SpanVar "HB_MAGIC_TTL" (MagicTTL c); SpanVar "HB_NODE_PING_STALE" (NodeStaleAge c);
   TextVar "HB_MCP_ENDPOINT" (MCPEndpoint c); TextVar "HB_ADMIN_EMAIL" (AdminEmail c);
   FlagVar "HB_FEDERATION_ENABLED" (fs_Enabled f); TextVar "HB_FEDERATION_PORT" (fs_Port f);
   TextVar "HB_FEDERATION_ENDPOINT" (fs_EndpointURL f); TextVar "HB_FEDERATION_INSTANCE_NAME" (fs_InstanceName f);
   TextVar "HB_FEDERATION_KEY_PATH" (fs_KeyPath f); TextVar "HB_FEDERATION_DISCOVERY_URL" (fs_DiscoveryURL f);
   TextVar "HB_FEDERATION_SYNC_INTERVAL" (fs_SyncInterval f); TextVar "HB_FEDERATION_EXPORT_FILTER" (fs_ExportFilter f);
   NumberVar "HB_FEDERATION_IMPORT_MAX" (fs_ImportMaxPeer f); TextVar "HB_FEDERATION_JOIN_SECRET" (fs_JoinSecret f)].

(** The settings of a server nobody configured. *)
Definition default_config : Config :=
  mkConfig "http://localhost:8080" "data/hirebridge.db" "/app/ext/vec0.so" 384 EmptyString ":8080" EmptyString EmptyString
    EmptyString EmptyString 587 EmptyString EmptyString "hirebridge@localhost" (15 * minute) (90 * second) "/mcp" EmptyString.
Definition default_fed : FedSettings :=
  mkFedSettings false ":8400" EmptyString EmptyString "federation_key.json" EmptyString "5m" EmptyString 10000 EmptyString.

Section Written.
Context (getenv : string -> string) (chosen : string -> bool).

(** The environment follows a variable: it is written if chosen, else says nothing. *)
Definition follows (r : variable) : Prop :=
  if chosen (var_key r) then getenv (var_key r) = written_as r else says_nothing r (getenv (var_key r)).

Definition pick {A} (k : string) (v default_ : A) : A := if chosen k then v else default_.

(** The chosen settings, the others by default. *)
Definition chosen_config (c d : Config) : Config :=
  mkConfig (pick "HB_BASE_URL" (BaseURL c) (BaseURL d)) (pick "HB_DB_PATH" (DBPath c) (DBPath d))
    (pick "HB_VEC0_PATH" (Vec0Path c) (Vec0Path d)) (pick "HB_EMBED_DIM" (EmbedDim c) (EmbedDim d))
    (pick "HB_TLS_DOMAIN" (TLSDomain c) (TLSDomain d)) (pick "HB_LISTEN" (ListenAddr c) (ListenAddr d))
    (pick "HB_MAILER_PROVIDER" (MailerProvider c) (MailerProvider d)) (pick "HB_RESEND_API_KEY" (ResendAPIKey c) (ResendAPIKey d))
    (pick "HB_PURELYMAIL_API_TOKEN" (PurelymailAPIToken c) (PurelymailAPIToken d)) (pick "HB_SMTP_HOST" (SMTPHost c) (SMTPHost d))
    (pick "HB_SMTP_PORT" (SMTPPort c) (SMTPPort d)) (pick "HB_SMTP_USER" (SMTPUser c) (SMTPUser d))
    (pick "HB_SMTP_PASS" (SMTPPass c) (SMTPPass d)) (pick "HB_SMTP_FROM" (SMTPFrom c) (SMTPFrom d))
    (pick "HB_MAGIC_TTL" (MagicTTL c) (MagicTTL d)) (pick "HB_NODE_PING_STALE" (NodeStaleAge c) (NodeStaleAge d))
    (pick "HB_MCP_ENDPOINT" (MCPEndpoint c) (MCPEndpoint d)) (pick "HB_ADMIN_EMAIL" (AdminEmail c) (AdminEmail d)).

Definition chosen_fed (f d : FedSettings) : FedSettings :=
  mkFedSettings (pick "HB_FEDERATION_ENABLED" (fs_Enabled f) (fs_Enabled d)) (pick "HB_FEDERATION_PORT" (fs_Port f) (fs_Port d))
    (pick "HB_FEDERATION_ENDPOINT" (fs_EndpointURL f) (fs_EndpointURL d))
    (pick "HB_FEDERATION_INSTANCE_NAME" (fs_InstanceName f) (fs_InstanceName d))
    (pick "HB_FEDERATION_KEY_PATH" (fs_KeyPath f) (fs_KeyPath d)) (pick "HB_FEDERATION_DISCOVERY_URL" (fs_DiscoveryURL f) (fs_DiscoveryURL d))
    (pick "HB_FEDERATION_SYNC_INTERVAL" (fs_SyncInterval f) (fs_SyncInterval d))
    (pick "HB_FEDERATION_EXPORT_FILTER" (fs_ExportFilter f) (fs_ExportFilter d))
    (pick "HB_FEDERATION_IMPORT_MAX" (fs_ImportMaxPeer f) (fs_ImportMaxPeer d))
    (pick "HB_FEDERATION_JOIN_SECRET" (fs_JoinSecret f) (fs_JoinSecret d)).

Lemma env_follows k v d : follows (TextVar k v) -> (d <> EmptyString -> v <> EmptyString) -> env getenv k d = pick k v d.
Proof.
  unfold follows, env, pick. simpl. destruct (chosen k); [intros -> Hv|by intros ->].
  destruct (is_empty v) eqn:E; [|done]. destruct v; [|done]. destruct d; [done|]. by destruct Hv.
Qed.

Lemma envInt_follows k n d : follows (NumberVar k n) -> int64 n -> envInt getenv k d = pick k n d.
Proof.
  unfold follows, envInt, pick. simpl. destruct (chosen k); intros E Hn.
  - rewrite E. destruct (is_empty (itoa n)) eqn:Ee; [|by rewrite atoi_itoa]. pose proof (atoi_itoa n Hn) as Ha. by destruct (itoa n).
  - rewrite E. by destruct (is_empty _).
Qed.

Lemma envDuration_follows k n d : follows (SpanVar k n) -> int64 n -> envDuration getenv k d = pick k n d.
Proof.
  unfold follows, envDuration, pick. simpl. destruct (chosen k); intros E Hn.
  - rewrite E. pose proof (ParseDuration_ns n Hn) as Hp. destruct (is_empty (itoa n ++s "ns")) eqn:Ee; [|by rewrite Hp].
    by destruct (itoa n ++s "ns").
  - rewrite E. by destruct (is_empty _).
Qed.

Lemma flag_follows k b : follows (FlagVar k b) -> str_eqb (getenv k) "true" = pick k b false.
Proof.
  unfold follows, pick. simpl. destruct (chosen k); intros E; [rewrite E; by destruct b|by apply str_eqb_false].
Qed.

End Written.

(** A configuration that can be said: integers of 64 bits, and no empty text where a default
    would take its place. *)
Definition sayable (c : Config) (f : FedSettings) : Prop :=
  (int64 (EmbedDim c) /\ int64 (SMTPPort c) /\ int64 (MagicTTL c) /\ int64 (NodeStaleAge c) /\ int64 (fs_ImportMaxPeer f)) /\
  (BaseURL c <> EmptyString /\ DBPath c <> EmptyString /\ Vec0Path c <> EmptyString /\ ListenAddr c <> EmptyString /\
   SMTPFrom c <> EmptyString /\ MCPEndpoint c <> EmptyString /\ fs_Port f <> EmptyString /\ fs_KeyPath f <> EmptyString /\
   fs_SyncInterval f <> EmptyString).

(** C38: the server runs on the settings that were written.  Take any configuration that can be
    said and any choice of variables to set.  In an environment where the chosen variables
    hold the values meant, each under its own name, and the others are unset or say
    nothing (no number for a number, no duration for a duration, anything but [true] for the
    switch), loading gives exactly the chosen settings, and the default for every other
    one. *)
Theorem settings_read_back getenv chosen c f :
  sayable c f -> Forall (follows getenv chosen) (variables c f) ->
  Load getenv = chosen_config chosen c default_config /\ LoadConfig getenv = chosen_fed chosen f default_fed.
Proof.
  intros [(I1 & I2 & I3 & I4 & I5) (T1 & T2 & T3 & T4 & T5 & T6 & T7 & T8 & T9)]. unfold variables. rewrite !Forall_cons. intros Hr.
  destruct_and? Hr. unfold Load, LoadConfig, chosen_config, chosen_fed. simpl. split; f_equal;
    first [by eapply env_follows|by eapply envInt_follows|by eapply envDuration_follows|by eapply flag_follows].
Qed.

(** The variables of the deployment in deploy.yml, the mail port misspelt. *)
Definition deployed : Config :=
  mkConfig "https://hirebridge.dev" "/opt/hirebridge/data/hirebridge.db" "/app/ext/vec0.so" 384 "hirebridge.dev" ":8080" "smtp" EmptyString
    EmptyString "smtp.purelymail.com" 587 "noreply@hirebridge.dev" "secret" "noreply@hirebridge.dev" (30 * minute) (90 * second) "/mcp" EmptyString.

Definition deployed_env (k : string) : string :=
  if str_eqb k "HB_SMTP_PORT" then "smtp"
  else default EmptyString (assoc k ((fun r => (var_key r, written_as r)) <$> variables deployed default_fed)).

Definition all_but_port (k : string) : bool := negb (str_eqb k "HB_SMTP_PORT").

Theorem settings_read_back_witness :
  Load deployed_env = deployed /\ MagicTTL (Load deployed_env) = 30 * minute /\ deployed_env "HB_MAGIC_TTL" = "1800000000000ns".
Proof.
  destruct (settings_read_back deployed_env all_but_port deployed default_fed) as [E _].
  - unfold sayable, int64. simpl. unfold minute, second. repeat split; try discriminate; lia.
  - unfold variables. repeat (apply Forall_cons; split; [vm_compute; first [reflexivity|discriminate]|]). by apply Forall_nil.
  - split; [exact E|]. split; [rewrite E; reflexivity|vm_compute; reflexivity].
Defined.
