(* ===== verification/Router.v ===== *)
(** * The routes (src/internal/httpapi/server.go)

    The table [build] registers: each route with its middleware, outermost first.  Matching a
    path against the patterns is chi's, and serving the MCP protocol and the static files is
    mcp-go's and net/http's: parameters. *)

From S2P Require Import Prelude RateLimit AdminStore Schema Statements Invariants World.
From S2P Require Import GoStrings GoJson GoTime Sha256 Float Runs Samples Repo RepoFacts Auth AuthFacts Http.
From S2P Require Import Middleware AuthHandlers FedRepo AdminHandlers Ingest WebUI.

Open Scope Z_scope.

(** What the server uses of chi: of a table of methods and patterns, the index of the route
    for a method and path and the URL parameters; a route of another method never matches.
    And what is served when none does. *)
Class Chi := {
  chi_find : list (string * string) -> string -> string -> option (nat * list (string * string));
  chi_absent : list (string * string) -> request -> response;
  chi_method : forall tbl m p i ps, chi_find tbl m p = Some (i, ps) -> exists pat, tbl !! i = Some (m, pat) }.

Record ServerConfig := mkServer {
  sc_AuthSvc : AuthService;
  sc_EmbedDim : Z;
  sc_BaseURL : string;
  sc_StaleAge : Z;
  sc_MCPEndpoint : string;
  sc_Admin : AdminConfig;
  (** the embedded OpenAPI document *)
  sc_Spec : string }.

Record route := mkRoute { rt_method : string; rt_pattern : string; rt_endpoint : handler }.

(** [r.With(m1, m2).Method(pattern, h)] *)
Definition With (mws : list middleware) (h : handler) : handler := foldr (fun m h => m h) h mws.

Module Server.
Section Server.
Context `{Env, Engine, Unicode, Zone, Ed25519, FloatText, Chi}.
Context (cfg : ServerConfig) (mcp_serve static_serve : handler).

Definition webH : WebConfig := mkWeb (sc_BaseURL cfg) (sc_StaleAge cfg).

Definition healthz : handler := fun _ _ => mret (json_resp 200 (jmap [("ok", JBool true)])).
Definition openapi : handler := fun _ _ =>
  mret (Resp 200 [("Content-Type", "application/json")] [] (BText (sc_Spec cfg))).

Definition authMw : middleware := Middleware.OptionalAuth.
Definition csrfMw : middleware := Middleware.RequireSameOrigin (sc_BaseURL cfg).
Definition strictAuth : middleware := Middleware.Auth (sc_BaseURL cfg).
Definition adminMw : middleware := Middleware.RequireAdmin true.
Definition mcpScope : middleware := Middleware.RequireScope "talent:search".

Definition public_routes : list route :=
  [mkRoute "GET" "/healthz" healthz;
   mkRoute "GET" "/static/*" static_serve;
   mkRoute "POST" "/auth/request" (AuthHandler.RequestMagicLink (sc_AuthSvc cfg));
   mkRoute "GET" "/auth/callback" AuthHandler.Callback;
   mkRoute "POST" "/auth/logout" AuthHandler.Logout;
   mkRoute "POST" "/auth/device" (AuthHandler.InitDevice (sc_AuthSvc cfg));
   mkRoute "POST" "/auth/token" AuthHandler.TokenEndpoint;
   mkRoute "GET" "/device" AuthHandler.DevicePage].

Definition user_routes : list route :=
  [mkRoute "POST" "/device/approve" (With [authMw; csrfMw] AuthHandler.ApproveDevice);
   mkRoute "POST" "/ingest/snapshot" (With [strictAuth] (Ingest.Snapshot (sc_EmbedDim cfg)));
   mkRoute "GET" "/" WebUI.Landing;
   mkRoute "GET" "/docs" WebUI.Docs;
   mkRoute "GET" "/instructions/talent" WebUI.InstructionsTalent;
   mkRoute "GET" "/instructions/recruiter" WebUI.InstructionsRecruiter;
   mkRoute "GET" "/api/openapi.json" openapi;
   mkRoute "GET" "/dashboard" (With [authMw] WebUI.DashboardRedirect);
   mkRoute "GET" "/dashboard/talent" (With [authMw] (WebUI.TalentDashboard webH));
   mkRoute "GET" "/dashboard/recruiter" (With [authMw] (WebUI.RecruiterDashboard webH));
   mkRoute "POST" "/dashboard/recruiter/apikey" (With [authMw; csrfMw] (WebUI.GenerateAPIKey webH));
   mkRoute "POST" "/api/nodes/{nodeID}/revoke" (With [authMw; csrfMw] WebUI.RevokeNode)].

Definition admin_routes : list route :=
  [mkRoute "GET" "/admin/login" AdminHandler.LoginForm;
   mkRoute "POST" "/admin/login" (With [csrfMw] (AdminHandler.LoginSubmit (sc_Admin cfg)));
   mkRoute "GET" "/admin/callback" (AdminHandler.Callback (sc_Admin cfg));
   mkRoute "POST" "/admin/logout" (With [csrfMw; adminMw] AdminHandler.Logout);
   mkRoute "GET" "/admin" (With [adminMw] AdminHandler.Panel);
   mkRoute "POST" "/admin/peers/{id}/approve" (With [csrfMw; adminMw] AdminHandler.ApprovePeer);
   mkRoute "POST" "/admin/peers/{id}/revoke" (With [csrfMw; adminMw] AdminHandler.RevokePeer)].

Definition mcp_routes : list route :=
  mkRoute "GET" "/.well-known/oauth-protected-resource" mcp_serve
  :: ((fun m => mkRoute m (sc_MCPEndpoint cfg) (With [strictAuth; mcpScope] mcp_serve)) <$> ["GET"; "POST"; "DELETE"]).

Definition build : list route :=
  public_routes ++ user_routes ++ (if AdminHandler.Enabled (sc_Admin cfg) then admin_routes else []) ++ mcp_routes.

Definition with_params (ps : list (string * string)) (r : request) : request :=
  Req (r_method r) (r_path r) (r_host r) (r_remote r) (r_tls r) (r_headers r) (r_cookies r) (r_query r) (r_form r)
    (r_form_ok r) ps (r_body r).

Definition table : list (string * string) := (fun rt => (rt_method rt, rt_pattern rt)) <$> build.

(** One request to the server. *)
Definition serve (r : request) : M response :=
  match chi_find table (r_method r) (r_path r) with
  | Some (i, ps) =>
      match build !! i with
      | Some rt => rt_endpoint rt empty_ctx (with_params ps r)
      | None => mret (chi_absent table r)
      end
  | None => mret (chi_absent table r)
  end.

(** ** Pool discipline *)

Lemma good_authMw h : Middleware.good_handler h -> Middleware.good_handler (authMw h).
Proof. apply Middleware.good_OptionalAuth. Qed.
Lemma good_csrfMw h : Middleware.good_handler h -> Middleware.good_handler (csrfMw h).
Proof. apply Middleware.good_RequireSameOrigin. Qed.
Lemma good_strictAuth h : Middleware.good_handler h -> Middleware.good_handler (strictAuth h).
Proof. apply Middleware.good_Auth. Qed.
Lemma good_adminMw h : Middleware.good_handler h -> Middleware.good_handler (adminMw h).
Proof. apply Middleware.good_RequireAdmin. Qed.
Lemma good_mcpScope h : Middleware.good_handler h -> Middleware.good_handler (mcpScope h).
Proof. apply Middleware.good_RequireScope. Qed.

Lemma good_healthz : Middleware.good_handler healthz.
Proof. intros c r. unfold healthz. solve_good. Qed.
Lemma good_openapi : Middleware.good_handler openapi.
Proof. intros c r. unfold openapi. solve_good. Qed.

#[local] Hint Resolve good_authMw good_csrfMw good_strictAuth good_adminMw good_mcpScope good_healthz good_openapi
  Ingest.good_Snapshot : good.

Lemma good_build :
  Middleware.good_handler mcp_serve -> Middleware.good_handler static_serve ->
  each (fun rt => Middleware.good_handler (rt_endpoint rt)) build.
Proof.
  intros Hm Hs. destruct (AuthHandler.good_all (sc_AuthSvc cfg)) as ((((((A1 & A2) & A3) & A4) & A5) & A6) & A7).
  destruct (WebUI.good_pages webH) as ((((((((W1 & W2) & W3) & W4) & W5) & W6) & W7) & W8) & W9).
  destruct (AdminHandler.good_admin_handlers (sc_Admin cfg)) as ((((((D1 & D2) & D3) & D4) & D5) & D6) & D7).
  unfold build. repeat apply each_app; [| |destruct (AdminHandler.Enabled _); [|exact tt]|].
  all: unfold public_routes, user_routes, admin_routes, mcp_routes; repeat split; simpl; auto 4 with good nocore.
Qed.

Lemma good_serve r :
  Middleware.good_handler mcp_serve -> Middleware.good_handler static_serve -> good (serve r).
Proof.
  intros Hm Hs. unfold serve. destruct (chi_find _ _ _) as [[i ps]|]; [|solve_good].
  destruct (build !! i) as [rt|] eqn:E; [|solve_good].
  apply (each_lookup _ _ _ _ (good_build Hm Hs) E).
Qed.

End Server.
End Server.
