(* ===== verification/RouterFacts.v ===== *)
(** * What the routes guarantee together

    Every request is answered and leaves an intact database; a page of another site changes
    nothing through a browser's cookie; the revoke button revokes the user's own nodes only;
    and the dashboard's key button, which looks at no scope. *)

From S2P Require Import Prelude RateLimit AdminStore Schema Statements Invariants World.
From S2P Require Import GoStrings GoJson GoTime Sha256 Float Runs Samples Repo RepoFacts Auth AuthFacts Http.
From S2P Require Import Middleware MiddlewareFacts AuthHandlers FedRepo AdminHandlers Ingest IngestFacts WebUI Ledger Router.

Open Scope Z_scope.

Section RouterFacts.
Context `{Env, Engine, Unicode, Zone, Ed25519, FloatText, Chi}.
Context (cfg : ServerConfig) (mcp_serve static_serve : handler).

Abbreviation base := (sc_BaseURL cfg).
Abbreviation server := (Server.serve cfg mcp_serve static_serve).

(** Every request to the server, run from its start to its end, is answered.  Whatever the request, the clock, the draws and
    the statements that fail, and whatever the MCP and static handlers do as long as they give
    the connection back, no request waits forever: the pool's connection is free again, the
    database is intact, and what became of its links, grants, tokens and introductions are
    transitions of the ledger. *)
Theorem every_request_answered r w :
  Middleware.good_handler mcp_serve -> Middleware.good_handler static_serve ->
  w_conn w = true -> db_wf (w_db w) ->
  let run := server r w in
  run.1 <> Blocked /\ w_conn run.2 = true /\ db_wf (w_db run.2) /\
  rtc ledger_step (ledger_of (w_db w)) (ledger_of (w_db run.2)).
Proof.
  intros Hm Hs Hc W run. destruct (Server.good_serve cfg mcp_serve static_serve r Hm Hs w Hc) as (Ev & Hc' & Hb).
  split_and!; [exact Hb|exact Hc'|by eapply evolves_preserves_wf|by apply evolves_simulated].
Qed.

(** ** Requests from other sites *)

(** Nothing moved but the time the token was last used. *)
Definition unmoved (token : string) (w w' : world) : Prop :=
  stamped token (w_db w) (w_db w') /\ w_sessions w' = w_sessions w /\ w_links w' = w_links w /\
  w_mail w' = w_mail w /\ w_sent w' = w_sent w /\ w_wake w' = w_wake w.

Lemma unmoved_refl token w w' : w' = w \/ w' = tick w -> unmoved token w w'.
Proof. intros [->| ->]; (split_and!; [by left|done..]). Qed.

Lemma touch_unmoved token w :
  w_conn w = true -> exists w1, ignore (Repo.TouchAPIToken token) w = (Ok tt, w1) /\ unmoved token w w1 /\ w_conn w1 = true.
Proof.
  intros Hc. unfold ignore, Repo.TouchAPIToken, Repo.exec_, unix_now, time_now,
    next_tick, db_exec, with_conn, sql_stmt, unmoved, stamped, try_, mbind, M_bind. simpl. rewrite Hc. simpl.
  destruct (sql_fails _); simpl; eexists; (split; [reflexivity|]); simpl; split_and!; eauto.
Qed.

(** Behind [OptionalAuth] the handler runs once, for the token's user or for nobody. *)
Lemma optional_run next c r w :
  w_conn w = true ->
  exists c' w1, unmoved (Middleware.extractBearer r) w w1 /\ w_conn w1 = true /\
    Middleware.OptionalAuth next c r w = next c' r w1 /\
    (c' = c \/ exists a, bearer_row (Middleware.extractBearer r) (w_db w) = Some a /\
       c' = Middleware.token_ctx a (Middleware.extractBearer r) c).
Proof.
  intros Hc. unfold Middleware.OptionalAuth. set (token := Middleware.extractBearer r).
  destruct (is_empty token); [exists c, w; split_and!; auto using unmoved_refl|].
  destruct (APITokenByHash_run token w Hc) as [E|[_ E]].
  2: { exists c, (tick w). erewrite run_bind by exact (run_try_err _ _ _ _ E). split_and!; auto using unmoved_refl. }
  erewrite run_bind by exact (run_try _ _ _ _ E). destruct (bearer_row token (w_db w)) as [a|] eqn:Eb.
  - destruct (touch_unmoved token (tick w) Hc) as (w1 & E1 & Hu & Hc1). erewrite run_bind by exact E1.
    exists (Middleware.token_ctx a token c), w1. split_and!; eauto.
  - exists c, (tick w). split_and!; auto using unmoved_refl.
Qed.

(** The three state-changing routes that ask for no session and look at no cookie. *)
Definition open_routes : list route :=
  [mkRoute "POST" "/auth/request" (AuthHandler.RequestMagicLink (sc_AuthSvc cfg));
   mkRoute "POST" "/auth/device" (AuthHandler.InitDevice (sc_AuthSvc cfg));
   mkRoute "POST" "/auth/token" AuthHandler.TokenEndpoint].

(** The one route that acts on the cookie without looking where the request comes from. *)
Definition logout_route : route := mkRoute "POST" "/auth/logout" AuthHandler.Logout.

Definition set_cookies (cs : list (string * string)) (r : request) : request :=
  Req (r_method r) (r_path r) (r_host r) (r_remote r) (r_tls r) (r_headers r) cs (r_query r) (r_form r)
    (r_form_ok r) (r_params r) (r_body r).

(** The token shown is revoked, and nothing else happens: without a token, or when the
    statement fails, nothing at all. *)
Definition signed_out (token : string) (w w' : world) : Prop :=
  (w_db w' = w_db w /\ (token = EmptyString \/ exists k, sql_fails k = true) \/
   token <> EmptyString /\
   exists t, w_db w' = set_api (upd (fun a => str_eqb (t_hash a) (Repo.HashToken token)) (revoked t)) (w_db w)) /\
  w_sessions w' = w_sessions w /\ w_links w' = w_links w /\ w_limiter w' = w_limiter w /\
  w_mail w' = w_mail w /\ w_sent w' = w_sent w /\ w_wake w' = w_wake w.

Lemma logout_signs_out c r w :
  w_conn w = true -> signed_out (Middleware.extractBearer r) w (AuthHandler.Logout c r w).2.
Proof.
  intros Hc. unfold AuthHandler.Logout, Middleware.BearerFromRequest. set (token := Middleware.extractBearer r).
  destruct (is_empty token) eqn:Ee.
  - split_and!; try done. left. split; [done|left]. by destruct token.
  - apply is_empty_false in Ee. unfold ignore, Repo.RevokeAPIToken, Repo.exec_, unix_now, time_now, next_tick, db_exec,
      with_conn, sql_stmt, signed_out, try_, mbind, M_bind. simpl. rewrite Hc. simpl.
    destruct (sql_fails _) eqn:Ef; simpl; split_and!; try done.
    + left. split; [done|right]. eauto.
    + right. split; [done|]. by eexists.
Qed.

(** The route a request is answered by. *)
Definition routed (r : request) (rt : route) : Prop :=
  exists i ps, chi_find (Server.table cfg mcp_serve static_serve) (r_method r) (r_path r) = Some (i, ps) /\
    Server.build cfg mcp_serve static_serve !! i = Some rt.

(** What a route does with a request of another site. *)
Definition deaf (rt : route) : Prop :=
  rt_method rt = "GET" \/ rt = logout_route \/
  rt ∈ open_routes \/
  forall r c w, w_conn w = true -> Middleware.same_origin base r = false -> header r "Authorization" = EmptyString ->
    unmoved (Middleware.extractBearer r) w (rt_endpoint rt c r w).2.

Lemma deaf_csrf m p mws h : deaf (mkRoute m p (With (Server.csrfMw cfg :: mws) h)).
Proof.
  do 3 right. intros r c w _ Ho _. simpl. unfold Server.csrfMw, Middleware.RequireSameOrigin. rewrite Ho.
  by apply unmoved_refl; left.
Qed.

Lemma deaf_auth_csrf m p h : deaf (mkRoute m p (With [Server.authMw; Server.csrfMw cfg] h)).
Proof.
  do 3 right. intros r c w Hc Ho _. simpl. unfold Server.authMw.
  destruct (optional_run (Server.csrfMw cfg h) c r w Hc) as (c' & w1 & Hu & _ & -> & _).
  unfold Server.csrfMw, Middleware.RequireSameOrigin. by rewrite Ho.
Qed.

Lemma deaf_strict m p mws h : deaf (mkRoute m p (With (Server.strictAuth cfg :: mws) h)).
Proof.
  do 3 right. intros r c w _ _ Ha. simpl. unfold Server.strictAuth, Middleware.Auth, Middleware.extractBearerHeader.
  rewrite Ha. by apply unmoved_refl; left.
Qed.

(** What such a route does is the same for every cookie. *)
Lemma open_blind rt : rt ∈ open_routes -> forall cs c r, rt_endpoint rt c (set_cookies cs r) = rt_endpoint rt c r.
Proof. unfold open_routes. intros Hrt. set_unfold in Hrt. by destruct Hrt as [->|[->|[->|[]]]]. Qed.

Lemma deaf_build : Forall deaf (Server.build cfg mcp_serve static_serve).
Proof.
  unfold Server.build. rewrite !Forall_app. split_and!; [| |destruct (AdminHandler.Enabled _); [|by apply Forall_nil]|].
  all: unfold Server.public_routes, Server.user_routes, Server.admin_routes, Server.mcp_routes; cbn [fmap list_fmap];
    rewrite !Forall_cons; split_and!; try (by apply Forall_nil);
    first [by left|apply deaf_csrf|apply deaf_auth_csrf|apply deaf_strict|by right; left|do 2 right; left; unfold open_routes].
  all: repeat first [apply list_elem_of_here|apply list_elem_of_further].
Qed.

(** C14: what a page of another site can do.  Take a request whose method is not safe and whose
    origin is not the site's, carrying no [Authorization] header (which a browser does not add
    by itself), with whatever cookies.  On every route but four it leaves database, admin
    sessions, links, mails, outgoing requests and the wake signal as they were; only the last
    use of the cookie's token may be noted.  Three of the four, the login link, the device
    code and the token endpoint, look at no cookie: the answer and the effects are those of
    anybody's request.  The fourth is [/auth/logout]: it revokes the token of the cookie,
    unless its statement fails, and does nothing else. *)
Theorem cross_site_changes_nothing r w :
  w_conn w = true -> Middleware.same_origin base r = false -> header r "Authorization" = EmptyString ->
  ((forall rt, routed r rt -> rt <> logout_route /\ rt ∉ open_routes) -> unmoved (Middleware.extractBearer r) w (server r w).2) /\
  (forall rt cs, routed r rt -> rt ∈ open_routes -> server (set_cookies cs r) w = server r w) /\
  (routed r logout_route -> signed_out (Middleware.extractBearer r) w (server r w).2).
Proof.
  intros Hc Ho Ha. unfold routed, Server.serve. simpl. split_and!.
  - intros Hn. destruct (chi_find _ _ _) as [[i ps]|] eqn:Ef; [|by apply unmoved_refl; left].
    destruct (Server.build _ _ _ !! i) as [rt|] eqn:Er; [|by apply unmoved_refl; left].
    destruct (chi_method _ _ _ _ _ Ef) as [pat Et]. destruct (Hn rt) as [Hl Hp]; [by exists i, ps|].
    unfold Server.table in Et. rewrite list_lookup_fmap, Er in Et. injection Et as Em Epat.
    change (Middleware.extractBearer r) with (Middleware.extractBearer (Server.with_params ps r)).
    pose proof deaf_build as Hd. rewrite Forall_forall in Hd.
    destruct (Hd rt (list_elem_of_lookup_2 _ _ _ Er)) as [Hg|[?|[?|Hd']]]; [|done..|by apply Hd'].
    exfalso. unfold Middleware.same_origin in Ho. rewrite <- Em, Hg in Ho. discriminate Ho.
  - intros rt cs (i & ps & -> & ->) Hin. by rewrite <- (open_blind rt Hin cs empty_ctx (Server.with_params ps r)).
  - intros (i & ps & -> & ->). by apply (logout_signs_out empty_ctx (Server.with_params ps r)).
Qed.

(** ** The revoke button *)

Definition revoke_endpoint : handler := With [Server.authMw; Server.csrfMw cfg] WebUI.RevokeNode.

(** C15: the revoke button revokes only the user's own node, and all of it.  If the route of the
    button changed the nodes at all, the request came from the site and bore a live
    token, the node named by the path belongs to the token's user, the answer sends the user
    back to the dashboard, exactly that node is deactivated and none of its snapshots is
    left. *)
Theorem revoke_only_own r w o w' :
  w_conn w = true -> revoke_endpoint empty_ctx r w = (o, w') -> nodes (w_db w') <> nodes (w_db w) ->
  let id := url_param r "nodeID" in
  Middleware.same_origin base r = true /\ o = Ok (redirect "/dashboard/talent") /\
  exists a n t, bearer_row (Middleware.extractBearer r) (w_db w) = Some a /\
    Repo.node_by_id id (w_db w) = Some n /\ n_user n = Some (t_user a) /\
    nodes (w_db w') = upd (node_is id) (deactivated t) (nodes (w_db w)) /\
    forall s, s ∈ snapshots (w_db w') -> s_node s <> id.
Proof.
  intros Hc E Hn id. unfold revoke_endpoint in E. simpl in E. unfold Server.authMw in E.
  destruct (optional_run (Server.csrfMw cfg WebUI.RevokeNode) empty_ctx r w Hc) as (c' & w1 & (Hst & _) & Hc1 & Er & Hctx).
  rewrite Er in E. assert (nodes (w_db w1) = nodes (w_db w)) as Hn1 by (destruct Hst as [->|[t ->]]; done).
  rewrite <- Hn1 in Hn. unfold Server.csrfMw, Middleware.RequireSameOrigin in E.
  destruct (Middleware.same_origin base r); [|by injection E as _ <-]. split; [done|].
  unfold WebUI.RevokeNode in E. fold id in E.
  destruct (is_empty (UserIDFromContext c')) eqn:Eu; [by injection E as _ <-|].
  destruct (is_empty id); [by injection E as _ <-|].
  unfold mbind at 1, M_bind at 1, try_ in E.
  pose proof (keeps_NodeByID (fun d => d) id w1) as Hk. destruct (Repo.NodeByID id w1) as [[o1|e|p|] w2] eqn:E1;
    simpl in Hk; try (injection E as _ <-; by rewrite Hk in Hn).
  unfold Repo.NodeByID in E1. apply row_or_nil_ok in E1 as (_ & -> & _).
  destruct (Repo.node_by_id id (w_db w1)) as [n|] eqn:En; [|injection E as _ <-; by rewrite Hk in Hn].
  unfold WebUI.owned in E. destruct (col_is (n_user n) (UserIDFromContext c')) eqn:Eo; [|injection E as _ <-; by rewrite Hk in Hn].
  unfold mbind, M_bind, try_ in E.
  assert (forall o3 w3, Repo.RevokeNode id w2 = (o3, w3) -> (forall u, o3 <> Ok u) -> w3 = w' -> False) as Hbad.
  { intros o3 w3 E3 Ho3 ->. apply Hn. rewrite (RevokeNode_not_ok _ _ _ _ E3 Ho3). by rewrite Hk. }
  destruct (Repo.RevokeNode id w2) as [[u|e|p|] w3] eqn:E3; injection E as Eo' Ew;
    try (exfalso; by eapply Hbad). subst w3. split; [by rewrite <- Eo'|].
  apply RevokeNode_ok in E3 as (_ & Hnodes & Hsnaps & _). rewrite Hk in *. bool_prop.
  destruct Hctx as [->|(a & Ha & ->)]; [by destruct Eu|].
  exists a, n, (unix (clock (w_tick w2))). split_and!; [done| |done|by rewrite Hnodes, Hn1|].
  - rewrite <- En. unfold Repo.node_by_id. by rewrite Hn1.
  - intros s Hs. rewrite Hsnaps in Hs. apply elem_of_del in Hs as [Hs _]. by bool_prop.
Qed.

(** ** The key button *)

Definition apikey_endpoint : handler := With [Server.authMw; Server.csrfMw cfg] (WebUI.GenerateAPIKey (Server.webH cfg)).

(** The row [CreateAPIToken] adds, when its hash is new. *)
Lemma run_CreateAPIToken (Hsql : forall k, sql_fails k = false) (Hrand : forall k n, entropy k n <> None) u l sc w :
  w_conn w = true -> has_user u (w_db w) = true ->
  (forall a k b, a ∈ api_tokens (w_db w) -> entropy k 32 = Some b -> t_hash a <> Repo.HashToken (Hex.encode b)) ->
  exists b t row w1, Repo.CreateAPIToken u None l sc w = (Ok (Hex.encode b, row), w1) /\ w_conn w1 = true /\
    let t' := APIToken (Repo.HashToken (Hex.encode b)) u None (Some l) (Some sc) t None None in
    w_db w1 = set_api (fun ts => ts ++ [t']) (w_db w) /\ bearer_row (Hex.encode b) (w_db w1) = Some t'.
Proof.
  intros Hc Hu Hf. unfold Repo.CreateAPIToken. destruct (run_GenerateToken Hrand w) as (b & Hb & E).
  erewrite run_bind by exact E. cbv zeta. erewrite run_bind by reflexivity.
  assert (has (fun a => str_eqb (t_hash a) (Repo.HashToken (Hex.encode b))) (api_tokens (w_db w)) = false) as Hn.
  { apply has_false. intros a Ha. apply str_eqb_false. by eapply Hf. }
  eexists b, _, _, _. split_and!.
  - erewrite run_bind; [reflexivity|]. apply (run_exec Hsql); [done|]. cbn [exec_stmt]. unfold inserting.
    change (w_db (set_tick _ (tick w))) with (w_db w). rewrite Hn, Hu. reflexivity.
  - done.
  - reflexivity.
  - unfold bearer_row. cbn [w_db set_db api_tokens set_api]. rewrite sel_app, sel_miss.
    + unfold sel. rewrite filter_cons. unfold Repo.live_token. cbn [t_hash t_revoked]. change (Repo.sha256Hex (Hex.encode b)) with (Repo.HashToken (Hex.encode b)).
      by rewrite decide_True by (by rewrite str_eqb_refl).
    + intros a Ha. unfold Repo.live_token. change (Repo.sha256Hex (Hex.encode b)) with (Repo.HashToken (Hex.encode b)).
      by rewrite (proj1 (has_false _ _) Hn).
Qed.

Lemma run_counts (Hsql : forall k, sql_fails k = false) h w :
  w_conn w = true -> exists n w1, WebUI.counts h w = (Ok n, w1) /\ w_db w1 = w_db w.
Proof.
  intros Hc. unfold WebUI.counts, WebUI.count_or_zero.
  erewrite run_bind by (erewrite run_bind by (apply run_try, (run_query Hsql); exact Hc); reflexivity).
  erewrite run_bind by reflexivity.
  erewrite run_bind by (erewrite run_bind by (apply run_try, (run_query Hsql); exact Hc); reflexivity).
  by eexists _, _.
Qed.

(** C27: the key button looks at no scope.  From the site itself, any live token in the cookie or
    header, one minted for a node to push snapshots included, is answered with a page that
    shows a fresh token, and that token stands for the same user with the scope
    [talent:search] that the MCP endpoint asks for. *)
Theorem key_button_ignores_scope r w a :
  (forall k, sql_fails k = false) -> (forall k n, entropy k n <> None) ->
  w_conn w = true -> db_wf (w_db w) ->
  (forall t k b, t ∈ api_tokens (w_db w) -> entropy k 32 = Some b -> t_hash t <> Repo.HashToken (Hex.encode b)) ->
  is_empty (Middleware.extractBearer r) = false -> Middleware.same_origin base r = true ->
  bearer_row (Middleware.extractBearer r) (w_db w) = Some a -> t_user a <> EmptyString ->
  exists key n w' t, apikey_endpoint empty_ctx r w = (Ok (WebUI.recruiter_page (Server.webH cfg) key n JNull), w') /\
    bearer_row key (w_db w') = Some t /\ t_user t = t_user a /\ t_scope t = Some "talent:search".
Proof.
  intros Hsql Hrand Hc W Hf He Ho Ha Hu. set (token := Middleware.extractBearer r) in *.
  assert (Hau : has_user (t_user a) (w_db w) = true).
  { apply head_sel_some in Ha as [Ha _]. by apply (wf_api_rows _ W). }
  destruct (APITokenByHash_run token w Hc) as [E|[[k Hk] _]]; [|by rewrite Hsql in Hk].
  destruct (touch_unmoved token (tick w) Hc) as (w1 & E1 & (Hst & _) & Hc1).
  assert (Hu1 : has_user (t_user a) (w_db w1) = true) by (destruct Hst as [->|[t ->]]; exact Hau).
  assert (Hf1 : forall t k b, t ∈ api_tokens (w_db w1) -> entropy k 32 = Some b -> t_hash t <> Repo.HashToken (Hex.encode b)).
  { intros t k b Ht. destruct Hst as [Ed|[tt Ed]]; rewrite Ed in Ht; [by apply Hf|].
    apply elem_of_upd in Ht as (t0 & Ht & ->). specialize (Hf t0 k b Ht). by destruct (str_eqb _ _). }
  unfold apikey_endpoint. simpl. unfold Server.authMw, Middleware.OptionalAuth. fold token. rewrite He.
  erewrite run_bind by exact (run_try _ _ _ _ E). rewrite Ha. erewrite run_bind by exact E1.
  unfold Server.csrfMw, Middleware.RequireSameOrigin. rewrite Ho. unfold WebUI.GenerateAPIKey.
  change (UserIDFromContext (Middleware.token_ctx a token empty_ctx)) with (t_user a). apply is_empty_false in Hu. rewrite Hu.
  destruct (run_CreateAPIToken Hsql Hrand (t_user a) "mcp-api" "talent:search" w1 Hc1 Hu1 Hf1) as (b & t & row & w2 & E2 & Hc2 & Hd2 & Hb2).
  erewrite run_bind by exact (run_try _ _ _ _ E2). cbv beta iota.
  destruct (run_audit Hsql Hrand (t_user a) "apikey_generated" "mcp-api" w2 Hc2) as (w3 & f & E3 & Hd3 & Hc3 & _).
  erewrite run_bind by exact E3. destruct (run_counts Hsql (Server.webH cfg) w3 Hc3) as (n & w4 & E4 & Hd4).
  erewrite run_bind by exact E4. eexists (Hex.encode b), n, w4, _. split; [reflexivity|].
  split; [rewrite Hd4, Hd3; exact Hb2|by split].
Qed.

End RouterFacts.

(** ** A concrete server *)

#[local] Existing Instance sample_env.
#[local] Existing Instance sample_engine.
#[local] Existing Instance ascii_unicode.
#[local] Existing Instance no_floats.
#[local] Existing Instance sample_ed25519.
#[local] Instance utc_zone : Zone := {| utc_offset _ := 0 |}.

(** Routes without parameters are found by their path, the revoke route by its prefix. *)
Definition matches (pat path : string) : option (list (string * string)) :=
  if str_eqb pat "/api/nodes/{nodeID}/revoke" then
    if has_prefix path "/api/nodes/" && str_eqb (Utf8.str_drop (String.length path - 7) path) "/revoke"
    then Some [("nodeID", Utf8.str_take (String.length path - 18) (Utf8.str_drop 11 path))] else None
  else if str_eqb pat path then Some [] else None.

Fixpoint find_route (tbl : list (string * string)) (m p : string) (i : nat) : option (nat * list (string * string)) :=
  match tbl with
  | [] => None
  | (m', pat) :: tbl' =>
      if str_eqb m' m then match matches pat p with Some ps => Some (i, ps) | None => find_route tbl' m p (S i) end
      else find_route tbl' m p (S i)
  end.

Lemma find_route_method tbl m p i j ps :
  find_route tbl m p i = Some (j, ps) -> exists pat, (i <= j)%nat /\ tbl !! (j - i)%nat = Some (m, pat).
Proof.
  revert i. induction tbl as [|[m' pat] tbl IH]; intros i E; [done|]. cbn [find_route] in E.
  assert (find_route tbl m p (S i) = Some (j, ps) -> exists pat', (i <= j)%nat /\ ((m', pat) :: tbl) !! (j - i)%nat = Some (m, pat')) as Hrec.
  { intros (pat' & Hj & El)%IH. exists pat'. split; [lia|]. by replace (j - i)%nat with (S (j - S i)) by lia. }
  destruct (str_eqb m' m) eqn:Em; [|auto]. apply str_eqb_true in Em as ->.
  destruct (matches pat p); [|auto]. injection E as <- <-. exists pat. by rewrite Nat.sub_diag.
Qed.

Lemma find_route_law tbl m p i ps : find_route tbl m p 0 = Some (i, ps) -> exists pat, tbl !! i = Some (m, pat).
Proof. intros (pat & _ & E)%find_route_method. exists pat. by rewrite Nat.sub_0_r in E. Qed.

#[local] Instance path_router : Chi := {|
  chi_find tbl m p := find_route tbl m p 0;
  chi_absent _ _ := not_found;
  chi_method := find_route_law |}.

Definition hb : ServerConfig :=
  mkServer (mkService Noop "https://hb.example" (15 * minute)) 384 "https://hb.example" (90 * second) "/mcp"
    (mkAdmin "root@hb.example" (15 * minute) (2 * hour) None) "{}".

Definition nothing : handler := fun _ _ => mret not_found.
Lemma good_nothing : Middleware.good_handler nothing.
Proof. intros c r. unfold nothing. solve_good. Qed.

(** A browser's request with the cookie of [sample_token]. *)
Definition browse (method path origin : string) : request :=
  Req method path "hb.example" "10.0.0.7:4711" true [("Origin", origin)] [("hb_token", sample_token)] [] [] true [] EmptyString.

Theorem every_request_answered_witness :
  let run := Server.serve hb nothing nothing (browse "GET" "/dashboard/recruiter" "https://hb.example") (session_world "all") in
  run.1 <> Blocked /\ db_wf (w_db run.2).
Proof.
  destruct (every_request_answered hb nothing nothing (browse "GET" "/dashboard/recruiter" "https://hb.example")
    (session_world "all") good_nothing good_nothing eq_refl (session_wf "all")) as (Hb & _ & W & _). by split.
Defined.

(** The key button of another site's page does nothing; its logout button signs the user out. *)
Theorem cross_site_changes_nothing_witness :
  let key := browse "POST" "/dashboard/recruiter/apikey" "https://evil.example" in
  let logout := browse "POST" "/auth/logout" "https://evil.example" in
  let serve r := (Server.serve hb nothing nothing r (session_world "all")).2 in
  unmoved sample_token (session_world "all") (serve key) /\
  signed_out sample_token (session_world "all") (serve logout) /\
  bearer_row sample_token (w_db (session_world "all")) <> None /\ bearer_row sample_token (w_db (serve logout)) = None.
Proof.
  intros key logout serve. split_and!; [| |by vm_compute|by vm_compute].
  - apply (cross_site_changes_nothing hb nothing nothing key (session_world "all"));
      [reflexivity|vm_compute; reflexivity|reflexivity|]. intros rt (i & ps & Ef & Er).
    vm_compute in Ef. injection Ef as <- <-. injection Er as <-. split; [discriminate|]. intros Hin.
    repeat (apply elem_of_cons in Hin as [Hin|Hin]; [discriminate Hin|]). by apply elem_of_nil in Hin.
  - apply (cross_site_changes_nothing hb nothing nothing logout (session_world "all"));
      [reflexivity|vm_compute; reflexivity|reflexivity|]. by exists 4%nat, [].
Defined.

(** One user, the user's node, and a live token. *)
Definition node_world : world :=
  set_db (set_nodes (fun _ => [Node "n1" (Some "u1") "LivingCV" "https://cv.example" None true None None None (Some 5) None None])
    (session_db "node:push")) start_world.

Definition press : request :=
  Server.with_params [("nodeID", "n1")] (browse "POST" "/api/nodes/n1/revoke" "https://hb.example").

Theorem revoke_only_own_witness :
  let run := revoke_endpoint hb empty_ctx press node_world in
  run.1 = Ok (redirect "/dashboard/talent") /\ n_active <$> nodes (w_db run.2) = [false].
Proof.
  cbv zeta. destruct (revoke_endpoint hb empty_ctx press node_world) as [o w'] eqn:E.
  assert (n_active <$> nodes (w_db w') = [false]) as Hn.
  { change (w_db w') with (w_db (o, w').2). rewrite <- E. vm_compute. reflexivity. }
  destruct (revoke_only_own hb press node_world o w' eq_refl E) as (_ & -> & _); [|by split].
  intros Hs. rewrite Hs in Hn. vm_compute in Hn. discriminate Hn.
Defined.

(** The same environment drawing always the same bytes. *)
Definition constant_env : Env := {|
  clock := @clock sample_env;
  entropy _ n := Some (repeat_byte n "x");
  sql_fails := @sql_fails sample_env;
  mail_fails := @mail_fails sample_env;
  http_answer := @http_answer sample_env |}.
#[local] Existing Instance constant_env | 0.

Theorem key_button_ignores_scope_witness :
  exists key n w' t, apikey_endpoint hb empty_ctx (browse "POST" "/dashboard/recruiter/apikey" "https://hb.example") (session_world "node:push")
      = (Ok (WebUI.recruiter_page (Server.webH hb) key n JNull), w') /\
    bearer_row key (w_db w') = Some t /\ t_user t = "u1" /\ t_scope t = Some "talent:search".
Proof.
  apply (key_button_ignores_scope hb (browse "POST" "/dashboard/recruiter/apikey" "https://hb.example") (session_world "node:push")
    (APIToken (Repo.sha256Hex sample_token) "u1" None (Some "web") (Some "node:push") 10 None None)).
  - reflexivity.
  - intros k n E. discriminate E.
  - reflexivity.
  - apply session_wf.
  - intros t k b Ht [= <-] Hh. apply list_elem_of_singleton in Ht as ->. vm_compute in Hh. discriminate Hh.
  - reflexivity.
  - vm_compute. reflexivity.
  - vm_compute. reflexivity.
  - discriminate.
Defined.
