(* ===== verification/Store.v ===== *)
(** * Opening the store (src/internal/store: store.go, migrate.go, vec0.go, schema/migrations)

    The data file between two runs of the program, the four migrations with the down scripts
    that undo them, the pool [Open] configures, and the virtual tables.  golang-migrate, the
    sqlite3 driver and the sqlite-vec extension are parameters with what the code relies on.
    main's start-up, in Startup.v, runs these in order. *)

From S2P Require Import Prelude RateLimit AdminStore Schema Statements Invariants World.

Open Scope Z_scope.

(** ** schema/migrations

    The tables after each version.  Migrations 003 and 004 add columns to two tables; the
    others keep their shape from the version that creates them. *)

Record node_v1 := NodeV1 {
  n1_id : string; n1_user : option string; n1_type : string; n1_endpoint : string; n1_ping : option Z;
  n1_active : bool; n1_token : option string; n1_pubkey : option string; n1_display : option string;
  n1_created : option Z; n1_revoked : option Z }.

Record intro_v1 := IntroV1 {
  i1_id : string; i1_cand : string; i1_recruiter : string; i1_node : string; i1_status : intro_status;
  i1_created : Z; i1_delivered : option Z }.

(** The eight tables of 001, for the columns two of them have at a version. *)
Record base (N I : Type) := Base {
  bt_users : list user; bt_nodes : list N; bt_snapshots : list snapshot; bt_magic : list magic_token;
  bt_api : list api_token; bt_devices : list device_session; bt_intros : list I; bt_audit : list audit }.
Arguments Base {N I}. Arguments bt_users {N I}. Arguments bt_nodes {N I}. Arguments bt_snapshots {N I}.
Arguments bt_magic {N I}. Arguments bt_api {N I}. Arguments bt_devices {N I}. Arguments bt_intros {N I}.
Arguments bt_audit {N I}.

(** An ALTER TABLE on [nodes], or on [introduction_requests]: every row changed alike. *)
Definition alter_nodes {N N' I} (f : N -> N') (b : base N I) : base N' I :=
  Base (bt_users b) (f <$> bt_nodes b) (bt_snapshots b) (bt_magic b) (bt_api b) (bt_devices b) (bt_intros b) (bt_audit b).
Definition alter_intros {N I I'} (f : I -> I') (b : base N I) : base N I' :=
  Base (bt_users b) (bt_nodes b) (bt_snapshots b) (bt_magic b) (bt_api b) (bt_devices b) (f <$> bt_intros b) (bt_audit b).

Inductive tables :=
| V0
| V1 (b : base node_v1 intro_v1)
| V2 (b : base node_v1 intro_v1) (peers : list fed_instance) (fed : list fed_snapshot)
| V3 (b : base node intro_v1) (peers : list fed_instance) (fed : list fed_snapshot)
| V4 (b : base node intro) (peers : list fed_instance) (fed : list fed_snapshot).

(** 003 up and down: [intro_secret] is NULL in the rows there are. *)
Definition add_intro_secret (n : node_v1) : node :=
  Node (n1_id n) (n1_user n) (n1_type n) (n1_endpoint n) (n1_ping n) (n1_active n) (n1_token n) (n1_pubkey n)
    (n1_display n) (n1_created n) (n1_revoked n) None.
Definition drop_intro_secret (n : node) : node_v1 :=
  NodeV1 (n_id n) (n_user n) (n_type n) (n_endpoint n) (n_ping n) (n_active n) (n_token n) (n_pubkey n)
    (n_display n) (n_created n) (n_revoked n).

(** 004 up and down: the defaults of the six columns. *)
Definition add_recruiter (i : intro_v1) : intro :=
  Intro (i1_id i) (i1_cand i) (i1_recruiter i) (i1_node i) (i1_status i) (i1_created i) (i1_delivered i)
    EmptyString EmptyString None 0 None None.
Definition drop_recruiter (i : intro) : intro_v1 :=
  IntroV1 (i_id i) (i_cand i) (i_recruiter i) (i_node i) (i_status i) (i_created i) (i_delivered i).

(** The next up script, and the last down script. *)
Definition migrate_up (t : tables) : option tables :=
  match t with
  | V0 => Some (V1 (Base [] [] [] [] [] [] [] []))
  | V1 b => Some (V2 b [] [])
  | V2 b p f => Some (V3 (alter_nodes add_intro_secret b) p f)
  | V3 b p f => Some (V4 (alter_intros add_recruiter b) p f)
  | V4 _ _ _ => None
  end.
Definition migrate_down (t : tables) : option tables :=
  match t with
  | V0 => None
  | V1 _ => Some V0
  | V2 b _ _ => Some (V1 b)
  | V3 b p f => Some (V2 (alter_nodes drop_intro_secret b) p f)
  | V4 b p f => Some (V3 (alter_intros drop_recruiter b) p f)
  end.

(** So many up scripts, as far as there are any. *)
Fixpoint up_times (n : nat) (t : tables) : tables :=
  match n with O => t | S n' => match migrate_up t with Some t' => up_times n' t' | None => t end end.
Definition version (t : tables) : nat :=
  match t with V0 => 0 | V1 _ => 1 | V2 _ _ _ => 2 | V3 _ _ _ => 3 | V4 _ _ _ => 4 end%nat.
Definition latest (t : tables) : tables := up_times (4 - version t) t.

(** The rows as the newest version shows them, for the full-text and vector rows beside them. *)
Definition rows_of (t : tables) (fts : list fts_row) (fed_fts : option (list fts_row)) (vec : option (list vec_row)) : db :=
  match latest t with
  | V4 b p f => DB (bt_users b) (bt_nodes b) (bt_snapshots b) (bt_magic b) (bt_api b) (bt_devices b) (bt_intros b)
                  (bt_audit b) p f fts fed_fts vec
  | _ => empty_db
  end.

(** ** The data file *)

Record datafile := DataFile {
  df_tables : tables;
  (** golang-migrate's mark of a migration that did not finish *)
  df_dirty : bool;
  df_fts : option (list fts_row);
  df_fedfts : option (list fts_row);
  (** [candidate_vec], with the dimension it was created for *)
  df_vec : option (Z * list vec_row) }.

Definition new_file : datafile := DataFile V0 false None None None.

Definition set_tables t m (f : datafile) := DataFile t m (df_fts f) (df_fedfts f) (df_vec f).
Definition set_file_fts x (f : datafile) := DataFile (df_tables f) (df_dirty f) x (df_fedfts f) (df_vec f).
Definition set_file_fedfts x (f : datafile) := DataFile (df_tables f) (df_dirty f) (df_fts f) x (df_vec f).
Definition set_file_vec x (f : datafile) := DataFile (df_tables f) (df_dirty f) (df_fts f) (df_fedfts f) x.

(** ** The pool: database/sql, for one goroutine at a time *)

Record settings := Settings {
  journal_mode : string; synchronous : string; foreign_keys : bool; busy_timeout : Z; cache_size : Z }.

(** A connection: its own settings, and whether the hook loaded the extension into it. *)
Record conn := Conn { c_settings : settings; c_vec0 : bool }.

Record handle := Handle { h_vec0Path : string; h_max_open : Z; h_max_idle : Z; h_idle : option conn }.

(** [SetMaxOpenConns] lowers the idle limit with it; [SetMaxIdleConns] closes what is over. *)
Definition SetMaxOpenConns (n : Z) (h : handle) : handle :=
  Handle (h_vec0Path h) n (if (0 <? n) && (n <? h_max_idle h) then n else h_max_idle h) (h_idle h).
Definition SetMaxIdleConns (n : Z) (h : handle) : handle :=
  Handle (h_vec0Path h) (h_max_open h) n (if 0 <? n then h_idle h else None).
(** A connection given back stays idle if there is room. *)
Definition put_conn (c : conn) (h : handle) : handle :=
  Handle (h_vec0Path h) (h_max_open h) (h_max_idle h) (if 0 <? h_max_idle h then Some c else None).

(** ** Start-up code: drivers, file and pool, with the effects counted as in [world] *)

Record boot := Boot {
  b_drivers : gmap string string;
  b_file : datafile;
  b_handle : option handle;
  (** the federation's key file *)
  b_keyfile : option string;
  b_tick : nat }.

Definition set_drivers x (b : boot) := Boot x (b_file b) (b_handle b) (b_keyfile b) (b_tick b).
Definition set_file x (b : boot) := Boot (b_drivers b) x (b_handle b) (b_keyfile b) (b_tick b).
Definition set_handle x (b : boot) := Boot (b_drivers b) (b_file b) x (b_keyfile b) (b_tick b).
Definition set_keyfile x (b : boot) := Boot (b_drivers b) (b_file b) (b_handle b) x (b_tick b).
Definition set_btick x (b : boot) := Boot (b_drivers b) (b_file b) (b_handle b) (b_keyfile b) x.

Definition B (A : Type) : Type := boot -> (goerr + A) * boot.
#[global] Instance B_ret : MRet B := fun A a b => (inr a, b).
#[global] Instance B_bind : MBind B := fun A C f m b =>
  match m b with (inr a, b') => f a b' | (inl e, b') => (inl e, b') end.

Definition fail_ {A} (e : goerr) : B A := fun b => (inl e, b).
(** [x, err := m], both results kept *)
Definition catch {A} (m : B A) : B (goerr + A) := fun b => let r := m b in (inr r.1, r.2).
(** [if err := m; err != nil { return fmt.Errorf("ctx: %w", err) }] *)
Definition wrapped {A} (ctx : string) (m : B A) : B A :=
  r ← catch m; match r with inr a => mret a | inl e => fail_ (ErrWrap ctx e) end.

(** The sqlite3 driver: the settings of a fresh connection, the extensions that load, and the
    dimensions sqlite-vec can make a table of. *)
Class Driver := {
  fresh_settings : settings;
  vec0_loads : string -> bool;
  vec_dim_ok : Z -> bool }.

(** golang-migrate, at an effect's number: the errors of its constructors, and what [Up] says
    and leaves, from the tables and the dirty mark.  Its documentation: a success applied
    every migration there was; [ErrNoChange] means there was none to apply; an error leaves
    the migrations applied before it. *)
Inductive up_result := UpOk | ErrNoChange | UpError (msg : string).

Class GoMigrate := {
  iofs_New : nat -> option string;
  WithInstance : nat -> option string;
  NewWithInstance : nat -> option string;
  m_Up : nat -> tables * bool -> up_result * (tables * bool);
  Up_ok : forall k s s', m_Up k s = (UpOk, s') -> s' = (latest s.1, false);
  Up_no_change : forall k s s', m_Up k s = (ErrNoChange, s') -> s' = s /\ s = (latest s.1, false);
  Up_error : forall k s e s', m_Up k s = (UpError e, s') -> exists n, s'.1 = up_times n s.1 }.

Section Store.
Context `{Env, Driver, GoMigrate}.

Definition boot_tick : B nat := fun b => (inr (b_tick b), set_btick (S (b_tick b)) b).
Definition or_error (o : option string) : B unit := match o with Some msg => fail_ (ErrText msg) | None => mret tt end.
Definition get_file : B datafile := fun b => (inr (b_file b), b).
Definition put_file (f : datafile) : B unit := fun b => (inr tt, set_file f b).
Definition on_handle (f : handle -> handle) : B unit := fun b => (inr tt, set_handle (f <$> b_handle b) b).

(** ** store.go *)

Definition DriverName : string := "sqlite3_vec".

Definition RegisterDriver (vec0Path : string) : B unit := fun b => (inr tt, set_drivers (<[DriverName := vec0Path]> (b_drivers b)) b).

(** The [ConnectHook]: an extension that does not load is a warning. *)
Definition ConnectHook (vec0Path : string) : conn := Conn fresh_settings (vec0_loads vec0Path).

(** [sql.Open] makes no connection. *)
Definition sql_Open (driverName : string) : B unit := fun b =>
  match b_drivers b !! driverName with
  | Some path => (inr tt, set_handle (Some (Handle path 0 2 None)) b)
  | None => (inl (ErrText "sql: unknown driver"), b)
  end.

(** The idle connection, or a new one, which may fail. *)
Definition acquire : B conn := fun b =>
  match b_handle b with
  | None => (inl (ErrText "sql: database is closed"), b)
  | Some h =>
      match h_idle h with
      | Some c => (inr c, b)
      | None => if sql_fails (b_tick b) then (inl ErrIO, set_btick (S (b_tick b)) b)
                else (inr (ConnectHook (h_vec0Path h)), set_btick (S (b_tick b)) b)
      end
  end.

(** [db.Exec]: the connection goes back whatever the statement says. *)
Definition boot_exec (f : conn -> datafile -> option (conn * datafile)) : B unit :=
  c ← acquire; k ← boot_tick; file ← get_file;
  if sql_fails k then _ ← on_handle (put_conn c); fail_ ErrIO
  else match f c file with
       | Some (c', file') => _ ← put_file file'; on_handle (put_conn c')
       | None => _ ← on_handle (put_conn c); fail_ ErrIO
       end.

(** A PRAGMA changes the connection it runs on, and no other. *)
Definition set_pragma (f : settings -> settings) : conn -> datafile -> option (conn * datafile) :=
  fun c file => Some (Conn (f (c_settings c)) (c_vec0 c), file).

Definition pragmas : list (string * (settings -> settings)) :=
  [("PRAGMA journal_mode=WAL", fun s => Settings "wal" (synchronous s) (foreign_keys s) (busy_timeout s) (cache_size s));
   ("PRAGMA synchronous=NORMAL", fun s => Settings (journal_mode s) "normal" (foreign_keys s) (busy_timeout s) (cache_size s));
   ("PRAGMA foreign_keys=ON", fun s => Settings (journal_mode s) (synchronous s) true (busy_timeout s) (cache_size s));
   ("PRAGMA busy_timeout=5000", fun s => Settings (journal_mode s) (synchronous s) (foreign_keys s) 5000 (cache_size s));
   ("PRAGMA cache_size=-2000", fun s => Settings (journal_mode s) (synchronous s) (foreign_keys s) (busy_timeout s) (-2000))].

Definition db_Close : B unit := fun b => (inr tt, set_handle None b).

Fixpoint run_pragmas (l : list (string * (settings -> settings))) : B unit :=
  match l with
  | [] => mret tt
  | (p, f) :: l' =>
      r ← catch (boot_exec (set_pragma f));
      match r with
      | inl e => _ ← db_Close; fail_ (ErrWrap ("pragma " ++s p) e)
      | inr _ => run_pragmas l'
      end
  end.

Definition Open (driverName : string) : B unit :=
  _ ← wrapped "open db" (sql_Open driverName);
  _ ← on_handle (SetMaxOpenConns 1);
  _ ← on_handle (SetMaxIdleConns 1);
  run_pragmas pragmas.

(** ** migrate.go *)

Definition run_up : B up_result :=
  k ← boot_tick; f ← get_file;
  let '(r, (t, m)) := m_Up k (df_tables f, df_dirty f) in
  _ ← put_file (set_tables t m f); mret r.

Definition RunMigrations : B unit :=
  k ← boot_tick;
  _ ← wrapped "iofs source" (or_error (iofs_New k));
  k ← boot_tick;
  _ ← wrapped "sqlite3 driver" (or_error (WithInstance k));
  k ← boot_tick;
  _ ← wrapped "migrate instance" (or_error (NewWithInstance k));
  r ← run_up;
  match r with UpError msg => fail_ (ErrWrap "migrate up" (ErrText msg)) | _ => mret tt end.

(** ** vec0.go

    [CREATE VIRTUAL TABLE IF NOT EXISTS]: an existing table is left as it is, without a look
    at its module or its columns.  FTS5 is compiled in (the Makefile's build tags). *)

Definition create_fts (_ : conn) (f : datafile) : option datafile :=
  Some (set_file_fts (Some (default [] (df_fts f))) f).
Definition create_fedfts (_ : conn) (f : datafile) : option datafile :=
  Some (set_file_fedfts (Some (default [] (df_fedfts f))) f).
Definition create_vec (embedDim : Z) (c : conn) (f : datafile) : option datafile :=
  match df_vec f with
  | Some _ => Some f
  | None => if c_vec0 c && vec_dim_ok embedDim then Some (set_file_vec (Some (embedDim, [])) f) else None
  end.

Definition exec_create (create : conn -> datafile -> option datafile) : B unit :=
  boot_exec (fun c f => (fun f' => (c, f')) <$> create c f).

Definition CreateVirtualTables (embedDim : Z) : B unit :=
  _ ← wrapped "create snapshots_fts" (exec_create create_fts);
  _ ← catch (exec_create create_fedfts);
  _ ← catch (exec_create (create_vec embedDim));
  mret tt.

End Store.

(** ** From the file to the database the server runs on, and back *)

(** The database behind an open connection: vectors are reachable only with the extension. *)
Definition file_db (f : datafile) (c : conn) : option db :=
  match df_tables f, df_fts f with
  | V4 b p fd, Some fts =>
      Some (rows_of (V4 b p fd) fts (df_fedfts f) (if c_vec0 c then snd <$> df_vec f else None))
  | _, _ => None
  end.

(** The file after the process ends, at whatever point, with the database [d]. *)
Definition stop (f : datafile) (c : conn) (d : db) : datafile :=
  DataFile
    (V4 (Base (users d) (nodes d) (snapshots d) (magic_tokens d) (api_tokens d) (device_sessions d)
           (introduction_requests d) (audit_log d)) (federated_instances d) (federated_snapshots d))
    (df_dirty f) (Some (snapshots_fts d)) (fed_snapshots_fts d)
    (match df_vec f with
     | Some (dim, old) => Some (dim, if c_vec0 c then default old (candidate_vec d) else old)
     | None => None
     end).

(** ** The migrations keep the rows *)

Lemma up_step_latest t t' : migrate_up t = Some t' -> latest t' = latest t /\ version t' = S (version t).
Proof. by destruct t; intros [= <-]. Qed.

Lemma up_times_latest n t : latest (up_times n t) = latest t.
Proof.
  revert t. induction n as [|n IH]; intros t; [done|]. simpl. destruct (migrate_up t) as [t'|] eqn:E; [|done].
  rewrite IH. by apply up_step_latest.
Qed.

Lemma latest_is_newest t : exists b p f, latest t = V4 b p f.
Proof. destruct t; eauto. Qed.

Lemma latest_idem t : latest (latest t) = latest t.
Proof. apply up_times_latest. Qed.

Lemma fmap_undone {A C} (f : A -> C) (g : C -> A) (l : list A) : (forall a, g (f a) = a) -> g <$> (f <$> l) = l.
Proof. intros Hg. induction l as [|a l IH]; [done|]. cbn. by rewrite Hg, IH. Qed.

(** The down script of a version undoes its up script. *)
Lemma down_undoes_up t t' : migrate_up t = Some t' -> migrate_down t' = Some t.
Proof.
  destruct t as [|b|b p f|b p f|b p f]; intros [= <-]; try done; simpl; do 2 f_equal;
    destruct b; unfold alter_nodes, alter_intros; simpl; f_equal; apply fmap_undone; by intros [].
Qed.

(** What a start may do to a file: migrations applied, missing virtual tables created. *)
Definition opened {A} (o o' : option (list A)) : Prop := o' = o \/ (o = None /\ o' = Some []).
Definition vec_opened (o o' : option (Z * list vec_row)) : Prop := o' = o \/ (o = None /\ exists dim, o' = Some (dim, [])).

#[export] Instance opened_preorder {A} : PreOrder (@opened A).
Proof.
  split; [by left|]. intros o1 o2 o3 [->|[-> ->]] [->|[E ->]]; unfold opened; [by left|by right|by right|done].
Qed.
#[export] Instance vec_opened_preorder : PreOrder vec_opened.
Proof.
  split; [by left|]. intros o1 o2 o3 [->|[-> [dim ->]]] [->|[E [dim' ->]]]; unfold vec_opened;
    [by left|right; eauto|right; eauto|done].
Qed.

Record upgraded (f f' : datafile) : Prop := {
  up_tables : exists n, df_tables f' = up_times n (df_tables f);
  up_fts : opened (df_fts f) (df_fts f');
  up_fedfts : opened (df_fedfts f) (df_fedfts f');
  up_vec : vec_opened (df_vec f) (df_vec f') }.

Lemma up_times_plus n m t : up_times m (up_times n t) = up_times (n + m) t.
Proof.
  revert t. induction n as [|n IH]; intros t; [done|]. simpl. destruct (migrate_up t) as [t'|] eqn:E; [apply IH|].
  destruct m; simpl; [done|by rewrite E].
Qed.

#[export] Instance upgraded_preorder : PreOrder upgraded.
Proof.
  split.
  - intros f. split; [by exists 0%nat|by left..].
  - intros f g h [[n En] F G V] [[m Em] F' G' V'].
    split; [exists (n + m)%nat; by rewrite Em, En, up_times_plus|by etrans..].
Qed.

Lemma latest_upgraded f f' : upgraded f f' -> latest (df_tables f') = latest (df_tables f).
Proof. intros [[n En] _ _ _]. by rewrite En, up_times_latest. Qed.

(** ** Stopping and opening again *)

Section Shape.
Context `{Engine}.

Lemma vec_table_stays d d' : evolves d d' -> is_Some (candidate_vec d') <-> is_Some (candidate_vec d).
Proof.
  induction 1 as [d|d d1 d2 (s & n & E) _ IH]; [done|]. rewrite IH. clear IH.
  destruct s; unfold exec_stmt, inserting, updating, deleting in E; repeat case_match; simplify_eq; try done;
    simpl; split; eauto.
Qed.

End Shape.

(** Nothing of what the server wrote is lost when it stops. *)
Lemma file_db_stop f c d :
  (is_Some (candidate_vec d) <-> c_vec0 c = true /\ is_Some (df_vec f)) -> file_db (stop f c d) c = Some d.
Proof.
  intros Hv. unfold file_db, stop. simpl. destruct d as [? ? ? ? ? ? ? ? ? ? ? ? vec]. simpl in *.
  do 2 f_equal. destruct (df_vec f) as [[dim old]|]; simpl in *.
  - destruct (c_vec0 c), vec as [v|]; simpl; try done.
    + by destruct (proj2 Hv (conj eq_refl (mk_is_Some _ _ eq_refl))).
    + by destruct (proj1 Hv (mk_is_Some _ _ eq_refl)).
  - destruct vec as [v|]; [|by destruct (c_vec0 c)].
    by destruct (proj1 Hv (mk_is_Some _ _ eq_refl)) as [_ [? ?]].
Qed.

(** ** What start-up code leaves behind

    [post P m Q X]: started where [P] holds, [m] ends with a value and [Q], or with an error
    and [X]. *)

Definition post {A} (P : boot -> Prop) (m : B A) (Q : A -> boot -> Prop) (X : boot -> Prop) : Prop :=
  forall b, P b -> match m b with (inr a, b') => Q a b' | (inl _, b') => X b' end.

Lemma post_ret {A} (P : boot -> Prop) (a : A) Q X : (forall b, P b -> Q a b) -> post P (mret a) Q X.
Proof. intros HQ b Hb. by apply HQ. Qed.
Lemma post_fail {A} P e (Q : A -> boot -> Prop) (X : boot -> Prop) : (forall b, P b -> X b) -> post P (fail_ e) Q X.
Proof. intros HX b Hb. by apply HX. Qed.
Lemma post_bind {A C} P (m : B A) (f : A -> B C) R Q X :
  post P m R X -> (forall a, post (R a) (f a) Q X) -> post P (m ≫= f) Q X.
Proof.
  intros Hm Hf b Hb. unfold mbind, B_bind. specialize (Hm b Hb). destruct (m b) as [[e|a] b']; [done|].
  by apply Hf.
Qed.
Lemma post_catch {A} P (m : B A) Q X X' :
  post P m Q X -> post P (catch m) (fun r b => match r with inr a => Q a b | inl _ => X b end) X'.
Proof. intros Hm b Hb. unfold catch. specialize (Hm b Hb). by destruct (m b) as [[e|a] b']. Qed.
Lemma post_wrapped {A} P ctx (m : B A) Q X : post P m Q X -> post P (wrapped ctx m) Q X.
Proof.
  intros Hm. eapply post_bind; [by apply post_catch|]. intros [e|a]; [by apply post_fail|by apply post_ret].
Qed.
Lemma post_weaken {A} (P P' : boot -> Prop) (m : B A) Q Q' (X X' : boot -> Prop) :
  post P m Q X -> (forall b, P' b -> P b) -> (forall a b, Q a b -> Q' a b) -> (forall b, X b -> X' b) -> post P' m Q' X'.
Proof. intros Hm HP HQ HX b Hb. specialize (Hm b (HP b Hb)). destruct (m b) as [[e|a] b']; auto. Qed.

(** The file of a start-up state comes from [f0]. *)
Definition over (f0 : datafile) (b : boot) : Prop := upgraded f0 (b_file b).

Section StorePost.
Context `{Env, Driver, GoMigrate}.
(** The pool [Open] makes: one connection at most, idle or not yet made. *)
Definition pooled (path : string) (c : conn) (b : boot) : Prop :=
  b_handle b = Some (Handle path 1 1 (Some c)).
Definition offers (path : string) (c : conn) (b : boot) : Prop :=
  pooled path c b \/ (b_handle b = Some (Handle path 1 1 None) /\ c = ConnectHook path).

(** A statement on the pool: an error changes neither the connection nor the file. *)
Lemma post_exec_idle (P : datafile -> Prop) (Q : conn -> datafile -> Prop) path c f :
  (forall file c' file', P file -> f c file = Some (c', file') -> Q c' file') ->
  post (fun b => pooled path c b /\ P (b_file b)) (boot_exec f)
    (fun _ b => exists c', pooled path c' b /\ Q c' (b_file b)) (fun b => pooled path c b /\ P (b_file b)).
Proof.
  intros HQ [dr file h key k] [Ho Hp]. unfold pooled in *. simpl in *. subst h.
  unfold boot_exec, mbind, B_bind, acquire; simpl. destruct (sql_fails k); simpl; [by auto|].
  destruct (f c file) as [[c' file']|] eqn:E; simpl; [|by auto]. exists c'. split; [done|by eapply HQ].
Qed.

Lemma post_exec (P : datafile -> Prop) (Q : conn -> datafile -> Prop) path c f :
  (forall file c' file', P file -> f c file = Some (c', file') -> Q c' file') ->
  post (fun b => offers path c b /\ P (b_file b)) (boot_exec f)
    (fun _ b => exists c', pooled path c' b /\ Q c' (b_file b)) (fun b => offers path c b /\ P (b_file b)).
Proof.
  intros HQ b [[Ho|[Ho ->]] Hp].
  - pose proof (post_exec_idle P Q path c f HQ b (conj Ho Hp)) as Hb. unfold offers.
    destruct (boot_exec f b) as [[e|[]] b']; [destruct Hb; auto|done].
  - destruct b as [dr file h key k]. unfold offers, pooled in *. simpl in *. subst h.
    unfold boot_exec, mbind, B_bind, acquire; simpl.
    destruct (sql_fails k); simpl; [by auto|]. destruct (sql_fails (S k)); simpl; [by auto|].
    destruct (f (ConnectHook path) file) as [[c' file']|] eqn:E; simpl; [|by auto].
    exists c'. split; [done|by eapply HQ].
Qed.

(** The pragmas, each on the connection the one before left. *)
Lemma post_pragmas path l c (P : datafile -> Prop) :
  post (fun b => offers path c b /\ P (b_file b)) (run_pragmas l)
    (fun _ b => offers path (Conn (foldl (fun s p => p.2 s) (c_settings c) l) (c_vec0 c)) b /\ P (b_file b))
    (fun b => P (b_file b)).
Proof.
  revert c. induction l as [|[p f] l IH]; intros c.
  - apply post_ret. by destruct c.
  - simpl. eapply post_bind.
    + eapply post_catch, (post_exec P (fun c' file => c' = Conn (f (c_settings c)) (c_vec0 c) /\ P file)).
      intros file c' file' Hp [= <- <-]. done.
    + intros [e|[]].
      * intros b [_ Hp]. exact Hp.
      * eapply post_weaken; [apply (IH (Conn (f (c_settings c)) (c_vec0 c)))| |done|done].
        intros b (c' & Hpool & -> & Hp). split; [by left|done].
Qed.

(** What [Open] promises. *)
Definition opened_settings : settings := Settings "wal" "normal" true 5000 (-2000).

Lemma post_Open driverName path (P : datafile -> Prop) :
  post (fun b => b_drivers b !! driverName = Some path /\ P (b_file b)) (Open driverName)
    (fun _ b => offers path (Conn opened_settings (vec0_loads path)) b /\ P (b_file b)) (fun b => P (b_file b)).
Proof.
  eapply (post_bind _ _ _ (fun _ b => b_handle b = Some (Handle path 0 2 None) /\ P (b_file b))).
  { apply post_wrapped. intros b [Hd Hp]. unfold sql_Open. by rewrite Hd. }
  intros _. eapply (post_bind _ _ _ (fun _ b => b_handle b = Some (Handle path 1 1 None) /\ P (b_file b))).
  { intros b [Hh Hp]. unfold on_handle. simpl. by rewrite Hh. }
  intros _. eapply (post_bind _ _ _ (fun _ b => offers path (ConnectHook path) b /\ P (b_file b))).
  { intros b [Hh Hp]. unfold on_handle. simpl. rewrite Hh. split; [right|]; done. }
  intros _. exact (post_pragmas path pragmas (ConnectHook path) P).
Qed.

(** [RunMigrations] leaves the pool alone, and every table at the newest version. *)
Lemma post_RunMigrations f0 path c :
  post (fun b => offers path c b /\ over f0 b) RunMigrations
    (fun _ b => offers path c b /\ over f0 b /\ df_tables (b_file b) = latest (df_tables f0)) (over f0).
Proof.
  assert (forall ctx o, post (fun b => offers path c b /\ over f0 b) (wrapped ctx (or_error o))
            (fun _ b => offers path c b /\ over f0 b) (over f0)) as Hor.
  { intros ctx o. apply post_wrapped. intros b [? ?]. by destruct o. }
  assert (post (fun b => offers path c b /\ over f0 b) boot_tick (fun _ b => offers path c b /\ over f0 b) (over f0)) as Htick
    by (intros b Hb; exact Hb).
  unfold RunMigrations. do 3 (eapply post_bind; [exact Htick|intros ?; eapply post_bind; [apply Hor|intros [] ]]).
  eapply (post_bind _ _ _ (fun r b => offers path c b /\ over f0 b /\
    match r with UpError _ => True | _ => df_tables (b_file b) = latest (df_tables f0) end)).
  - intros [dr file h key k] [Ho Hup]. unfold run_up, mbind, B_bind. simpl.
    destruct (m_Up k (df_tables file, df_dirty file)) as [r [t m]] eqn:E. simpl. split; [exact Ho|].
    pose proof (latest_upgraded _ _ Hup) as El. unfold over in *. simpl in *.
    destruct r as [| |e].
    + apply Up_ok in E. simpl in E. injection E as -> _. rewrite El. split; [|done].
      etrans; [exact Hup|]. split; [by exists (4 - version (df_tables file))%nat|by left..].
    + apply Up_no_change in E as [[= -> ->] E]. simpl in E. injection E as E _. rewrite <- El, <- E. split; [|done].
      by destruct file.
    + apply Up_error in E as [n E]. simpl in E. subst t. split; [|done].
      etrans; [exact Hup|]. split; [by exists n|by left..].
  - intros []; [by apply post_ret|by apply post_ret|]. apply post_fail. by intros b (_ & ? & _).
Qed.

(** A creation on an idle connection keeps the connection, whatever comes of it. *)
Lemma post_create (P : datafile -> Prop) path c create (X : boot -> Prop) :
  (forall file file', P file -> create c file = Some file' -> P file') ->
  post (fun b => pooled path c b /\ P (b_file b)) (catch (exec_create create)) (fun _ b => pooled path c b /\ P (b_file b)) X.
Proof.
  intros HP. eapply post_weaken; [eapply post_catch, (post_exec_idle P (fun c' file => c' = c /\ P file) path c)|intros b Hb; exact Hb| |].
  - intros file c' file' Hp E. destruct (create c file) as [file1|] eqn:Ec; [|done].
    injection E as <- <-. eauto.
  - by intros [e|[]] b; [|intros (c' & ? & -> & ?)].
  - intros b Hb. exact Hb.
Qed.

Definition ready (f0 : datafile) (file : datafile) : Prop :=
  upgraded f0 file /\ df_tables file = latest (df_tables f0) /\ is_Some (df_fts file).

Lemma post_CreateVirtualTables f0 path c dim :
  post (fun b => offers path c b /\ over f0 b /\ df_tables (b_file b) = latest (df_tables f0)) (CreateVirtualTables dim)
    (fun _ b => pooled path c b /\ ready f0 (b_file b)) (over f0).
Proof.
  unfold CreateVirtualTables. eapply (post_bind _ _ _ (fun _ b => pooled path c b /\ ready f0 (b_file b))).
  { apply post_wrapped. eapply post_weaken;
      [apply (post_exec (fun file => upgraded f0 file /\ df_tables file = latest (df_tables f0)) (fun c' file => c' = c /\ ready f0 file) path c)
      |intros b Hb; exact Hb|by intros _ b (c' & ? & -> & ?)|by intros b (_ & ? & _)].
    intros file c' file' [Hup Et] [= <- <-]. split; [done|]. split; [|done].
    etrans; [exact Hup|]. split; [by exists 0%nat| |by left..]. simpl. destruct (df_fts file); [by left|by right]. }
  intros []. eapply post_bind; [apply (post_create (ready f0))|intros r; eapply post_bind;
    [apply (post_create (ready f0))|intros r'; by apply post_ret]]; intros file file' (Hup & Et & Ef).
  - intros [= <-]. split; [|done]. etrans; [exact Hup|]. split; [by exists 0%nat|by left| |by left].
    simpl. destruct (df_fedfts file); [by left|by right].
  - unfold create_vec. destruct (df_vec file) as [v|] eqn:Ev; [by intros [= <-]|]. destruct (_ && _); [|done].
    intros [= <-]. split; [|done]. etrans; [exact Hup|]. split; [by exists 0%nat|by left..|right; eauto].
Qed.

End StorePost.

(** ** A start in which nothing fails *)

Section Quiet.
Context `{Env, Driver, GoMigrate}.
Context (no_failure : forall k, sql_fails k = false).

Definition on_pool (path : string) (c : conn) (dr : gmap string string) (f : datafile) (key : option string) (k : nat) : boot :=
  Boot dr f (Some (Handle path 1 1 (Some c))) key k.

Lemma exec_quiet path c dr f key k create :
  exec_create create (on_pool path c dr f key k) =
  match create c f with
  | Some f' => (inr tt, on_pool path c dr f' key (S k))
  | None => (inl ErrIO, on_pool path c dr f key (S k))
  end.
Proof.
  unfold exec_create, boot_exec, on_pool, mbind, B_bind, acquire. simpl. rewrite no_failure. by destruct (create c f).
Qed.

Lemma pragmas_quiet path l c dr f key k :
  run_pragmas l (on_pool path c dr f key k) =
  (inr tt, on_pool path (Conn (foldl (fun s p => p.2 s) (c_settings c) l) (c_vec0 c)) dr f key (length l + k)).
Proof.
  revert c k. induction l as [|[p g] l IH]; intros c k; [by destruct c|].
  simpl. unfold catch, mbind, B_bind at 1, boot_exec, mbind, B_bind, acquire, on_pool. simpl. rewrite no_failure. simpl.
  etrans; [apply (IH (Conn (g (c_settings c)) (c_vec0 c)) (S k))|]. by rewrite Nat.add_succ_r.
Qed.

Lemma first_pragma_quiet path p g l dr f key k :
  run_pragmas ((p, g) :: l) (Boot dr f (Some (Handle path 1 1 None)) key k) =
  run_pragmas l (on_pool path (Conn (g fresh_settings) (vec0_loads path)) dr f key (S (S k))).
Proof.
  cbn [run_pragmas]. unfold catch, mbind, B_bind at 1, boot_exec, mbind, B_bind, acquire, on_pool. simpl.
  rewrite no_failure. simpl. by rewrite no_failure.
Qed.

Lemma Open_quiet path dr f h key k :
  dr !! DriverName = Some path ->
  Open DriverName (Boot dr f h key k) = (inr tt, on_pool path (Conn opened_settings (vec0_loads path)) dr f key (6 + k)).
Proof.
  intros Hd. unfold Open, wrapped, catch, sql_Open, mbind, B_bind. cbn [b_drivers]. rewrite Hd.
  etrans; [exact (first_pragma_quiet path _ _ (drop 1 pragmas) dr f key k)|]. by rewrite pragmas_quiet.
Qed.

Context (constructors : forall k, iofs_New k = None /\ WithInstance k = None /\ NewWithInstance k = None).

Lemma RunMigrations_quiet path c dr f key k :
  (forall n e, (m_Up n (df_tables f, df_dirty f)).1 <> UpError e) ->
  RunMigrations (on_pool path c dr f key k) = (inr tt, on_pool path c dr (set_tables (latest (df_tables f)) false f) key (4 + k)).
Proof.
  intros up_works. unfold RunMigrations, on_pool, wrapped, catch, run_up, mbind, B_bind. cbn.
  rewrite (proj1 (constructors _)). cbn. rewrite (proj1 (proj2 (constructors _))). cbn.
  rewrite (proj2 (proj2 (constructors _))). cbn.
  pose proof (up_works (S (S (S k)))) as Hup.
  destruct (m_Up _ _) as [r [t m]] eqn:E. destruct r as [| |e]; [| |by destruct (Hup e)].
  - apply Up_ok in E as [= -> ->]. done.
  - apply Up_no_change in E as [[= -> ->] [= <- ->]]. by destruct f.
Qed.

(** The virtual tables, with the vectors' only if the extension can make it. *)
Definition with_tables (dim : Z) (c : conn) (f : datafile) : datafile :=
  DataFile (df_tables f) (df_dirty f) (Some (default [] (df_fts f))) (Some (default [] (df_fedfts f)))
    (match df_vec f with Some v => Some v | None => if c_vec0 c && vec_dim_ok dim then Some (dim, []) else None end).

Lemma CreateVirtualTables_quiet dim path c dr f key k :
  CreateVirtualTables dim (on_pool path c dr f key k) = (inr tt, on_pool path c dr (with_tables dim c f) key (3 + k)).
Proof.
  unfold CreateVirtualTables, wrapped, catch, mbind, B_bind. rewrite exec_quiet. cbn.
  rewrite exec_quiet. cbn. rewrite exec_quiet. unfold create_vec, with_tables. cbn.
  destruct f as [? ? ? ? [v|]]; cbn; [done|]. by destruct (_ && _).
Qed.

End Quiet.
