(* ===== verification/Startup.v ===== *)
(** * main (src/cmd/hirebridge/main.go)

    The start of the process: the configuration, the store, the mailer, the services, the
    federation and the server, with every way it gives up.  What comes out is either an exit
    or the world the handlers and workers of the other files run in. *)

From S2P Require Import Prelude RateLimit AdminStore Schema Statements Invariants World.
From S2P Require Import GoStrings GoJson Samples Auth AdminHandlers Ingest Outbox Federation FederationFacts Config Router Store.

Open Scope Z_scope.

(** The federation's goroutines: the syncer's interval, the discovery's target, the server. *)
Record fed_run := mkFedRun {
  fr_config : FedConfig;
  fr_interval : Z;
  fr_discovery : string * string * string;
  fr_addr : string }.

Record running := mkRunning {
  rn_server : ServerConfig;
  rn_outbox : Outbox.Config;
  rn_fed : option fed_run;
  (** the addresses listened on, with whether the application answers there *)
  rn_listen : list (string * bool) }.

Inductive start :=
| Exit (msg : string) (e : goerr)      (* logged, os.Exit(1) *)
| Crash (msg : string)                 (* a panic of main's goroutine *)
| Serving (r : running).

(** What the host lets the process do with files. *)
Class Host := {
  key_writable : bool;
  certs_dir : option string;           (* the error of MkdirAll, if any *)
  api_spec : string }.

Section Main.
Context `{Env, Driver, GoMigrate, Ed25519Keys, Host}.
Context (getenv : string -> string).

Definition mailer_config (cfg : Config) : MailerConfig :=
  mkMailerConfig (MailerProvider cfg) (ResendAPIKey cfg) (PurelymailAPIToken cfg) (SMTPHost cfg) (SMTPPort cfg)
    (SMTPUser cfg) (SMTPPass cfg) (SMTPFrom cfg).

(** The services and the handler main builds from the configuration. *)
Definition server_config (cfg : Config) (mailer : Mailer) : ServerConfig :=
  mkServer (mkService mailer (BaseURL cfg) (MagicTTL cfg)) (EmbedDim cfg) (BaseURL cfg) (NodeStaleAge cfg)
    (MCPEndpoint cfg)
    (mkAdmin (AdminEmail cfg) (AdminStore.links_ttl (MagicTTL cfg)) (AdminStore.sessions_ttl (2 * hour)) (Some mailer)) api_spec.

(** [LoadOrCreateIdentity] against the key file. *)
Definition load_identity_file : B (outcome Identity) := fun b =>
  let '(r, written) := LoadOrCreateIdentity (b_keyfile b) (entropy (b_tick b) 32) key_writable in
  (inr r, set_btick (S (b_tick b)) (match written with Some text => set_keyfile (Some text) b | None => b end)).

Definition fed_goroutines (fs : FedSettings) (ident : Identity) : fed_run :=
  mkFedRun (mkFed (fs_InstanceName fs) (fs_JoinSecret fs) ident) minute
    (fs_DiscoveryURL fs, fs_InstanceName fs, fs_EndpointURL fs) (fs_Port fs).

Definition listeners (cfg : Config) : list (string * bool) :=
  if negb (is_empty (TLSDomain cfg)) then [(":80", false); (":443", true)] else [(ListenAddr cfg, true)].

(** From the federation on. *)
Definition serve_with (cfg : Config) (fed : option fed_run) : start :=
  if negb (is_empty (TLSDomain cfg)) && match certs_dir with Some _ => true | None => false end
  then Exit "failed to create certs directory" ErrIO
  else Serving (mkRunning (server_config cfg (NewMailer (mailer_config cfg))) (Outbox.NewWorker (Outbox.mkConfig 0 [] 0 0 0))
                  fed (listeners cfg)).

Definition main_federation (cfg : Config) : B start :=
  let fs := LoadConfig getenv in
  if fs_Enabled fs then
    r ← load_identity_file;
    mret (match r with
          | Ok ident => serve_with cfg (Some (fed_goroutines fs ident))
          | Err e => Exit "failed to load federation identity" e
          | Panic p => Crash p
          | Blocked => Crash EmptyString (* not an outcome of LoadOrCreateIdentity *)
          end)
  else mret (serve_with cfg None).

Definition or_exit {A} (msg : string) (m : B A) (k : B start) : B start :=
  r ← catch m;
  match r with inl e => mret (Exit msg e) | inr _ => k end.

Definition main : B start :=
  let cfg := Load getenv in
  _ ← RegisterDriver (Vec0Path cfg);
  or_exit "failed to open database" (Open DriverName)
    (or_exit "failed to run migrations" RunMigrations
       (or_exit "failed to create virtual tables" (CreateVirtualTables (EmbedDim cfg)) (main_federation cfg))).

End Main.

(** A process starts with no drivers, no pool and the two files. *)
Definition boot_of (f : datafile) (key : option string) (k : nat) : boot := Boot ∅ f None key k.

(** The world the server starts in, when the pool has its connection. *)
Definition world_of (b : boot) : option world :=
  match b_handle b with
  | Some h => match h_idle h with
              | Some c => (fun d => World d true (b_tick b) ∅ ∅ ∅ false [] []) <$> file_db (b_file b) c
              | None => None
              end
  | None => None
  end.

(** ** Every start *)

Section Starts.
Context `{Env, Driver, GoMigrate, Ed25519Keys, Host}.
Context (getenv : string -> string).

Lemma post_or_exit {A} P msg (m : B A) k (Q : A -> boot -> Prop) (X : boot -> Prop) (R : start -> boot -> Prop) Y :
  post P m Q X -> (forall e b, X b -> R (Exit msg e) b) -> (forall a, post (Q a) k R Y) -> post P (or_exit msg m k) R Y.
Proof.
  intros Hm HX Hk. eapply post_bind; [by eapply post_catch|]. intros [e|a]; [by apply post_ret; intros; apply HX|apply Hk].
Qed.

(** The connection of a server: the pragmas of [Open] are in force on it. *)
Definition server_conn : conn := Conn opened_settings (vec0_loads (Vec0Path (Load getenv))).

(** What is left of a file [f0] by a start that ends with [s]. *)
Definition started (f0 : datafile) (s : start) (b : boot) : Prop :=
  over f0 b /\ forall run, s = Serving run -> pooled (Vec0Path (Load getenv)) server_conn b /\ ready f0 (b_file b).

Lemma post_federation f0 (cfg : Config) :
  post (fun b => pooled (Vec0Path (Load getenv)) server_conn b /\ ready f0 (b_file b)) (main_federation getenv cfg)
    (started f0) (fun _ => False).
Proof.
  assert (forall s b, pooled (Vec0Path (Load getenv)) server_conn b /\ ready f0 (b_file b) -> started f0 s b) as Hst.
  { intros s b [Hp Hr]. split; [exact (proj1 Hr)|done]. }
  unfold main_federation. destruct (fs_Enabled _); [|by apply post_ret; intros; apply Hst].
  eapply (post_bind _ _ _ (fun _ b => pooled (Vec0Path (Load getenv)) server_conn b /\ ready f0 (b_file b))).
  - intros b Hb. unfold load_identity_file. destruct (LoadOrCreateIdentity _ _ _) as [r [text|]]; exact Hb.
  - intros r. apply post_ret. intros b. apply Hst.
Qed.

(** A start never errs (it exits), applies migrations and creates tables, and serves only
    from a database at the newest version over the configured connection. *)
Lemma main_started f key k : post (fun b => b = boot_of f key k) (main getenv) (started f) (fun _ => False).
Proof.
  assert (forall msg e b, over f b -> started f (Exit msg e) b) as Hexit by (intros; split; [done|by intros]).
  unfold main. eapply (post_bind _ _ _ (fun _ b => b_drivers b !! DriverName = Some (Vec0Path (Load getenv)) /\ over f b)).
  { intros b ->. split; [apply lookup_insert_eq|by unfold over]. }
  intros _. eapply post_or_exit; [apply (post_Open _ _ (upgraded f))|intros; by apply Hexit|intros []].
  eapply post_or_exit; [apply post_RunMigrations|intros; by apply Hexit|intros []].
  eapply post_or_exit; [apply post_CreateVirtualTables|intros; by apply Hexit|intros []].
  apply post_federation.
Qed.

(** The server [main] starts from the file [f]: its start-up state and its world. *)
Definition serves (f : datafile) (run : running) (b : boot) (w : world) : Prop :=
  (exists key k, main getenv (boot_of f key k) = (inr (Serving run), b)) /\ world_of b = Some w.

Definition first_world (d : db) (k : nat) : world := World d true k ∅ ∅ ∅ false [] [].

Lemma serves_world f run b w :
  serves f run b w ->
  ready f (b_file b) /\ b_handle b = Some (Handle (Vec0Path (Load getenv)) 1 1 (Some server_conn)) /\
  file_db (b_file b) server_conn = Some (w_db w) /\ w = first_world (w_db w) (b_tick b).
Proof.
  intros [(key & k & Hm) Hw]. pose proof (main_started f key k _ eq_refl) as Hst. rewrite Hm in Hst.
  destruct (proj2 Hst run eq_refl) as [Hp Hr]. unfold pooled in Hp. split; [done|]. split; [done|].
  unfold world_of in Hw. rewrite Hp in Hw. simpl in Hw. destruct (file_db _ _) as [d|]; [|done]. by injection Hw as <-.
Qed.

(** The database a start serves from the file [f]. *)
Lemma ready_db f0 file c :
  ready f0 file -> exists fts, df_fts file = Some fts /\
    file_db file c = Some (rows_of (df_tables f0) fts (df_fedfts file) (if c_vec0 c then snd <$> df_vec file else None)).
Proof.
  intros (_ & Et & [fts Ef]). exists fts. split; [done|]. unfold file_db. rewrite Et, Ef.
  destruct (latest_is_newest (df_tables f0)) as (x & p & fd & El). unfold rows_of at 2. rewrite El. done.
Qed.

End Starts.

(** ** Lives of the program over one data file *)

(** The rows of a file whatever its version, without the search indexes. *)
Definition rows (f : datafile) : db := rows_of (df_tables f) [] None None.
Definition bare (d : db) : db := set_fts (fun _ => []) (set_fedfts None (set_vec None d)).

Lemma bare_rows_of t fts fed_fts vec : bare (rows_of t fts fed_fts vec) = rows_of t [] None None.
Proof. unfold rows_of. by destruct (latest_is_newest t) as (x & p & fd & ->). Qed.
Lemma rows_stop f c d : rows (stop f c d) = bare d.
Proof. by destruct d. Qed.
Lemma rows_upgraded f f' : upgraded f f' -> rows f' = rows f.
Proof. intros Hu. unfold rows, rows_of. by rewrite (latest_upgraded _ _ Hu). Qed.

(** A database shows every row of the tables, each with the columns their version has. *)
Definition base_shown {N I} (pn : node -> N) (pi : intro -> I) (b : base N I) (d : db) : Prop :=
  users d = bt_users b /\ pn <$> nodes d = bt_nodes b /\ snapshots d = bt_snapshots b /\ magic_tokens d = bt_magic b /\
  api_tokens d = bt_api b /\ device_sessions d = bt_devices b /\ pi <$> introduction_requests d = bt_intros b /\
  audit_log d = bt_audit b.
Definition fed_shown (p : list fed_instance) (f : list fed_snapshot) (d : db) : Prop :=
  federated_instances d = p /\ federated_snapshots d = f.

Definition shows (t : tables) (d : db) : Prop :=
  match t with
  | V0 => d = bare empty_db
  | V1 b => base_shown drop_intro_secret drop_recruiter b d /\ fed_shown [] [] d
  | V2 b p f => base_shown drop_intro_secret drop_recruiter b d /\ fed_shown p f d
  | V3 b p f => base_shown id drop_recruiter b d /\ fed_shown p f d
  | V4 b p f => base_shown id id b d /\ fed_shown p f d
  end.

Lemma rows_shown f : shows (df_tables f) (rows f).
Proof.
  unfold rows. destruct (df_tables f) as [|b|b p fd|b p fd|b p fd]; [done|split; [|done]..];
    unfold base_shown; simpl; split_and!; try done; first [apply fmap_undone; by intros []|apply list_fmap_id].
Qed.

Lemma forward_bare d d' : forward d d' -> forward (bare d) (bare d').
Proof. by intros []. Qed.
Lemma wf_bare d : db_wf (bare d) <-> db_wf d.
Proof. split; intros []; by constructor. Qed.

(** One life of the program: it starts, by any clock, entropy, failures, libraries and
    environment, and exits; or it serves, its statements run in any order, and it ends at
    any point. *)
Inductive life (f : datafile) : datafile -> Prop :=
| life_exit (E : Env) (D : Driver) (G : GoMigrate) (S : Ed25519) (K : Ed25519Keys) (O : Host) getenv key k s b :
    main getenv (boot_of f key k) = (inr s, b) -> life f (b_file b)
| life_served (E : Env) (N : Engine) (D : Driver) (G : GoMigrate) (S : Ed25519) (K : Ed25519Keys) (O : Host) getenv run b w d :
    serves getenv f run b w -> evolves (w_db w) d -> life f (stop (b_file b) (server_conn getenv) d).

Lemma serves_rows `{Env, Driver, GoMigrate, Ed25519Keys, Host} getenv f run b w : serves getenv f run b w -> rows f = bare (w_db w).
Proof.
  intros (Hr & _ & Hdb & _)%serves_world. destruct (ready_db f _ (server_conn getenv) Hr) as (fts & _ & Hdb').
  rewrite Hdb in Hdb'. injection Hdb' as ->. symmetry. apply bare_rows_of.
Qed.

Lemma life_rows f f' : life f f' -> forward (rows f) (rows f') /\ (db_wf (rows f) -> db_wf (rows f')).
Proof.
  intros [E D G S K O getenv key k s b Hm|E N D G S K O getenv run b w d Hs Hev].
  - pose proof (main_started getenv f key k _ eq_refl) as Hst. rewrite Hm in Hst. by rewrite (rows_upgraded _ _ (proj1 Hst)).
  - rewrite rows_stop, (serves_rows _ _ _ _ _ Hs). split.
    + by apply forward_bare, evolves_moves_forward.
    + rewrite !wf_bare. by apply evolves_preserves_wf.
Qed.

(** With the extension loaded, what [stop] writes of the vectors is what the server had. *)
Lemma stop_vec `{Engine} f0 file c d0 d :
  ready f0 file -> file_db file c = Some d0 -> evolves d0 d -> c_vec0 c = true ->
  snd <$> df_vec (stop file c d) = candidate_vec d.
Proof.
  intros Hr Hd Hev Hc. destruct (ready_db f0 file c Hr) as (fts & _ & Hd'). rewrite Hd, Hc in Hd'. injection Hd' as E0.
  pose proof (vec_table_stays _ _ Hev) as Hv. assert (candidate_vec d0 = snd <$> df_vec file) as Ev.
  { rewrite E0. unfold rows_of. by destruct (latest_is_newest (df_tables f0)) as (x & p & fd & ->). }
  rewrite Ev in Hv. unfold stop. simpl. rewrite Hc. destruct (df_vec file) as [[dim old]|]; simpl in *.
  - destruct (candidate_vec d) as [v|]; [done|]. by destruct (proj2 Hv (mk_is_Some _ _ eq_refl)).
  - destruct (candidate_vec d) as [v|]; [|done]. by destruct (proj1 Hv (mk_is_Some _ _ eq_refl)).
Qed.

(** What a start serves from a stopped run's file. *)
Lemma ready_stop file c d file' c' :
  ready (stop file c d) file' ->
  file_db file' c' = Some (set_fedfts (df_fedfts file') (set_vec (if c_vec0 c' then snd <$> df_vec file' else None) d)) /\
  opened (fed_snapshots_fts d) (df_fedfts file').
Proof.
  intros Hr. destruct (ready_db _ _ c' Hr) as (fts & Ef & ->). destruct Hr as ([_ Hfts Hfed _] & _).
  split; [|exact Hfed]. destruct Hfts as [E|[E _]]; [|done]. rewrite Ef in E. simpl in E. injection E as ->. by destruct d.
Qed.

(** ** The theorems *)

(** C5: restarts keep the promises of the database.  Over any sequence of lives of the program
    on one data file, from any version of its schema on, each life with its own clock,
    failures, libraries and settings, ending by an exit of main or by a stop at any point
    between two statements: the first file's rows are all there in the newest version's
    tables, they only move forward (a used link stays used, a revoked token revoked, a final
    introduction as it is), and if they have integrity, so does the last file. *)
Theorem restarts_keep_promises f f' :
  rtc life f f' ->
  shows (df_tables f) (rows f) /\ forward (rows f) (rows f') /\ (db_wf (rows f) -> db_wf (rows f')).
Proof.
  intros Hl. split; [apply rows_shown|]. induction Hl as [f|f f1 f2 Hl _ [IHf IHw]]; [by split|]. destruct (life_rows _ _ Hl) as [Hf Hw].
  split; [by etrans|auto].
Qed.

Section Restart.
Context (E1 : Env) (N : Engine) (D1 : Driver) (G1 : GoMigrate) (S1 : Ed25519) (K1 : Ed25519Keys) (O1 : Host).
Context (E2 : Env) (D2 : Driver) (G2 : GoMigrate) (S2 : Ed25519) (K2 : Ed25519Keys) (O2 : Host).
Context (g1 g2 : string -> string).

(** C16: what one run of the server stored, the next one serves.  From the file left by a run
    that ended with the database [d], a later start in another environment that serves at all
    serves exactly [d], up to the search indexes: the missing one may have been created, and
    vectors are seen only while the extension loads.  Nothing of the memory survives:
    no admin session, pending link, rate limit or wake-up.  The pool holds one connection,
    with foreign keys enforced. *)
Theorem restart_roundtrip f run b w d run' b' w' :
  @serves E1 D1 G1 S1 K1 O1 g1 f run b w -> evolves (w_db w) d ->
  @serves E2 D2 G2 S2 K2 O2 g2 (stop (b_file b) (@server_conn D1 g1) d) run' b' w' ->
  (let d' := set_fedfts (fed_snapshots_fts (w_db w')) (set_vec (candidate_vec (w_db w')) d) in
   w' = World d' true (b_tick b') ∅ ∅ ∅ false [] []) /\
  opened (fed_snapshots_fts d) (fed_snapshots_fts (w_db w')) /\
  (c_vec0 (@server_conn D1 g1) = true -> c_vec0 (@server_conn D2 g2) = true -> opened (candidate_vec d) (candidate_vec (w_db w'))) /\
  (c_vec0 (@server_conn D2 g2) = false -> candidate_vec (w_db w') = None) /\
  (exists p c, b_handle b' = Some (Handle p 1 1 (Some c)) /\ foreign_keys (c_settings c) = true).
Proof.
  intros Hs Hev Hs'. apply serves_world in Hs as (Hr & _ & Hd & _). apply serves_world in Hs' as (Hr' & Hp & Hd' & Hw').
  destruct (ready_stop _ _ _ _ (@server_conn D2 g2) Hr') as [Hdb Hfed]. rewrite Hd' in Hdb. injection Hdb as Ew.
  assert (fed_snapshots_fts (w_db w') = df_fedfts (b_file b')) as Ef by (rewrite Ew; by destruct d).
  assert (candidate_vec (w_db w') = if c_vec0 (@server_conn D2 g2) then snd <$> df_vec (b_file b') else None) as Ev
    by (rewrite Ew; by destruct d).
  rewrite Ef, Ev. split; [etrans; [exact Hw'|]; unfold first_world; by rewrite Ew|]. split; [exact Hfed|].
  split; [|split; [by intros ->|by exists (Vec0Path (Load g2)), (@server_conn D2 g2)]].
  intros Hc1 Hc2. rewrite Hc2, <- (stop_vec _ _ _ _ _ Hr Hd Hev Hc1).
  destruct Hr' as ([_ _ _ Hvec] & _). destruct Hvec as [->|[-> [dim ->]]]; [by left|by right].
Qed.

End Restart.

(** A start that serves ran through; the outbox has the defaults. *)
Lemma or_exit_serving {A msg} {m : B A} {k b run b'} :
  or_exit msg m k b = (inr (Serving run), b') -> exists b1, k b1 = (inr (Serving run), b').
Proof. unfold or_exit, catch, mbind, B_bind. destruct (m b) as [[e|a] b1]; [done|]. by exists b1. Qed.

Lemma main_outbox `{Env, Driver, GoMigrate, Ed25519Keys, Host} getenv b run b' :
  main getenv b = (inr (Serving run), b') -> rn_outbox run = Outbox.production.
Proof.
  unfold main, mbind, B_bind at 1. destruct (RegisterDriver _ b) as [[e|u] b0]; [done|]. intros E.
  destruct (or_exit_serving E) as [b1 E1], (or_exit_serving E1) as [b2 E2], (or_exit_serving E2) as [b3 E3].
  unfold main_federation, serve_with in E3. destruct (fs_Enabled _).
  - unfold mbind, B_bind, load_identity_file in E3. destruct (LoadOrCreateIdentity _ _ _) as [[id|e|p|] wr]; simpl in E3;
      try done. destruct (_ && _); [done|]. by injection E3 as <- _.
  - simpl in E3. destruct (_ && _); [done|]. by injection E3 as <- _.
Qed.

Lemma or_exit_ok {A msg} {m : B A} {k b a b'} : m b = (inr a, b') -> or_exit msg m k b = k b'.
Proof. intros Hm. unfold or_exit, catch, mbind, B_bind. by rewrite Hm. Qed.

Section Clean.
Context `{Env, Driver, GoMigrate, Ed25519Keys, Host}.
Context (getenv : string -> string).

(** The vectors a server sees: the table there is, or a new one, if the extension loads. *)
Definition vectors_of (f : datafile) : option (list vec_row) :=
  if c_vec0 (server_conn getenv) then
    match df_vec f with
    | Some (_, v) => Some v
    | None => if vec_dim_ok (EmbedDim (Load getenv)) then Some [] else None
    end
  else None.

Lemma clean_world dr f key t :
  world_of (on_pool (Vec0Path (Load getenv)) (server_conn getenv) dr
              (with_tables (EmbedDim (Load getenv)) (server_conn getenv) (set_tables (latest (df_tables f)) false f)) key t) =
  Some (first_world (rows_of (df_tables f) (default [] (df_fts f)) (Some (default [] (df_fedfts f))) (vectors_of f)) t).
Proof.
  unfold world_of, on_pool, with_tables, file_db, rows_of, vectors_of. cbn.
  destruct (latest_is_newest (df_tables f)) as (x & p & fd & ->). cbn. unfold first_world. do 3 f_equal.
  destruct (vec0_loads _); [|done]. destruct (df_vec f) as [[dim v]|]; [done|]. by destruct (vec_dim_ok _).
Qed.

(** C24: a start in which no statement and no migration fails, exactly.  It serves, unless the
    federation's key or the directory of certificates stops it; neither a missing vector
    extension nor a dimension it does not take does.  The database is what the migrations
    make of the file's rows, whatever their version and whichever indexes are missing. *)
Theorem clean_start f key k :
  (forall n, sql_fails n = false) ->
  (forall n, iofs_New n = None /\ WithInstance n = None /\ NewWithInstance n = None) ->
  (forall n e, (m_Up n (df_tables f, df_dirty f)).1 <> UpError e) ->
  exists b, main getenv (boot_of f key k) =
    (inr (if fs_Enabled (LoadConfig getenv) then
            match (LoadOrCreateIdentity key (entropy (13 + k) 32) key_writable).1 with
            | Ok ident => serve_with (Load getenv) (Some (fed_goroutines (LoadConfig getenv) ident))
            | Err e => Exit "failed to load federation identity" e
            | Panic p => Crash p
            | Blocked => Crash EmptyString
            end
          else serve_with (Load getenv) None), b) /\
    world_of b = Some (first_world (rows_of (df_tables f) (default [] (df_fts f)) (Some (default [] (df_fedfts f))) (vectors_of f))
                         (b_tick b)).
Proof.
  intros Hsql Hnew Hup. unfold main, mbind, B_bind at 1, RegisterDriver, boot_of, set_drivers. cbn [b_drivers b_file b_handle b_keyfile b_tick].
  rewrite (or_exit_ok (Open_quiet Hsql (Vec0Path (Load getenv)) _ f None key k (lookup_insert_eq _ _ _))).
  rewrite (or_exit_ok (RunMigrations_quiet Hnew _ _ _ f key _ Hup)).
  rewrite (or_exit_ok (CreateVirtualTables_quiet Hsql _ _ _ _ _ key _)).
  set (b := on_pool _ _ _ _ _ _).
  assert (forall t kf, world_of (set_btick t (set_keyfile kf b)) = Some (first_world (rows_of (df_tables f) (default [] (df_fts f))
            (Some (default [] (df_fedfts f))) (vectors_of f)) t)) as Hw by (intros; apply clean_world).
  unfold main_federation. destruct (fs_Enabled _).
  - unfold load_identity_file, mbind, B_bind at 1. subst b. cbn.
    destruct (LoadOrCreateIdentity _ _ _) as [r [text|]]; eexists; (split; [done|]); [apply Hw|exact (Hw _ key)].
  - eexists. split; [done|exact (Hw _ key)].
Qed.

End Clean.

(** ** A concrete history: a first start, a run, a restart without the vector extension *)

Definition sample_up (s : tables * bool) : up_result * (tables * bool) :=
  if s.2 then (UpError "Dirty database version. Fix and force version.", s)
  else match s.1 with V4 _ _ _ => (ErrNoChange, s) | t => (UpOk, (latest t, false)) end.

Definition sample_migrate : GoMigrate.
Proof.
  refine {| iofs_New _ := None; WithInstance _ := None; NewWithInstance _ := None; m_Up _ s := sample_up s |}.
  - intros _ [t []] s'; [done|]. by destruct t; intros [= <-].
  - intros _ [t []] s'; [done|]. by destruct t; intros [= <-].
  - intros _ [t []] e s'; [intros [= _ <-]; by exists 0%nat|]. by destruct t.
Defined.

Definition sqlite (vec0 : bool) : Driver :=
  {| fresh_settings := Settings "delete" "full" false 5000 (-2000); vec0_loads _ := vec0; vec_dim_ok dim := 0 <? dim |}.
Definition sample_host : Host := {| key_writable := true; certs_dir := None; api_spec := "{}" |}.
#[local] Existing Instances sample_env sample_engine open_ed25519 open_keys sample_migrate sample_host.

(** Nothing set but the federation. *)
Definition sample_vars (k : string) : string := if str_eqb k "HB_FEDERATION_ENABLED" then "true" else EmptyString.

Definition sample_start (vec0 : bool) (f : datafile) (key : option string) : (goerr + start) * boot :=
  main (H0:=sqlite vec0) sample_vars (boot_of f key 0).
Definition running_of (r : goerr + start) : running :=
  match r with inr (Serving run) => run | _ => mkRunning (server_config (H4:=sample_host) (Load sample_vars) Noop) Outbox.production None [] end.
Definition world_at (b : boot) : world := match world_of b with Some w => w | None => start_world end.

Definition first_start := sample_start true new_file None.
Definition after_run : db := match run_stmts sample_history empty_db with Some d => d | None => empty_db end.
Definition second_start :=
  sample_start false (stop (b_file first_start.2) (server_conn (H0:=sqlite true) sample_vars) after_run) (b_keyfile first_start.2).

Lemma first_serves : serves (H0:=sqlite true) sample_vars new_file (running_of first_start.1) first_start.2 (world_at first_start.2).
Proof. split; [exists None, 0%nat; vm_compute; reflexivity|vm_compute; reflexivity]. Qed.
Lemma run_evolves : evolves (w_db (world_at first_start.2)) after_run.
Proof. apply (run_stmts_evolves sample_history). vm_compute. reflexivity. Qed.

Theorem restarts_keep_promises_witness :
  rows new_file = bare empty_db /\
  db_wf (rows (stop (b_file first_start.2) (server_conn (H0:=sqlite true) sample_vars) after_run)).
Proof.
  split; [reflexivity|]. refine (proj2 (proj2 (restarts_keep_promises new_file _ _)) _); [|exact (proj2 (wf_bare empty_db) empty_db_wf)].
  apply rtc_once. exact (life_served new_file _ _ (sqlite true) _ _ _ _ sample_vars _ _ _ _ first_serves run_evolves).
Defined.

(** The same key is loaded again, the vectors are out of reach. *)
Theorem restart_roundtrip_witness :
  let w' := world_at second_start.2 in
  (w' = World (set_fedfts (fed_snapshots_fts (w_db w')) (set_vec (candidate_vec (w_db w')) after_run)) true
          (b_tick second_start.2) ∅ ∅ ∅ false [] []) /\
  u_email <$> users (w_db w') = ["ada@example.com"] /\ candidate_vec (w_db w') = None.
Proof.
  intros w'. assert (serves (H0:=sqlite false) sample_vars
    (stop (b_file first_start.2) (server_conn (H0:=sqlite true) sample_vars) after_run) (running_of second_start.1) second_start.2 w') as Hs.
  { split; [exists (b_keyfile first_start.2), 0%nat; vm_compute; reflexivity|vm_compute; reflexivity]. }
  split; [|split; vm_compute; reflexivity].
  exact (proj1 (restart_roundtrip _ _ (sqlite true) _ _ _ _ _ (sqlite false) _ _ _ _ sample_vars sample_vars _ _ _ _ _ _ _ _
                  first_serves run_evolves Hs)).
Defined.

Theorem clean_start_witness :
  exists b, (main (H0:=sqlite false) sample_vars (boot_of new_file None 0)).2 = b /\
    world_of b = Some (first_world (set_vec None empty_db) (b_tick b)).
Proof.
  destruct (clean_start (H0:=sqlite false) sample_vars new_file None 0) as (b & Hm & Hw);
    [done|done|by intros n e|]. exists b. split; [by rewrite Hm|exact Hw].
Defined.

(** A changed HB_EMBED_DIM does not reach the table: it keeps the dimension of the first start. *)
Example dimension_stays :
  df_vec (b_file first_start.2) = Some (384, []) /\
  df_vec (b_file (main (H0:=sqlite true) (fun k => if str_eqb k "HB_EMBED_DIM" then "768" else EmptyString)
                    (boot_of (b_file first_start.2) None 0)).2) = Some (384, []).
Proof. split; vm_compute; reflexivity. Qed.
