(* ===== verification/Onboarding.v ===== *)
(** * From a device code to a working token

    The device flow end to end, when nothing fails: a node asks for a code, its operator is
    mailed a link and opens it, and the node's next poll is answered with a token.  The parts
    are those of Auth.v, run one after the other; each is a step from one state to the next,
    the state being what the flow depends on: the database, the number of effects so far and
    the mails sent. *)

From S2P Require Import Prelude RateLimit AdminStore Schema Statements Invariants World.
From S2P Require Import GoStrings Sha256 Float Runs Samples Repo RepoFacts Auth AuthFacts Http Middleware MiddlewareFacts.

Open Scope Z_scope.

(** ** Steps that succeed *)

(** What was mailed, and the rate limiter's windows. *)
Abbreviation outside := (list (string * string) * gmap string RateLimit.rateEntry)%type.

Record stage := Stage { sg_db : db; sg_tick : nat; sg_out : outside }.

Section Steps.
Context `{Env, Engine}.

Definition at_stage (held : bool) (s : stage) (w : world) : Prop :=
  w_db w = sg_db s /\ w_tick w = sg_tick s /\ (w_mail w, w_limiter w) = sg_out s /\ w_conn w = negb held.

(** [m] succeeds with [a] from every world at stage [s], [held] telling whether it is run on
    a connection it already holds, and leaves a world at stage [s']. *)
Definition steps (held : bool) {A} (m : M A) (s : stage) (a : A) (s' : stage) : Prop :=
  forall w, at_stage held s w -> exists w', m w = (Ok a, w') /\ at_stage held s' w'.

Lemma steps_ret h {A} (a : A) s : steps h (mret a) s a s.
Proof. intros w Hw. by exists w. Qed.

Lemma steps_bind h {A B} (m : M A) (f : A -> M B) s a s1 b s2 :
  steps h m s a s1 -> steps h (f a) s1 b s2 -> steps h (m ≫= f) s b s2.
Proof.
  intros Hm Hf w Hw. destruct (Hm w Hw) as (w1 & E1 & H1). destruct (Hf w1 H1) as (w2 & E2 & H2).
  exists w2. split; [|done]. by erewrite run_bind by exact E1.
Qed.

Lemma steps_try h {A} (m : M A) s a s' : steps h m s a s' -> steps h (try_ m) s (inr a) s'.
Proof. intros Hm w Hw. destruct (Hm w Hw) as (w1 & E & H1). exists w1. split; [by apply run_try|done]. Qed.

Lemma steps_wrap h {A} c (m : M A) s a s' : steps h m s a s' -> steps h (wrap c m) s a s'.
Proof. intros Hm. eapply steps_bind; [by apply steps_try|apply steps_ret]. Qed.

Lemma steps_ignore h {A} (m : M A) s a s' : steps h m s a s' -> steps h (ignore m) s tt s'.
Proof. intros Hm. eapply steps_bind; [by apply steps_try|apply steps_ret]. Qed.

Lemma steps_now h d k l : steps h unix_now (Stage d k l) (unix (clock k)) (Stage d (S k) l).
Proof. intros w (Hd & Ht & Hl & Hc). simpl in *. subst. eexists. split; [reflexivity|by (unfold at_stage; split_and!)]. Qed.

Lemma steps_time h d k l : steps h time_now (Stage d k l) (clock k) (Stage d (S k) l).
Proof. intros w (Hd & Ht & Hl & Hc). simpl in *. subst. eexists. split; [reflexivity|by (unfold at_stage; split_and!)]. Qed.

Lemma steps_rand h d k l n b : entropy k n = Some b -> steps h (rand_read n) (Stage d k l) b (Stage d (S k) l).
Proof.
  intros E w (Hd & Ht & Hl & Hc). simpl in *. subst. exists (tick w). split; [|by (unfold at_stage; split_and!)].
  unfold rand_read, next_tick, mbind, M_bind. by rewrite E.
Qed.

Lemma steps_get_db h d k l : steps h get_db (Stage d k l) d (Stage d k l).
Proof. intros w Hw. exists w. split; [|done]. unfold get_db. destruct Hw as [Hd _]. simpl in Hd. by subst. Qed.

Lemma steps_conn {A} (m : M A) s a s' : steps true m s a s' -> steps false (with_conn m) s a s'.
Proof.
  intros Hm w (Hd & Ht & Hl & Hc). destruct (Hm (set_conn false w)) as (w' & E & Hd' & Ht' & Hl' & _); [by split_and!|].
  exists (set_conn true w'). split; [|by (unfold at_stage; split_and!)]. unfold with_conn. rewrite Hc. simpl. by rewrite E.
Qed.

Lemma steps_mail h email msg d k l :
  mail_fails k (email, msg) = None -> steps h (send_mail email msg) (Stage d k l) tt (Stage d (S k) ((email, msg) :: l.1, l.2)).
Proof.
  intros E w (Hd & Ht & Hl & Hc). simpl in *. subst k. destruct l as [ml lim]. injection Hl as <- <-.
  exists (add_mail (email, msg) (tick w)).
  split; [|by (unfold at_stage; split_and!)]. unfold send_mail. by rewrite E.
Qed.

Context (Hsql : forall k, sql_fails k = false).

Lemma steps_read h {A} (f : db -> A) d k l : steps h (sql_read f) (Stage d k l) (f d) (Stage d (S k) l).
Proof.
  intros w (Hd & Ht & Hl & Hc). simpl in *. subst. exists (tick w). split; [|by (unfold at_stage; split_and!)].
  unfold sql_read. by rewrite Hsql.
Qed.

Lemma steps_stmt h st d k l d' n :
  exec_stmt st d = Some (d', n) -> steps h (sql_stmt st) (Stage d k l) n (Stage d' (S k) l).
Proof.
  intros E w (Hd & Ht & Hl & Hc). simpl in *. subst. exists (set_db d' (tick w)). split; [|by (unfold at_stage; split_and!)].
  unfold sql_stmt. rewrite Hsql. simpl. by rewrite E.
Qed.

Lemma steps_exec st d k l d' n :
  exec_stmt st d = Some (d', n) -> steps false (db_exec st) (Stage d k l) n (Stage d' (S k) l).
Proof. intros E. by apply steps_conn, steps_stmt. Qed.

Lemma steps_exec_ st d k l d' n :
  exec_stmt st d = Some (d', n) -> steps false (Repo.exec_ (db_exec st)) (Stage d k l) tt (Stage d' (S k) l).
Proof. intros E. eapply steps_bind; [by apply steps_exec|apply steps_ret]. Qed.

Lemma steps_row h {A} (f : db -> option A) d k l a :
  f d = Some a -> steps h (o ← sql_read f; scan_row o) (Stage d k l) a (Stage d (S k) l).
Proof. intros E. eapply steps_bind; [apply steps_read|]. rewrite E. apply steps_ret. Qed.

Lemma steps_found {A} (f : db -> option A) d k l a :
  f d = Some a -> steps false (Repo.row_or_nil (db_query_row f)) (Stage d k l) (Some a) (Stage d (S k) l).
Proof.
  intros E. eapply steps_bind; [by apply steps_try, steps_conn, steps_row|]. apply steps_ret.
Qed.

Lemma steps_tx {A} (body : M (tx_end A)) d k l a d' k' l' :
  steps true body (Stage d (S k) l) (Commit a) (Stage d' k' l') ->
  steps false (with_tx body) (Stage d k l) a (Stage d' (S k') l').
Proof.
  intros Hb. apply steps_conn. eapply steps_bind; [apply steps_read|]. intros w Hw.
  destruct (Hb w Hw) as (w1 & E & H1). destruct (steps_read true (fun _ => tt) d' k' l' w1 H1) as (w2 & E2 & H2).
  exists w2. split; [|done]. unfold run_tx. rewrite E, E2. done.
Qed.

End Steps.

(** ** Rows picked by a key *)

Lemma sel_upd {A} (q p : A -> bool) f t : (forall x, q (f x) = q x) -> sel q (upd p f t) = upd p f (sel q t).
Proof.
  intros Hq. unfold sel, upd. induction t as [|x t IH]; [done|]. rewrite fmap_cons, !filter_cons, IH.
  assert (q (if p x then f x else x) = q x) as -> by (destruct (p x); auto). by destruct (decide (q x = true)).
Qed.

Lemma sel_snoc {A} (q : A -> bool) t r : has q t = false -> q r = true -> sel q (t ++ [r]) = [r].
Proof.
  intros Hn Hr. rewrite sel_app. apply sel_nil_iff in Hn as ->. unfold sel. rewrite filter_cons. by rewrite decide_True.
Qed.

Lemma has_snoc_true {A} (q : A -> bool) t r : q r = true -> has q (t ++ [r]) = true.
Proof. intros Hr. unfold has. rewrite existsb_app. simpl. rewrite Hr. by rewrite orb_true_r. Qed.

Lemma sel_count {A} (p : A -> bool) t r : r ∈ t -> p r = true -> (length (sel p t) =? 0)%nat = false.
Proof.
  intros Hr Hp. apply Nat.eqb_neq. intros E%nil_length_inv. apply sel_nil_iff in E. by rewrite (proj1 (has_false _ _) E r Hr) in Hp.
Qed.

Lemma sel_elem {A} (q : A -> bool) t r : sel q t = [r] -> r ∈ t /\ q r = true.
Proof. intros E. assert (r ∈ sel q t) as [? ?]%elem_of_sel; [|done]. rewrite E. by apply list_elem_of_singleton. Qed.

(** ** The repository's steps *)

Section Flow.
Context `{Env, Engine}.
Context (Hsql : forall k, sql_fails k = false).

Lemma steps_must_rand h n b d k l : entropy k n = Some b -> steps h (Repo.must_rand n) (Stage d k l) b (Stage d (S k) l).
Proof. intros E. eapply steps_bind; [by apply steps_try, steps_rand|apply steps_ret]. Qed.

Lemma steps_NewID h b d k l : entropy k 16 = Some b -> steps h Repo.NewID (Stage d k l) (Hex.encode b) (Stage d (S k) l).
Proof. intros E. eapply steps_bind; [by apply steps_must_rand|apply steps_ret]. Qed.

Lemma steps_GenerateToken h b d k l :
  entropy k 32 = Some b -> steps h Repo.GenerateToken (Stage d k l) (Hex.encode b) (Stage d (S k) l).
Proof. intros E. eapply steps_bind; [by apply steps_must_rand|apply steps_ret]. Qed.

Definition minted (b u : string) (nid : option string) (lbl sc : string) (now : Z) : api_token :=
  APIToken (Repo.HashToken (Hex.encode b)) u nid (Some lbl) (Some sc) now None None.

Lemma steps_CreateAPIToken u nid lbl sc b d k l :
  entropy k 32 = Some b -> has (fun a => str_eqb (t_hash a) (Repo.HashToken (Hex.encode b))) (api_tokens d) = false ->
  has_user u d = true -> fk_opt has_node nid d = true ->
  exists row, t_hash row = Repo.HashToken (Hex.encode b) /\
    steps false (Repo.CreateAPIToken u nid lbl sc) (Stage d k l) (Hex.encode b, row)
      (Stage (set_api (fun t => t ++ [minted b u nid lbl sc (unix (clock (S k)))]) d) (S (S (S k))) l).
Proof.
  intros Eb Hf Hu Hn. eexists. split; [|eapply steps_bind; [by apply steps_GenerateToken|]].
  2: { eapply steps_bind; [apply steps_now|]. eapply steps_bind; [|apply steps_ret]. apply steps_exec; [done|].
       cbn [exec_stmt]. unfold inserting. by rewrite Hf, Hu, Hn. }
  done.
Qed.

Lemma run_clash st w : w_conn w = true -> exec_stmt st (w_db w) = None -> db_exec st w = (Err ErrConstraint, tick w).
Proof.
  intros Hc E. unfold db_exec, with_conn, sql_stmt. rewrite Hc, Hsql. cbn [w_db set_conn set_tick]. rewrite E. simpl.
  f_equal. by apply set_conn_same.
Qed.

(** The audit entry may clash with another; nothing depends on it. *)
Lemma steps_audit u a t b d k l :
  entropy k 16 = Some b ->
  exists f, steps false (ignore (Repo.InsertAuditLog u a t)) (Stage d k l) tt (Stage (set_audit f d) (S (S (S k))) l).
Proof.
  intros Eb. set (st := InsertAudit (Hex.encode b) (Some u) a t (unix (clock (S k)))).
  destruct (exec_stmt st d) as [[d' n]|] eqn:E.
  - pose proof E as E'. cbn [st exec_stmt] in E'. apply inserting_ok in E' as (_ & -> & _). eexists.
    eapply steps_ignore. eapply steps_bind; [by apply steps_NewID|]. eapply steps_bind; [apply steps_now|].
    eapply steps_exec_; done.
  - exists id. replace (set_audit id d) with d by (by destruct d). intros w Hw.
    destruct (steps_NewID false b d k l Eb w Hw) as (w1 & E1 & H1).
    destruct (steps_now false d (S k) l w1 H1) as (w2 & E2 & (Hd & Ht & Hl & Hc)). exists (tick w2). split.
    + unfold Repo.InsertAuditLog. rewrite (ignore_bind _ _ _ _ _ E1), (ignore_bind _ _ _ _ _ E2).
      assert (db_exec st w2 = (Err ErrConstraint, tick w2)) as Ee by (by apply run_clash; [|rewrite Hd]).
      unfold ignore, Repo.exec_, try_, mbind, M_bind. fold st. by rewrite Ee.
    + simpl in *. unfold at_stage. simpl. by rewrite Ht.
Qed.

(** ** The stages of the flow *)

Definition requested_node (id ty ep : string) (key : option string) (now : Z) : node :=
  Node id None ty ep None true None key None (Some now) None None.
Definition waiting (code uc id : string) (now ttl : Z) : device_session :=
  DeviceSession (Repo.HashToken code) uc None DPending (Some id) now (now + Repo.seconds_of ttl) None None 5 None.

(** The node asks for a code. *)
Lemma steps_init svc ty ep key b c i d k l :
  entropy k 32 = Some b -> entropy (S k) 3 = Some c -> entropy (S (S (S k))) 16 = Some i ->
  is_empty ty = false -> is_empty ep = false -> node_type_ok ty = true ->
  let code := Hex.encode b in let uc := Repo.format_code (Repo.code_number c) in let id := Hex.encode i in
  let now := unix (clock (S (S k))) in
  has_node id d = false -> has (fun s => str_eqb (d_hash s) (Repo.HashToken code)) (device_sessions d) = false ->
  has (fun s => str_eqb (d_ucode s) uc) (device_sessions d) = false ->
  steps false (Service.InitiateDeviceFlow svc ty ep key) (Stage d k l)
    (mkDeviceInit code uc (svc_BaseURL svc ++s "/device") (svc_BaseURL svc ++s "/device?uc=" ++s uc)
       (Repo.seconds_of (svc_MagicTTL svc)) 5)
    (Stage (set_devices (fun t => t ++ [waiting code uc id now (svc_MagicTTL svc)])
              (set_nodes (fun t => t ++ [requested_node id ty ep key now]) d)) (S (S (S (S (S (S k)))))) l).
Proof.
  intros Eb Ec Ei Hty Hep Hok code uc id now Hn Hh Hu.
  unfold Service.InitiateDeviceFlow, Repo.null_string. rewrite Hty, Hep.
  eapply (steps_bind _ _ _ _ (code, uc)); [apply steps_wrap; unfold Repo.InsertDeviceSession|apply steps_ret].
  eapply steps_bind; [by apply steps_wrap, steps_rand|]. cbv zeta.
  eapply steps_bind; [eapply steps_bind; [by apply steps_must_rand|apply steps_ret]|].
  eapply steps_bind; [apply steps_now|]. eapply steps_bind.
  - eapply steps_bind; [by apply steps_NewID|]. eapply steps_bind; [|apply steps_ret]. apply steps_wrap.
    apply (steps_exec Hsql). cbn [exec_stmt]. unfold inserting. fold id. by rewrite Hn, Hok.
  - eapply steps_bind; [|apply steps_ret]. apply steps_wrap, (steps_exec Hsql). cbn [exec_stmt]. unfold inserting.
    cbn [device_sessions set_nodes]. fold id uc code. change (Repo.deviceCodeHash code) with (Repo.HashToken code).
    rewrite Hh, Hu. simpl. unfold has_node. cbn [nodes set_nodes]. rewrite (has_snoc_true (node_is id)); [done|]. apply str_eqb_refl.
Qed.

(** The operator asks for the link. *)
Lemma steps_CreateUser email i d k :
  entropy k 16 = Some i -> has_user (Hex.encode i) d = false ->
  exists us u, let d' := set_users (fun _ => us) d in
    (forall l, steps false (Repo.CreateUser email) (Stage d k l) (u_id u) (Stage d' (S (S (S k))) l)) /\
    Repo.user_by_email email d' = Some u /\ (forall v, has_user v d = true -> has_user v d' = true).
Proof.
  intros Ei Hi. set (id := Hex.encode i). set (now := unix (clock (S k))).
  assert (exists us u, let d' := set_users (fun _ => us) d in
    exec_stmt (InsertUser id email now) d = Some (d', 1%nat) /\ Repo.user_by_email email d' = Some u /\
    (forall v, has_user v d = true -> has_user v d' = true)) as (us & u & E & Hu & Hk).
  { cbn [exec_stmt]. unfold has_user in Hi. fold id in Hi. rewrite Hi.
    destruct (has (fun u => str_eqb (u_email u) email) (users d)) eqn:He.
    - apply has_true in He as (u0 & Hin & He). exists (users d).
      destruct (head (sel (fun u => str_eqb (u_email u) email) (users d))) as [u|] eqn:Eu;
        [|by rewrite (head_sel_none _ _ u0 Eu Hin) in He].
      exists u. replace (set_users (fun _ => users d) d) with d by (by destruct d). by split_and!.
    - exists (users d ++ [User id email now]), (User id email now). split_and!; [done| |].
      + unfold Repo.user_by_email. cbn [users set_users]. rewrite sel_snoc; [done..|]. apply str_eqb_refl.
      + intros v Hv. unfold has_user in *. cbn [users set_users]. unfold has. rewrite existsb_app.
        unfold has in Hv. by rewrite Hv. }
  exists us, u. split; [intros l|done]. unfold Repo.CreateUser. eapply steps_bind; [by apply steps_NewID|].
  eapply steps_bind; [apply steps_now|]. apply steps_conn. eapply steps_bind; [by apply (steps_stmt Hsql)|].
  eapply steps_bind; [apply steps_get_db|]. rewrite Hu. apply steps_ret.
Qed.

Lemma steps_link svc m email uc s i b d k :
  svc_Mailer svc = SMTP m -> mail_fails (S (S (S (S (S (S (S k)))))))
    (email, smtp_message (sm_From m) email (Service.callback_link svc (Hex.encode b))) = None ->
  is_empty uc = false -> Repo.device_by_code uc d = Some s ->
  entropy (S k) 16 = Some i -> has_user (Hex.encode i) d = false ->
  entropy (S (S (S (S k)))) 32 = Some b ->
  has (fun x => str_eqb (m_hash x) (Repo.HashToken (Hex.encode b))) (magic_tokens d) = false ->
  exists us u, let mt := MagicToken (Repo.HashToken (Hex.encode b)) (Some (u_id u)) (Some (d_hash s))
                           (unix (clock (S (S (S (S (S k))))) + svc_MagicTTL svc)) None in
    let d1 := set_users (fun _ => us) d in
    (forall l, steps false (Service.RequestMagicLink svc email uc) (Stage d k l) tt
      (Stage (set_magic (fun t => t ++ [mt]) d1) (8 + k)
         ((email, smtp_message (sm_From m) email (Service.callback_link svc (Hex.encode b))) :: l.1, l.2))) /\
    Repo.user_by_email email d1 = Some u /\ (forall v, has_user v d = true -> has_user v d1 = true).
Proof.
  intros Hm Hmail Huc Hs Ei Hi Eb Hb.
  destruct (steps_CreateUser email i d (S k) Ei Hi) as (us & u & Hst & Hu & Hk).
  exists us, u. cbv zeta. split; [intros l|done]. unfold Service.RequestMagicLink. eapply steps_bind.
  { apply steps_wrap. unfold Service.resolveDeviceUserCode. rewrite Huc.
    eapply steps_bind; [by apply (steps_found Hsql)|apply steps_ret]. }
  eapply steps_bind; [by apply steps_wrap, Hst|]. eapply steps_bind; [by apply steps_GenerateToken|].
  eapply steps_bind.
  { apply steps_wrap. eapply steps_bind; [apply steps_time|]. eapply (steps_exec_ Hsql). cbn [exec_stmt]. unfold inserting.
    cbn [magic_tokens set_users]. by rewrite Hb. }
  rewrite Hm. by apply steps_mail.
Qed.

(** What minting for a node does to it, and the block that both the callback and the poll
    run. *)
Definition equipped (u hash secret : string) (n : node) : node :=
  Node (n_id n) (Some u) (n_type n) (n_endpoint n) (n_ping n) (n_active n) (Some hash) (n_pubkey n) (n_display n)
    (n_created n) (n_revoked n) (Some secret).

Lemma steps_equip u id n b1 b2 d k l :
  sel (node_is id) (nodes d) = [n] -> has_user u d = true -> n_user n = None \/ n_user n = Some u ->
  entropy k 32 = Some b1 -> has (fun a => str_eqb (t_hash a) (Repo.HashToken (Hex.encode b1))) (api_tokens d) = false ->
  entropy (S (S (S (S (S k))))) 32 = Some b2 ->
  exists d' t, (users d' = users d /\ device_sessions d' = device_sessions d /\ snapshots d' = snapshots d /\
    api_tokens d' = api_tokens d ++ [minted b1 u (Some id) "device-node" "node:push" t] /\
    sel (node_is id) (nodes d') = [equipped u (Repo.HashToken (Hex.encode b1)) (Hex.encode b2) n]) /\
  forall B (K : string -> string -> M B) x s', steps false (K (Hex.encode b1) (Hex.encode b2)) (Stage d' (7 + k) l) x s' ->
    steps false ('(raw, nt) ← wrap "create node token" (Repo.CreateAPIToken u (Some id) "device-node" "node:push");
                 _ ← wrap "update node token" (Repo.UpdateNodeToken id (t_hash nt));
                 _ ← wrap "set node user" (Repo.SetNodeUser id u);
                 secret ← wrap "rotate intro secret" (Repo.RotateNodeIntroSecret id);
                 K raw secret) (Stage d k l) x s'.
Proof.
  intros Hn Hu Hnu E1 Hf E2. destruct (sel_elem _ _ _ Hn) as [Hin His].
  assert (has_node id d = true) as Hhas by (apply has_true; eauto).
  destruct (steps_CreateAPIToken u (Some id) "device-node" "node:push" b1 d k l E1 Hf Hu Hhas) as (row & Hrow & Hst).
  eexists _, (unix (clock (S k))). split; [|intros B K x s' HK; eapply (steps_bind _ _ _ _ (_, _)); [by apply steps_wrap, Hst|];
    rewrite Hrow; eapply steps_bind; [apply steps_wrap; eapply (steps_exec_ Hsql); reflexivity|];
    eapply steps_bind; [apply steps_wrap; eapply (steps_exec_ Hsql)|];
    [|eapply steps_bind; [|exact HK]; apply steps_wrap; eapply steps_bind; [by apply steps_rand|];
      eapply steps_bind; [eapply (steps_exec Hsql); reflexivity|apply steps_ret]]].
  2: { cbn [exec_stmt]. cbv zeta. unfold has_user in *. cbn [users set_nodes set_api]. rewrite Hu, andb_false_r. reflexivity. }
  cbn [users device_sessions snapshots api_tokens nodes set_nodes set_api]. split_and!; [done..|].
  rewrite !sel_upd by done. rewrite Hn. simpl. unfold node_is in *. rewrite His. cbn [with_token n_id n_user]. rewrite His.
  destruct n; cbn in *; destruct Hnu as [->| ->]; cbn; by rewrite His.
Qed.

Definition hashed (h : string) (t : list api_token) : bool := has (fun a => str_eqb (t_hash a) h) t.

Lemma hashed_snoc h t a : hashed h t = false -> t_hash a <> h -> hashed h (t ++ [a]) = false.
Proof.
  intros Ht Ha. unfold hashed, has in *. rewrite existsb_app, Ht. simpl. apply str_eqb_false in Ha as ->. done.
Qed.

(** The link is redeemed. *)
Lemma steps_redeem tok m d k l :
  let hash := Repo.HashToken tok in let now := unix (clock k) in
  sel (fun x => str_eqb (m_hash x) hash) (magic_tokens d) = [m] -> m_used m = None -> now <= m_expires m ->
  steps false (Repo.ConsumeMagicToken tok) (Stage d k l) (Some (magic_used now m))
    (Stage (set_magic (upd (magic_usable hash now) (magic_used now)) d) (5 + k) l).
Proof.
  intros hash now Hm Hu He. destruct (sel_elem _ _ _ Hm) as [Hin Hh].
  assert (magic_usable hash now m = true) as Hp.
  { unfold magic_usable. rewrite Hh, Hu. by apply Z.leb_le. }
  unfold Repo.ConsumeMagicToken. eapply steps_bind; [apply steps_now|]. apply (steps_tx Hsql).
  eapply steps_bind; [apply (steps_stmt Hsql); reflexivity|].
  fold hash now. rewrite (sel_count _ _ _ Hin Hp). eapply steps_bind; [|apply steps_ret]. apply (steps_row Hsql).
  unfold Repo.magic_by_hash. cbn [magic_tokens set_magic]. fold hash now. rewrite sel_upd, Hm by done. simpl. by rewrite Hp.
Qed.

(** The operator opens the link. *)
Lemma steps_callback tok h id u m s n b1 b2 b3 i d k l :
  let hash := Repo.HashToken tok in
  sel (fun x => str_eqb (m_hash x) hash) (magic_tokens d) = [m] -> m_used m = None -> m_user m = Some u -> m_device m = Some h ->
  unix (clock k) <= m_expires m ->
  sel (fun x => str_eqb (d_hash x) h) (device_sessions d) = [s] -> d_status s = DPending -> d_node s = Some id ->
  unix (clock (5 + k)) <= d_expires s ->
  sel (node_is id) (nodes d) = [n] -> n_user n = None -> has_user u d = true ->
  entropy (7 + k) 32 = Some b1 -> entropy (11 + k) 32 = Some b2 -> entropy (16 + k) 32 = Some b3 -> entropy (18 + k) 16 = Some i ->
  let h1 := Repo.HashToken (Hex.encode b1) in let h2 := Repo.HashToken (Hex.encode b2) in
  hashed h1 (api_tokens d) = false -> hashed h2 (api_tokens d) = false -> h1 <> h2 ->
  exists d' cb x y t, steps false (Service.VerifyMagicCallback tok) (Stage d k l) (Some cb) (Stage d' (21 + k) l) /\
    (cr_DeviceApproved cb = true /\ cr_PendingDevice cb = false) /\ users d' = users d /\ snapshots d' = snapshots d /\
    api_tokens d' = api_tokens d ++ [x] ++ [y] /\ t_hash x = h1 /\ t_hash y = h2 /\
    sel (fun x => str_eqb (d_hash x) h) (device_sessions d') = [dev_approved u t s] /\
    sel (node_is id) (nodes d') = [equipped u h2 (Hex.encode b3) n].
Proof.
  intros hash Hm Hmu Hmuser Hmdev Hexp Hs Hst Hsn Hsexp Hn Hnu Hu E1 E2 E3 Ei h1 h2 F1 F2 Hne.
  destruct (sel_elem _ _ _ Hs) as [Hin Hh]. set (now := unix (clock (5 + k))).
  assert (dev_approvable h now s = true) as Hp.
  { unfold dev_approvable. rewrite Hh, Hst. by apply Z.leb_le. }
  set (d1 := set_magic (upd (magic_usable hash (unix (clock k))) (magic_used (unix (clock k)))) d).
  set (d2 := set_devices (upd (dev_approvable h now) (dev_approved u now)) d1).
  destruct (steps_CreateAPIToken u None "magic-link" "all" b1 d2 (7 + k) l E1 F1 Hu eq_refl) as (row & _ & Hmint).
  set (x := minted b1 u None "magic-link" "all" (unix (clock (S (7 + k))))) in *.
  set (d3 := set_api (fun t => t ++ [x]) d2) in *.
  assert (sel (fun x => str_eqb (d_hash x) h) (device_sessions d3) = [dev_approved u now s]) as Hs3.
  { cbn [d3 d2 d1 device_sessions set_api set_devices set_magic]. rewrite sel_upd, Hs by done. simpl. by rewrite Hp. }
  assert (hashed h2 (api_tokens d3) = false) as F3 by (by apply hashed_snoc).
  destruct (steps_equip u id n b2 b3 d3 (11 + k) l Hn Hu (or_introl Hnu) E2 F3 E3)
    as (d4 & t & (U4 & D4 & P4 & A4 & N4) & Hequip).
  destruct (steps_audit u "device_approved" id i d4 (18 + k) l Ei) as (f & Haudit).
  exists (set_audit f d4), (mkCallback (Hex.encode b1) (Hex.encode b2) id u true false (Hex.encode b3)), x,
    (minted b2 u (Some id) "device-node" "node:push" t), now.
  cbn [users api_tokens device_sessions snapshots nodes set_audit]. rewrite U4, A4, D4, P4.
  split_and!; [|done|done|done|done|by cbn [d3 api_tokens set_api]; rewrite <- app_assoc|done|done|exact Hs3|exact N4].
  unfold Service.VerifyMagicCallback. eapply steps_bind; [by apply steps_wrap, steps_redeem|].
  cbv iota beta. cbn [m_user m_device magic_used].
  rewrite Hmuser, Hmdev. eapply steps_bind; [|apply steps_ret]. unfold Service.approveDevice. eapply steps_bind.
  { apply steps_wrap. eapply steps_bind; [apply steps_now|]. unfold Repo.affecting. fold hash now d1. eapply steps_bind.
    - apply (steps_exec Hsql). cbn [exec_stmt]. unfold has_user in *. cbn [users d1 set_magic]. rewrite Hu, andb_false_r. reflexivity.
    - fold now. change (device_sessions d1) with (device_sessions d). rewrite (sel_count _ _ _ Hin Hp). apply steps_ret. }
  eapply (steps_bind _ _ _ _ (_, _)); [by apply steps_wrap, Hmint|].
  eapply steps_bind; [apply steps_try, (steps_found Hsql); unfold Repo.device_by_hash; by rewrite Hs3|].
  cbv iota beta. cbn [d_node dev_approved]. rewrite Hsn. apply Hequip.
  eapply steps_bind; [exact Haudit|apply steps_ret].
Qed.

(** The node's poll. *)
Lemma steps_poll code id u s n b1 b2 b3 d k l :
  let h := Repo.HashToken code in
  sel (fun x => str_eqb (d_hash x) h) (device_sessions d) = [s] -> d_status s = DApproved -> d_node s = Some id -> d_user s = Some u ->
  sel (node_is id) (nodes d) = [n] -> n_user n = Some u -> has_user u d = true ->
  entropy (7 + k) 32 = Some b1 -> entropy (10 + k) 32 = Some b2 -> entropy (15 + k) 32 = Some b3 ->
  let h1 := Repo.HashToken (Hex.encode b1) in let h2 := Repo.HashToken (Hex.encode b2) in
  hashed h1 (api_tokens d) = false -> hashed h2 (api_tokens d) = false -> h1 <> h2 ->
  exists d' x t, steps false (Service.PollToken code) (Stage d k l)
      (mkPoll (Hex.encode b2) id "Bearer" 0 "node:push" (Hex.encode b3) EmptyString 0) (Stage d' (17 + k) l) /\
    users d' = users d /\ snapshots d' = snapshots d /\ t_hash x = h1 /\
    api_tokens d' = api_tokens d ++ [x] ++ [minted b2 u (Some id) "device-node" "node:push" t] /\
    sel (node_is id) (nodes d') = [equipped u h2 (Hex.encode b3) n].
Proof.
  intros h Hs Hst Hsn Hsu Hn Hnu Hu E1 E2 E3 h1 h2 F1 F2 Hne.
  destruct (sel_elem _ _ _ Hs) as [Hin Hh]. set (now := unix (clock (2 + k))).
  assert (dev_consumable h s = true) as Hp by (unfold dev_consumable; by rewrite Hh, Hst).
  set (d1 := set_devices (upd (dev_consumable h) (dev_consumed now)) d).
  destruct (steps_CreateAPIToken u None "device-flow" "all" b1 d1 (7 + k) l E1 F1 Hu eq_refl) as (row & _ & Hmint).
  set (x := minted b1 u None "device-flow" "all" (unix (clock (S (7 + k))))) in *.
  set (d2 := set_api (fun t => t ++ [x]) d1) in *.
  assert (hashed h2 (api_tokens d2) = false) as F3 by (by apply hashed_snoc).
  destruct (steps_equip u id n b2 b3 d2 (10 + k) l Hn Hu (or_intror Hnu) E2 F3 E3)
    as (d3 & t & (U3 & D3 & P3 & A3 & N3) & Hequip).
  exists d3, x, t. rewrite U3, A3, P3.
  split_and!; [|done|done|done|by cbn [d2 api_tokens set_api]; rewrite <- app_assoc|exact N3].
  unfold Service.PollToken. fold h.
  eapply steps_bind; [apply steps_wrap, (steps_found Hsql); unfold Repo.device_by_hash; by rewrite Hs|].
  eapply steps_bind; [apply steps_now|]. rewrite Hst. unfold Service.handlePollApproved. eapply steps_bind.
  { apply steps_wrap. eapply steps_bind; [apply steps_now|]. apply (steps_tx Hsql). fold now.
    eapply steps_bind; [apply (steps_stmt Hsql); reflexivity|]. eapply steps_bind; [|apply steps_ret].
    apply (steps_row Hsql). unfold Repo.device_by_hash. fold d1. cbn [d1 device_sessions set_devices].
    rewrite sel_upd, Hs by done. simpl. by rewrite Hp. }
  cbn [d_user dev_consumed]. rewrite Hsu.
  eapply (steps_bind _ _ _ _ (_, _)); [by apply steps_wrap, Hmint|].
  cbv iota beta. cbn [d_node dev_consumed]. rewrite Hsn. apply Hequip. apply steps_ret.
Qed.

End Flow.

(** ** The whole flow *)

Section Onboarding.
Context `{Env, Engine}.

(** What the draws of the flow would be. *)
Definition drawn_hash (j : nat) : string := Repo.HashToken (Hex.encode (default EmptyString (entropy j 32))).
Definition drawn_id (j : nat) : string := Hex.encode (default EmptyString (entropy j 16)).
Definition drawn_code (j : nat) : string := Repo.format_code (Repo.code_number (default EmptyString (entropy j 3))).

(** The flow takes 54 effects, and a first push after it fits in the rest. *)
Definition span : nat := 60.

(** The draws clash neither with each other nor with what the database holds. *)
Record fresh (k : nat) (d : db) : Prop := {
  fresh_draws : NoDup (drawn_hash <$> seq k span);
  fresh_tokens : forall j, (k <= j < k + span)%nat ->
    hashed (drawn_hash j) (api_tokens d) = false /\
    has (fun x => str_eqb (m_hash x) (drawn_hash j)) (magic_tokens d) = false /\
    has (fun s => str_eqb (d_hash s) (drawn_hash j)) (device_sessions d) = false;
  fresh_ids : forall j, (k <= j < k + span)%nat -> has_user (drawn_id j) d = false /\ has_node (drawn_id j) d = false /\
    has (fun s => str_eqb (s_id s) (drawn_id j)) (snapshots d) = false;
  fresh_codes : forall j, (k <= j < k + span)%nat -> has (fun s => str_eqb (d_ucode s) (drawn_code j)) (device_sessions d) = false }.

Lemma unused_hash k d j b :
  fresh k d -> (k <= j < k + span)%nat -> entropy j 32 = Some b ->
  let h := Repo.HashToken (Hex.encode b) in
  hashed h (api_tokens d) = false /\ has (fun x => str_eqb (m_hash x) h) (magic_tokens d) = false /\
  has (fun s => str_eqb (d_hash s) h) (device_sessions d) = false.
Proof. intros F Hj E. pose proof (fresh_tokens _ _ F j Hj) as Hf. unfold drawn_hash in Hf. by rewrite E in Hf. Qed.

Lemma unused_id k d j b :
  fresh k d -> (k <= j < k + span)%nat -> entropy j 16 = Some b ->
  has_user (Hex.encode b) d = false /\ has_node (Hex.encode b) d = false /\
  has (fun s => str_eqb (s_id s) (Hex.encode b)) (snapshots d) = false.
Proof. intros F Hj E. pose proof (fresh_ids _ _ F j Hj) as Hf. unfold drawn_id in Hf. by rewrite E in Hf. Qed.

Lemma unused_code k d j b :
  fresh k d -> (k <= j < k + span)%nat -> entropy j 3 = Some b ->
  has (fun s => str_eqb (d_ucode s) (Repo.format_code (Repo.code_number b))) (device_sessions d) = false.
Proof. intros F Hj E. pose proof (fresh_codes _ _ F j Hj) as Hf. unfold drawn_code in Hf. by rewrite E in Hf. Qed.

Lemma distinct_hashes k d i j b b' :
  fresh k d -> (k <= i < j)%nat -> (j < k + span)%nat -> entropy i 32 = Some b -> entropy j 32 = Some b' ->
  Repo.HashToken (Hex.encode b) <> Repo.HashToken (Hex.encode b').
Proof.
  intros F Hi Hj E E' Eh. assert (drawn_hash i = drawn_hash j) as Eij by (unfold drawn_hash; by rewrite E, E').
  assert (forall x, (k <= x < k + span)%nat -> (drawn_hash <$> seq k span) !! (x - k)%nat = Some (drawn_hash x)) as Hl.
  { intros x Hx. rewrite list_lookup_fmap, lookup_seq_lt by lia. simpl. do 2 f_equal. lia. }
  pose proof (Hl j ltac:(lia)) as Ej. rewrite <- Eij in Ej.
  pose proof (NoDup_lookup _ _ _ _ (fresh_draws _ _ F) (Hl i ltac:(lia)) Ej). lia.
Qed.

Lemma unix_mono a b : a <= b -> unix a <= unix b.
Proof. intros. unfold unix, second. apply Z.div_le_mono; lia. Qed.

(** The deadline of the device session, in whole seconds from the second it was made in. *)
Lemma unix_later a b ttl : 0 <= ttl -> b <= a + ttl - second -> unix b <= unix a + Repo.seconds_of ttl.
Proof.
  intros Ht Hb. unfold unix, Repo.seconds_of, second in *. rewrite Z.quot_div_nonneg by lia.
  pose proof (Z.div_mod a 1000000000). pose proof (Z.mod_pos_bound a 1000000000).
  pose proof (Z.div_mod b 1000000000). pose proof (Z.mod_pos_bound b 1000000000).
  pose proof (Z.div_mod ttl 1000000000). pose proof (Z.mod_pos_bound ttl 1000000000). lia.
Qed.

Lemma format_code_nonempty n : is_empty (Repo.format_code n) = false.
Proof. unfold Repo.format_code. by destruct (Utf8.str_take 4 _). Qed.

Lemma live_last h t a :
  hashed h t = false -> t_hash a = h -> t_revoked a = None -> head (sel (Repo.live_token h) (t ++ [a])) = Some a.
Proof.
  intros Ht Ha Hr. rewrite sel_snoc; [done| |].
  - apply has_false. intros x Hx. unfold Repo.live_token. by rewrite (proj1 (has_false _ _) Ht x Hx).
  - unfold Repo.live_token. by rewrite Ha, Hr, str_eqb_refl.
Qed.

Lemma user_by_email_has email d u : Repo.user_by_email email d = Some u -> has_user (u_id u) d = true.
Proof. intros [Hu _]%head_sel_some. apply has_true. exists u. split; [done|apply str_eqb_refl]. Qed.

Context (Hsql : forall k, sql_fails k = false) (Hmail : forall k x, mail_fails k x = None).
Context (Hrand : forall k n, entropy k n <> None).

Lemma drawn j n : exists b, entropy j n = Some b.
Proof. specialize (Hrand j n). destruct (entropy j n); [by eexists|done]. Qed.

Context (svc : AuthService) (m : SMTPMailer) (ty ep : string) (key : option string) (email : string) (k : nat).
Context (Hm : svc_Mailer svc = SMTP m) (Hty : node_type_ok ty = true) (Hep : is_empty ep = false).
Context (Hclock : forall i j, (k <= i <= j)%nat -> (j < k + span)%nat -> clock j <= clock i + svc_MagicTTL svc - second).

Definition mailed (token : string) : string * string :=
  (email, smtp_message (sm_From m) email (Service.callback_link svc token)).

(** The state between the mail and the click: the link, the session and the node are there
    and belong together. *)
Record awaited (token code id : string) (u : user) (d : db) : Prop := {
  aw_link : exists t, unix (clock (16 + k)) <= t /\
    sel (fun x => str_eqb (m_hash x) (Repo.HashToken token)) (magic_tokens d)
    = [MagicToken (Repo.HashToken token) (Some (u_id u)) (Some (Repo.HashToken code)) t None];
  aw_session : exists s, d_status s = DPending /\ d_node s = Some id /\ unix (clock (21 + k)) <= d_expires s /\
    sel (fun x => str_eqb (d_hash x) (Repo.HashToken code)) (device_sessions d) = [s];
  aw_node : exists t, sel (node_is id) (nodes d) = [requested_node id ty ep key t];
  aw_user : Repo.user_by_email email d = Some u }.

Lemma flow_asks d l :
  fresh k d ->
  exists di d1 token d2 id u,
    steps false (Service.InitiateDeviceFlow svc ty ep key) (Stage d k l) di (Stage d1 (6 + k) l) /\
    (forall l', steps false (Service.RequestMagicLink svc email (di_UserCode di)) (Stage d1 (8 + k) l') tt
                  (Stage d2 (16 + k) (mailed token :: l'.1, l'.2))) /\
    awaited token (di_DeviceCode di) id u d2 /\ api_tokens d2 = api_tokens d /\ snapshots d2 = snapshots d /\
    (exists b, entropy k 32 = Some b /\ di_DeviceCode di = Hex.encode b) /\
    (exists b, entropy (12 + k) 32 = Some b /\ token = Hex.encode b) /\
    (exists b, entropy (3 + k) 16 = Some b /\ id = Hex.encode b).
Proof.
  intros F. unfold span in *.
  destruct (drawn k 32) as [b0 E0], (drawn (1 + k) 3) as [c1 E1], (drawn (3 + k) 16) as [i3 E3],
    (drawn (9 + k) 16) as [i7 E7], (drawn (12 + k) 32) as [b10 E10].
  assert (is_empty ty = false) as Htyne by (by destruct ty).
  destruct (unused_id k d (3 + k) i3 F ltac:(unfold span; lia) E3) as (_ & Hn3 & _).
  destruct (unused_hash k d k b0 F ltac:(unfold span; lia) E0) as (_ & _ & Hh0).
  pose proof (unused_code k d (1 + k) c1 F ltac:(unfold span; lia) E1) as Hc1.
  destruct (unused_id k d (9 + k) i7 F ltac:(unfold span; lia) E7) as (Hu7 & _).
  destruct (unused_hash k d (12 + k) b10 F ltac:(unfold span; lia) E10) as (_ & Hm10 & _).
  pose proof (steps_init Hsql svc ty ep key b0 c1 i3 d k l E0 E1 E3 Htyne Hep Hty Hn3 Hh0 Hc1) as H1.
  set (s0 := waiting _ _ _ _ _) in H1. set (n0 := requested_node _ _ _ _ _) in H1. set (d1 := set_devices _ _) in H1.
  assert (Repo.device_by_code (d_ucode s0) d1 = Some s0) as Hs0.
  { unfold Repo.device_by_code. cbn [d1 device_sessions set_devices set_nodes]. rewrite sel_snoc; [done|exact Hc1|apply str_eqb_refl]. }
  destruct (steps_link Hsql svc m email (d_ucode s0) s0 i7 b10 d1 (8 + k) Hm (Hmail _ _) (format_code_nonempty _) Hs0
              E7 Hu7 E10 Hm10) as (us & u & H2 & Hu & _).
  pose proof (Hclock k k ltac:(lia) ltac:(lia)) as Httl.
  eexists _, _, _, _, (n_id n0), u. split_and!; [exact H1|exact H2| |done|done|by exists b0|by exists b10|by exists i3].
  split; [eexists; split| |eexists|exact Hu].
  - apply (unix_mono (clock (16 + k)) (clock (13 + k) + svc_MagicTTL svc)).
    pose proof (Hclock (13 + k)%nat (16 + k)%nat ltac:(lia) ltac:(lia)). unfold second in *. lia.
  - apply sel_snoc; [exact Hm10|apply str_eqb_refl].
  - exists s0. split_and!; [done|done| |apply sel_snoc; [exact Hh0|apply str_eqb_refl]].
    apply unix_later; [unfold second in *; lia|]. apply Hclock; lia.
  - apply sel_snoc; [exact Hn3|apply str_eqb_refl].
Qed.

Lemma flow_answers d0 token code id u d l :
  fresh k d0 -> api_tokens d = api_tokens d0 -> awaited token code id u d ->
  exists cb d' poll d'' a n,
    steps false (Service.VerifyMagicCallback token) (Stage d (16 + k) l) (Some cb) (Stage d' (37 + k) l) /\
    (cr_DeviceApproved cb = true /\ cr_PendingDevice cb = false) /\
    steps false (Service.PollToken code) (Stage d' (37 + k) l) poll (Stage d'' (54 + k) l) /\
    (tp_Error poll = EmptyString /\ tp_Scope poll = "node:push" /\
     bearer_row (tp_AccessToken poll) d'' = Some a /\ Repo.user_by_email email d'' = Some u /\
     Repo.node_by_id (tp_NodeID poll) d'' = Some n /\
     t_user a = u_id u /\ t_node a = Some (tp_NodeID poll) /\ t_scope a = Some "node:push" /\
     n_type n = ty /\ n_endpoint n = ep /\ n_pubkey n = key /\ n_active n = true /\ n_user n = Some (u_id u) /\
     n_secret n = Some (tp_IntroSecret poll)) /\
    snapshots d'' = snapshots d /\ sel (node_is (tp_NodeID poll)) (nodes d'') = [n] /\
    (exists b, entropy (47 + k) 32 = Some b /\ tp_AccessToken poll = Hex.encode b) /\ tp_NodeID poll = id.
Proof.
  intros F Hapi [(t & Ht & Hmt) (s & Hst & Hsn & Hse & Hs) (tn & Hn) Hu].
  destruct (drawn (23 + k) 32) as [b21 E21], (drawn (27 + k) 32) as [b25 E25], (drawn (32 + k) 32) as [b30 E30],
    (drawn (34 + k) 16) as [i32 E32], (drawn (44 + k) 32) as [b42 E42], (drawn (47 + k) 32) as [b45 E45],
    (drawn (52 + k) 32) as [b50 E50].
  assert (Hhash : forall j b, (k <= j < k + span)%nat -> entropy j 32 = Some b ->
            hashed (Repo.HashToken (Hex.encode b)) (api_tokens d) = false).
  { intros j b Hj E. rewrite Hapi. by apply (unused_hash k d0 j b). }
  pose proof (fun i j b b' => distinct_hashes k d0 i j b b' F) as Hdiff. unfold span in *.
  pose proof (user_by_email_has _ _ _ Hu) as Hu2.
  destruct (steps_callback Hsql token (Repo.HashToken code) id (u_id u) _ s _ b21 b25 b30 i32 d (16 + k) l
    Hmt eq_refl eq_refl eq_refl Ht Hs Hst Hsn Hse Hn eq_refl Hu2 E21 E25 E30 E32
    (Hhash (23 + k)%nat b21 ltac:(lia) E21) (Hhash (27 + k)%nat b25 ltac:(lia) E25)
    (Hdiff (23 + k)%nat (27 + k)%nat b21 b25 ltac:(lia) ltac:(lia) E21 E25))
    as (d3 & cb & x & y & t3 & H3 & Hcb & U3 & P3 & A3 & Hx & Hy & S3 & N3).
  assert (Hapi3 : forall j b, (27 + k < j < k + 54)%nat -> entropy j 32 = Some b ->
            hashed (Repo.HashToken (Hex.encode b)) (api_tokens d3) = false).
  { intros j b Hj E. rewrite A3, app_assoc. apply hashed_snoc; [apply hashed_snoc|].
    - apply (Hhash j); [lia|done].
    - rewrite Hx. by apply (Hdiff (23 + k)%nat j); [lia..| |].
    - rewrite Hy. by apply (Hdiff (27 + k)%nat j); [lia..| |]. }
  assert (has_user (u_id u) d3 = true) as Hu3 by (unfold has_user; by rewrite U3).
  destruct (steps_poll Hsql code id (u_id u) _ _ b42 b45 b50 d3 (37 + k) l S3 eq_refl Hsn eq_refl N3 eq_refl Hu3 E42 E45 E50
    (Hapi3 (44 + k)%nat b42 ltac:(lia) E42) (Hapi3 (47 + k)%nat b45 ltac:(lia) E45)
    (Hdiff (44 + k)%nat (47 + k)%nat b42 b45 ltac:(lia) ltac:(lia) E42 E45))
    as (d4 & z & t' & H4 & U4 & P4 & Hz & A4 & N4).
  exists cb, d3, (mkPoll (Hex.encode b45) id "Bearer" 0 "node:push" (Hex.encode b50) EmptyString 0), d4,
    (minted b45 (u_id u) (Some id) "device-node" "node:push" t'),
    (equipped (u_id u) (Repo.HashToken (Hex.encode b45)) (Hex.encode b50)
       (equipped (u_id u) (Repo.HashToken (Hex.encode b25)) (Hex.encode b30) (requested_node id ty ep key tn))).
  split_and!; [exact H3|apply Hcb|apply Hcb|exact H4|done|done| | | |done|done|done|done|done|done|done|done|done|by rewrite P4, P3| |by exists b45|done].
  - unfold bearer_row. cbn [tp_AccessToken]. rewrite A4, app_assoc. apply live_last; [|done|done].
    apply hashed_snoc; [by apply (Hapi3 (47 + k)%nat); [lia|]|]. rewrite Hz.
    by apply (Hdiff (44 + k)%nat (47 + k)%nat); [lia..| |].
  - unfold Repo.user_by_email. by rewrite U4, U3.
  - unfold Repo.node_by_id. cbn [tp_NodeID]. by rewrite N4.
  - exact N4.
Qed.

End Onboarding.
