(* ===== verification/DeviceFlow.v ===== *)
(** * The device flow through the server (src/internal/httpapi/server.go, handler/auth.go)

    From a node that nobody knows to its first accepted snapshot: five requests to the
    server, each found by its path in the route table and answered by its handler over the
    steps of Onboarding.v. *)

From S2P Require Import Prelude RateLimit AdminStore Schema Statements Invariants World.
From S2P Require Import GoStrings Utf8Facts GoJson JsonFacts GoTime Sha256 Float Runs Samples Repo RepoFacts Auth AuthFacts Http.
From S2P Require Import Middleware MiddlewareFacts AuthHandlers FedRepo AdminHandlers Ingest IngestFacts WebUI Router RouterFacts Onboarding.

Open Scope Z_scope.

(** ** Routes without parameters *)

Definition literal (pattern : string) : bool :=
  str_all (fun c => negb (bool_decide (c = "{"%char)) && negb (bool_decide (c = "*"%char))) pattern.

(** chi's documented precedence: a pattern without parameters that was registered once for a
    method is the route of exactly its own path. *)
Class ChiLiteral `{Chi} : Prop := chi_literal : forall tbl m p i,
  literal p = true -> tbl !! i = Some (m, p) -> (forall j, tbl !! j = Some (m, p) -> j = i) ->
  chi_find tbl m p = Some (i, []).

Section Routes.
Context `{Env, Engine, Unicode, Zone, Ed25519, FloatText, Chi, !ChiLiteral}.
Context (cfg : ServerConfig) (mcp_serve static_serve : handler).

Definition fixed_routes : list route := Server.public_routes cfg static_serve ++ Server.user_routes cfg.
Definition route_key (rt : route) : string * string := (rt_method rt, rt_pattern rt).

(** The paths of the routes that depend on the configuration. *)
Definition other_paths : list string :=
  ["/admin/login"; "/admin/callback"; "/admin/logout"; "/admin"; "/admin/peers/{id}/approve"; "/admin/peers/{id}/revoke";
   "/.well-known/oauth-protected-resource"].

Lemma fixed_keys : route_key <$> fixed_routes =
  [("GET", "/healthz"); ("GET", "/static/*"); ("POST", "/auth/request"); ("GET", "/auth/callback"); ("POST", "/auth/logout");
   ("POST", "/auth/device"); ("POST", "/auth/token"); ("GET", "/device"); ("POST", "/device/approve"); ("POST", "/ingest/snapshot");
   ("GET", "/"); ("GET", "/docs"); ("GET", "/instructions/talent"); ("GET", "/instructions/recruiter"); ("GET", "/api/openapi.json");
   ("GET", "/dashboard"); ("GET", "/dashboard/talent"); ("GET", "/dashboard/recruiter"); ("POST", "/dashboard/recruiter/apikey");
   ("POST", "/api/nodes/{nodeID}/revoke")].
Proof. reflexivity. Qed.

Lemma fixed_once : NoDup (route_key <$> fixed_routes).
Proof. rewrite fixed_keys. apply (bool_decide_unpack _). vm_compute. exact I. Qed.

(** A request for a fixed route with a path of its own runs that route's endpoint. *)
Lemma serve_fixed i m p h r w :
  fixed_routes !! i = Some (mkRoute m p h) -> literal p = true -> p ∉ other_paths -> p <> sc_MCPEndpoint cfg ->
  r_method r = m -> r_path r = p ->
  Server.serve cfg mcp_serve static_serve r w = h empty_ctx (Server.with_params [] r) w.
Proof.
  intros Hi Hl Hp Hmcp <- <-. unfold Server.serve.
  assert (Server.build cfg mcp_serve static_serve = fixed_routes ++ (if AdminHandler.Enabled (sc_Admin cfg) then Server.admin_routes cfg else [])
            ++ Server.mcp_routes cfg mcp_serve) as Hb.
  { unfold Server.build, fixed_routes. by rewrite <- app_assoc. }
  assert (Server.build cfg mcp_serve static_serve !! i = Some (mkRoute (r_method r) (r_path r) h)) as Hbi by (rewrite Hb; by apply lookup_app_l_Some).
  rewrite (chi_literal _ _ _ i Hl); [by rewrite Hbi|unfold Server.table; by rewrite list_lookup_fmap, Hbi|].
  intros j Hj. unfold Server.table in Hj. rewrite Hb, fmap_app in Hj. apply lookup_app_Some in Hj as [Hj|[_ Hj]].
  - eapply (NoDup_lookup _ _ _ _ fixed_once Hj). by rewrite list_lookup_fmap, Hi.
  - exfalso. apply list_elem_of_lookup_2, list_elem_of_fmap in Hj as (rt & E & Hrt). injection E as _ E.
    apply elem_of_app in Hrt as [Hrt|Hrt].
    + apply Hp. destruct (AdminHandler.Enabled _); [|by apply elem_of_nil in Hrt]. rewrite E.
      unfold Server.admin_routes in Hrt. repeat (apply elem_of_cons in Hrt as [->|Hrt]; [cbn; set_solver|]). by apply elem_of_nil in Hrt.
    + unfold Server.mcp_routes in Hrt. apply elem_of_cons in Hrt as [->|Hrt]; [apply Hp; rewrite E; cbn; set_solver|].
      apply list_elem_of_fmap in Hrt as (mm & -> & _). by apply Hmcp.
Qed.

End Routes.

(** ** The five requests *)

(** What a node posts to ask for a code. *)
Definition device_request (ty ep key : string) : json :=
  jmap [("node_type", JStr ty); ("endpoint_url", JStr ep); ("public_key", JStr (Hex.encode key))].

Record asks_code (ty ep key : string) (r : request) : Prop := {
  ac_route : r_method r = "POST" /\ r_path r = "/auth/device";
  ac_body : r_body r = encode (device_request ty ep key) }.

(** The login form, with the user code. *)
Record asks_link (email uc : string) (r : request) : Prop := {
  al_route : r_method r = "POST" /\ r_path r = "/auth/request";
  al_form : form_value r "email" = email /\ form_value r "uc" = uc }.

(** The mailed link. *)
Record opens_link (token : string) (r : request) : Prop := {
  ol_route : r_method r = "GET" /\ r_path r = "/auth/callback";
  ol_query : query_get r "token" = token }.

Record polls (code : string) (r : request) : Prop := {
  po_route : r_method r = "POST" /\ r_path r = "/auth/token";
  po_form : r_form_ok r = true /\ form_value r "grant_type" = AuthHandler.device_grant /\ form_value r "device_code" = code }.

(** A push of the candidate's packet, signed. *)
Definition push_body (cid : string) (packet : json) (sig : string) : json :=
  jmap [("candidate_id", JStr cid); ("payload", packet); ("signature", JStr (Hex.encode sig))].

Record pushes (token cid : string) (packet : json) (sig : string) (r : request) : Prop := {
  pu_route : r_method r = "POST" /\ r_path r = "/ingest/snapshot";
  pu_token : header r "Authorization" = "Bearer " ++s token;
  pu_body : r_body r = encode (push_body cid packet sig) }.

(** ** Reading the bodies *)

Lemma within n s : (Z.of_nat (String.length s) <= n) -> limit_read n s = s.
Proof. intros Hs. unfold limit_read. by rewrite (proj2 (Z.leb_le _ _)). Qed.

Lemma node_type_valid ty : node_type_ok ty = true -> Utf8.valid ty = true.
Proof. unfold node_type_ok. intros [E|E]%orb_true_iff; apply str_eqb_true in E as ->; vm_compute; reflexivity. Qed.


Lemma device_request_read ty ep key :
  Utf8.valid ty = true -> Utf8.valid ep = true ->
  exists v, parse (encode (device_request ty ep key)) = Some v /\ string_field "node_type" v = ty /\
    string_field "endpoint_url" v = ep /\ string_field "public_key" v = Hex.encode key.
Proof.
  intros Hty Hep.
  assert (device_request ty ep key = JObj [("endpoint_url", JStr ep); ("node_type", JStr ty); ("public_key", JStr (Hex.encode key))])
    as -> by (unfold device_request; generalize (Hex.encode key); intros; vm_compute; reflexivity).
  eexists. split.
  { apply parse_encoded, plain_obj. repeat (constructor; [split; [reflexivity|constructor; try done; apply valid_hex]|]). constructor. }
  cbn [tree map fst snd].
  generalize (encode (JStr (Hex.encode key))) as raw3. generalize (Hex.encode key) as k.
  generalize (encode (JStr ep)) as raw1, (encode (JStr ty)) as raw2. intros raw1 raw2 k raw3. split_and!; vm_compute; reflexivity.
Qed.

Section Bodies.
Context `{FloatText}.

Lemma push_body_read cid packet sig :
  Utf8.valid cid = true -> plain packet ->
  exists v, parse (encode (push_body cid packet sig)) = Some v /\ struct_ok v && string_field_ok "candidate_id" v = true /\
    Ingest.decode_input v = Some (mkInput cid (encode packet) [] (Hex.encode sig)).
Proof.
  intros Hc Hp.
  assert (push_body cid packet sig = JObj [("candidate_id", JStr cid); ("payload", packet); ("signature", JStr (Hex.encode sig))])
    as -> by (unfold push_body; generalize (Hex.encode sig); intros; vm_compute; reflexivity).
  eexists. split.
  { apply parse_encoded, plain_obj. constructor; [split; [reflexivity|by constructor]|].
    constructor; [by split|]. constructor; [split; [reflexivity|constructor; apply valid_hex]|]. constructor. }
  cbn [tree map fst snd].
  generalize (encode (JStr (Hex.encode sig))) as raw3. generalize (Hex.encode sig) as s.
  generalize (encode (JStr cid)) as raw1, (encode packet) as raw2, (tree packet) as t2. intros raw1 raw2 t2 s raw3. set (v := VObj _).
  assert (field_values "candidate_id" v = [(raw1, VStr cid)]) as H1 by (vm_compute; reflexivity).
  assert (field_values "payload" v = [(raw2, t2)]) as H2 by (vm_compute; reflexivity).
  assert (field_values "signature" v = [(raw3, VStr s)]) as H3 by (vm_compute; reflexivity).
  assert (field_values "embedding" v = []) as H4 by (vm_compute; reflexivity).
  unfold Ingest.decode_input, Ingest.embedding_field, raw_field, string_field, string_field_ok. by rewrite H1, H2, H3, H4.
Qed.

End Bodies.

(** ** The handlers' steps *)

Section Handlers.
Context `{Env, Engine, Ed25519, FloatText}.

Lemma steps_allow h key n win d k ml lim :
  (RateLimit.Allow key n win (clock k) lim).1 = true ->
  steps h (Middleware.allow key n win) (Stage d k (ml, lim)) true (Stage d (S k) (ml, (RateLimit.Allow key n win (clock k) lim).2)).
Proof.
  intros Ha. unfold Middleware.allow. eapply steps_bind; [apply steps_time|]. intros w (Hd & Ht & Hl & Hc). simpl in *.
  injection Hl as <- <-. unfold on_limiter. rewrite Ha. eexists. split; [reflexivity|]. by split_and!.
Qed.

(** A key's decision does not depend on what another key was let. *)
Lemma allow_apart key key' n n' win win' now now' lim :
  key <> key' -> (RateLimit.Allow key n win now (RateLimit.Allow key' n' win' now' lim).2).1 = (RateLimit.Allow key n win now lim).1.
Proof.
  intros Hk. unfold RateLimit.Allow at 1 3.
  assert ((RateLimit.Allow key' n' win' now' lim).2 !! key = lim !! key) as ->.
  { unfold RateLimit.Allow. repeat case_match; simpl; rewrite ?lookup_insert_ne by done; done. }
  by repeat case_match.
Qed.

Lemma steps_InitDevice svc ty ep key di s s' c r :
  Utf8.valid ty = true -> Utf8.valid ep = true -> String.length key = 32%nat ->
  asks_code ty ep key r -> (String.length (r_body r) <= 4096)%nat ->
  steps false (Service.InitiateDeviceFlow svc ty ep (Some key)) s di s' ->
  steps false (AuthHandler.InitDevice svc c (Server.with_params [] r)) s (json_resp 200 (device_init_json di)) s'.
Proof.
  intros Hty Hep Hk [_ Hb] Hlen Hst. unfold AuthHandler.InitDevice.
  change (r_body (Server.with_params [] r)) with (r_body r). rewrite within by lia. rewrite Hb.
  destruct (device_request_read ty ep key Hty Hep) as (v & -> & E1 & E2 & E3). change (default VNull (Some v)) with v. cbv zeta.
  rewrite E1, E2, E3, (Hex.encode_is_empty key 31) by done. unfold decode_public_key. rewrite Hex.decode_encode, Hk. cbv iota beta.
  change (32 =? 32)%nat with true. cbv iota beta. eapply steps_bind; [by apply steps_try|]. apply steps_ret.
Qed.

Lemma steps_RequestMagicLink svc email uc c r d k ml lim (s' : gmap string RateLimit.rateEntry -> stage) :
  asks_link email uc r -> is_empty email = false ->
  let ip := "ip:" ++s client_ip r in
  (RateLimit.Allow ip 10 (15 * minute) (clock k) lim).1 = true ->
  (RateLimit.Allow ("email:" ++s email) 5 (15 * minute) (clock (S k)) lim).1 = true ->
  (forall lim', steps false (Service.RequestMagicLink svc email uc) (Stage d (2 + k) (ml, lim')) tt (s' lim')) ->
  exists lim'', steps false (AuthHandler.RequestMagicLink svc c (Server.with_params [] r)) (Stage d k (ml, lim))
                 (json_resp 200 (jmap [("ok", JStr "check your email")])) (s' lim'').
Proof.
  intros [_ [He Hu]] Hne ip Hip Hem Hst. set (lim1 := (RateLimit.Allow ip 10 (15 * minute) (clock k) lim).2).
  set (key := "email:" ++s email) in *.
  exists (RateLimit.Allow key 5 (15 * minute) (clock (S k)) lim1).2.
  unfold AuthHandler.RequestMagicLink. change (form_value (Server.with_params [] r)) with (form_value r). rewrite He, Hu, Hne.
  eapply (steps_bind _ _ _ _ true).
  { change (client_ip (Server.with_params [] r)) with (client_ip r). fold ip key.
    eapply steps_bind; [by apply steps_allow|]. apply steps_allow. by rewrite allow_apart. }
  eapply steps_bind; [apply steps_try, Hst|]. apply steps_ret.
Qed.

Lemma steps_Callback token cb s s' c r :
  opens_link token r -> is_empty token = false -> cr_DeviceApproved cb = true -> cr_PendingDevice cb = false ->
  steps false (Service.VerifyMagicCallback token) s (Some cb) s' ->
  exists rs, rs_body rs = BRedirect "/device?approved=1" /\ rs_status rs = 303 /\
    steps false (AuthHandler.Callback c (Server.with_params [] r)) s rs s'.
Proof.
  intros [_ Ht] Hne Ha Hp Hst. eexists. split; [|split; [|unfold AuthHandler.Callback;
    change (query_get (Server.with_params [] r)) with (query_get r); rewrite Ht, Hne; eapply steps_bind; [by apply steps_try|];
    cbv iota beta zeta; rewrite Hp, Ha; cbv iota; apply steps_ret]]; by destruct (is_empty (cr_AccessToken cb)).
Qed.

Lemma steps_TokenEndpoint code poll s s' c r :
  polls code r -> is_empty code = false -> tp_Error poll = EmptyString ->
  steps false (Service.PollToken code) s poll s' ->
  steps false (AuthHandler.TokenEndpoint c (Server.with_params [] r)) s (json_resp 200 (poll_json poll)) s'.
Proof.
  intros [_ (Hf & Hg & Hc)] Hne He Hst. unfold AuthHandler.TokenEndpoint.
  change (r_form_ok (Server.with_params [] r)) with (r_form_ok r). change (form_value (Server.with_params [] r)) with (form_value r).
  rewrite Hf, Hg, Hc, Hne, str_eqb_refl. cbv iota beta zeta. cbn [negb]. eapply steps_bind; [by apply steps_try|].
  cbv iota beta. rewrite He. apply steps_ret.
Qed.

End Handlers.

(** ** The push *)

Section Push.
Context `{Env, Engine, Ed25519, FloatText}.
Context (Hsql : forall k, sql_fails k = false).

Lemma steps_gate base (next : ctx -> request -> M response) token a c r d k l (x : response) s' :
  header r "Authorization" = "Bearer " ++s token -> is_empty token = false -> bearer_row token d = Some a ->
  steps false (next (Middleware.token_ctx a token c) r)
    (Stage (set_api (upd (fun t => str_eqb (t_hash t) (Repo.sha256Hex token)) (touched (unix (clock (1 + k))))) d) (3 + k) l) x s' ->
  steps false (Middleware.Auth base next c r) (Stage d k l) x s'.
Proof.
  intros Ht Hne Ha Hn. unfold Middleware.Auth.
  assert (Middleware.extractBearerHeader r = token) as ->.
  { unfold Middleware.extractBearerHeader. rewrite Ht. change Middleware.bearer_prefix with "Bearer ".
    rewrite (proj2 (has_prefix_iff _ _)) by eauto. apply trim_prefix_append. }
  rewrite Hne. eapply steps_bind; [by apply steps_try, (steps_found Hsql)|]. cbv iota beta.
  eapply steps_bind; [|exact Hn]. eapply steps_ignore. eapply steps_bind; [apply steps_now|]. by eapply (steps_exec_ Hsql).
Qed.

(** The snapshot that is stored: a new row, or the row of the node and candidate renewed. *)
Definition stores (nodeID cid payload sig : string) (d : db) : Prop :=
  exists s, s ∈ snapshots d /\ s_node s = nodeID /\ s_cand s = cid /\ s_payload s = payload /\ s_sig s = Some sig.

Lemma upsert_stores id nodeID cid payload sig now d :
  has (fun s => str_eqb (s_id s) id) (snapshots d) = false -> has_node nodeID d = true ->
  exists d' n, exec_stmt (UpsertSnapshot_ id nodeID cid payload (Some sig) now) d = Some (d', n) /\
    stores nodeID cid payload sig d' /\ nodes d' = nodes d.
Proof.
  intros Hid Hn. cbn [exec_stmt]. cbv zeta. rewrite Hid.
  destruct (has (fun s => str_eqb (s_node s) nodeID && str_eqb (s_cand s) cid) (snapshots d)) eqn:E.
  - apply has_true in E as (s & Hs & Es). unfold updating. eexists _, _. split; [reflexivity|]. split; [|done].
    eexists. split; [apply elem_of_upd; exists s; split; [exact Hs|by rewrite Es]|].
    apply andb_true_iff in Es as [E1%str_eqb_true E2%str_eqb_true]. by split_and!.
  - unfold inserting. rewrite Hn. eexists _, _. split; [reflexivity|]. split; [|done].
    eexists. split; [apply elem_of_app; right; by apply list_elem_of_singleton|]. by split_and!.
Qed.

Lemma checked n key payload sig :
  n_pubkey n = Some key -> String.length key = 32%nat -> String.length sig = 64%nat -> ed25519_Verify key payload sig = true ->
  Ingest.check_signature n payload (Hex.encode sig) = mret tt /\ Ingest.decode_sig (Hex.encode sig) = mret (Some sig).
Proof.
  intros Hk Hl Hs Hv. unfold Ingest.check_signature, Ingest.decode_sig, VerifySignature.
  rewrite Hk, Hl, Hex.decode_encode, Hs, Hv, (Hex.encode_is_empty sig 63) by done. split; [|done].
  by destruct key as [|c key].
Qed.

Lemma steps_Process dim nodeID n key cid payload sig b d k l :
  sel (node_is nodeID) (nodes d) = [n] -> n_active n = true -> n_pubkey n = Some key -> String.length key = 32%nat ->
  String.length sig = 64%nat -> ed25519_Verify key payload sig = true -> Z.of_nat (String.length payload) <= 1048576 ->
  entropy (1 + k) 16 = Some b -> has (fun s => str_eqb (s_id s) (Hex.encode b)) (snapshots d) = false ->
  exists d', steps false (Ingest.Process dim nodeID (mkInput cid payload [] (Hex.encode sig))) (Stage d k l) tt (Stage d' (10 + k) l) /\
    stores nodeID cid payload sig d'.
Proof.
  intros Hn Hact Hk Hkl Hs Hv Hp Hb Hf. destruct (sel_elem _ _ _ Hn) as [Hin His].
  assert (has_node nodeID d = true) as Hhas by (apply has_true; eauto).
  destruct (upsert_stores (Hex.encode b) nodeID cid payload sig (unix (clock (2 + k))) d Hf Hhas) as (d1 & m & E1 & Hst & _).
  destruct (checked n key payload sig Hk Hkl Hs Hv) as [Hc Hd]. eexists. split.
  - unfold Ingest.Process. eapply steps_bind.
    { apply steps_wrap, (steps_found Hsql). unfold Repo.node_by_id. by rewrite Hn. }
    cbv iota beta. cbn [in_Payload in_Signature in_CandidateID in_Embedding]. rewrite Hact, (proj2 (Z.ltb_ge _ _)) by lia. cbn [negb].
    rewrite Hc, Hd. do 3 (eapply steps_bind; [apply steps_ret|]). eapply steps_bind; [by apply steps_NewID|].
    eapply steps_bind; [apply steps_wrap; eapply steps_bind; [apply steps_now|]; by eapply (steps_exec_ Hsql)|].
    eapply steps_bind.
    { eapply steps_ignore. apply (steps_tx Hsql). eapply steps_bind; [by apply (steps_stmt Hsql)|].
      eapply steps_bind; [by apply (steps_stmt Hsql)|]. apply steps_ret. }
    eapply steps_bind; [apply steps_ret|]. eapply steps_ignore. eapply steps_bind; [apply steps_now|]. by eapply (steps_exec_ Hsql).
  - exact Hst.
Qed.

(** What the push endpoint answers a node. *)
Definition accepted : response := json_resp 200 (jmap [("status", JStr "accepted")]).

Lemma steps_Snapshot dim nodeID n key token cid packet sig b c r d k l :
  c_node c = Some nodeID -> is_empty nodeID = false -> is_empty cid = false -> Utf8.valid cid = true -> plain packet ->
  pushes token cid packet sig r -> Z.of_nat (String.length (r_body r)) <= 2097152 ->
  Z.of_nat (String.length (encode packet)) <= 1048576 ->
  sel (node_is nodeID) (nodes d) = [n] -> n_active n = true -> n_pubkey n = Some key -> String.length key = 32%nat ->
  String.length sig = 64%nat -> ed25519_Verify key (encode packet) sig = true ->
  entropy (1 + k) 16 = Some b -> has (fun s => str_eqb (s_id s) (Hex.encode b)) (snapshots d) = false ->
  exists d', steps false (Ingest.Snapshot dim c (Server.with_params [] r)) (Stage d k l) accepted (Stage d' (10 + k) l) /\
    stores nodeID cid (encode packet) sig d'.
Proof.
  intros Hc Hid Hcid Hcv Hpl [_ _ Hb] Hlen Hp Hn Hact Hk Hkl Hs Hv Eb Hf.
  destruct (steps_Process dim nodeID n key cid (encode packet) sig b d k l Hn Hact Hk Hkl Hs Hv Hp Eb Hf) as (d' & Hst & Hd).
  exists d'. split; [|exact Hd]. unfold Ingest.Snapshot, NodeIDFromContext. rewrite Hc. cbn [default from_option id].
  rewrite Hid. change (r_body (Server.with_params [] r)) with (r_body r). rewrite within by lia. rewrite Hb.
  destruct (push_body_read cid packet sig Hcv Hpl) as (v & -> & E1 & E2). rewrite E1, E2. cbn [negb in_CandidateID]. rewrite Hcid.
  eapply steps_bind; [by apply steps_try|]. apply steps_ret.
Qed.

End Push.

(** ** From a stranger to a stored snapshot *)

Section Whole.
Context `{Env, Engine, Unicode, Zone, Ed25519, FloatText, Chi, !ChiLiteral}.
Context (cfg : ServerConfig) (mcp_serve static_serve : handler).

Abbreviation serve := (Server.serve cfg mcp_serve static_serve).
Abbreviation svc := (sc_AuthSvc cfg).

Definition flow_paths : list string := ["/auth/device"; "/auth/request"; "/auth/callback"; "/auth/token"; "/ingest/snapshot"].

Lemma flow_path_fixed p : p ∈ flow_paths -> literal p = true /\ p ∉ other_paths.
Proof.
  unfold flow_paths. intros Hp. repeat (apply elem_of_cons in Hp as [->|Hp]; [split; [reflexivity|apply (bool_decide_unpack _); vm_compute; exact I]|]).
  by apply elem_of_nil in Hp.
Qed.

(** A step of the flow, through the router. *)
Lemma served i m p h r s x s' w :
  fixed_routes cfg static_serve !! i = Some (mkRoute m p h) -> p ∈ flow_paths -> sc_MCPEndpoint cfg ∉ flow_paths ->
  r_method r = m /\ r_path r = p -> steps false (h empty_ctx (Server.with_params [] r)) s x s' -> at_stage false s w ->
  exists w', serve r w = (Ok x, w') /\ at_stage false s' w'.
Proof.
  intros Hi Hp Hmcp [Hm Hpath] Hst Hw. destruct (flow_path_fixed p Hp) as [Hl Ho].
  rewrite (serve_fixed cfg mcp_serve static_serve i m p h r w Hi Hl Ho); [by apply Hst| |done..]. intros E. apply Hmcp. by rewrite <- E.
Qed.

(** The rate limiter lets the login form through: for the address, and then for the email. *)
Definition let_in (email : string) (r : request) (k : nat) (lim : gmap string RateLimit.rateEntry) : Prop :=
  (RateLimit.Allow ("ip:" ++s client_ip r) 10 (15 * minute) (clock k) lim).1 = true /\
  (RateLimit.Allow ("email:" ++s email) 5 (15 * minute) (clock (S k)) lim).1 = true.

(** A packet the node can sign and the server takes. *)
Record sound_push (key cid : string) (packet : json) (sig : string) (r : request) : Prop := {
  sp_cid : is_empty cid = false /\ Utf8.valid cid = true;
  sp_packet : plain packet /\ Z.of_nat (String.length (encode packet)) <= 1048576;
  sp_body : Z.of_nat (String.length (r_body r)) <= 2097152;
  sp_sig : String.length sig = 64%nat /\ ed25519_Verify key (encode packet) sig = true }.

(** A push with a live token of the node, which holds the key. *)
Lemma push_step (Hsql : forall k, sql_fails k = false) key a n token cid packet sig r d k l w :
  at_stage false (Stage d k l) w -> sc_MCPEndpoint cfg ∉ flow_paths ->
  bearer_row token d = Some a -> t_node a = Some (n_id n) -> sel (node_is (n_id n)) (nodes d) = [n] ->
  n_active n = true -> n_pubkey n = Some key -> String.length key = 32%nat ->
  is_empty (n_id n) = false -> is_empty token = false ->
  (exists b, entropy (4 + k) 16 = Some b /\ has (fun s => str_eqb (s_id s) (Hex.encode b)) (snapshots d) = false) ->
  pushes token cid packet sig r -> sound_push key cid packet sig r ->
  exists w', serve r w = (Ok accepted, w') /\ stores (n_id n) cid (encode packet) sig (w_db w').
Proof.
  intros Hw Hmcp Ha Han Hn Hna Hnk Hkey Hid Htok (b & Eb & Hfree) Hr [[Hcid Hcv] [Hpl Hplen] Hblen [Hsl Hv]].
  set (d1 := set_api (upd (fun t => str_eqb (t_hash t) (Repo.sha256Hex token)) (touched (unix (clock (1 + k))))) d).
  destruct (steps_Snapshot Hsql (sc_EmbedDim cfg) (n_id n) n key token cid packet sig b
    (Middleware.token_ctx a token empty_ctx) r d1 (3 + k) l) as (d2 & Hst & Hstored); try done; [by simpl; rewrite Han|].
  destruct (served 9 _ _ _ r _ _ _ w eq_refl ltac:(in_list) Hmcp (pu_route _ _ _ _ _ Hr)
    (steps_gate Hsql (sc_BaseURL cfg) (Ingest.Snapshot (sc_EmbedDim cfg)) _ a empty_ctx _ _ _ _ _ _ (pu_token _ _ _ _ _ Hr) Htok Ha Hst) Hw)
    as (w' & S & A).
  exists w'. split; [exact S|]. by rewrite (proj1 A).
Qed.

(** C10: from a stranger to a stored snapshot.  When nothing fails, the draws are fresh and the
    flow is over before the link expires, five requests to the server suffice: a node posts
    its description and is given a code; the operator submits the login form with the user
    code and is mailed a link; opening it redirects to the approval; the node's poll is
    answered with a token, which stands with the scope for pushing snapshots for the very
    node described, active and owned by the user of the email; and pushing with that token a
    packet signed with the node's key is accepted and stores exactly that packet. *)
Theorem stranger_to_snapshot m ty ep key email w :
  (forall k, sql_fails k = false) -> (forall k x, mail_fails k x = None) ->
  (forall k n, exists b, entropy k n = Some b /\ String.length b = n) ->
  svc_Mailer svc = SMTP m -> node_type_ok ty = true -> is_empty ep = false -> Utf8.valid ep = true -> String.length key = 32%nat ->
  is_empty email = false -> sc_MCPEndpoint cfg ∉ flow_paths ->
  (forall i j, (w_tick w <= i <= j)%nat -> (j < w_tick w + span)%nat -> clock j <= clock i + svc_MagicTTL svc - second) ->
  w_conn w = true -> fresh (w_tick w) (w_db w) ->
  forall r1, asks_code ty ep key r1 -> (String.length (r_body r1) <= 4096)%nat ->
  exists di w1, serve r1 w = (Ok (json_resp 200 (device_init_json di)), w1) /\
  forall r2, asks_link email (di_UserCode di) r2 -> let_in email r2 (6 + w_tick w) (w_limiter w) ->
  exists token w2, serve r2 w1 = (Ok (json_resp 200 (jmap [("ok", JStr "check your email")])), w2) /\
    w_mail w2 = (email, smtp_message (sm_From m) email (Service.callback_link svc token)) :: w_mail w /\
  forall r3, opens_link token r3 ->
  exists rs w3, serve r3 w2 = (Ok rs, w3) /\ rs_status rs = 303 /\ rs_body rs = BRedirect "/device?approved=1" /\
  forall r4, polls (di_DeviceCode di) r4 ->
  exists poll w4 a u n, serve r4 w3 = (Ok (json_resp 200 (poll_json poll)), w4) /\
    (bearer_row (tp_AccessToken poll) (w_db w4) = Some a /\ t_user a = u_id u /\ t_node a = Some (n_id n) /\
     t_scope a = Some "node:push") /\
    Repo.user_by_email email (w_db w4) = Some u /\ Repo.node_by_id (tp_NodeID poll) (w_db w4) = Some n /\
    (n_type n = ty /\ n_endpoint n = ep /\ n_pubkey n = Some key /\ n_active n = true /\ n_user n = Some (u_id u) /\
     n_secret n = Some (tp_IntroSecret poll)) /\
  forall r5 cid packet sig, pushes (tp_AccessToken poll) cid packet sig r5 -> sound_push key cid packet sig r5 ->
  exists w5, serve r5 w4 = (Ok accepted, w5) /\ stores (n_id n) cid (encode packet) sig (w_db w5).
Proof.
  intros Hsql Hmail Hrand Hm Hty Hep Hepv Hkey Hem Hmcp Hclock Hc F r1 Hr1 Hlen.
  assert (forall k n, entropy k n <> None) as Hrand' by (intros k n; destruct (Hrand k n) as (b & -> & _); done).
  assert (forall k n b, entropy k (S n) = Some b -> is_empty (Hex.encode b) = false) as Hdraw.
  { intros k n b E. destruct (Hrand k (S n)) as (b' & E' & Hl). rewrite E in E'. injection E' as <-. by eapply Hex.encode_is_empty. }
  destruct (flow_asks Hsql Hmail Hrand' svc m ty ep (Some key) email (w_tick w) Hm Hty Hep Hclock (w_db w) (w_mail w, w_limiter w) F)
    as (di & d1 & token & d2 & id & u & T1 & T2 & Haw & Hapi & Hsn & (b0 & E0 & Ecode) & (b1 & E1 & Etok) & (b2 & E2 & Eid)).
  destruct (served 5 _ _ _ r1 _ _ _ w eq_refl ltac:(in_list) Hmcp (ac_route _ _ _ _ Hr1)
    (steps_InitDevice svc ty ep key _ _ _ _ _ (node_type_valid _ Hty) Hepv Hkey Hr1 Hlen T1)) as (w1 & S1 & A1); [done|].
  exists di, w1. split; [exact S1|]. intros r2 Hr2 [Hip Hml].
  destruct (steps_RequestMagicLink svc email (di_UserCode di) empty_ctx r2 d1 (6 + w_tick w) (w_mail w) (w_limiter w)
    (fun lim => Stage d2 (16 + w_tick w) (mailed svc m email token :: w_mail w, lim)) Hr2 Hem Hip Hml (fun lim => T2 (w_mail w, lim)))
    as (lim2 & T2').
  destruct (served 2 _ _ _ r2 _ _ _ w1 eq_refl ltac:(in_list) Hmcp (al_route _ _ _ Hr2) T2' A1) as (w2 & S2 & A2).
  exists token, w2. split; [exact S2|]. split; [destruct A2 as (_ & _ & Hout & _); by injection Hout|]. intros r3 Hr3.
  destruct (flow_answers Hsql Hrand' ty ep (Some key) email (w_tick w) (w_db w) token _ id u d2
    (mailed svc m email token :: w_mail w, lim2) F Hapi Haw) as (cb & d3 & poll & d4 & a & n & T3 & [Hap Hpd] & T4 & Hend & Hsn4 & Hnode & (b3 & E3 & Eacc) & Epid).
  assert (is_empty token = false) as Htne by (rewrite Etok; by eapply Hdraw).
  destruct (steps_Callback token cb _ _ empty_ctx r3 Hr3 Htne Hap Hpd T3) as (rs & Hbody & Hstat & T3').
  destruct (served 3 _ _ _ r3 _ _ _ w2 eq_refl ltac:(in_list) Hmcp (ol_route _ _ Hr3) T3' A2) as (w3 & S3 & A3).
  exists rs, w3. split; [exact S3|]. split; [exact Hstat|]. split; [exact Hbody|]. intros r4 Hr4.
  destruct Hend as (He & Hsc & Ha & Hu & Hn & Hau & Han & Has & Hnt & Hne & Hnk & Hna & Hnu & Hns).
  assert (is_empty (di_DeviceCode di) = false) as Hcne by (rewrite Ecode; by eapply Hdraw).
  destruct (served 6 _ _ _ r4 _ _ _ w3 eq_refl ltac:(in_list) Hmcp (po_route _ _ Hr4)
    (steps_TokenEndpoint _ _ _ _ empty_ctx r4 Hr4 Hcne He T4) A3) as (w4 & S4 & A4).
  assert (n_id n = tp_NodeID poll) as Enid by (by destruct (sel_elem _ _ _ Hnode) as [_ ?%str_eqb_true]).
  exists poll, w4, a, u, n. rewrite (proj1 A4), Enid. split; [exact S4|]. do 3 (split; [done|]). split; [done|].
  intros r5 cid packet sig Hr5 Hsound.
  rewrite <- Enid in Epid |- *. apply (push_step Hsql key a n (tp_AccessToken poll) cid packet sig r5 d4 (54 + w_tick w)
    (mailed svc m email token :: w_mail w, lim2) w4); try done; try (by rewrite Enid); try (by rewrite ?Epid, ?Eid, ?Eacc; eapply Hdraw).
  destruct (drawn Hrand' (58 + w_tick w) 16) as [b5 E5]. exists b5. split; [exact E5|]. rewrite Hsn4, Hsn.
  by apply (unused_id (w_tick w) (w_db w) (58 + w_tick w) b5 F ltac:(unfold span; lia) E5).
Qed.

End Whole.

(** ** A concrete flow *)

#[local] Existing Instances sample_env sample_engine ascii_unicode no_floats.
#[local] Instance flow_zone : Zone := {| utc_offset _ := 0 |}.
#[local] Existing Instance sample_ed25519.

(** Only routes without parameters, by their method and path. *)
Definition exact_route (tbl : list (string * string)) (m p : string) : option (nat * list (string * string)) :=
  (fun x => (x.1, [])) <$> list_find (fun e => e = (m, p)) tbl.

Lemma exact_route_method tbl m p i ps : exact_route tbl m p = Some (i, ps) -> exists pat, tbl !! i = Some (m, pat).
Proof.
  unfold exact_route. destruct (list_find _ tbl) as [[j e]|] eqn:E; [|done]. intros [= <- _].
  apply list_find_Some in E as (E & -> & _). by exists p.
Qed.

#[local] Instance exact_router : Chi := {| chi_find := exact_route; chi_absent _ _ := not_found; chi_method := exact_route_method |}.
#[local] Instance exact_literal : ChiLiteral.
Proof.
  intros tbl m p i _ Hi Hu. unfold chi_find, exact_router, exact_route.
  destruct (list_find (fun e => e = (m, p)) tbl) as [[j e]|] eqn:E.
  - apply list_find_Some in E as (E & -> & _). by rewrite (Hu j E).
  - apply list_find_None in E. rewrite Forall_lookup in E. by destruct (E i _ Hi).
Qed.

Definition sample_smtp : SMTPMailer := mkSMTP "mail.example" 587 EmptyString EmptyString "hb@example".
Definition sample_service : AuthService := mkService (SMTP sample_smtp) "https://hb.example" (15 * minute).

Lemma start_fresh : fresh 0 empty_db.
Proof. split; [apply (bool_decide_unpack _); vm_compute; exact I|done..]. Qed.

Definition flow_config : ServerConfig :=
  mkServer sample_service 384 "https://hb.example" (90 * second) "/mcp" (mkAdmin EmptyString (15 * minute) (2 * hour) None) "{}".
Definition unserved : handler := fun _ _ => mret not_found.
Definition node_key : string := repeat_byte 32 "k".

Definition from_node (method path : string) (headers query form : list (string * string)) (body : string) : request :=
  Req method path "hb.example" "10.0.0.9:4711" true headers [] query form true [] body.
Definition code_request : request :=
  from_node "POST" "/auth/device" [] [] [] (encode (device_request "LivingCV" "https://cv.example" node_key)).
Definition link_request (uc : string) : request := from_node "POST" "/auth/request" [] [] [("email", "ada@example"); ("uc", uc)] EmptyString.
Definition link_opened (token : string) : request := from_node "GET" "/auth/callback" [] [("token", token)] [] EmptyString.
Definition poll_request (code : string) : request :=
  from_node "POST" "/auth/token" [] [] [("grant_type", AuthHandler.device_grant); ("device_code", code)] EmptyString.
Definition packet : json := JObj [("skills", JArr [JStr "Rocq"; JInt 9])].
Definition push_request (token : string) : request :=
  from_node "POST" "/ingest/snapshot" [("Authorization", "Bearer " ++s token)] [] []
    (encode (push_body "cand-1" packet (repeat_byte 64 "s"))).

Lemma repeat_length n c : String.length (repeat_byte n c) = n.
Proof. induction n; simpl; auto. Qed.

Theorem stranger_to_snapshot_witness :
  let serve := Server.serve flow_config unserved unserved in
  exists w1 uc w2 token w3 code w4 access w5 id,
    serve (link_request uc) w1 = (Ok (json_resp 200 (jmap [("ok", JStr "check your email")])), w2) /\
    (exists rs, serve (link_opened token) w2 = (Ok rs, w3) /\ rs_body rs = BRedirect "/device?approved=1") /\
    (exists poll, serve (poll_request code) w3 = (Ok (json_resp 200 (poll_json poll)), w4)) /\
    serve (push_request access) w4 = (Ok accepted, w5) /\
    stores id "cand-1" (encode packet) (repeat_byte 64 "s") (w_db w5).
Proof.
  destruct (stranger_to_snapshot flow_config unserved unserved sample_smtp "LivingCV" "https://cv.example" node_key "ada@example" start_world)
    with (r1 := code_request) as (di & w1 & _ & T2);
    [done|done| |reflexivity|reflexivity|reflexivity|vm_compute; reflexivity|reflexivity|reflexivity|in_list| |reflexivity|exact start_fresh| | |].
  - intros k n. eexists. split; [reflexivity|apply repeat_length].
  - intros i j Hi Hj. change (w_tick start_world) with 0%nat in *. unfold span in *.
    change ((1700000000 + Z.of_nat j) * second <= (1700000000 + Z.of_nat i) * second + 15 * minute - second).
    unfold minute, second. lia.
  - by split.
  - apply Nat.leb_le. vm_compute. reflexivity.
  - destruct (T2 (link_request (di_UserCode di))) as (token & w2 & S2 & _ & T3); [by split|split; vm_compute; reflexivity|].
    destruct (T3 (link_opened token)) as (rs & w3 & S3 & _ & Hrs & T4); [by split|].
    destruct (T4 (poll_request (di_DeviceCode di))) as (poll & w4 & a & u & n & S4 & _ & _ & _ & _ & T5); [by split|].
    destruct (T5 (push_request (tp_AccessToken poll)) "cand-1" packet (repeat_byte 64 "s")) as (w5 & S5 & Hs); [by split| |].
    + split; [split; [done|vm_compute; reflexivity]| |vm_compute; discriminate|split; [done|vm_compute; reflexivity]].
      split; [|vm_compute; discriminate]. apply plain_obj. constructor; [split; [reflexivity|]|constructor].
      apply plain_arr. constructor; [by constructor|constructor; [|constructor]]. exact (plain_int 9).
    + exists w1, (di_UserCode di), w2, token, w3, (di_DeviceCode di), w4, (tp_AccessToken poll), w5, (n_id n).
      exact (conj S2 (conj (ex_intro _ rs (conj S3 Hrs)) (conj (ex_intro _ poll S4) (conj S5 Hs)))).
Defined.
