(* ===== verification/System.v ===== *)
(** * The process as a whole (src/cmd/hirebridge/main.go and the loops it starts)

    What main leaves running: the public server, the federation's server, the outbox worker,
    the syncer, the discovery and the three reapers.  A history is what they did, one after
    the other, each a program of the other files on the same world. *)

From S2P Require Import Prelude RateLimit AdminStore Schema Statements Invariants World.
From S2P Require Import GoStrings GoJson GoTime Sha256 Float Runs Samples Repo RepoFacts Auth AuthFacts Http.
From S2P Require Import Middleware MiddlewareFacts AuthHandlers FedRepo AdminHandlers Ingest IngestFacts Outbox OutboxFacts.
From S2P Require Import Federation FederationFacts Ledger WebUI Config Router RouterFacts Store Startup.

Open Scope Z_scope.

Inductive action :=
(** a request to the public server; one to the federation's *)
| Visit (r : request)
| PeerVisit (r : request)
(** what [Worker.Run]'s [select] takes next *)
| Work (ev : Outbox.run_event)
(** a tick of [Syncer.Run], and of [Discovery.Run] *)
| Pull
| Announce
(** a tick of each [reapLoop] *)
| ReapLimits
| ReapSessions
| ReapLinks.

(** A goroutine of its own, where a panic ends the process; net/http recovers those of a
    handler. *)
Definition background (a : action) : bool :=
  match a with Visit _ | PeerVisit _ => false | _ => true end.

Section System.
Context `{Env, Engine, Unicode, Zone, Ed25519Keys, FedEngine, FloatText, Chi, Urls}.
Context (rn : running) (mcp_serve static_serve : handler) (cancelled : nat -> bool).

Abbreviation server := (Server.serve (rn_server rn) mcp_serve static_serve).
Abbreviation reply := (outcome (option response)).

Definition silent (m : M unit) : M (option response) := _ ← m; mret None.

(** [Discovery.Run] without a URL returns at once. *)
Definition announce (f : fed_run) : M unit :=
  let '(url, name, endpoint) := fr_discovery f in
  if is_empty url then mret tt else Discovery_Register (fc_Identity (fr_config f)) url name endpoint.

Definition reap_limits : M unit := now ← time_now; on_limiter (fun m => (tt, RateLimit.reap now m)).
Definition reap_sessions : M unit := now ← time_now; on_sessions (fun m => (tt, AdminStore.reap now m)).
Definition reap_links : M unit := now ← time_now; on_links (fun m => (tt, AdminStore.reap now m)).

(** One action; [None] when it cannot happen: no federation, no wake-up waiting, a worker
    that has stopped. *)
Definition perform (a : action) (w : world) : option (reply * world) :=
  match a with
  | Visit r => Some ((x ← server r; mret (Some x)) w)
  | PeerVisit r => (fun f => (x ← Fed.Routes (fr_config f) empty_ctx r; mret (Some x)) w) <$> rn_fed rn
  | Work Outbox.RunDone => None
  | Work Outbox.RunTick => Some (silent (Outbox.drain (rn_outbox rn) cancelled) w)
  | Work Outbox.RunWake =>
      if w_wake w then Some (silent (Outbox.drain (rn_outbox rn) cancelled) (set_wake false w)) else None
  | Pull => (fun f => silent (Sync.syncOnce (fc_Identity (fr_config f))) w) <$> rn_fed rn
  | Announce => (fun f => silent (announce f) w) <$> rn_fed rn
  | ReapLimits => Some (silent reap_limits w)
  | ReapSessions => Some (silent reap_sessions w)
  | ReapLinks => Some (silent reap_links w)
  end.

(** What happened, in order, with how each action ended. *)
Inductive history : world -> list (action * reply) -> world -> Prop :=
| history_start w : history w [] w
| history_step w a o w1 h w2 : perform a w = Some (o, w1) -> history w1 h w2 -> history w ((a, o) :: h) w2.

(** The history of given actions, when all of them can happen. *)
Fixpoint play (acts : list action) (w : world) : option (list (action * reply) * world) :=
  match acts with
  | [] => Some ([], w)
  | a :: acts' =>
      '(o, w1) ← perform a w;
      '(h, w2) ← play acts' w1;
      Some ((a, o) :: h, w2)
  end.

Lemma play_history acts w h w' : play acts w = Some (h, w') -> history w h w'.
Proof.
  revert w h. induction acts as [|a acts IH]; intros w h E; simpl in E; [simplify_eq; constructor|].
  apply bind_Some in E as ([o w1] & Ep & ([h2 w2] & Er & E)%bind_Some). injection E as <- <-. econstructor; eauto.
Qed.

(** The worker's loop is the one of Outbox.v. *)
Lemma work_run_step ev w :
  snd <$> perform (Work ev) w = Outbox.run_step (rn_outbox rn) cancelled ev w.
Proof.
  assert (forall v, (silent (Outbox.drain (rn_outbox rn) cancelled) v).2 = (Outbox.drain (rn_outbox rn) cancelled v).2) as Hs.
  { intros v. unfold silent, mbind, M_bind. by destruct (Outbox.drain _ _ v) as [[[]|e|p|] v']. }
  destruct ev; simpl; [done|by rewrite Hs|]. destruct (w_wake w); simpl; [by rewrite Hs|done].
Qed.

Lemma history_app w h1 h2 w' : history w (h1 ++ h2) w' -> exists w1, history w h1 w1 /\ history w1 h2 w'.
Proof.
  revert w. induction h1 as [|x h1 IH]; intros w Hh; [by exists w; split; [constructor|]|].
  simpl in Hh. inversion Hh as [|w0 a o w1 h w2 Hp Hr]; subst. apply IH in Hr as (w2 & Hh1 & Hh2).
  exists w2. split; [by econstructor|done].
Qed.

Lemma history_det w h w1 w2 : history w h w1 -> history w h w2 -> w1 = w2.
Proof.
  intros Hh. revert w2. induction Hh as [w|w a o w0 h w1 Hp Hh IH]; intros w2 Hh2; inversion Hh2; subst; [done|].
  apply IH. congruence.
Qed.

(** ** While the pool has its connection *)

Context (Hmcp : Middleware.good_handler mcp_serve) (Hstatic : Middleware.good_handler static_serve).

Lemma good_silent m : good m -> good (silent m).
Proof. intros. unfold silent. solve_good. Qed.

Lemma good_announce f : good (announce f).
Proof. unfold announce, Discovery_Register, SignedPost, client_do. solve_good. Qed.

(** Every program but the syncer's, on the world it runs in. *)
Lemma perform_good a w x : perform a w = Some x -> a <> Pull ->
  exists (m : M (option response)) (_ : good m) w0, w_db w0 = w_db w /\ w_conn w0 = w_conn w /\ x = m w0.
Proof.
  assert (forall (m : M (option response)), good m -> exists m' (_ : good m') w0, w_db w0 = w_db w /\ w_conn w0 = w_conn w /\ m w = m' w0) as Hw
    by eauto 8.
  intros E Ha. destruct a as [r|r|[]| | | | |]; simpl in E; try done; unfold reap_limits, reap_sessions, reap_links in E;
    try (destruct (rn_fed rn) as [f|]; [|done]; simpl in E); simplify_eq.
  - apply Hw, good_bind; [by apply Server.good_serve|]. intros. solve_good.
  - apply Hw, good_bind; [apply Fed.good_Routes|]. intros. solve_good.
  - apply Hw, good_silent, Outbox.good_drain.
  - destruct (w_wake w); [|done]. injection E as <-. exists (silent (Outbox.drain (rn_outbox rn) cancelled)), (good_silent _ (Outbox.good_drain _ _)), (set_wake false w).
    done.
  - apply Hw, good_silent, good_announce.
  - apply Hw, good_silent. solve_good.
  - apply Hw, good_silent. solve_good.
  - apply Hw, good_silent. solve_good.
Qed.

(** A pass of the syncer that finds an active peer. *)
Definition peer_found (w : world) : Prop :=
  sql_fails (w_tick w) = false /\ exists p, p ∈ federated_instances (w_db w) /\ f_active p = true.

Lemma perform_pull w o w' :
  w_conn w = true -> perform Pull w = Some (o, w') ->
  (o = Ok None /\ w' = tick w /\ ~ peer_found w) \/ (o = Blocked /\ w' = set_conn false (tick w) /\ peer_found w).
Proof.
  intros Hc E. simpl in E. destruct (rn_fed rn) as [f|]; [|done]. simpl in E. injection E as E.
  unfold silent, mbind, M_bind in E. rewrite syncOnce_run in E by done. unfold peer_found.
  destruct (sql_fails _); [left; injection E as <- <-; split_and!; [done..|by intros []]|].
  destruct (sel f_active _) as [|p l] eqn:Es; injection E as <- <-; [left|right]; (split_and!; [done..|]).
  - intros [_ (p & Hp & Ha)]. assert (p ∈ sel f_active (federated_instances (w_db w))) as Hin by (by apply elem_of_sel).
    rewrite Es in Hin. by apply elem_of_nil in Hin.
  - exists p. assert (p ∈ sel f_active (federated_instances (w_db w))) as Hin by (rewrite Es; left).
    by apply elem_of_sel in Hin as [].
Qed.

Lemma is_pull a : a = Pull \/ a <> Pull.
Proof. destruct a; by (left + right). Qed.

Lemma perform_alive a w o w' : w_conn w = true -> perform a w = Some (o, w') ->
  (o <> Blocked /\ w_conn w' = true /\ evolves (w_db w) (w_db w')) \/
  (a = Pull /\ o = Blocked /\ w' = set_conn false (tick w) /\ peer_found w).
Proof.
  intros Hc E. destruct (is_pull a) as [->|Ha].
  - destruct (perform_pull _ _ _ Hc E) as [(-> & -> & Hn)|?]; [left|by right].
    split_and!; [done|done|apply evolves_refl].
  - left. destruct (perform_good _ _ _ E Ha) as (m & Hm & w0 & Hd & Hc0 & Ex).
    destruct (Hm w0) as (Ev & Hc' & Hb); [by rewrite Hc0|]. rewrite <- Ex, Hd in *. by split_and!.
Qed.

Lemma perform_stuck a w o w' : w_conn w = false -> perform a w = Some (o, w') -> w_db w' = w_db w /\ w_conn w' = false.
Proof.
  intros Hc E. destruct (is_pull a) as [->|Ha].
  - simpl in E. destruct (rn_fed rn) as [f|]; [|done]. simpl in E. injection E as E.
    unfold silent, Sync.syncOnce, db_rows, ignore, try_, mbind, M_bind in E. rewrite blocked_without_conn in E by done.
    by injection E as _ <-.
  - destruct (perform_good _ _ _ E Ha) as (m & Hm & w0 & Hd & Hc0 & Ex).
    destruct (good_wait _ Hm w0) as (Ed & Hc'); [by rewrite Hc0|]. rewrite <- Ex, Hd in *. by split.
Qed.

(** ** Once it has lost it *)

(** The routes that look at a token, and where they look for it. *)
Inductive token_route : route -> (request -> string) -> Prop :=
| token_strict m p mws h :
    token_route (mkRoute m p (With (Server.strictAuth (rn_server rn) :: mws) h)) Middleware.extractBearerHeader
| token_optional m p mws h : token_route (mkRoute m p (With (Server.authMw :: mws) h)) Middleware.extractBearer.

Definition shows_token (r : request) : Prop :=
  exists i ps rt tok, chi_find (Server.table (rn_server rn) mcp_serve static_serve) (r_method r) (r_path r) = Some (i, ps) /\
    Server.build (rn_server rn) mcp_serve static_serve !! i = Some rt /\ token_route rt tok /\ tok r <> EmptyString.

Lemma lookup_stuck token w : w_conn w = false -> try_ (Repo.APITokenByHash token) w = (Blocked, w).
Proof. intros Hc. unfold Repo.APITokenByHash, row_or_nil, db_query_row, try_, mbind, M_bind. by rewrite blocked_without_conn. Qed.

Lemma visit_stuck r w : w_conn w = false -> shows_token r -> (server r w).1 = Blocked.
Proof.
  intros Hc (i & ps & rt & tok & Ef & Eb & Ht & Hn). apply is_empty_false in Hn. unfold Server.serve. rewrite Ef, Eb.
  destruct Ht as [m p mws h|m p mws h]; simpl.
  - unfold Server.strictAuth, Middleware.Auth. change (Middleware.extractBearerHeader (Server.with_params ps r)) with (Middleware.extractBearerHeader r).
    rewrite Hn. unfold mbind, M_bind. by rewrite lookup_stuck.
  - unfold Server.authMw, Middleware.OptionalAuth. change (Middleware.extractBearer (Server.with_params ps r)) with (Middleware.extractBearer r).
    rewrite Hn. unfold mbind, M_bind. by rewrite lookup_stuck.
Qed.

(** A visit that waits for as long as the process lives. *)
Definition waits (x : action * reply) : Prop := forall r, x.1 = Visit r -> shows_token r -> x.2 = Blocked.

Lemma history_stuck w h w' : history w h w' -> w_conn w = false -> w_db w' = w_db w /\ w_conn w' = false /\ Forall waits h.
Proof.
  induction 1 as [w|w a o w1 h w2 Hp _ IH]; intros Hc; [by split_and!; [..|constructor]|].
  destruct (perform_stuck _ _ _ _ Hc Hp) as [Hd Hc1]. destruct (IH Hc1) as (Hd2 & Hc2 & Hw).
  split_and!; [congruence|done|]. constructor; [|done]. intros r Er Hs. simpl in *. subst a.
  simpl in Hp. injection Hp as Hp. pose proof (visit_stuck r w Hc Hs) as Hv. unfold mbind, M_bind in Hp.
  destruct (server r w) as [o' w3]. simpl in Hv. subst o'. by injection Hp as <- _.
Qed.

(** ** Whole histories *)

Definition answered (x : action * reply) : Prop := x.2 <> Blocked.

(** Frozen: after [h1], in which everything was answered, the syncer found a peer. *)
Definition frozen (w : world) (h : list (action * reply)) (w' : world) : Prop :=
  exists h1 h2 w1, h = h1 ++ (Pull, Blocked) :: h2 /\ history w h1 w1 /\ Forall answered h1 /\ peer_found w1 /\
    evolves (w_db w) (w_db w1) /\ w_db w' = w_db w1 /\ w_conn w' = false /\ Forall waits h2.

Lemma history_outcome w h w' : history w h w' -> w_conn w = true ->
  (Forall answered h /\ w_conn w' = true /\ evolves (w_db w) (w_db w')) \/ frozen w h w'.
Proof.
  induction 1 as [w|w a o w1 h w2 Hp Hh IH]; intros Hc; [left; by eauto using evolves_refl|].
  destruct (perform_alive _ _ _ _ Hc Hp) as [(Ho & Hc1 & Ev)|(-> & -> & -> & Hf)].
  - destruct (IH Hc1) as [(Ha & Hc2 & Ev2)|(h1 & h2 & w3 & -> & Hh1 & Ha & Hf & Ev3 & Hd & Hc2 & Hw)].
    + left. split_and!; [by constructor|done|by eapply evolves_trans].
    + right. exists ((a, o) :: h1), h2, w3.
      split_and!; try done; [by econstructor|by constructor|by eapply evolves_trans].
  - right. destruct (history_stuck _ _ _ Hh eq_refl) as (Hd & Hc2 & Hw).
    exists [], h, w. split_and!; try done; first [by econstructor|by constructor|by eapply evolves_trans].
Qed.

(** In a history where everything was answered, the syncer never found an active peer. *)
Lemma answered_pulls w h1 o h2 w' w1 :
  history w (h1 ++ (Pull, o) :: h2) w' -> w_conn w = true -> Forall answered (h1 ++ (Pull, o) :: h2) ->
  history w h1 w1 -> ~ peer_found w1.
Proof.
  intros Hh Hc [Ha1 Ha2]%Forall_app Hh1. apply Forall_cons in Ha2 as [Ho _].
  apply history_app in Hh as (w1' & Hh1' & Hh2). rewrite (history_det _ _ _ _ Hh1 Hh1'). inversion Hh2 as [|? ? ? w2 ? ? Hp]; subst.
  destruct (history_outcome _ _ _ Hh1' Hc) as [(_ & Hc1 & _)|(h3 & h4 & w3 & -> & _)].
  - destruct (perform_pull _ _ _ Hc1 Hp) as [(_ & _ & Hn)|(-> & _)]; [done|by destruct Ho].
  - apply Forall_app in Ha1 as [_ Hb]. apply Forall_cons in Hb as [Hb _]. by destruct Hb.
Qed.

(** ** Panics *)

Lemma calm_announce f : calm (announce f).
Proof. unfold announce, Discovery_Register, SignedPost, client_do. solve_frame. Qed.

Lemma perform_calm a w o w' p :
  Outbox.Backoffs (rn_outbox rn) <> [] -> db_wf (w_db w) -> background a = true -> perform a w = Some (o, w') -> o <> Panic p.
Proof.
  intros Hb W Hbg E.
  assert (forall m v, (forall p', (m v).1 <> Panic p') -> silent m v = (o, w') -> o <> Panic p) as Hs.
  { intros m v Hm E'. specialize (Hm p). unfold silent, mbind, M_bind in E'.
    destruct (m v) as [[[]|e|p'|] v']; simpl in *; injection E' as <- _; congruence. }
  destruct a as [r|r|[]| | | | |]; simpl in E; try done; try (destruct (rn_fed rn) as [f|]; [|done]; simpl in E).
  - injection E as E. eapply Hs; [|exact E]. intros p'. by apply drain_calm.
  - destruct (w_wake w); [|done]. injection E as E. eapply Hs; [|exact E]. intros p'. by apply drain_calm.
  - injection E as E. eapply Hs; [|exact E]. intros p'. destruct (w_conn w) eqn:Hc.
    + rewrite syncOnce_run by done. destruct (sql_fails _); [done|]. by destruct (sel f_active _).
    + unfold Sync.syncOnce, db_rows, ignore, try_, mbind, M_bind. by rewrite blocked_without_conn.
  - injection E as E. eapply Hs; [|exact E]. apply calm_announce.
  - injection E as <- _. done.
  - injection E as <- _. done.
  - injection E as <- _. done.
Qed.


Lemma perform_evolves a w o w' : perform a w = Some (o, w') -> evolves (w_db w) (w_db w').
Proof.
  intros E. destruct (w_conn w) eqn:Hc.
  - destruct (perform_alive _ _ _ _ Hc E) as [(_ & _ & Ev)|(_ & _ & -> & _)]; [done|apply evolves_refl].
  - destruct (perform_stuck _ _ _ _ Hc E) as [-> _]. apply evolves_refl.
Qed.

Lemma history_calm w h w' a o p :
  Outbox.Backoffs (rn_outbox rn) <> [] -> history w h w' -> db_wf (w_db w) ->
  (a, o) ∈ h -> background a = true -> o <> Panic p.
Proof.
  intros Hb. induction 1 as [w|w a' o' w1 h w2 Hp _ IH]; intros W Hin Hbg; [by apply elem_of_nil in Hin|].
  apply elem_of_cons in Hin as [[= -> ->]|Hin]; [by eapply perform_calm|].
  apply IH; [|done..]. eapply evolves_preserves_wf; [|exact W]. by eapply perform_evolves.
Qed.

End System.

(** ** From the start of the process *)

Section Process.
Context `{Env, Engine, Unicode, Zone, Ed25519Keys, FedEngine, FloatText, Chi, Urls, Driver, GoMigrate, Host}.
Context (getenv : string -> string).

(** C4: the process serves until its syncer first finds an active peer, and not beyond.  Take
    a start that serves an intact data file and anything that happens then: visits of clients
    and of peers, drains, reapers, announcements, sync passes, in any order and with any
    failures.  No background goroutine (drain, reaper, sync pass, announcement) panics, the
    database stays intact and its tickets move by the ledger's transitions.  And either everything was answered, the connection is
    free and no sync pass had met an active peer; or the history is cut in two by the first
    pass that met one: all was answered before it, and after it the database never changed
    again and every visit that shows a token waited for good. *)
Theorem serves_until_first_sync f rn b w mcp_serve static_serve cancelled h w' :
  Middleware.good_handler mcp_serve -> Middleware.good_handler static_serve ->
  serves getenv f rn b w -> db_wf (rows f) ->
  history rn mcp_serve static_serve cancelled w h w' ->
  (forall a o p, (a, o) ∈ h -> background a = true -> o <> Panic p) /\
  db_wf (w_db w') /\ rtc ledger_step (ledger_of (w_db w)) (ledger_of (w_db w')) /\
  ((Forall answered h /\ w_conn w' = true /\
    forall h1 o h2 w1, h = h1 ++ (Pull, o) :: h2 -> history rn mcp_serve static_serve cancelled w h1 w1 -> ~ peer_found w1) \/
   frozen rn mcp_serve static_serve cancelled w h w').
Proof.
  intros Hm Hs Hsv W Hh. rewrite (serves_rows _ _ _ _ _ Hsv) in W. apply (proj1 (wf_bare _)) in W.
  assert (w_conn w = true) as Hc. { destruct (serves_world _ _ _ _ _ Hsv) as (_ & _ & _ & ->). done. }
  assert (evolves (w_db w) (w_db w')) as Ev.
  { destruct (history_outcome _ _ _ _ Hm Hs _ _ _ Hh Hc) as [(_ & _ & Ev)|(h1 & h2 & w1 & _ & _ & _ & _ & Ev & -> & _)]; done. }
  split_and!; [|by eapply evolves_preserves_wf|by apply evolves_simulated|].
  - intros a o p. apply (history_calm rn mcp_serve static_serve cancelled Hm Hs w h w'); [|done..].
    destruct Hsv as [(key & k & Hrun) _]. by rewrite (main_outbox _ _ _ _ Hrun).
  - destruct (history_outcome _ _ _ _ Hm Hs _ _ _ Hh Hc) as [(Ha & Hc' & _)|Hf]; [left|by right].
    split_and!; [done..|]. intros h1 o h2 w1 -> Hh1.
    by apply (answered_pulls rn mcp_serve static_serve cancelled Hm Hs w h1 o h2 w').
Qed.

End Process.

(** ** A concrete history: a peer joins, and the next sync pass ends it *)

#[local] Existing Instances sample_env sample_engine ascii_unicode utc_zone open_ed25519 open_keys sample_fed no_floats
  path_router any_url sample_migrate sample_host.

Definition joinable_vars (k : string) : string :=
  if str_eqb k "HB_FEDERATION_ENABLED" then "true"
  else if str_eqb k "HB_FEDERATION_JOIN_SECRET" then "hunter2" else EmptyString.

Definition joinable_start : (goerr + start) * boot := main (H0:=sqlite true) joinable_vars (boot_of new_file None 0).

(** A visit, a peer that shows the secret, a drain, a sync pass, a visit with a token, a reaper. *)
Definition short_life : list action :=
  [Visit (browse "GET" "/healthz" EmptyString);
   PeerVisit (fed_request peer_id "POST" "/fed/register" (join_body peer_id "peer") [("X-Fed-Join-Secret", "hunter2")]);
   Work Outbox.RunTick; Pull;
   Visit (browse "GET" "/dashboard/recruiter" EmptyString);
   ReapSessions].

Definition played := play (running_of joinable_start.1) nothing nothing (fun _ => false) short_life (world_at joinable_start.2).

Definition is_blocked {A} (o : outcome A) : bool := match o with Blocked => true | _ => false end.

Theorem serves_until_first_sync_witness :
  exists h w', played = Some (h, w') /\
    (fun x => is_blocked x.2) <$> h = [false; false; false; true; true; false] /\
    frozen (running_of joinable_start.1) nothing nothing (fun _ => false) (world_at joinable_start.2) h w'.
Proof.
  destruct played as [[h w']|] eqn:E; [|vm_compute in E; discriminate E].
  assert ((fun x => is_blocked x.2) <$> h = [false; false; false; true; true; false]) as Hb.
  { transitivity (match played with Some (h, _) => (fun x => is_blocked x.2) <$> h | None => [] end); [by rewrite E|vm_compute; reflexivity]. }
  exists h, w'. split; [reflexivity|]. split; [exact Hb|].
  destruct (serves_until_first_sync (H9:=sqlite true) joinable_vars new_file (running_of joinable_start.1) joinable_start.2 (world_at joinable_start.2)
    nothing nothing (fun _ => false) h w' good_nothing good_nothing) as (_ & _ & _ & [(Ha & _)|Hf]); [..|exact Hf].
  - split; [exists None, 0%nat; vm_compute; reflexivity|vm_compute; reflexivity].
  - exact (proj2 (wf_bare empty_db) empty_db_wf).
  - by eapply play_history.
  - exfalso. destruct h as [|x1 [|x2 [|x3 [|x4 h]]]]; [discriminate Hb..|]. injection Hb as _ _ _ Hb _.
    do 3 apply Forall_cons in Ha as [_ Ha]. apply Forall_cons in Ha as [Ha _]. apply Ha. by destruct x4 as [a []].
Defined.
