(* ===== verification/Interleaving.v ===== *)
(** * The process, its goroutines interleaved

    The histories of System.v run one action to its end before the next.  Here every visit,
    every drain, every pass of the syncer and every tick of a reaper is a goroutine of
    Pool.v, made of the same functions: they arrive at any time and take turns effect by
    effect.  (The outbox worker and the syncer are one goroutine each in the code, so their
    passes never overlap; here they may, which only adds histories.) *)

From S2P Require Import Prelude RateLimit AdminStore Schema Statements Invariants World Threads Pool.
From S2P Require Import GoStrings GoJson GoTime Sha256 Float Runs Samples Repo RepoFacts Auth AuthFacts Http.
From S2P Require Import Middleware MiddlewareFacts AuthHandlers FedRepo AdminHandlers Ingest IngestFacts Outbox OutboxFacts.
From S2P Require Import Federation FederationFacts Ledger WebUI Config Router RouterFacts Store Startup System.

Open Scope Z_scope.

(** ** The syncer's structure *)

Section Syncer.
Context `{Env, Engine, Ed25519Keys, Urls}.
Context (ident : Identity).

Lemma still_SignedGet url : still (SignedGet ident url).
Proof. unfold SignedGet, client_do. solve_good. Qed.

(** A peer is synced with the connection of the rows in hand: every query is a second one. *)
Lemma syncPeer_code instanceID endpointURL : code true Inside unit (Sync.syncPeer ident instanceID endpointURL).
Proof.
  apply Seq; [apply Seq; [by apply Try, Nested|intros []; apply code_ret]|]. intros since.
  apply Seq; [apply Try, allow_nesting, still_raw, still_SignedGet|]. intros [e|body]; [apply code_ret|].
  destruct (decode_snapshots body) as [snaps|]; [|apply code_ret].
  apply Seq; [|intros _; apply Seq; [apply allow_nesting, still_raw, still_unix_now|intros now; by apply code_ignore, Nested]].
  apply code_for_each. intros snap. apply Seq; [by apply code_ignore, Nested|intros _; by apply code_ignore, Nested].
Defined.

Definition sync_code : code true Outside (option response) (silent (Sync.syncOnce ident)) :=
  Seq true Outside _ _ _ _ (code_ignore _ (code_db_rows _ _ (fun p => syncPeer_code (f_id p) (f_endpoint p))))
    (fun _ => code_ret None).

(** No peer is active. *)
Definition no_peer (d : db) : Prop := sel f_active (federated_instances d) = [].

Lemma sync_harmless : harmless no_peer (Begin sync_code).
Proof.
  constructor; [reflexivity|]. intros w r w' _ Es. simpl in Es. destruct (w_conn w); [|discriminate Es]. injection Es as <- _.
  constructor; [reflexivity|]. clear. intros w r w' HQ Es. simpl in Es. unfold sql_read in Es. rewrite HQ in Es.
  destruct (sql_fails _); injection Es as <- _.
  - constructor; [reflexivity|]. intros w1 r w1' _ Es. injection Es as <- _.
    constructor; [reflexivity|]. intros w2 r w2' _ Es. discriminate Es.
  - constructor; [reflexivity|]. intros w1 r w1' _ Es. injection Es as <- _.
    constructor; [reflexivity|]. intros w2 r w2' _ Es. injection Es as <- _.
    constructor; [reflexivity|]. intros w3 r w3' _ Es. discriminate Es.
Qed.

End Syncer.

(** ** Who may arrive *)

Section Arrivals.
Context `{Env, Engine, Unicode, Zone, Ed25519Keys, FedEngine, FloatText, Chi, Urls}.
Context (rn : running) (mcp_serve static_serve : handler) (cancelled : nat -> bool).

Abbreviation server := (Server.serve (rn_server rn) mcp_serve static_serve).

(** The goroutine of an action, with any evidence of what its program is made of, and the
    world it starts in. *)
Inductive arrives : world -> thread -> world -> Prop :=
| arrive_visit w r (c : good (x ← server r; mret (Some x))) : arrives w (Live false (Begin c)) w
| arrive_peer w f r (c : good (x ← Fed.Routes (fr_config f) empty_ctx r; mret (Some x))) :
    rn_fed rn = Some f -> arrives w (Live false (Begin c)) w
| arrive_tick w (c : good (silent (Outbox.drain (rn_outbox rn) cancelled))) : arrives w (Live false (Begin c)) w
| arrive_wake w (c : good (silent (Outbox.drain (rn_outbox rn) cancelled))) :
    w_wake w = true -> arrives w (Live false (Begin c)) (set_wake false w)
| arrive_pull w f : rn_fed rn = Some f -> arrives w (Live true (Begin (sync_code (fc_Identity (fr_config f))))) w
| arrive_announce w f (c : good (silent (announce f))) : rn_fed rn = Some f -> arrives w (Live false (Begin c)) w
| arrive_reaper w m (c : good (silent m)) : m ∈ [reap_limits; reap_sessions; reap_links] -> arrives w (Live false (Begin c)) w.

Abbreviation steps := (rtc (pool_step arrives)).

Lemma arrives_fresh w t w' : arrives w t w' -> fresh t /\ w_db w' = w_db w /\ w_conn w' = w_conn w.
Proof. intros []; (split; [by do 3 eexists|done]). Qed.

Lemma arrives_harmless Q w t w' : (forall d, Q d -> no_peer d) \/ rn_fed rn = None -> arrives w t w' -> harmless_thread Q t.
Proof.
  intros HQ Ha. destruct Ha as [| | | |w f Hf| |]; try apply handlers_harmless. simpl.
  destruct HQ as [HQ|HQ]; [|congruence]. eapply harmless_mono; [exact HQ|apply sync_harmless].
Qed.

(** The start: nobody, and the world the process starts in. *)
Lemma sound_start (R : db -> Prop) w : R (w_db w) -> w_conn w = true -> sound R ([] : list (thread (X := option response)), w).
Proof. intros Hr Hc. split_and!; [done|by intros t Ht%elem_of_nil|simpl; by rewrite Hc]. Qed.

(** ** One after the other is one of the ways *)

Context (Hmcp : Middleware.good_handler mcp_serve) (Hstatic : Middleware.good_handler static_serve).

Lemma perform_arrives a w x : perform rn mcp_serve static_serve cancelled a w = Some x -> a <> Pull ->
  exists (m : M (option response)) (c : good m) w0,
    arrives w (Live false (Begin c)) w0 /\ w_conn w0 = w_conn w /\ x = m w0.
Proof.
  assert (good reap_limits) as Hl by (unfold reap_limits; solve_good).
  assert (good reap_sessions) as Hse by (unfold reap_sessions; solve_good).
  assert (good reap_links) as Hli by (unfold reap_links; solve_good).
  intros E Ha. destruct a as [r|r|[]| | | | |]; simpl in E; try done;
    try (destruct (rn_fed rn) as [f|] eqn:Ef; [|done]; simpl in E); simplify_eq.
  - eexists _, (good_bind _ _ (Server.good_serve _ _ _ r Hmcp Hstatic) (fun _ => still_good _ (still_ret _))), w.
    split; [by constructor|done].
  - eexists _, (good_bind _ _ (Fed.good_Routes _ empty_ctx r) (fun _ => still_good _ (still_ret _))), w.
    split; [by eapply arrive_peer|done].
  - eexists _, (good_silent _ (Outbox.good_drain _ _)), w. split; [by constructor|done].
  - destruct (w_wake w) eqn:Hw; [|done]. injection E as <-.
    eexists _, (good_silent _ (Outbox.good_drain _ _)), (set_wake false w). split; [by apply arrive_wake|done].
  - eexists _, (good_silent _ (good_announce f)), w. split; [by eapply arrive_announce|done].
  - eexists _, (good_silent _ Hl), w. split; [eapply arrive_reaper; by repeat (left || right)|done].
  - eexists _, (good_silent _ Hse), w. split; [eapply arrive_reaper; by repeat (left || right)|done].
  - eexists _, (good_silent _ Hli), w. split; [eapply arrive_reaper; by repeat (left || right)|done].
Qed.

(** What one action does from its start to its end, with the connection free, is one of the
    things that can happen. *)
Lemma perform_steps ts a w x : perform rn mcp_serve static_serve cancelled a w = Some x -> a <> Pull -> w_conn w = true ->
  steps (ts, w) (ts ++ [Over x.1], x.2).
Proof.
  intros E Ha Hc. destruct (perform_arrives _ _ _ E Ha) as (m & c & w0 & Hs & Hc0 & ->).
  eapply rtc_l; [by apply pool_spawns|]. rewrite Hc in Hc0.
  eapply rtc_subrel; [intros c1 c2 Hm; by apply pool_proceeds, Hm|].
  replace (ts ++ [Over (m w0).1]) with (<[length ts := Over (m w0).1]> (ts ++ [Live false (Begin c)])) by (clear; induction ts; simpl; congruence).
  apply (alone_reach _ _ _ (handler_alone m c w0 Hc0)). clear. induction ts; simpl; congruence.
Qed.

(** So is a pass of the syncer that finds an active peer: it takes the connection, reads the
    peers, and waits for itself. *)
Lemma pull_steps ts w f : rn_fed rn = Some f -> w_conn w = true -> peer_found w ->
  exists t, steps (ts, w) (ts ++ [t], set_conn false (tick w)) /\ waits_for_itself t = true.
Proof.
  intros Hf Hc [Hq (p & Hp & Ha)]. destruct (sel f_active (federated_instances (w_db w))) as [|p0 l] eqn:Es.
  { assert (p ∈ sel f_active (federated_instances (w_db w))) as Hin by (by apply elem_of_sel). rewrite Es in Hin. by apply elem_of_nil in Hin. }
  eexists. split.
  - eapply rtc_l; [by apply pool_spawns, arrive_pull|].
    eapply rtc_l; [apply pool_proceeds, proceeds_last; simpl; rewrite Hc; reflexivity|].
    eapply rtc_l; [apply pool_proceeds, proceeds_last; simpl; unfold sql_read; simpl; rewrite Hq, Es; reflexivity|]. apply rtc_refl.
  - reflexivity.
Qed.

Lemma play_actions acts w h w' : play rn mcp_serve static_serve cancelled acts w = Some (h, w') -> fst <$> h = acts.
Proof.
  revert w h. induction acts as [|a acts IH]; intros w h E; simpl in E; [by simplify_eq|].
  apply bind_Some in E as ([o w1] & _ & ([h2 w2] & Er & E)%bind_Some). injection E as <- <-. simpl. f_equal. by eapply IH.
Qed.

(** A history without the syncer, everything answered in turn. *)
Lemma history_steps w h w' : history rn mcp_serve static_serve cancelled w h w' -> w_conn w = true ->
  Forall (fun x => x.1 <> Pull) h -> forall ts, steps (ts, w) (ts ++ ((fun x => Over x.2) <$> h), w') /\ w_conn w' = true.
Proof.
  induction 1 as [w|w a o w1 h w2 Hp _ IH]; intros Hc Hf ts; [rewrite app_nil_r; split; [apply rtc_refl|done]|].
  apply Forall_cons in Hf as [Ha Hf].
  destruct (perform_alive rn mcp_serve static_serve cancelled Hmcp Hstatic _ _ _ _ Hc Hp) as [(_ & Hc1 & _)|(-> & _)]; [|done].
  destruct (IH Hc1 Hf (ts ++ [Over o])) as [Hr Hc2]. split; [|done]. rewrite <- app_assoc in Hr.
  etrans; [by apply (perform_steps ts a w (o, w1))|exact Hr].
Qed.

End Arrivals.

(** ** From the start of the process *)

Section Process.
Context `{Env, Engine, Unicode, Zone, Ed25519Keys, FedEngine, FloatText, Chi, Urls, Driver, GoMigrate, Host}.
Context (getenv : string -> string).

Lemma peer_found_intro w : sql_fails (w_tick w) = false -> ~ no_peer (w_db w) -> peer_found w.
Proof.
  intros Hq Hn. split; [done|]. unfold no_peer in Hn. destruct (sel f_active (federated_instances (w_db w))) as [|p l] eqn:E; [done|].
  exists p. apply and_comm, elem_of_sel. rewrite E. left.
Qed.

(** What holds of every database of the process started on [d0]. *)
Definition kept (d0 d : db) : Prop := db_wf d /\ rtc ledger_step (ledger_of d0) (ledger_of d).

Lemma kept_evolves d0 d d' : kept d0 d -> evolves d d' -> kept d0 d'.
Proof.
  intros [W Hl] Ev. split; [by eapply evolves_preserves_wf|]. etrans; [exact Hl|by apply evolves_simulated].
Qed.

Lemma serves_sound f rn b w0 :
  serves getenv f rn b w0 -> db_wf (rows f) -> sound (kept (w_db w0)) ([] : list (thread (X := option response)), w0).
Proof.
  intros Hsv W. rewrite (serves_rows _ _ _ _ _ Hsv) in W. apply (proj1 (wf_bare _)) in W. apply sound_start; [done|].
  destruct (serves_world _ _ _ _ _ Hsv) as (_ & _ & _ & ->). done.
Qed.

(** C1: the goroutines of the process, interleaved.  Take a start that serves an intact data
    file, and let visits, peers' visits, drains, sync passes, announcements and reapers arrive
    at any time and take turns effect by effect, statement by statement, in any order and with
    any failures.  In every state this leads to, the database is intact, its tickets moved by
    the ledger's transitions, and the connection is held by one goroutine or is free.  From
    there every order of steps comes to an end: with everything answered, or with a goroutine
    that holds the connection and asks for a second one.  While the connection is free, any
    action of System.v but a sync pass, run from its start to its end, is among these. *)
Theorem interleavings_settle f rn b w0 mcp_serve static_serve cancelled ts w :
  Middleware.good_handler mcp_serve -> Middleware.good_handler static_serve ->
  serves getenv f rn b w0 -> db_wf (rows f) ->
  rtc (pool_step (arrives rn mcp_serve static_serve cancelled)) ([], w0) (ts, w) ->
  kept (w_db w0) (w_db w) /\
  holders ts = (if w_conn w then 0%nat else 1%nat) /\
  inevitable (fun c => kept (w_db w0) (w_db c.2) /\ (settled c \/ wedged_pool c)) (ts, w) /\
  forall a x, perform rn mcp_serve static_serve cancelled a w = Some x -> a <> Pull -> w_conn w = true ->
    rtc (pool_step (arrives rn mcp_serve static_serve cancelled)) (ts, w) (ts ++ [Over x.1], x.2).
Proof.
  intros Hm Hs Hsv W Hr. pose proof (kept_evolves (w_db w0)) as HR.
  pose proof (sound_reach _ (arrives_fresh rn mcp_serve static_serve cancelled) _ HR _ _ (serves_sound _ _ _ _ Hsv W) Hr) as Hc.
  split_and!; [apply Hc|apply Hc| |intros a x; by apply perform_steps].
  eapply inevitable_weaken; [|by eapply sound_settles]. intros c [[Hd _] Hend]. by split.
Qed.

(** C3: only a peer freezes the process.  As long as no peer is active, no goroutine waits for
    itself, the one way in which an order of steps can end without an answer; and where
    federation is off every order ends with everything answered, for good.  Once one waits for
    itself, the connection is taken and the database stays as it is, whatever still arrives
    and happens. *)
Theorem only_peers_freeze f rn b w0 mcp_serve static_serve cancelled :
  serves getenv f rn b w0 -> db_wf (rows f) ->
  let steps := pool_step (arrives rn mcp_serve static_serve cancelled) in
  (forall c, rtc (fun c1 c2 => steps c1 c2 /\ no_peer (w_db c1.2)) ([], w0) c -> ~ wedged_pool c) /\
  (rn_fed rn = None -> forall c, rtc steps ([], w0) c -> inevitable settled c) /\
  (forall c c', rtc steps ([], w0) c -> wedged_pool c -> rtc steps c c' ->
     wedged_pool c' /\ w_conn c'.2 = false /\ w_db c'.2 = w_db c.2).
Proof.
  intros Hsv W steps. pose proof (kept_evolves (w_db w0)) as HR. pose proof (serves_sound _ _ _ _ Hsv W) as Hw0.
  pose proof (arrives_fresh rn mcp_serve static_serve cancelled) as Hfr.
  assert (forall Q (t : thread (X := option response)), t ∈ ([] : list thread, w0).1 -> harmless_thread Q t) as Hno
    by (intros Q t Ht%elem_of_nil; done).
  split_and!.
  - intros c Hr. eapply harmless_not_wedged, (harmless_reach (arrives rn mcp_serve static_serve cancelled) no_peer); [|exact Hr|by apply Hno].
    intros w t w' Ha. eapply arrives_harmless; [by left|exact Ha].
  - intros Hf c Hr. eapply harmless_settles; [exact HR|by eapply sound_reach|].
    eapply (harmless_reach (arrives rn mcp_serve static_serve cancelled)); [|eapply rtc_subrel; [|exact Hr]; by split|by apply Hno].
    intros w t w' Ha. eapply arrives_harmless; [by right|exact Ha].
  - intros c c' Hr Hw Hr'. pose proof (sound_reach _ Hfr _ HR _ _ Hw0 Hr) as Hc.
    destruct (wedged_for_good _ Hfr _ HR _ _ Hc Hw Hr') as [Hw' Ed]. split_and!; [done| |done].
    pose proof (sound_reach _ Hfr _ HR _ _ Hc Hr') as Hc'. by eapply wedged_taken.
Qed.

End Process.

(** ** A concrete run: a peer joins, two visits are under way, then a sync pass *)

#[local] Existing Instances sample_env sample_engine ascii_unicode utc_zone open_ed25519 open_keys sample_fed no_floats
  path_router any_url sample_migrate sample_host.

Abbreviation process := (running_of joinable_start.1).
Abbreviation sample_step := (pool_step (arrives process nothing nothing (fun _ => false))).

(** A visit, a peer that shows the secret, a drain. *)
Definition first_three := play process nothing nothing (fun _ => false) (take 3 short_life) (world_at joinable_start.2).
Definition joined_world : world := match first_three with Some (_, w) => w | None => start_world end.

Lemma joined_steps : exists ts, rtc sample_step ([], world_at joinable_start.2) (ts, joined_world) /\ w_conn joined_world = true.
Proof.
  unfold joined_world. destruct first_three as [[h w]|] eqn:E; [|vm_compute in E; discriminate E]. eexists.
  apply (history_steps process nothing nothing (fun _ => false) good_nothing good_nothing _ h w) with (ts := []).
  - by apply play_history with (acts := take 3 short_life).
  - vm_compute. reflexivity.
  - apply (proj1 (Forall_fmap (B := action) fst (fun a => a <> Pull) h)). rewrite (play_actions _ _ _ _ _ _ _ _ E).
    repeat constructor; discriminate.
Qed.

Lemma joined_peer : peer_found joined_world.
Proof. apply peer_found_intro; [vm_compute; reflexivity|]. intros E. vm_compute in E. discriminate E. Qed.

Lemma joinable_serves : serves (H0:=sqlite true) joinable_vars new_file process joinable_start.2 (world_at joinable_start.2).
Proof. split; [exists None, 0%nat; vm_compute; reflexivity|vm_compute; reflexivity]. Qed.

(** A visit with a token that has just arrived. *)
Definition pending : thread :=
  Live false (Begin (good_bind _ _ (Server.good_serve (rn_server process) nothing nothing
    (browse "GET" "/dashboard/recruiter" EmptyString) good_nothing good_nothing)
    (fun x => still_good _ (still_ret (Some x))))).

(** Two such visits are under way: whatever comes first, both end, or somebody waits for
    himself. *)
Theorem interleavings_settle_witness : exists ts, rtc sample_step ([], world_at joinable_start.2) (ts ++ [pending; pending], joined_world) /\
  inevitable (fun c => kept (w_db (world_at joinable_start.2)) (w_db c.2) /\ (settled c \/ wedged_pool c)) (ts ++ [pending; pending], joined_world).
Proof.
  destruct joined_steps as (ts & Hr & _). exists ts.
  assert (rtc sample_step ([], world_at joinable_start.2) (ts ++ [pending; pending], joined_world)) as Hr2.
  { etrans; [exact Hr|]. eapply rtc_l; [apply pool_spawns, arrive_visit|]. change [pending; pending] with ([pending] ++ [pending]).
    rewrite app_assoc. eapply rtc_l; [apply pool_spawns, arrive_visit|]. apply rtc_refl. }
  split; [exact Hr2|].
  destruct (interleavings_settle (H9:=sqlite true) joinable_vars new_file process joinable_start.2 (world_at joinable_start.2)
    nothing nothing (fun _ => false) (ts ++ [pending; pending]) joined_world good_nothing good_nothing joinable_serves
    (proj2 (wf_bare empty_db) empty_db_wf) Hr2) as (_ & _ & Hi & _). exact Hi.
Defined.

(** The pass that meets the peer freezes the database for good. *)
Theorem only_peers_freeze_witness : exists c, rtc sample_step ([], world_at joinable_start.2) c /\ wedged_pool c /\
  forall c', rtc sample_step c c' -> w_db c'.2 = w_db joined_world.
Proof.
  destruct joined_steps as (ts & Hr & Hc).
  destruct (rn_fed process) as [f|] eqn:Ef; [|vm_compute in Ef; discriminate Ef].
  destruct (pull_steps process nothing nothing (fun _ => false) ts joined_world f Ef Hc joined_peer) as (t & Hp & Hw).
  exists (ts ++ [t], set_conn false (tick joined_world)).
  assert (rtc sample_step ([], world_at joinable_start.2) (ts ++ [t], set_conn false (tick joined_world))) as Hr2 by (by etrans).
  assert (wedged_pool (ts ++ [t], set_conn false (tick joined_world))) as Hwp.
  { exists t. split; [|exact Hw]. apply elem_of_app. right. left. }
  split; [exact Hr2|]. split; [exact Hwp|]. intros c' Hc'.
  destruct (only_peers_freeze (H9:=sqlite true) joinable_vars new_file process joinable_start.2 (world_at joinable_start.2)
    nothing nothing (fun _ => false) joinable_serves (proj2 (wf_bare empty_db) empty_db_wf)) as (_ & _ & Hf).
  destruct (Hf _ _ Hr2 Hwp Hc') as (_ & _ & ->). reflexivity.
Defined.
