(* ===== verification/Styled.v ===== *)
(** * The vendored documentation page's stylesheets: the template language

    src/internal/httpapi/render/static/redoc.js draws the API documentation with
    styled-components: each component is a tagged template whose interpolations read the
    theme and the properties of the component.  This file is the meaning of such a template:
    the JavaScript values an interpolation yields and the text they leave in the stylesheet.

    The theme is given by its leaves, under dotted paths; a missing leaf is [undefined].
    Generated class and animation names, and the colour arithmetic of polished ([Dn], [Gn],
    [Un]: darken, transparentize, lighten; [bright]: [Fn(v)>.5], a luminance over one half),
    are parameters. *)

From S2P Require Import Prelude GoStrings.

Open Scope Z_scope.

Inductive jsv :=
| Undef
| B (b : bool)
| N (z : Z)
(** a number that is not an integer, by its text *)
| D (lit : string)
| S_ (s : string).

Abbreviation S := S_.

Record props := Props {
  p_theme : string -> jsv;
  p_prop : string -> jsv;
  (** [theme.extensionsHook], already applied to the component's properties *)
  p_hook : option (string -> jsv) }.

Class Styled := {
  cls : string -> string;
  anim : string -> string;
  Dn : jsv -> jsv -> jsv;
  Gn : jsv -> jsv -> jsv;
  Un : jsv -> jsv -> jsv;
  bright : jsv -> bool }.

Abbreviation style := (props -> string).

Definition th (p : props) (path : string) : jsv := p_theme p path.
Definition pr (p : props) (name : string) : jsv := p_prop p name.

(** [function ys(e){return t=>{if(t.theme.extensionsHook)return t.theme.extensionsHook(e,t)}}] *)
Definition ys (e : string) (p : props) : jsv := match p_hook p with Some h => h e | None => Undef end.

(** ** JavaScript operators *)

Definition truthy (v : jsv) : bool :=
  match v with
  | Undef => false
  | B b => b
  | N z => negb (z =? 0)
  | D _ => true
  | S_ s => negb (is_empty s)
  end.

(** [String(v)], as a plain template literal uses it. *)
Definition js_str (v : jsv) : string :=
  match v with
  | Undef => "undefined"
  | B b => if b then "true" else "false"
  | N z => itoa z
  | D lit => lit
  | S_ s => s
  end.

(** What an interpolation of a styled template leaves: nothing for [undefined], [false] and
    the empty string. *)
Definition show (v : jsv) : string :=
  match v with
  | Undef | B false => EmptyString
  | _ => js_str v
  end.

Definition and_ (a b : jsv) : jsv := if truthy a then b else a.
Definition or_ (a b : jsv) : jsv := if truthy a then a else b.
Definition not_ (a : jsv) : jsv := B (negb (truthy a)).
Definition cond (c a b : jsv) : jsv := if truthy c then a else b.
Definition dflt (v d : jsv) : jsv := match v with Undef => d | _ => v end.

Definition seq (a b : jsv) : jsv :=
  match a, b with
  | Undef, Undef => B true
  | B x, B y => B (Bool.eqb x y)
  | N x, N y => B (x =? y)
  | D x, D y => B (str_eqb x y)
  | S_ x, S_ y => B (str_eqb x y)
  | _, _ => B false
  end.

(** Arithmetic on integers; any other operand of [*] gives NaN, and [+] joins texts. *)
Definition mul (a b : jsv) : jsv := match a, b with N x, N y => N (x * y) | _, _ => D "NaN" end.
Definition add (a b : jsv) : jsv := match a, b with N x, N y => N (x + y) | _, _ => S (js_str a ++s js_str b) end.
Definition gt (a b : jsv) : jsv := match a, b with N x, N y => B (y <? x) | _, _ => B false end.
Definition includes (l : list jsv) (v : jsv) : jsv := B (existsb (fun x => truthy (seq x v)) l).

(** ** Numbers in texts *)

(** The characters [parseInt] skips, as UTF-8. *)
Definition js_blanks : list string :=
  map (fun l => String.string_of_list_ascii (map byte_of l))
    ([[9]; [10]; [11]; [12]; [13]; [32]; [194; 160]; [225; 154; 128]] ++
     map (fun b => [226; 128; b]) [128; 129; 130; 131; 132; 133; 134; 135; 136; 137; 138; 168; 169; 175] ++
     [[226; 129; 159]; [227; 128; 128]; [239; 187; 191]]).

Fixpoint skip_blanks (fuel : nat) (s : string) : string :=
  match fuel with
  | O => s
  | Datatypes.S fuel =>
      match find (fun b => String.prefix b s) js_blanks with
      | Some b => skip_blanks fuel (String.substring (String.length b) (String.length s) s)
      | None => s
      end
  end.

(** The value of the leading digits, [None] when there are none. *)
Fixpoint leading_digits (acc : option Z) (s : string) : option Z :=
  match s with
  | String c s' =>
      if is_digit c then leading_digits (Some (10 * default 0 acc + (byte_val c - 48))) s' else acc
  | EmptyString => acc
  end.

(** [parseInt(s,10)]; [None] is [NaN]. *)
Definition parseInt (s : string) : option Z :=
  match skip_blanks (String.length s) s with
  | String "-" s' => Z.opp <$> leading_digits None s'
  | String "+" s' => leading_digits None s'
  | s' => leading_digits None s'
  end.

(** The text of [t/100], for a [t] of at most fifteen digits (where a double is exact). *)
Definition hundredth (t : Z) : string :=
  let q := Z.abs t / 100 in
  let r := Z.abs t mod 100 in
  (if t <? 0 then "-" else EmptyString) ++s itoa q
  ++s (if r =? 0 then EmptyString
       else if r mod 10 =? 0 then "." ++s itoa (r / 10)
       else if r <? 10 then ".0" ++s itoa r
       else "." ++s itoa r).

(** [s.endsWith("%")] *)
Fixpoint is_percent (s : string) : bool :=
  match s with
  | EmptyString => false
  | String c EmptyString => byte_val c =? 37
  | String _ s' => is_percent s'
  end.

(** ** Media queries ([ms]) *)

Definition nl6 : string := "
      ".

(** [ms.lessThan(e,t,r)], with [print] for [!0] as second argument and [extra] the third. *)
Definition lessThan (e : string) (print : bool) (extra : string) (inner : style) : style := fun p =>
  nl6 ++s "@media " ++s (if print then "print, " else EmptyString) ++s " screen and (max-width: "
  ++s show (th p ("breakpoints." ++s e)) ++s ") " ++s extra ++s " {
        " ++s inner p ++s ";
      }
    ".

Definition greaterThan (e : string) (inner : style) : style := fun p =>
  nl6 ++s "@media (min-width: " ++s show (th p ("breakpoints." ++s e)) ++s ") {
        " ++s inner p ++s ";
      }
    ".

Definition between (e t : string) (inner : style) : style := fun p =>
  nl6 ++s "@media (min-width: " ++s show (th p ("breakpoints." ++s e)) ++s ") and (max-width: "
  ++s show (th p ("breakpoints." ++s t)) ++s ") {
        " ++s inner p ++s ";
      }
    ".

(** ** Braces *)

(** The nesting depth after [s], from depth [d]; [None] when a brace closes nothing. *)
Fixpoint scan (d : nat) (s : string) : option nat :=
  match s with
  | EmptyString => Some d
  | String c s' =>
      let v := byte_val c in
      if v =? 123 then scan (Datatypes.S d) s'
      else if v =? 125 then match d with O => None | Datatypes.S d' => scan d' s' end
      else scan d s'
  end.

(** A stylesheet fragment that closes exactly what it opens. *)
Definition balanced (s : string) : Prop := forall d, scan d s = Some d.

(** Every value the page is given is a fragment of its own. *)
Definition tame (v : jsv) : Prop := balanced (js_str v).

Record tame_props `{Styled} (p : props) : Prop := {
  tame_theme : forall path, tame (p_theme p path);
  tame_prop : forall name, tame (p_prop p name);
  tame_hook : forall h e, p_hook p = Some h -> tame (h e);
  tame_cls : forall n, balanced (cls n);
  tame_anim : forall n, balanced (anim n);
  tame_Dn : forall a b, tame (Dn a b);
  tame_Gn : forall a b, tame (Gn a b);
  tame_Un : forall a b, tame (Un a b) }.

Lemma scan_app d a b : scan d (a ++s b) = d' ← scan d a; scan d' b.
Proof.
  revert d. induction a as [|c a IH]; intros d; simpl; [done|].
  destruct (byte_val c =? 123); [apply IH|]. destruct (byte_val c =? 125); [|apply IH].
  destruct d; [done|apply IH].
Qed.

Lemma scan_balanced d a b : balanced a -> scan d (a ++s b) = scan d b.
Proof. intros Ha. by rewrite scan_app, Ha. Qed.

Lemma scan_stuck d a b : scan d a = None -> scan d (a ++s b) = None.
Proof. intros E. by rewrite scan_app, E. Qed.

Lemma scan_none_free s : str_all (fun c => negb (byte_val c =? 123) && negb (byte_val c =? 125)) s = true -> balanced s.
Proof.
  induction s as [|c s IH]; intros Hs d; simpl in *; [done|]. bool_prop.
  repeat match goal with H : (_ =? _) = false |- _ => apply Z.eqb_neq in H end.
  destruct (byte_val c =? 123) eqn:E1; [apply Z.eqb_eq in E1; lia|].
  destruct (byte_val c =? 125) eqn:E2; [apply Z.eqb_eq in E2; lia|]. by apply IH.
Qed.

Lemma scan_step d d' a b : scan d a = Some d' -> scan d (a ++s b) = scan d' b.
Proof. intros E. by rewrite scan_app, E. Qed.

Lemma balanced_app a b : balanced a -> balanced b -> balanced (a ++s b).
Proof. intros Ha Hb d. by rewrite scan_balanced. Qed.

Definition brace_free (s : string) : bool :=
  str_all (fun c => negb (byte_val c =? 123) && negb (byte_val c =? 125)) s.

Lemma pretty_N_char_free n : brace_free (String (pretty.pretty_N_char n) EmptyString) = true.
Proof. unfold pretty.pretty_N_char. by repeat case_match. Qed.

Lemma pretty_N_go_free n s : brace_free s = true -> brace_free (pretty.pretty_N_go n s) = true.
Proof.
  revert s. induction n as [n IH] using (well_founded_induction N.lt_wf_0); intros s Hs.
  destruct (decide (n = 0%N)) as [->|Hn]; [by rewrite pretty.pretty_N_go_0|].
  rewrite pretty.pretty_N_go_step by lia. apply IH; [apply N.div_lt; lia|].
  pose proof (pretty_N_char_free (n mod 10)) as Hc. unfold brace_free in *. simpl in *.
  rewrite andb_true_r in Hc. by rewrite Hc, Hs.
Qed.

Lemma pretty_positive_free q : brace_free (pretty.pretty_positive q) = true.
Proof.
  unfold pretty.pretty_positive, pretty.pretty, pretty.pretty_N. case_decide; [done|by apply pretty_N_go_free].
Qed.

Lemma itoa_free z : brace_free (itoa z) = true.
Proof.
  destruct z as [|q|q]; [done|apply pretty_positive_free|].
  change (brace_free (String "-" (pretty.pretty_positive q)) = true). unfold brace_free. simpl.
  apply pretty_positive_free.
Qed.

(** ** Values that are fragments *)

Lemma tame_B b : tame (B b).
Proof. by destruct b; apply scan_none_free. Qed.
Lemma tame_N z : tame (N z).
Proof. apply scan_none_free, itoa_free. Qed.
Lemma tame_Undef : tame Undef.
Proof. by apply scan_none_free. Qed.
Lemma tame_S s : balanced s -> tame (S s).
Proof. done. Qed.
Lemma balanced_js_str v : tame v -> balanced (js_str v).
Proof. done. Qed.
Lemma balanced_show v : tame v -> balanced (show v).
Proof. destruct v as [|[]| | |]; simpl; auto; intros _; by apply scan_none_free. Qed.
Lemma tame_cond c a b : tame a -> tame b -> tame (cond c a b).
Proof. unfold cond. by destruct (truthy c). Qed.
Lemma tame_and a b : tame a -> tame b -> tame (and_ a b).
Proof. unfold and_. by destruct (truthy a). Qed.
Lemma tame_or a b : tame a -> tame b -> tame (or_ a b).
Proof. unfold or_. by destruct (truthy a). Qed.
Lemma tame_dflt a b : tame a -> tame b -> tame (dflt a b).
Proof. by destruct a. Qed.
Lemma tame_mul a b : tame (mul a b).
Proof. destruct a, b; simpl; try (by apply scan_none_free). apply tame_N. Qed.
Lemma tame_add a b : tame a -> tame b -> tame (add a b).
Proof.
  intros Ha Hb.
  destruct a, b; cbv [add]; first [apply tame_N | apply tame_S, balanced_app; [exact Ha|exact Hb]].
Qed.
Lemma tame_not a : tame (not_ a).
Proof. apply tame_B. Qed.
Lemma tame_includes l a : tame (includes l a).
Proof. apply tame_B. Qed.
Lemma tame_seq a b : tame (seq a b).
Proof. destruct a, b; apply tame_B. Qed.
Lemma tame_gt a b : tame (gt a b).
Proof. destruct a, b; apply tame_B. Qed.

Lemma balanced_hundredth t : balanced (hundredth t).
Proof.
  unfold hundredth. apply balanced_app; [case_match; by apply scan_none_free|].
  apply balanced_app; [apply scan_none_free, itoa_free|].
  repeat case_match; repeat first [apply balanced_app | apply scan_none_free, itoa_free | by apply scan_none_free].
Qed.

Lemma balanced_dq : balanced dq.
Proof. by apply scan_none_free. Qed.

Section Tame.
Context `{Styled} (p : props) (T : tame_props p).

Lemma tame_th path : tame (th p path).
Proof. apply T. Qed.
Lemma tame_pr n : tame (pr p n).
Proof. apply T. Qed.
Lemma tame_ys e : tame (ys e p).
Proof. unfold ys. destruct (p_hook p) as [h|] eqn:E; [by apply T|apply tame_Undef]. Qed.

(** A media query is a fragment when its body is. *)
Lemma balanced_lessThan e pr_ extra inner :
  balanced extra -> balanced (inner p) -> balanced (lessThan e pr_ extra inner p).
Proof.
  intros He Hi d. unfold lessThan. rewrite scan_balanced by (by apply scan_none_free).
  rewrite scan_balanced by (by apply scan_none_free).
  rewrite scan_balanced by (by destruct pr_; apply scan_none_free).
  rewrite scan_balanced by (by apply scan_none_free).
  rewrite scan_balanced by (apply balanced_show, tame_th).
  rewrite scan_balanced by (by apply scan_none_free). rewrite scan_balanced by done.
  erewrite scan_step by (vm_compute; reflexivity). rewrite scan_balanced by done. done.
Qed.

End Tame.

Create HintDb css discriminated.
#[export] Hint Constants Opaque : css.
#[export] Hint Resolve tame_B tame_N tame_Undef tame_mul tame_not tame_includes tame_seq tame_gt tame_th tame_pr tame_ys tame_cls tame_anim
  tame_Dn tame_Gn tame_Un balanced_dq balanced_hundredth : css.

Lemma scan_end d a : balanced a -> scan d a = Some d.
Proof. intros Ha. apply Ha. Qed.

(** A literal text that closes what it opens, by evaluation. *)
Ltac literal_css := solve [apply scan_none_free; vm_compute; reflexivity | intros ?; vm_compute; reflexivity].

(** Walk along a concatenation: a literal moves the depth, anything else must be a fragment. *)
Ltac scan_css :=
  intros ?d;
  repeat match goal with
  | |- scan ?d (?a ++s ?b) = _ =>
      lazymatch a with
      | String _ _ => erewrite (scan_step d _ a b) by (vm_compute; reflexivity)
      | _ => rewrite (scan_balanced d a b) by tame_css
      end
  end;
  lazymatch goal with
  | |- scan _ (String _ _) = _ => vm_compute; reflexivity
  | |- scan _ EmptyString = _ => reflexivity
  | |- scan _ (_ ++s _) = _ => fail
  | |- _ => apply scan_end; tame_css
  end
with tame_css :=
  lazymatch goal with
  | |- tame (S _) => apply tame_S; tame_css
  | |- tame (D _) => literal_css
  | |- tame (cond _ _ _) => apply tame_cond; tame_css
  | |- tame (and_ _ _) => apply tame_and; tame_css
  | |- tame (or_ _ _) => apply tame_or; tame_css
  | |- tame (dflt _ _) => apply tame_dflt; tame_css
  | |- tame (add _ _) => apply tame_add; tame_css
  | |- tame _ => solve [eauto 3 with css nocore]
  | |- balanced (show _) => apply balanced_show; tame_css
  | |- balanced (js_str _) => apply balanced_js_str; tame_css
  | |- balanced (lessThan _ _ _ _ _) => apply balanced_lessThan; [assumption|literal_css|cbv beta; tame_css]
  | |- balanced (?a ++s ?b) => scan_css
  | |- balanced dq => apply balanced_dq
  | |- balanced (String _ _) => literal_css
  | |- balanced EmptyString => literal_css
  | |- balanced _ => solve [eauto 3 with css nocore | assumption]
  end.
