(* ===== verification/RedocBase.v ===== *)
(** * The documentation page's components (first half)

    Generated class by class from the styled-components templates of
    src/internal/httpapi/render/static/redoc.js, under the names the minified file gives
    them; each definition is the stylesheet text of one component as a function of its
    theme and properties. *)

From S2P Require Import Prelude GoStrings Styled.

Open Scope Z_scope.

Module RedocBase.
Section Styles.
Context `{Styled}.

(* gs.div *)
Definition bs : style := fun p =>
  "
  padding: 20px;
  color: red;
".

(* fs *)
Definition xs : style := fun p =>
  "
  0% {
    transform: rotate(0deg); }
  100% {
    transform: rotate(360deg);
  }
".

(* gs(...) *)
Definition ws : style := fun p =>
  "
  animation: 2s "
  ++s show (S (anim "xs"))
  ++s " linear infinite;
  width: 50px;
  height: 50px;
  content: '';
  display: inline-block;
  margin-left: -25px;

  path {
    fill: "
  ++s show (pr p "color")
  ++s ";
  }
".

(* gs.div *)
Definition ks : style := fun p =>
  "
  font-family: helvetica, sans;
  width: 100%;
  text-align: center;
  font-size: 25px;
  margin: 30px 0 20px 0;
  color: "
  ++s show (pr p "color")
  ++s ";
".

(* gs.div *)
Definition lp : style := fun p =>
  "
  width: calc(100% - "
  ++s show (th p "rightPanel.width")
  ++s ");
  padding: 0 "
  ++s show (th p "spacing.sectionHorizontal")
  ++s "px;

  "
  ++s show (S (lessThan "medium" true EmptyString (fun p => "
    width: 100%;
    padding: "
  ++s show (S (js_str (cond (pr p "$compact") (N 0) (th p "spacing.sectionVertical")) ++s "px " ++s js_str (th p "spacing.sectionHorizontal") ++s "px"))
  ++s ";
  ") p))
  ++s ";
".

(* gs.div.attrs(e=>({[eh]:e.id})) *)
Definition cp : style := fun p =>
  "
  padding: "
  ++s show (th p "spacing.sectionVertical")
  ++s "px 0;

  &:last-child {
    min-height: calc(100vh + 1px);
  }

  & > &:last-child {
    min-height: initial;
  }

  "
  ++s show (S (lessThan "medium" true EmptyString (fun p => "
    padding: 0;
  ") p))
  ++s "
  "
  ++s show (cond (pr p "$underlined") (S "
    position: relative;

    &:not(:last-of-type):after {
      position: absolute;
      bottom: 0;
      width: 100%;
      display: block;
      content: '';
      border-bottom: 1px solid rgba(0, 0, 0, 0.2);
    }
  ") (S EmptyString))
  ++s "
".

(* gs.div *)
Definition up : style := fun p =>
  "
  width: "
  ++s show (th p "rightPanel.width")
  ++s ";
  color: "
  ++s show (th p "rightPanel.textColor")
  ++s ";
  background-color: "
  ++s show (th p "rightPanel.backgroundColor")
  ++s ";
  padding: 0 "
  ++s show (th p "spacing.sectionHorizontal")
  ++s "px;

  "
  ++s show (S (lessThan "medium" true EmptyString (fun p => "
    width: 100%;
    padding: "
  ++s show (S (js_str (th p "spacing.sectionVertical") ++s "px " ++s js_str (th p "spacing.sectionHorizontal") ++s "px"))
  ++s ";
  ") p))
  ++s ";
".

(* gs(up) *)
Definition pp : style := fun p =>
  "
  background-color: "
  ++s show (th p "rightPanel.backgroundColor")
  ++s ";
".

(* gs.div *)
Definition dp : style := fun p =>
  "
  display: flex;
  width: 100%;
  padding: 0;

  "
  ++s show (S (lessThan "medium" true EmptyString (fun p => "
    flex-direction: column;
  ") p))
  ++s ";
".

Definition fp (e : jsv) : jsv :=
  match e with N 1 => S "1.85714em" | N 2 => S "1.57143em" | N 3 => S "1.27em" | _ => Undef end.

Definition hp (e : jsv) : style := fun p =>
  "
  font-family: " ++s show (th p "typography.headings.fontFamily")
  ++s ";
  font-weight: " ++s show (th p "typography.headings.fontWeight")
  ++s ";
  font-size: " ++s show (fp e)
  ++s ";
  line-height: " ++s show (th p "typography.headings.lineHeight")
  ++s ";
".

(* gs.h1 *)
Definition mp : style := fun p =>
  "
  "
  ++s show (S (hp (N 1) p))
  ++s ";
  color: "
  ++s show (th p "colors.text.primary")
  ++s ";

  "
  ++s show (ys "H1" p)
  ++s ";
".

(* gs.h2 *)
Definition gp : style := fun p =>
  "
  "
  ++s show (S (hp (N 2) p))
  ++s ";
  color: "
  ++s show (th p "colors.text.primary")
  ++s ";
  margin: 0 0 20px;

  "
  ++s show (ys "H2" p)
  ++s ";
".

(* gs.h2 *)
Definition yp : style := fun p =>
  "
  "
  ++s show (S (hp (N 3) p))
  ++s ";
  color: "
  ++s show (th p "colors.text.primary")
  ++s ";

  "
  ++s show (ys "H3" p)
  ++s ";
".

(* gs.h3 *)
Definition bp : style := fun p =>
  "
  color: "
  ++s show (th p "rightPanel.textColor")
  ++s ";

  "
  ++s show (ys "RightPanelHeader" p)
  ++s ";
".

(* gs.h5 *)
Definition vp : style := fun p =>
  "
  border-bottom: 1px solid rgba(38, 50, 56, 0.3);
  margin: 1em 0 1em 0;
  color: rgba(38, 50, 56, 0.5);
  font-weight: normal;
  text-transform: uppercase;
  font-size: 0.929em;
  line-height: 20px;

  "
  ++s show (ys "UnderlinedHeader" p)
  ++s ";
".

(* e=>ps *)
Definition Ep (e : string) : style := fun p =>
  "
  "
  ++s show (S e)
  ++s " {
    cursor: pointer;
    margin-left: -20px;
    padding: 0;
    line-height: 1;
    width: 20px;
    display: inline-block;
    outline: 0;
  }
  "
  ++s show (S e)
  ++s ":before {
    content: '';
    width: 15px;
    height: 15px;
    background-size: contain;
    background-image: url('data:image/svg+xml;base64,PHN2ZyB4bWxucz0iaHR0cDovL3d3dy53My5vcmcvMjAwMC9zdmciIHZlcnNpb249IjEuMSIgeD0iMCIgeT0iMCIgd2lkdGg9IjUxMiIgaGVpZ2h0PSI1MTIiIHZpZXdCb3g9IjAgMCA1MTIgNTEyIiBlbmFibGUtYmFja2dyb3VuZD0ibmV3IDAgMCA1MTIgNTEyIiB4bWw6c3BhY2U9InByZXNlcnZlIj48cGF0aCBmaWxsPSIjMDEwMTAxIiBkPSJNNDU5LjcgMjMzLjRsLTkwLjUgOTAuNWMtNTAgNTAtMTMxIDUwLTE4MSAwIC03LjktNy44LTE0LTE2LjctMTkuNC0yNS44bDQyLjEtNDIuMWMyLTIgNC41LTMuMiA2LjgtNC41IDIuOSA5LjkgOCAxOS4zIDE1LjggMjcuMiAyNSAyNSA2NS42IDI0LjkgOTAuNSAwbDkwLjUtOTAuNWMyNS0yNSAyNS02NS42IDAtOTAuNSAtMjQuOS0yNS02NS41LTI1LTkwLjUgMGwtMzIuMiAzMi4yYy0yNi4xLTEwLjItNTQuMi0xMi45LTgxLjYtOC45bDY4LjYtNjguNmM1MC01MCAxMzEtNTAgMTgxIDBDNTA5LjYgMTAyLjMgNTA5LjYgMTgzLjQgNDU5LjcgMjMzLjR6TTIyMC4zIDM4Mi4ybC0zMi4yIDMyLjJjLTI1IDI0LjktNjUuNiAyNC45LTkwLjUgMCAtMjUtMjUtMjUtNjUuNiAwLTkwLjVsOTAuNS05MC41YzI1LTI1IDY1LjUtMjUgOTAuNSAwIDcuOCA3LjggMTIuOSAxNy4yIDE1LjggMjcuMSAyLjQtMS40IDQuOC0yLjUgNi44LTQuNWw0Mi4xLTQyYy01LjQtOS4yLTExLjYtMTgtMTkuNC0yNS44IC01MC01MC0xMzEtNTAtMTgxIDBsLTkwLjUgOTAuNWMtNTAgNTAtNTAgMTMxIDAgMTgxIDUwIDUwIDEzMSA1MCAxODEgMGw2OC42LTY4LjZDMjc0LjYgMzk1LjEgMjQ2LjQgMzkyLjMgMjIwLjMgMzgyLjJ6Ii8+PC9zdmc+Cg==');
    opacity: 0.5;
    visibility: hidden;
    display: inline-block;
    vertical-align: middle;
  }

  h1:hover > "
  ++s show (S e)
  ++s "::before, h2:hover > "
  ++s show (S e)
  ++s "::before, "
  ++s show (S e)
  ++s ":hover::before {
    visibility: visible;
  }
".

(* gs(...) *)
Definition Op : style := fun p =>
  "
  "
  ++s show (S (Ep "&" p))
  ++s ";
".

Definition Pp (e : jsv) : jsv :=
  match e with
  | S_ "left" => S "90deg" | S_ "right" => S "-90deg" | S_ "up" => S "-180deg" | S_ "down" => S "0"
  | _ => Undef
  end.

(* gs(...) *)
Definition c_p : style := fun p =>
  "
  height: "
  ++s show (or_ (pr p "size") (S "18px"))
  ++s ";
  width: "
  ++s show (or_ (pr p "size") (S "18px"))
  ++s ";
  min-width: "
  ++s show (or_ (pr p "size") (S "18px"))
  ++s ";
  vertical-align: middle;
  float: "
  ++s show (or_ (pr p "float") (S EmptyString))
  ++s ";
  transition: transform 0.2s ease-out;
  transform: rotateZ("
  ++s show (Pp (or_ (pr p "direction") (S "down")))
  ++s ");

  polygon {
    fill: "
  ++s show (or_ (and_ (and_ (pr p "color") (th p ("colors.responses." ++s js_str (pr p "color")))) (th p ("colors.responses." ++s js_str (pr p "color") ++s ".color"))) (pr p "color"))
  ++s ";
  }
".

(* gs.span *)
Definition Ap : style := fun p =>
  "
  display: inline-block;
  padding: 2px 8px;
  margin: 0;
  background-color: "
  ++s show (or_ (pr p "color") (th p ("colors." ++s js_str (pr p "type") ++s ".main")))
  ++s ";
  color: "
  ++s show (th p ("colors." ++s js_str (pr p "type") ++s ".contrastText"))
  ++s ";
  font-size: "
  ++s show (th p "typography.code.fontSize")
  ++s ";
  vertical-align: middle;
  line-height: 1.6;
  border-radius: 4px;
  font-weight: "
  ++s show (th p "typography.fontWeightBold")
  ++s ";
  font-size: 12px;
  + span[type] {
    margin-left: 4px;
  }
".

(* ps *)
Definition Cp : style := fun p =>
  "
  text-decoration: line-through;
  color: #707070;
".

(* gs.caption *)
Definition jp : style := fun p =>
  "
  text-align: right;
  font-size: 0.9em;
  font-weight: normal;
  color: "
  ++s show (th p "colors.text.secondary")
  ++s ";
".

(* gs.td *)
Definition Tp : style := fun p =>
  "
  border-left: 1px solid "
  ++s show (th p "schema.linesColor")
  ++s ";
  box-sizing: border-box;
  position: relative;
  padding: 10px 10px 10px 0;

  "
  ++s show (S (lessThan "small" false EmptyString (fun p => "
    display: block;
    overflow: hidden;
  ") p))
  ++s "

  tr:first-of-type > &,
  tr.last > & {
    border-left-width: 0;
    background-position: top left;
    background-repeat: no-repeat;
    background-size: 1px 100%;
  }

  tr:first-of-type > & {
    background-image: linear-gradient(
      to bottom,
      transparent 0%,
      transparent 22px,
      "
  ++s show (th p "schema.linesColor")
  ++s " 22px,
      "
  ++s show (th p "schema.linesColor")
  ++s " 100%
    );
  }

  tr.last > & {
    background-image: linear-gradient(
      to bottom,
      "
  ++s show (th p "schema.linesColor")
  ++s " 0%,
      "
  ++s show (th p "schema.linesColor")
  ++s " 22px,
      transparent 22px,
      transparent 100%
    );
  }

  tr.last + tr > & {
    border-left-color: transparent;
  }

  tr.last:first-child > & {
    background: none;
    border-left-color: transparent;
  }
".

(* gs(Tp) *)
Definition Np : style := fun p =>
  "
  padding: 0;
".

(* gs(Tp) *)
Definition Ip : style := fun p =>
  "
  vertical-align: top;
  line-height: 20px;
  white-space: nowrap;
  font-size: 13px;
  font-family: "
  ++s show (th p "typography.code.fontFamily")
  ++s ";

  &.deprecated {
    "
  ++s show (S (Cp p))
  ++s ";
  }

  "
  ++s show (and_ (seq (S "patternProperties") (pr p "kind")) (S ("
      > span.property-name {
        display: inline-table;
        white-space: break-spaces;
        margin-right: 20px;

        ::before,
        ::after {
          content: '/';
          filter: opacity(0.2);
        }
      }
    ")))
  ++s "

  "
  ++s show (cond (includes [S "field"; S "additionalProperties"; S "patternProperties"] (dflt (pr p "kind") (S EmptyString))) (S EmptyString) (S "font-style: italic"))
  ++s ";

  "
  ++s show (ys "PropertyNameCell" p)
  ++s ";
".

(* gs.td *)
Definition Rp : style := fun p =>
  "
  border-bottom: 1px solid #9fb4be;
  padding: 10px 0;
  width: "
  ++s show (th p "schema.defaultDetailsWidth")
  ++s ";
  box-sizing: border-box;

  tr.expanded & {
    border-bottom: none;
  }

  "
  ++s show (S (lessThan "small" false EmptyString (fun p => "
    padding: 0 20px;
    border-bottom: none;
    border-left: 1px solid "
  ++s show (th p "schema.linesColor")
  ++s ";

    tr.last > & {
      border-left: none;
    }
  ") p))
  ++s "

  "
  ++s show (ys "PropertyDetailsCell" p)
  ++s ";
".

(* gs.span *)
Definition Lp : style := fun p =>
  "
  color: "
  ++s show (th p "schema.linesColor")
  ++s ";
  font-family: "
  ++s show (th p "typography.code.fontFamily")
  ++s ";
  margin-right: 10px;

  &::before {
    content: '';
    display: inline-block;
    vertical-align: middle;
    width: 10px;
    height: 1px;
    background: "
  ++s show (th p "schema.linesColor")
  ++s ";
  }

  &::after {
    content: '';
    display: inline-block;
    vertical-align: middle;
    width: 1px;
    background: "
  ++s show (th p "schema.linesColor")
  ++s ";
    height: 7px;
  }
".

(* gs.div *)
Definition Dp : style := fun p =>
  "
  padding: "
  ++s show (th p "schema.nestingSpacing")
  ++s ";
".

(* gs.table *)
Definition Mp : style := fun p =>
  "
  border-collapse: separate;
  border-radius: 3px;
  font-size: "
  ++s show (th p "typography.fontSize")
  ++s ";

  border-spacing: 0;
  width: 100%;

  > tr {
    vertical-align: middle;
  }

  "
  ++s show (S (lessThan "small" false EmptyString (fun p => "
    display: block;
    > tr, > tbody > tr {
      display: block;
    }
  ") p))
  ++s "

  "
  ++s show (S (lessThan "small" false " and (-ms-high-contrast:none)" (fun p => "
    td {
      float: left;
      width: 100%;
    }
  ") p))
  ++s "

  &
    "
  ++s show (S (cls "Dp"))
  ++s ",
    &
    "
  ++s show (S (cls "Dp"))
  ++s "
    "
  ++s show (S (cls "Dp"))
  ++s "
    "
  ++s show (S (cls "Dp"))
  ++s ",
    &
    "
  ++s show (S (cls "Dp"))
  ++s "
    "
  ++s show (S (cls "Dp"))
  ++s "
    "
  ++s show (S (cls "Dp"))
  ++s "
    "
  ++s show (S (cls "Dp"))
  ++s "
    "
  ++s show (S (cls "Dp"))
  ++s " {
    margin: "
  ++s show (th p "schema.nestingSpacing")
  ++s ";
    margin-right: 0;
    background: "
  ++s show (th p "schema.nestedBackground")
  ++s ";
  }

  &
    "
  ++s show (S (cls "Dp"))
  ++s "
    "
  ++s show (S (cls "Dp"))
  ++s ",
    &
    "
  ++s show (S (cls "Dp"))
  ++s "
    "
  ++s show (S (cls "Dp"))
  ++s "
    "
  ++s show (S (cls "Dp"))
  ++s "
    "
  ++s show (S (cls "Dp"))
  ++s ",
    &
    "
  ++s show (S (cls "Dp"))
  ++s "
    "
  ++s show (S (cls "Dp"))
  ++s "
    "
  ++s show (S (cls "Dp"))
  ++s "
    "
  ++s show (S (cls "Dp"))
  ++s "
    "
  ++s show (S (cls "Dp"))
  ++s "
    "
  ++s show (S (cls "Dp"))
  ++s " {
    background: #ffffff;
  }
".

(* gs.div *)
Definition zp : style := fun p =>
  "
  margin: 0 0 3px 0;
  display: inline-block;
".

(* gs.span *)
Definition Fp : style := fun p =>
  "
  font-size: 0.9em;
  margin-right: 10px;
  color: "
  ++s show (th p "colors.primary.main")
  ++s ";
  font-family: "
  ++s show (th p "typography.headings.fontFamily")
  ++s ";
}
".

(* gs.button *)
Definition Bp : style := fun p =>
  "
  display: inline-block;
  margin-right: 10px;
  margin-bottom: 5px;
  font-size: 0.8em;
  cursor: pointer;
  border: 1px solid "
  ++s show (th p "colors.primary.main")
  ++s ";
  padding: 2px 10px;
  line-height: 1.5em;
  outline: none;
  &:focus {
    box-shadow: 0 0 0 1px "
  ++s show (th p "colors.primary.main")
  ++s ";
  }

  "
  ++s show (or_ (and_ (pr p "$deprecated") (S (Cp p))) (S EmptyString))
  ++s ";

  "
  ++s show (cond (pr p "$active") (S ("
      color: white;
      background-color: " ++s js_str (th p "colors.primary.main") ++s ";
      &:focus {
        box-shadow: none;
        background-color: " ++s js_str (Dn (S "0.15") (th p "colors.primary.main")) ++s ";
      }
      ")) (S ("
        color: " ++s js_str (th p "colors.primary.main") ++s ";
        background-color: white;
      ")))
  ++s "
".

(* gs.div *)
Definition Up : style := fun p =>
  "
  font-size: 0.9em;
  font-family: "
  ++s show (th p "typography.code.fontFamily")
  ++s ";
  &::after {
    content: ' [';
  }
".

(* gs.div *)
Definition qp : style := fun p =>
  "
  font-size: 0.9em;
  font-family: "
  ++s show (th p "typography.code.fontFamily")
  ++s ";
  &::after {
    content: ']';
  }
".

(* gs(ld) *)
Definition xd : style := fun p =>
  "
  > ul {
    list-style: none;
    padding: 0;
    margin: 0;
    margin: 0 -5px;

    > li {
      padding: 5px 10px;
      display: inline-block;

      background-color: "
  ++s show (th p "codeBlock.backgroundColor")
  ++s ";
      border-bottom: 1px solid rgba(0, 0, 0, 0.5);
      cursor: pointer;
      text-align: center;
      outline: none;
      color: "
  ++s show (Dn (th p "colors.tonalOffset") (th p "rightPanel.textColor"))
  ++s ";
      margin: 0
        "
  ++s show (S (js_str (th p "spacing.unit") ++s "px " ++s js_str (th p "spacing.unit") ++s "px " ++s js_str (th p "spacing.unit") ++s "px"))
  ++s ";
      border: 1px solid "
  ++s show (Dn (S "0.05") (th p "codeBlock.backgroundColor"))
  ++s ";
      border-radius: 5px;
      min-width: 60px;
      font-size: 0.9em;
      font-weight: bold;

      &.react-tabs__tab--selected {
        color: "
  ++s show (th p "colors.text.primary")
  ++s ";
        background: "
  ++s show (th p "rightPanel.textColor")
  ++s ";
        &:focus {
          outline: auto;
        }
      }

      &:only-child {
        flex: none;
        min-width: 100px;
      }

      &.tab-success {
        color: "
  ++s show (th p "colors.responses.success.tabTextColor")
  ++s ";
      }

      &.tab-redirect {
        color: "
  ++s show (th p "colors.responses.redirect.tabTextColor")
  ++s ";
      }

      &.tab-info {
        color: "
  ++s show (th p "colors.responses.info.tabTextColor")
  ++s ";
      }

      &.tab-error {
        color: "
  ++s show (th p "colors.responses.error.tabTextColor")
  ++s ";
      }
    }
  }
  > .react-tabs__tab-panel {
    background: "
  ++s show (th p "codeBlock.backgroundColor")
  ++s ";
    & > div,
    & > pre {
      padding: "
  ++s show (mul (N 4) (th p "spacing.unit"))
  ++s "px;
      margin: 0;
    }

    & > div > pre {
      padding: 0;
    }
  }
".

(* gs(xd), before wd: created and never drawn *)
Definition xd_474 : style := fun p =>
  "
  > ul {
    display: block;
    > li {
      padding: 2px 5px;
      min-width: auto;
      margin: 0 15px 0 0;
      font-size: 13px;
      font-weight: normal;
      border-bottom: 1px dashed;
      color: "
  ++s show (Dn (th p "colors.tonalOffset") (th p "rightPanel.textColor"))
  ++s ";
      border-radius: 0;
      background: none;

      &:last-child {
        margin-right: 0;
      }

      &.react-tabs__tab--selected {
        color: "
  ++s show (th p "rightPanel.textColor")
  ++s ";
        background: none;
      }
    }
  }
  > .react-tabs__tab-panel {
    & > div,
    & > pre {
      padding: "
  ++s show (mul (N 2) (th p "spacing.unit"))
  ++s "px 0;
    }
  }
".

(* gs.div *)
Definition wd : style := fun p =>
  "
  /**
  * Based on prism-dark.css
  */

  code[class*='language-'],
  pre[class*='language-'] {
    /* color: white;
    background: none; */
    text-shadow: 0 -0.1em 0.2em black;
    text-align: left;
    white-space: pre;
    word-spacing: normal;
    word-break: normal;
    word-wrap: normal;
    line-height: 1.5;

    -moz-tab-size: 4;
    -o-tab-size: 4;
    tab-size: 4;

    -webkit-hyphens: none;
    -moz-hyphens: none;
    -ms-hyphens: none;
    hyphens: none;
  }

  @media print {
    code[class*='language-'],
    pre[class*='language-'] {
      text-shadow: none;
    }
  }

  /* Code blocks */
  pre[class*='language-'] {
    padding: 1em;
    margin: 0.5em 0;
    overflow: auto;
  }

  .token.comment,
  .token.prolog,
  .token.doctype,
  .token.cdata {
    color: hsl(30, 20%, 50%);
  }

  .token.punctuation {
    opacity: 0.7;
  }

  .namespace {
    opacity: 0.7;
  }

  .token.property,
  .token.tag,
  .token.number,
  .token.constant,
  .token.symbol {
    color: #4a8bb3;
  }

  .token.boolean {
    color: #e64441;
  }

  .token.selector,
  .token.attr-name,
  .token.string,
  .token.char,
  .token.builtin,
  .token.inserted {
    color: #a0fbaa;
    & + a,
    & + a:visited {
      color: #4ed2ba;
      text-decoration: underline;
    }
  }

  .token.property.string {
    color: white;
  }

  .token.operator,
  .token.entity,
  .token.url,
  .token.variable {
    color: hsl(40, 90%, 60%);
  }

  .token.atrule,
  .token.attr-value,
  .token.keyword {
    color: hsl(350, 40%, 70%);
  }

  .token.regex,
  .token.important {
    color: #e90;
  }

  .token.important,
  .token.bold {
    font-weight: bold;
  }
  .token.italic {
    font-style: italic;
  }

  .token.entity {
    cursor: help;
  }

  .token.deleted {
    color: red;
  }

  "
  ++s show (ys "Prism" p)
  ++s ";
".

(* gs.div *)
Definition kd : style := fun p =>
  "
  opacity: 0.7;
  transition: opacity 0.3s ease;
  text-align: right;
  &:focus-within {
    opacity: 1;
  }
  > button {
    background-color: transparent;
    border: 0;
    color: inherit;
    padding: 2px 10px;
    font-family: "
  ++s show (th p "typography.fontFamily")
  ++s ";
    font-size: "
  ++s show (th p "typography.fontSize")
  ++s ";
    line-height: "
  ++s show (th p "typography.lineHeight")
  ++s ";
    cursor: pointer;
    outline: 0;

    :hover,
    :focus {
      background: rgba(255, 255, 255, 0.1);
    }
  }
".

(* gs.div *)
Definition Sd : style := fun p =>
  "
  &:hover "
  ++s show (S (cls "kd"))
  ++s " {
    opacity: 1;
  }
".

(* gs(wd).attrs({as:"pre"}) *)
Definition Ed : style := fun p =>
  "
  font-family: "
  ++s show (th p "typography.code.fontFamily")
  ++s ";
  font-size: "
  ++s show (th p "typography.code.fontSize")
  ++s ";
  overflow-x: auto;
  margin: 0;

  white-space: "
  ++s show (cond (th p "typography.code.wrap") (S "pre-wrap") (S "pre"))
  ++s ";
".

(* gs.div *)
Definition uf : style := fun p =>
  "
  position: relative;
".

(* gs(...) *)
Definition ff : style := fun p =>
  "
  position: absolute;
  pointer-events: none;
  z-index: 1;
  top: 50%;
  -webkit-transform: translateY(-50%);
  -ms-transform: translateY(-50%);
  transform: translateY(-50%);
  right: 8px;
  margin: auto;
  text-align: center;
  polyline {
    color: "
  ++s show (and_ (seq (S "dark") (pr p "variant")) (S "white"))
  ++s ";
  }
".

(* cs(hf) *)
Definition mf : style := fun p =>
  "
  label {
    box-sizing: border-box;
    min-width: 100px;
    outline: none;
    display: inline-block;
    font-family: "
  ++s show (th p "typography.headings.fontFamily")
  ++s ";
    color: "
  ++s show (th p "colors.text.primary")
  ++s ";
    vertical-align: bottom;
    width: "
  ++s show (cond (pr p "fullWidth") (S "100%") (S "auto"))
  ++s ";
    text-transform: none;
    padding: 0 22px 0 4px;

    font-size: 0.929em;
    line-height: 1.5em;
    font-family: inherit;
    text-overflow: ellipsis;
    overflow: hidden;
    white-space: nowrap;
  }
  .dropdown-select {
    position: absolute;
    top: 0;
    left: 0;
    width: 100%;
    height: 100%;
    opacity: 0;
    border: none;
    appearance: none;
    cursor: pointer;

    color: "
  ++s show (th p "colors.text.primary")
  ++s ";
    line-height: inherit;
    font-family: inherit;
  }
  box-sizing: border-box;
  min-width: 100px;
  outline: none;
  display: inline-block;
  border-radius: 2px;
  border: 1px solid rgba(38, 50, 56, 0.5);
  vertical-align: bottom;
  padding: 2px 0px 2px 6px;
  position: relative;
  width: auto;
  background: white;
  color: #263238;
  font-family: "
  ++s show (th p "typography.headings.fontFamily")
  ++s ";
  font-size: 0.929em;
  line-height: 1.5em;
  cursor: pointer;
  transition: border 0.25s ease, color 0.25s ease, box-shadow 0.25s ease;

  &:hover,
  &:focus-within {
    border: 1px solid "
  ++s show (th p "colors.primary.main")
  ++s ";
    color: "
  ++s show (th p "colors.primary.main")
  ++s ";
    box-shadow: 0px 0px 0px 1px "
  ++s show (th p "colors.primary.main")
  ++s ";
  }
".

(* cs(mf) *)
Definition gf : style := fun p =>
  "
  margin-left: 10px;
  text-transform: none;
  font-size: 0.969em;

  font-size: 1em;
  border: none;
  padding: 0 1.2em 0 0;
  background: transparent;

  &:hover,
  &:focus-within {
    border: none;
    box-shadow: none;
    label {
      color: "
  ++s show (th p "colors.primary.main")
  ++s ";
      text-shadow: 0px 0px 0px "
  ++s show (th p "colors.primary.main")
  ++s ";
    }
  }
".

(* cs.span *)
Definition yf : style := fun p =>
  "
  margin-left: 10px;
  text-transform: none;
  font-size: 0.929em;
  color: black;
".

(* ps *)
Definition wm : style := fun p =>
  "
  a {
    text-decoration: "
  ++s show (th p "typography.links.textDecoration")
  ++s ";
    color: "
  ++s show (th p "typography.links.color")
  ++s ";

    &:visited {
      color: "
  ++s show (th p "typography.links.visited")
  ++s ";
    }

    &:hover {
      color: "
  ++s show (th p "typography.links.hover")
  ++s ";
      text-decoration: "
  ++s show (th p "typography.links.hoverTextDecoration")
  ++s ";
    }
  }
".

(* gs(wd) *)
Definition km : style := fun p =>
  "
  font-family: "
  ++s show (th p "typography.fontFamily")
  ++s ";
  font-weight: "
  ++s show (th p "typography.fontWeightRegular")
  ++s ";
  line-height: "
  ++s show (th p "typography.lineHeight")
  ++s ";

  p {
    &:last-child {
      margin-bottom: 0;
    }
  }

  "
  ++s show (and_ (pr p "$compact") (S "
    p:first-child {
      margin-top: 0;
    }
    p:last-child {
      margin-bottom: 0;
    }
  "))
  ++s "

  "
  ++s show (and_ (pr p "$inline") (S " p {
    display: inline-block;
  }"))
  ++s "

  h1 {
    "
  ++s show (S (hp (N 1) p))
  ++s ";
    color: "
  ++s show (th p "colors.primary.main")
  ++s ";
    margin-top: 0;
  }

  h2 {
    "
  ++s show (S (hp (N 2) p))
  ++s ";
    color: "
  ++s show (th p "colors.text.primary")
  ++s ";
  }

  code {
    color: "
  ++s show (th p "typography.code.color")
  ++s ";
    background-color: "
  ++s show (th p "typography.code.backgroundColor")
  ++s ";

    font-family: "
  ++s show (th p "typography.code.fontFamily")
  ++s ";
    border-radius: 2px;
    border: 1px solid rgba(38, 50, 56, 0.1);
    padding: 0 "
  ++s show (th p "spacing.unit")
  ++s "px;
    font-size: "
  ++s show (th p "typography.code.fontSize")
  ++s ";
    font-weight: "
  ++s show (th p "typography.code.fontWeight")
  ++s ";

    word-break: break-word;
  }

  pre {
    font-family: "
  ++s show (th p "typography.code.fontFamily")
  ++s ";
    white-space: "
  ++s show (cond (th p "typography.code.wrap") (S "pre-wrap") (S "pre"))
  ++s ";
    background-color: "
  ++s show (th p "codeBlock.backgroundColor")
  ++s ";
    color: white;
    padding: "
  ++s show (mul (N 4) (th p "spacing.unit"))
  ++s "px;
    overflow-x: auto;
    line-height: normal;
    border-radius: 0;
    border: 1px solid rgba(38, 50, 56, 0.1);

    code {
      background-color: transparent;
      color: white;
      padding: 0;

      &:before,
      &:after {
        content: none;
      }
    }
  }

  blockquote {
    margin: 0;
    margin-bottom: 1em;
    padding: 0 15px;
    color: #777;
    border-left: 4px solid #ddd;
  }

  img {
    max-width: 100%;
    box-sizing: content-box;
  }

  ul,
  ol {
    padding-left: 2em;
    margin: 0;
    margin-bottom: 1em;

    ul,
    ol {
      margin-bottom: 0;
      margin-top: 0;
    }
  }

  table {
    display: block;
    width: 100%;
    overflow: auto;
    word-break: normal;
    word-break: keep-all;
    border-collapse: collapse;
    border-spacing: 0;
    margin-top: 1.5em;
    margin-bottom: 1.5em;
  }

  table tr {
    background-color: #fff;
    border-top: 1px solid #ccc;

    &:nth-child(2n) {
      background-color: "
  ++s show (th p "schema.nestedBackground")
  ++s ";
    }
  }

  table th,
  table td {
    padding: 6px 13px;
    border: 1px solid #ddd;
  }

  table th {
    text-align: left;
    font-weight: bold;
  }

  "
  ++s show (S (Ep ".share-link" p))
  ++s ";

  "
  ++s show (S (wm p))
  ++s "

  "
  ++s show (ys "Markdown" p)
  ++s ";
".

(* cs(km) *)
Definition jm : style := fun p =>
  "
  display: inline;
".

(* gs.div *)
Definition Rm : style := fun p =>
  "
  position: relative;
".

(* gs.div *)
Definition Lm : style := fun p =>
  "
  position: absolute;
  min-width: 80px;
  max-width: 500px;
  background: #fff;
  bottom: 100%;
  left: 50%;
  margin-bottom: 10px;
  transform: translateX(-50%);

  border-radius: 4px;
  padding: 0.3em 0.6em;
  text-align: center;
  box-shadow: 0px 0px 5px 0px rgba(204, 204, 204, 1);
".

(* gs.div *)
Definition Dm : style := fun p =>
  "
  background: #fff;
  color: #000;
  display: inline;
  font-size: 0.85em;
  white-space: nowrap;
".

(* gs.div *)
Definition Mm : style := fun p =>
  "
  position: absolute;
  width: 0;
  height: 0;
  bottom: -5px;
  left: 50%;
  margin-left: -5px;
  border-left: solid transparent 5px;
  border-right: solid transparent 5px;
  border-top: solid #fff 5px;
".

(* gs.div *)
Definition zm : style := fun p =>
  "
  position: absolute;
  width: 100%;
  height: 20px;
  bottom: -20px;
".

(* ps *)
Definition Xm : style := fun p =>
  "
  .redoc-json code > .collapser {
    display: none;
    pointer-events: none;
  }

  font-family: "
  ++s show (th p "typography.code.fontFamily")
  ++s ";
  font-size: "
  ++s show (th p "typography.code.fontSize")
  ++s ";

  white-space: "
  ++s show (cond (th p "typography.code.wrap") (S "pre-wrap") (S "pre"))
  ++s ";
  contain: content;
  overflow-x: auto;

  .callback-function {
    color: gray;
  }

  .collapser:after {
    content: '-';
    cursor: pointer;
  }

  .collapsed > .collapser:after {
    content: '+';
    cursor: pointer;
  }

  .ellipsis:after {
    content: ' … ';
  }

  .collapsible {
    margin-left: 2em;
  }

  .hoverable {
    padding-top: 1px;
    padding-bottom: 1px;
    padding-left: 2px;
    padding-right: 2px;
    border-radius: 2px;
  }

  .hovered {
    background-color: rgba(235, 238, 249, 1);
  }

  .collapser {
    background-color: transparent;
    border: 0;
    color: #fff;
    font-family: "
  ++s show (th p "typography.code.fontFamily")
  ++s ";
    font-size: "
  ++s show (th p "typography.code.fontSize")
  ++s ";
    padding-right: 6px;
    padding-left: 6px;
    padding-top: 0;
    padding-bottom: 0;
    display: flex;
    align-items: center;
    justify-content: center;
    width: 15px;
    height: 15px;
    position: absolute;
    top: 4px;
    left: -1.5em;
    cursor: default;
    user-select: none;
    -webkit-user-select: none;
    padding: 2px;
    &:focus {
      outline-color: #fff;
      outline-style: dotted;
      outline-width: 1px;
    }
  }

  ul {
    list-style-type: none;
    padding: 0px;
    margin: 0px 0px 0px 26px;
  }

  li {
    position: relative;
    display: block;
  }

  .hoverable {
    display: inline-block;
  }

  .selected {
    outline-style: solid;
    outline-width: 1px;
    outline-style: dotted;
  }

  .collapsed > .collapsible {
    display: none;
  }

  .ellipsis {
    display: none;
  }

  .collapsed > .ellipsis {
    display: inherit;
  }
".

End Styles.
End RedocBase.
