(* ===== verification/RedocPage.v ===== *)
(** * The documentation page's components (second half)

    Generated class by class from the styled-components templates of
    src/internal/httpapi/render/static/redoc.js, under the names the minified file gives
    them; each definition is the stylesheet text of one component as a function of its
    theme and properties. *)

From S2P Require Import Prelude GoStrings Styled RedocBase.

Import RedocBase.

Open Scope Z_scope.

Module RedocPage.
Section Styles.
Context `{Styled}.

(* gs.div *)
Definition Jm : style := fun p =>
  "
  &:hover > "
  ++s show (S (cls "kd"))
  ++s " {
    opacity: 1;
  }
".

(* gs(...) *)
Definition Zm : style := fun p =>
  "
  "
  ++s show (S (Xm p))
  ++s ";
".

(* gs.div *)
Definition og : style := fun p =>
  "
  padding: 0.9em;
  background-color: "
  ++s show (Gn (S "0.6") (th p "rightPanel.backgroundColor"))
  ++s ";
  margin: 0 0 10px 0;
  display: block;
  font-family: "
  ++s show (th p "typography.headings.fontFamily")
  ++s ";
  font-size: 0.929em;
  line-height: 1.5em;
".

(* gs.span *)
Definition sg : style := fun p =>
  "
  font-family: "
  ++s show (th p "typography.headings.fontFamily")
  ++s ";
  font-size: 12px;
  position: absolute;
  z-index: 1;
  top: -11px;
  left: 12px;
  font-weight: "
  ++s show (th p "typography.fontWeightBold")
  ++s ";
  color: "
  ++s show (Gn (S "0.3") (th p "rightPanel.textColor"))
  ++s ";
".

(* gs.div *)
Definition ag : style := fun p =>
  "
  position: relative;
".

(* gs(mf) *)
Definition lg : style := fun p =>
  "
  label {
    color: "
  ++s show (th p "rightPanel.textColor")
  ++s ";
    text-overflow: ellipsis;
    white-space: nowrap;
    overflow: hidden;
    font-size: 1em;
    text-transform: none;
    border: none;
  }
  margin: 0 0 10px 0;
  display: block;
  background-color: "
  ++s show (Gn (S "0.6") (th p "rightPanel.backgroundColor"))
  ++s ";
  border: none;
  padding: 0.9em 1.6em 0.9em 0.9em;
  box-shadow: none;
  &:hover,
  &:focus-within {
    border: none;
    box-shadow: none;
    background-color: "
  ++s show (Gn (S "0.3") (th p "rightPanel.backgroundColor"))
  ++s ";
  }
".

(* gs.div *)
Definition cg : style := fun p =>
  "
  font-family: "
  ++s show (th p "typography.code.fontFamily")
  ++s ";
  font-size: 12px;
  color: #ee807f;
".

(* gs.div *)
Definition pg : style := fun p =>
  "
  margin-top: 15px;
".

(* gs(Ip) *)
Definition Bg : style := fun p =>
  "
  &.deprecated {
    span.property-name {
      "
  ++s show (S (Cp p))
  ++s "
    }
  }

  button {
    background-color: transparent;
    border: 0;
    outline: 0;
    font-size: 13px;
    font-family: "
  ++s show (th p "typography.code.fontFamily")
  ++s ";
    cursor: pointer;
    padding: 0;
    color: "
  ++s show (th p "colors.text.primary")
  ++s ";
    &:focus {
      font-weight: "
  ++s show (th p "typography.fontWeightBold")
  ++s ";
    }
    "
  ++s show (and_ (seq (S "patternProperties") (pr p "kind")) (S ("
        display: inline-flex;
        margin-right: 20px;

        > span.property-name {
          white-space: break-spaces;
          text-align: left;

          ::before,
          ::after {
            content: '/';
            filter: opacity(0.2);
          }
        }

        > svg {
          align-self: center;
        }
      ")))
  ++s "
  }
  "
  ++s show (S (cls "$p"))
  ++s " {
    height: "
  ++s show (th p "schema.arrow.size")
  ++s ";
    width: "
  ++s show (th p "schema.arrow.size")
  ++s ";
    polygon {
      fill: "
  ++s show (th p "schema.arrow.color")
  ++s ";
    }
  }
".

(* gs.span *)
Definition Ug : style := fun p =>
  "
  vertical-align: middle;
  font-size: "
  ++s show (th p "typography.code.fontSize")
  ++s ";
  line-height: 20px;
".

(* gs(Ug) *)
Definition qg : style := fun p =>
  "
  color: "
  ++s show (Gn (S "0.1") (th p "schema.typeNameColor"))
  ++s ";
".

(* gs(Ug) *)
Definition Vg : style := fun p =>
  "
  color: "
  ++s show (th p "schema.typeNameColor")
  ++s ";
".

(* gs(Ug) *)
Definition Wg : style := fun p =>
  "
  color: "
  ++s show (th p "schema.typeTitleColor")
  ++s ";
  word-break: break-word;
".

(* gs(Ug).attrs({as:"div"}) *)
Definition Gg : style := fun p =>
  "
  color: "
  ++s show (th p "schema.requireLabelColor")
  ++s ";
  font-size: "
  ++s show (th p "schema.labelsTextSize")
  ++s ";
  font-weight: normal;
  margin-left: 20px;
  line-height: 1;
".

(* gs(Gg) *)
Definition Yg : style := fun p =>
  "
  color: "
  ++s show (th p "colors.primary.light")
  ++s ";
".

(* gs(Ug) *)
Definition Kg : style := fun p =>
  "
  color: "
  ++s show (th p "colors.warning.main")
  ++s ";
  font-size: 13px;
".

(* gs(Ug) *)
Definition Qg : style := fun p =>
  "
  color: #0e7c86;
  font-family: "
  ++s show (th p "typography.code.fontFamily")
  ++s ";
  font-size: 12px;
  &::before,
  &::after {
    content: ' ';
  }
".

(* gs(Ug) *)
Definition Xg : style := fun p =>
  "
  border-radius: 2px;
  word-break: break-word;
  "
  ++s show (S ("
    background-color: " ++s js_str (Gn (S "0.95") (th p "colors.text.primary")) ++s ";
    color: " ++s js_str (Gn (S "0.1") (th p "colors.text.primary")) ++s ";

    padding: 0 " ++s js_str (th p "spacing.unit") ++s "px;
    border: 1px solid " ++s js_str (Gn (S "0.9") (th p "colors.text.primary")) ++s ";
    font-family: " ++s js_str (th p "typography.code.fontFamily") ++s ";
}"))
  ++s ";
  & + & {
    margin-left: 0;
  }
  "
  ++s show (ys "ExampleValue" p)
  ++s ";
".

(* gs(Xg) *)
Definition Jg : style := fun p => EmptyString.

(* gs(Ug) *)
Definition Zg : style := fun p =>
  "
  border-radius: 2px;
  "
  ++s show (S ("
    background-color: " ++s js_str (Gn (S "0.95") (th p "colors.primary.light")) ++s ";
    color: " ++s js_str (Gn (S "0.1") (th p "colors.primary.main")) ++s ";

    margin: 0 " ++s js_str (th p "spacing.unit") ++s "px;
    padding: 0 " ++s js_str (th p "spacing.unit") ++s "px;
    border: 1px solid " ++s js_str (Gn (S "0.9") (th p "colors.primary.main")) ++s ";
}"))
  ++s ";
  & + & {
    margin-left: 0;
  }
  "
  ++s show (ys "ConstraintItem" p)
  ++s ";
".

(* gs.button *)
Definition ey : style := fun p =>
  "
  background-color: transparent;
  border: 0;
  color: "
  ++s show (th p "colors.text.secondary")
  ++s ";
  margin-left: "
  ++s show (th p "spacing.unit")
  ++s "px;
  border-radius: 2px;
  cursor: pointer;
  outline-color: "
  ++s show (th p "colors.text.secondary")
  ++s ";
  font-size: 12px;
".

(* gs.div *)
Definition ty : style := fun p =>
  "
  "
  ++s show (S (wm p))
  ++s ";
  "
  ++s show (cond (pr p "$compact") (S EmptyString) (S "margin: 1em 0"))
  ++s "
".

(* gs(km) *)
Definition ny : style := fun p =>
  "
  table {
    margin-bottom: 0.2em;
  }
".

(* gs.span *)
Definition oy : style := fun p =>
  "
  color: "
  ++s show (th p "colors.primary.main")
  ++s ";
  vertical-align: middle;
  font-size: 13px;
  line-height: 20px;
  padding: 0 5px;
  cursor: pointer;
".

(* gs(km) *)
Definition sy : style := fun p =>
  "
  margin: 2px 0;
".

(* gs.ul *)
Definition cy : style := fun p =>
  "
  margin-top: 1em;
  list-style-position: outside;
".

(* gs(qg) *)
Definition hy : style := fun p =>
  "
  margin: 0 5px;
  vertical-align: text-top;
".

(* gs.div *)
Definition Fy : style := fun p =>
  "
  padding-left: "
  ++s show (mul (N 2) (th p "spacing.unit"))
  ++s "px;
".

(* gs.div *)
Definition bb : style := fun p =>
  "
  background: "
  ++s show (th p "codeBlock.backgroundColor")
  ++s ";
  & > div,
  & > pre {
    padding: "
  ++s show (mul (N 4) (th p "spacing.unit"))
  ++s "px;
    margin: 0;
  }

  & > div > pre {
    padding: 0;
  }
".

(* cs.div, before vb: created and never drawn *)
Definition div_1233 : style := fun p =>
  "
  background-color: #e4e7eb;
".

(* cs.ul, before vb: created and never drawn *)
Definition ul_1235 : style := fun p =>
  "
  display: inline;
  list-style: none;
  padding: 0;

  li {
    display: inherit;

    &:after {
      content: ',';
    }
    &:last-child:after {
      content: none;
    }
  }
".

(* cs.code *)
Definition vb : style := fun p =>
  "
  font-size: "
  ++s show (th p "typography.code.fontSize")
  ++s ";
  font-family: "
  ++s show (th p "typography.code.fontFamily")
  ++s ";
  margin: 0 3px;
  padding: 0.2em;
  display: inline-block;
  line-height: 1;

  &:after {
    content: ',';
    font-weight: normal;
  }

  &:last-child:after {
    content: none;
  }
".

(* cs.span *)
Definition xb : style := fun p =>
  "
  &:after {
    content: ' and ';
    font-weight: normal;
  }

  &:last-child:after {
    content: none;
  }

  "
  ++s show (S (wm p))
  ++s ";
".

(* cs.span *)
Definition wb : style := fun p =>
  "
  "
  ++s show (and_ (not_ (pr p "$expanded")) (S "white-space: nowrap;"))
  ++s "
  &:after {
    content: ' or ';
    "
  ++s show (and_ (pr p "$expanded") (S "content: ' or \a';"))
  ++s "
    white-space: pre;
  }

  &:last-child:after,
  &:only-child:after {
    content: none;
  }

  "
  ++s show (S (wm p))
  ++s ";
".

(* cs.div *)
Definition kb : style := fun p =>
  "
  flex: 1 1 auto;
  cursor: pointer;
".

(* cs.div *)
Definition Sb : style := fun p =>
  "
  width: "
  ++s show (th p "schema.defaultDetailsWidth")
  ++s ";
  text-overflow: ellipsis;
  border-radius: 4px;
  overflow: hidden;
  "
  ++s show (and_ (pr p "$expanded") (S ("background: " ++s js_str (th p "colors.gray.100") ++s ";
     padding: 8px 9.6px;
     margin: 20px 0;
     width: 100%;
    ")))
  ++s ";
  "
  ++s show (S (lessThan "small" false EmptyString (fun p => "
    margin-top: 10px;
  ") p))
  ++s "
".

(* cs(vp) *)
Definition Eb : style := fun p =>
  "
  display: inline-block;
  margin: 0;
".

(* cs.div *)
Definition Ob : style := fun p =>
  "
  width: 100%;
  display: flex;
  margin: 1em 0;
  flex-direction: "
  ++s show (cond (pr p "$expanded") (S "column") (S "row"))
  ++s ";
  "
  ++s show (S (lessThan "small" false EmptyString (fun p => "
    flex-direction: column;
  ") p))
  ++s "
".

(* cs.div *)
Definition _b : style := fun p =>
  "
  margin: 0.5em 0;
".

(* cs.div *)
Definition Pb : style := fun p =>
  "
  border-bottom: 1px solid "
  ++s show (th p "colors.border.dark")
  ++s ";
  margin-bottom: 1.5em;
  padding-bottom: 0.7em;

  h5 {
    line-height: 1em;
    margin: 0 0 0.6em;
    font-size: "
  ++s show (th p "typography.fontSize")
  ++s ";
  }

  .redoc-markdown p:first-child {
    display: inline;
  }
".

(* cs.div *)
Definition Ab : style := fun p =>
  "
  overflow-y: hidden;
".

(* cs.div *)
Definition Cb : style := fun p =>
  "
  text-align: center;
  line-height: 1.5em;
  "
  ++s show (and_ (pr p "$dimmed") (S "background-image: linear-gradient(to bottom, transparent,rgb(255 255 255));
     position: relative;
     top: -0.5em;
     padding-top: 0.5em;
     background-position-y: -1em;
    "))
  ++s "
".

(* cs.a *)
Definition jb : style := fun p =>
  "
  cursor: pointer;
".

(* gs(mp) *)
Definition Mb : style := fun p =>
  "
  margin-top: 0;
  margin-bottom: 0.5em;

  "
  ++s show (ys "ApiHeader" p)
  ++s ";
".

(* gs.a *)
Definition zb : style := fun p =>
  "
  border: 1px solid "
  ++s show (th p "colors.primary.main")
  ++s ";
  color: "
  ++s show (th p "colors.primary.main")
  ++s ";
  font-weight: normal;
  margin-left: 0.5em;
  padding: 4px 8px 4px;
  display: inline-block;
  text-decoration: none;
  cursor: pointer;

  "
  ++s show (ys "DownloadButton" p)
  ++s ";
".

(* gs.span *)
Definition Fb : style := fun p =>
  "
  &::before {
    content: '|';
    display: inline-block;
    opacity: 0.5;
    width: "
  ++s show (N 15)
  ++s "px;
    text-align: center;
  }

  &:last-child::after {
    display: none;
  }
".

(* gs.div *)
Definition Bb : style := fun p =>
  "
  overflow: hidden;
".

(* gs.div *)
Definition Ub : style := fun p =>
  "
  display: flex;
  flex-wrap: wrap;
  // hide separator on new lines: idea from https://stackoverflow.com/a/31732902/1749888
  margin-left: -"
  ++s show (N 15)
  ++s "px;
".

(* gs.img *)
Definition Vb : style := fun p =>
  "
  max-height: "
  ++s show (th p "logo.maxHeight")
  ++s ";
  max-width: "
  ++s show (th p "logo.maxWidth")
  ++s ";
  padding: "
  ++s show (th p "logo.gutter")
  ++s ";
  width: 100%;
  display: block;
".

(* gs.div *)
Definition Wb : style := fun p =>
  "
  text-align: center;
".

(* gs.a *)
Definition Hb : style := fun p =>
  "
  display: inline-block;
".

(* gs.span.attrs(e=>({className:`operation-type ${e.type}`})) *)
Definition rv : style := fun p =>
  "
  width: 9ex;
  display: inline-block;
  height: "
  ++s show (th p "typography.code.fontSize")
  ++s ";
  line-height: "
  ++s show (th p "typography.code.fontSize")
  ++s ";
  background-color: "
  ++s show (or_ (pr p "color") (S "#333"))
  ++s ";
  border-radius: 3px;
  background-repeat: no-repeat;
  background-position: 6px 4px;
  font-size: 7px;
  font-family: Verdana, sans-serif; // web-safe
  color: white;
  text-transform: uppercase;
  text-align: center;
  font-weight: bold;
  vertical-align: middle;
  margin-right: 6px;
  margin-top: 2px;

  &.get {
    background-color: "
  ++s show (th p "colors.http.get")
  ++s ";
  }

  &.post {
    background-color: "
  ++s show (th p "colors.http.post")
  ++s ";
  }

  &.put {
    background-color: "
  ++s show (th p "colors.http.put")
  ++s ";
  }

  &.options {
    background-color: "
  ++s show (th p "colors.http.options")
  ++s ";
  }

  &.patch {
    background-color: "
  ++s show (th p "colors.http.patch")
  ++s ";
  }

  &.delete {
    background-color: "
  ++s show (th p "colors.http.delete")
  ++s ";
  }

  &.basic {
    background-color: "
  ++s show (th p "colors.http.basic")
  ++s ";
  }

  &.link {
    background-color: "
  ++s show (th p "colors.http.link")
  ++s ";
  }

  &.head {
    background-color: "
  ++s show (th p "colors.http.head")
  ++s ";
  }

  &.hook {
    background-color: "
  ++s show (th p "colors.primary.main")
  ++s ";
  }

  &.schema {
    background-color: "
  ++s show (th p "colors.http.basic")
  ++s ";
  }
".

Definition nv (e : jsv) (p : props) (r : string) : jsv :=
  if truthy (gt e (N 1)) then th p ("sidebar.level1Items." ++s r)
  else if truthy (seq (N 1) e) then th p ("sidebar.groupItems." ++s r) else S EmptyString.

(* gs.ul *)
Definition iv : style := fun p =>
  "
  margin: 0;
  padding: 0;

  &:first-child {
    padding-bottom: 32px;
  }

  & & {
    font-size: 0.929em;
  }

  "
  ++s show (cond (pr p "$expanded") (S EmptyString) (S "display: none;"))
  ++s ";
".

(* gs.li *)
Definition ov : style := fun p =>
  "
  list-style: none inside none;
  overflow: hidden;
  text-overflow: ellipsis;
  padding: 0;
  "
  ++s show (cond (seq (N 0) (pr p "depth")) (S "margin-top: 15px") (S EmptyString))
  ++s ";
".

Definition sv (p : props) (e : jsv) : jsv :=
  match e with
  | N 0 => S ("
    opacity: 0.7;
    text-transform: " ++s show (th p "sidebar.groupItems.textTransform")
    ++s ";
    font-size: 0.8em;
    padding-bottom: 0;
    cursor: default;
  ")
  | N 1 => S ("
    font-size: 0.929em;
    text-transform: " ++s show (th p "sidebar.level1Items.textTransform")
    ++s ";
  ")
  | _ => Undef
  end.

(* gs.label.attrs(...) *)
Definition av : style := fun p =>
  "
  cursor: pointer;
  color: "
  ++s show (cond (pr p "$active") (nv (pr p "$depth") p "activeTextColor") (th p "sidebar.textColor"))
  ++s ";
  margin: 0;
  padding: 12.5px "
  ++s show (mul (N 4) (th p "spacing.unit"))
  ++s "px;
  "
  ++s show (or_ (and_ (and_ (seq (S "section") (pr p "$type")) (gt (pr p "$depth") (N 1))) (add (add (S "padding-left: ") (mul (N 8) (th p "spacing.unit"))) (S "px;"))) (S EmptyString))
  ++s "
  display: flex;
  justify-content: space-between;
  font-family: "
  ++s show (th p "typography.headings.fontFamily")
  ++s ";
  "
  ++s show (sv p (pr p "$depth"))
  ++s ";
  background-color: "
  ++s show (cond (pr p "$active") (nv (pr p "$depth") p "activeBackgroundColor") (th p "sidebar.backgroundColor"))
  ++s ";

  "
  ++s show (or_ (and_ (pr p "$deprecated") (S (Cp p))) (S EmptyString))
  ++s ";

  &:hover {
    color: "
  ++s show (nv (pr p "$depth") p "activeTextColor")
  ++s ";
    background-color: "
  ++s show (nv (pr p "$depth") p "activeBackgroundColor")
  ++s ";
  }

  "
  ++s show (S (cls "$p"))
  ++s " {
    height: "
  ++s show (th p "sidebar.arrow.size")
  ++s ";
    width: "
  ++s show (th p "sidebar.arrow.size")
  ++s ";
    polygon {
      fill: "
  ++s show (th p "sidebar.arrow.color")
  ++s ";
    }
  }
".

(* gs.span *)
Definition lv : style := fun p =>
  "
  display: inline-block;
  vertical-align: middle;
  width: "
  ++s show (cond (pr p "width") (pr p "width") (S "auto"))
  ++s ";
  overflow: hidden;
  text-overflow: ellipsis;
".

(* gs.div *)
Definition cv : style := fun p =>
  "
  "
  ++s show (S ("
    font-size: 0.8em;
    margin-top: "
  ++s show (mul (N 2) (th p "spacing.unit"))
  ++s "px;
    text-align: center;
    position: fixed;
    width: "
  ++s show (th p "sidebar.width")
  ++s ";
    bottom: 0;
    background: "
  ++s show (th p "sidebar.backgroundColor")
  ++s ";

    a,
    a:visited,
    a:hover {
      color: "
  ++s show (th p "sidebar.textColor")
  ++s " !important;
      padding: "
  ++s show (th p "spacing.unit")
  ++s "px 0;
      border-top: 1px solid "
  ++s show (Dn (S "0.1") (th p "sidebar.backgroundColor"))
  ++s ";
      text-decoration: none;
      display: flex;
      align-items: center;
      justify-content: center;
    }
  "))
  ++s ";
  img {
    width: 15px;
    margin-right: 5px;
  }

  "
  ++s show (S (lessThan "small" false EmptyString (fun p => "
    width: 100%;
  ") p))
  ++s ";
".

(* gs.button *)
Definition uv : style := fun p =>
  "
  border: 0;
  width: 100%;
  text-align: left;
  & > * {
    vertical-align: middle;
  }

  "
  ++s show (S (cls "$p"))
  ++s " {
    polygon {
      fill: "
  ++s show (Dn (th p "colors.tonalOffset") (th p "colors.gray.100"))
  ++s ";
    }
  }
".

(* gs.span *)
Definition pv : style := fun p =>
  "
  text-decoration: "
  ++s show (cond (pr p "$deprecated") (S "line-through") (S "none"))
  ++s ";
  margin-right: 8px;
".

(* gs(rv) *)
Definition dv : style := fun p =>
  "
  margin: 0 5px 0 0;
".

(* gs(...) *)
Definition fv : style := fun p =>
  "
  padding: 10px;
  border-radius: 2px;
  margin-bottom: 4px;
  line-height: 1.5em;
  background-color: "
  ++s show (th p "colors.gray.100")
  ++s ";
  cursor: pointer;
  outline-color: "
  ++s show (Dn (th p "colors.tonalOffset") (th p "colors.gray.100"))
  ++s ";
".

(* gs.div *)
Definition hv : style := fun p =>
  "
  padding: 10px 25px;
  background-color: "
  ++s show (th p "colors.gray.50")
  ++s ";
  margin-bottom: 5px;
  margin-top: 5px;
".

(* gs.div *)
Definition gv : style := fun p =>
  "
  cursor: pointer;
  position: relative;
  margin-bottom: 5px;
".

(* gs.span *)
Definition yv : style := fun p =>
  "
  font-family: "
  ++s show (th p "typography.code.fontFamily")
  ++s ";
  margin-left: 10px;
  flex: 1;
  overflow-x: hidden;
  text-overflow: ellipsis;
".

(* gs.button *)
Definition bv : style := fun p =>
  "
  outline: 0;
  color: inherit;
  width: 100%;
  text-align: left;
  cursor: pointer;
  padding: 10px 30px 10px "
  ++s show (cond (pr p "$inverted") (S "10px") (S "20px"))
  ++s ";
  border-radius: "
  ++s show (cond (pr p "$inverted") (S "0") (S "4px 4px 0 0"))
  ++s ";
  background-color: "
  ++s show (cond (pr p "$inverted") (S "transparent") (th p "codeBlock.backgroundColor"))
  ++s ";
  display: flex;
  white-space: nowrap;
  align-items: center;
  border: "
  ++s show (cond (pr p "$inverted") (S "0") (S "1px solid transparent"))
  ++s ";
  border-bottom: "
  ++s show (cond (pr p "$inverted") (S "1px solid #ccc") (S "0"))
  ++s ";
  transition: border-color 0.25s ease;

  "
  ++s show (or_ (and_ (and_ (pr p "$expanded") (not_ (pr p "$inverted"))) (S ("border-color: " ++s js_str (th p "colors.border.dark") ++s ";"))) (S EmptyString))
  ++s "

  ."
  ++s show (S (cls "yv"))
  ++s " {
    color: "
  ++s show (cond (pr p "$inverted") (th p "colors.text.primary") (S "#ffffff"))
  ++s ";
  }
  &:focus {
    box-shadow: inset 0 2px 2px rgba(0, 0, 0, 0.45), 0 2px 0 rgba(128, 128, 128, 0.25);
  }
".

(* gs.span.attrs(e=>({className:`http-verb ${e.type}`})) *)
Definition vv : style := fun p =>
  "
  font-size: "
  ++s show (cond (pr p "$compact") (S "0.8em") (S "0.929em"))
  ++s ";
  line-height: "
  ++s show (cond (pr p "$compact") (S "18px") (S "20px"))
  ++s ";
  background-color: "
  ++s show (or_ (th p ("colors.http." ++s js_str (pr p "type"))) (S "#999999"))
  ++s ";
  color: #ffffff;
  padding: "
  ++s show (cond (pr p "$compact") (S "2px 8px") (S "3px 10px"))
  ++s ";
  text-transform: uppercase;
  font-family: "
  ++s show (th p "typography.headings.fontFamily")
  ++s ";
  margin: 0;
".

(* gs.div *)
Definition xv : style := fun p =>
  "
  position: absolute;
  width: 100%;
  z-index: 100;
  background: "
  ++s show (th p "rightPanel.servers.overlay.backgroundColor")
  ++s ";
  color: "
  ++s show (th p "rightPanel.servers.overlay.textColor")
  ++s ";
  box-sizing: border-box;
  box-shadow: 0 0 6px rgba(0, 0, 0, 0.33);
  overflow: hidden;
  border-bottom-left-radius: 4px;
  border-bottom-right-radius: 4px;
  transition: all 0.25s ease;
  visibility: hidden;
  "
  ++s show (cond (pr p "$expanded") (S "visibility: visible;") (S "transform: translateY(-50%) scaleY(0);"))
  ++s "
".

(* gs.div *)
Definition wv : style := fun p =>
  "
  padding: 10px;
".

(* gs.div *)
Definition kv : style := fun p =>
  "
  padding: 5px;
  border: 1px solid #ccc;
  background: "
  ++s show (th p "rightPanel.servers.url.backgroundColor")
  ++s ";
  word-break: break-all;
  color: "
  ++s show (th p "colors.primary.main")
  ++s ";
  > span {
    color: "
  ++s show (th p "colors.text.primary")
  ++s ";
  }
".

Definition Lv : string := "
  text-transform: lowercase;
  margin-left: 0;
  line-height: 1.5em;
".

(* gs(Gg) *)
Definition Dv : style := fun p =>
  "
  "
  ++s show (S Lv)
  ++s "
".

(* gs("div") *)
Definition Mv : style := fun p =>
  "
  "
  ++s show (S Lv)
  ++s "
  color: "
  ++s show (th p "colors.text.secondary")
  ++s ";
  font-size: "
  ++s show (th p "schema.labelsTextSize")
  ++s ";
".

(* gs(...) *)
Definition zv : style := fun p =>
  "
  display: block;
  border: 0;
  width: 100%;
  text-align: left;
  padding: 10px;
  border-radius: 2px;
  margin-bottom: 4px;
  line-height: 1.5em;
  cursor: pointer;

  color: "
  ++s show (th p ("colors.responses." ++s js_str (pr p "type") ++s ".color"))
  ++s ";
  background-color: "
  ++s show (th p ("colors.responses." ++s js_str (pr p "type") ++s ".backgroundColor"))
  ++s ";
  &:focus {
    outline: auto "
  ++s show (th p ("colors.responses." ++s js_str (pr p "type") ++s ".color"))
  ++s ";
  }
  "
  ++s show (cond (pr p "empty") (S ("
cursor: default;
&::before {
  content: " ++s dq ++s "—" ++s dq ++s ";
  font-weight: bold;
  width: 1.5em;
  text-align: center;
  display: inline-block;
  vertical-align: top;
}
&:focus {
  outline: 0;
}
")) (S EmptyString))
  ++s ";
".

(* gs.div *)
Definition Fv : style := fun p =>
  "
  padding: 10px;
".

(* gs(vp).attrs({as:"caption"}) *)
Definition Bv : style := fun p =>
  "
  text-align: left;
  margin-top: 1em;
  caption-side: top;
".

(* gs.strong *)
Definition Uv : style := fun p =>
  "
  vertical-align: top;
".

(* gs.h3 *)
Definition Xv : style := fun p =>
  "
  font-size: 1.3em;
  padding: 0.2em 0;
  margin: 3em 0 1.1em;
  color: "
  ++s show (th p "colors.text.primary")
  ++s ";
  font-weight: normal;
".

(* gs.div *)
Definition ox : style := fun p =>
  "
  margin-bottom: "
  ++s show (mul (N 3) (th p "spacing.unit"))
  ++s "px;
".

(* gs.h3 *)
Definition lx : style := fun p =>
  "
  font-size: 1.3em;
  padding: 0.2em 0;
  margin: 3em 0 1.1em;
  color: "
  ++s show (th p "colors.text.primary")
  ++s ";
  font-weight: normal;
".

(* gs.div *)
Definition vx : style := fun p =>
  "
  margin-top: 15px;
".

(* gs.div *)
Definition c_x : style := fun p =>
  "
  background: "
  ++s show (th p "codeBlock.backgroundColor")
  ++s ";
  padding: "
  ++s show (mul (N 4) (th p "spacing.unit"))
  ++s "px;
".

(* gs.div *)
Definition Mx : style := fun p =>
  "
  margin-bottom: "
  ++s show (mul (N 6) (th p "spacing.unit"))
  ++s "px;
".

(* gs.div *)
Definition yw : style := fun p =>
  "
  user-select: none;
  width: 20px;
  height: 20px;
  align-self: center;
  display: flex;
  flex-direction: column;
  color: "
  ++s show (th p "colors.primary.main")
  ++s ";
".

(* gs.div *)
Definition xw : style := fun p =>
  "
  width: "
  ++s show (th p "sidebar.width")
  ++s ";
  background-color: "
  ++s show (th p "sidebar.backgroundColor")
  ++s ";
  overflow: hidden;
  display: flex;
  flex-direction: column;

  backface-visibility: hidden;
  /* contain: strict; TODO: breaks layout since Chrome 80*/

  height: 100vh;
  position: sticky;
  position: -webkit-sticky;
  top: 0;

  "
  ++s show (S (lessThan "small" false EmptyString (fun p => "
    position: fixed;
    z-index: 20;
    width: 100%;
    background: "
  ++s show (th p "sidebar.backgroundColor")
  ++s ";
    display: "
  ++s show (cond (pr p "$open") (S "flex") (S "none"))
  ++s ";
  ") p))
  ++s ";

  @media print {
    display: none;
  }
".

(* gs.div *)
Definition ww : style := fun p =>
  "
  outline: none;
  user-select: none;
  background-color: "
  ++s show (th p "fab.backgroundColor")
  ++s ";
  color: "
  ++s show (th p "colors.primary.main")
  ++s ";
  display: none;
  cursor: pointer;
  position: fixed;
  right: 20px;
  z-index: 100;
  border-radius: 50%;
  box-shadow: 0 0 20px rgba(0, 0, 0, 0.3);
  "
  ++s show (S (lessThan "small" false EmptyString (fun p => "
    display: flex;
  ") p))
  ++s ";

  bottom: 44px;

  width: 60px;
  height: 60px;
  padding: 0 20px;
  svg {
    color: "
  ++s show (th p "fab.color")
  ++s ";
  }

  @media print {
    display: none;
  }
".

(* gs.div *)
Definition Sw : style := fun p =>
  "
  "
  ++s show (S ("
  font-family: " ++s js_str (th p "typography.fontFamily") ++s ";
  font-size: " ++s js_str (th p "typography.fontSize") ++s ";
  font-weight: " ++s js_str (th p "typography.fontWeightRegular") ++s ";
  line-height: " ++s js_str (th p "typography.lineHeight") ++s ";
  color: " ++s js_str (th p "colors.text.primary") ++s ";
  display: flex;
  position: relative;
  text-align: left;

  -webkit-font-smoothing: " ++s js_str (th p "typography.smoothing") ++s ";
  font-smoothing: " ++s js_str (th p "typography.smoothing") ++s ";
  " ++s js_str (cond (th p "typography.optimizeSpeed") (S "text-rendering: optimizeSpeed !important") (S EmptyString)) ++s ";

  tap-highlight-color: rgba(0, 0, 0, 0);
  text-size-adjust: 100%;

  * {
    box-sizing: border-box;
    -webkit-tap-highlight-color: rgba(255, 255, 255, 0);
  }
"))
  ++s ";
".

(* gs.div *)
Definition Ew : style := fun p =>
  "
  z-index: 1;
  position: relative;
  overflow: hidden;
  width: calc(100% - "
  ++s show (th p "sidebar.width")
  ++s ");
  "
  ++s show (S (lessThan "small" true EmptyString (fun p => "
    width: 100%;
  ") p))
  ++s ";

  contain: layout;
".

(* the width of Ow: a theme whose [rightPanel.width] is no string has no [endsWith], and the
   page is not drawn; the model gives no text then *)
Definition panel_width (p : props) : jsv :=
  match th p "rightPanel.width" with
  | S_ width =>
      if is_percent width then
        S ("calc((100% - " ++s js_str (th p "sidebar.width") ++s ") * "
           ++s match parseInt width with Some t => hundredth t | None => "NaN" end ++s ")")
      else S width
  | _ => Undef
  end.

(* gs.div *)
Definition Ow : style := fun p =>
  "
  background: "
  ++s show (th p "rightPanel.backgroundColor")
  ++s ";
  position: absolute;
  top: 0;
  bottom: 0;
  right: 0;
  width: "
  ++s show (panel_width p)
  ++s ";
  "
  ++s show (S (lessThan "medium" true EmptyString (fun p => "
    display: none;
  ") p))
  ++s ";
".

(* gs.div *)
Definition _w : style := fun p =>
  "
  padding: 5px 0;
".

(* gs.input.attrs({className:"search-input"}) *)
Definition Pw : style := fun p =>
  "
  width: calc(100% - "
  ++s show (mul (N 8) (th p "spacing.unit"))
  ++s "px);
  box-sizing: border-box;
  margin: 0 "
  ++s show (mul (N 4) (th p "spacing.unit"))
  ++s "px;
  padding: 5px "
  ++s show (mul (N 2) (th p "spacing.unit"))
  ++s "px 5px
    "
  ++s show (mul (N 4) (th p "spacing.unit"))
  ++s "px;
  border: 0;
  border-bottom: 1px solid
    "
  ++s show ((if bright (th p "sidebar.backgroundColor") then Dn else Un) (D "0.1") (th p "sidebar.backgroundColor"))
  ++s ";
  font-family: "
  ++s show (th p "typography.fontFamily")
  ++s ";
  font-weight: bold;
  font-size: 13px;
  color: "
  ++s show (th p "sidebar.textColor")
  ++s ";
  background-color: transparent;
  outline: none;
".

(* gs(...).attrs({className:"search-icon"}) *)
Definition c_w : style := fun p =>
  "
  position: absolute;
  left: "
  ++s show (mul (N 4) (th p "spacing.unit"))
  ++s "px;
  height: 1.8em;
  width: 0.9em;

  path {
    fill: "
  ++s show (th p "sidebar.textColor")
  ++s ";
  }
".

(* gs.div *)
Definition Aw : style := fun p =>
  "
  padding: "
  ++s show (th p "spacing.unit")
  ++s "px 0;
  background-color: "
  ++s show (Dn (S "0.05") (th p "sidebar.backgroundColor"))
  ++s "};
  color: "
  ++s show (th p "sidebar.textColor")
  ++s ";
  min-height: 150px;
  max-height: 250px;
  border-top: "
  ++s show (Dn (S "0.1") (th p "sidebar.backgroundColor"))
  ++s "};
  border-bottom: "
  ++s show (Dn (S "0.1") (th p "sidebar.backgroundColor"))
  ++s "};
  margin-top: 10px;
  line-height: 1.4;
  font-size: 0.9em;
  
  li {
    background-color: inherit;
  }

  "
  ++s show (S (cls "av"))
  ++s " {
    padding-top: 6px;
    padding-bottom: 6px;

    &:hover,
    &.active {
      background-color: "
  ++s show (Dn (S "0.1") (th p "sidebar.backgroundColor"))
  ++s ";
    }

    > svg {
      display: none;
    }
  }
".

(* gs.i *)
Definition Cw : style := fun p =>
  "
  position: absolute;
  display: inline-block;
  width: "
  ++s show (mul (N 2) (th p "spacing.unit"))
  ++s "px;
  text-align: center;
  right: "
  ++s show (mul (N 4) (th p "spacing.unit"))
  ++s "px;
  line-height: 2em;
  vertical-align: middle;
  margin-right: 2px;
  cursor: pointer;
  font-style: normal;
  color: '#666';
".

End Styles.
End RedocPage.
