(* ===== verification/RedocFacts.v ===== *)
(** * What the documentation page's stylesheets guarantee

    A component's rules stay its own: whatever the theme and the properties, each template
    closes exactly the braces it opens, as long as the values put into it do.  Four templates
    of the file do not. *)

From S2P Require Import Prelude GoStrings Styled RedocBase RedocPage.

Import RedocBase RedocPage.

Open Scope Z_scope.

Section Balance.
Context `{Styled}.

(** Every component of redoc.js, in the order of the file and with the three that are created
    and never drawn, but [Fp], [Xg], [Zg] and [Aw]; with them the animation [xs] and the shared
    fragments [Cp], [wm] and [Xm]. *)
Definition all_styles : list style :=
  [
   bs; xs; ws; ks; lp; cp; up; pp; dp; mp; gp; yp; bp; vp; Op; c_p; Ap; Cp; jp; Tp; Np; Ip; Rp;
    Lp; Dp; Mp; zp; Bp; Up; qp; xd; xd_474; wd; kd; Sd; Ed; uf; ff; mf; gf; yf; wm; km; jm; Rm; Lm; Dm;
    Mm; zm; Xm; Jm; Zm; og; sg; ag; lg; cg; pg; Bg; Ug; qg; Vg; Wg; Gg; Yg; Kg; Qg; Jg; ey; ty; ny;
    oy; sy; cy; hy; Fy; bb; div_1233; ul_1235; vb; xb; wb; kb; Sb; Eb; Ob; _b; Pb; Ab; Cb; jb; Mb; zb; Fb; Bb; Ub;
    Vb; Wb; Hb; rv; iv; ov; av; lv; cv; uv; pv; dv; fv; hv; gv; yv; bv; vv; xv; wv; kv; Dv; Mv;
    zv; Fv; Bv; Uv; Xv; ox; lx; vx; c_x; Mx; yw; xw; ww; Sw; Ew; Ow; _w; Pw; c_w; Cw].

Context (p : props) (T : tame_props p).

Lemma tame_fp e : tame (fp e).
Proof. unfold fp. repeat case_match; first [apply tame_Undef|by apply scan_none_free]. Qed.
Lemma tame_Pp e : tame (Pp e).
Proof. unfold Pp. repeat case_match; first [apply tame_Undef|by apply scan_none_free]. Qed.
Lemma tame_nv e r : tame (nv e p r).
Proof. unfold nv. repeat case_match; first [by apply tame_th|by apply scan_none_free]. Qed.
#[local] Hint Resolve tame_fp tame_Pp tame_nv : css.
Lemma tame_sv e : tame (sv p e).
Proof.
  unfold sv. repeat case_match; try apply tame_Undef; apply tame_S; scan_css.
Qed.
Lemma tame_panel_width : tame (panel_width p).
Proof.
  unfold panel_width. pose proof (tame_th p T "rightPanel.width") as Hw.
  destruct (th p "rightPanel.width"); try apply tame_Undef. case_match; [|exact Hw].
  apply tame_S. case_match; scan_css.
Qed.
Lemma tame_border c v : tame ((if bright c then Dn else Un) (D "0.1") v).
Proof. case_match; apply T. Qed.
#[local] Hint Resolve tame_panel_width tame_border : css.
Lemma balanced_hp e : balanced (hp e p).
Proof. unfold hp. scan_css. Qed.
Lemma balanced_Lv : balanced Lv.
Proof. by apply scan_none_free. Qed.
Lemma balanced_Cp : balanced (Cp p).
Proof. unfold Cp. scan_css. Qed.
Lemma balanced_wm : balanced (wm p).
Proof. unfold wm. scan_css. Qed.
Lemma balanced_Xm : balanced (Xm p).
Proof. unfold Xm. scan_css. Qed.
Lemma balanced_Ep e : balanced e -> balanced (Ep e p).
Proof. intros He. unfold Ep. scan_css. Qed.
#[local] Hint Resolve tame_sv balanced_hp balanced_Lv balanced_Cp balanced_wm balanced_Xm : css.
#[local] Hint Extern 1 (balanced (Ep _ _)) => apply balanced_Ep; literal_css : css.

(** A template that closes a brace it did not open. *)
Ltac stray_css :=
  repeat match goal with
  | |- scan ?d (?a ++s ?b) = None =>
      lazymatch a with
      | String _ _ => first [ erewrite (scan_step d _ a b) by (vm_compute; reflexivity)
                            | apply scan_stuck; vm_compute; reflexivity ]
      | show (S ?x) => apply scan_stuck; change (show (S x)) with x
      | _ => rewrite (scan_balanced d a b) by tame_css
      end
  | |- scan ?d (String _ _) = None => vm_compute; reflexivity
  end.

Ltac one_style :=
  lazymatch goal with
  | |- balanced (?f _ _) => unfold f
  | |- balanced (?f _) => unfold f
  end; scan_css.

(** C40: no component leaks out of its rule: for every theme, properties and hook whose values
    close the braces they open, each template of the page but the four shown below to be broken yields a
    fragment that closes exactly what it opens. *)
Theorem styles_balanced : Forall (fun st : style => balanced (st p)) all_styles.
Proof.
  unfold all_styles. repeat (apply Forall_cons; split; [one_style|]). apply Forall_nil; done.
Qed.

(** The four stray braces: each of these templates closes a brace it did not open, so that
    what follows it in the stylesheet is outside of the rule, whatever the theme. *)
Theorem styles_unbalanced : Forall (fun st : style => scan 0 (st p) = None) [Fp; Xg; Zg; Aw].
Proof.
  repeat (apply Forall_cons; split); [unfold Fp|unfold Xg|unfold Zg|unfold Aw|apply Forall_nil; done];
    stray_css.
Qed.

End Balance.

(** ** The theme of docs.html *)

Section Sidebar.
Context `{Styled}.

Definition sidebar_paths : list string :=
  ["colors.sidebar.background"; "colors.sidebar.text"; "colors.sidebar.activeText"].

(** The theme with other values at those three leaves. *)
Definition with_sidebar (v : string -> jsv) (p : props) : props := {|
  p_theme path := if existsb (str_eqb path) sidebar_paths then v path else p_theme p path;
  p_prop := p_prop p;
  p_hook := p_hook p |}.

Lemma str_eqb_suffix a b c :
  ~ (String.list_ascii_of_string b `suffix_of` String.list_ascii_of_string c) -> str_eqb (a ++s b) c = false.
Proof.
  intros Hn. destruct (str_eqb (a ++s b) c) eqn:E; [|done]. apply str_eqb_true in E. destruct Hn. exists (String.list_ascii_of_string a).
  rewrite <- E. clear. induction a as [|x a IH]; simpl; [done|by rewrite IH].
Qed.

Lemma str_eqb_infix a t b c :
  ~ (String.list_ascii_of_string b `suffix_of` String.list_ascii_of_string c) -> str_eqb (a ++s t ++s b) c = false.
Proof. intros Hn. rewrite <- append_assoc. by apply str_eqb_suffix. Qed.

(** A path whose last member is none of the three is read as before. *)
Lemma th_with_sidebar v p a t b :
  forallb (fun c => negb (bool_decide (String.list_ascii_of_string b `suffix_of` String.list_ascii_of_string c)))
    sidebar_paths = true ->
  th (with_sidebar v p) (a ++s t ++s b) = th p (a ++s t ++s b).
Proof.
  intros Hb. unfold th, with_sidebar, sidebar_paths in *. cbn [p_theme existsb forallb] in *. bool_prop.
  by rewrite !str_eqb_infix by done.
Qed.

(** The sidebar colours that docs.html passes to the page (background, text and active text
    under [colors.sidebar]) are read by no component. *)
Theorem sidebar_colours_ignored v p :
  Forall (fun st : style => st (with_sidebar v p) = st p) (all_styles ++ [Fp; Xg; Zg; Aw]).
Proof.
  unfold all_styles. cbn [app].
  repeat (apply Forall_cons; split; [first [reflexivity|unfold Ap; rewrite !th_with_sidebar by done; reflexivity]|]).
  apply Forall_nil; done.
Qed.

End Sidebar.

(** ** A concrete page *)

Definition sc : string := "sc".
#[local] Instance plain_styled : Styled := {|
  cls _ := sc; anim _ := sc; Dn _ _ := S "#111"; Gn _ _ := S "#222"; Un _ _ := S "#eee";
  bright _ := true |}.
Definition plain_props : props := Props (fun _ => S "inherit") (fun _ => Undef) None.

Lemma plain_tame : tame_props plain_props.
Proof. constructor; intros; try done; by apply scan_none_free. Qed.

Theorem styles_balanced_witness : Forall (fun st : style => balanced (st plain_props)) all_styles.
Proof. apply (styles_balanced plain_props plain_tame). Defined.

Theorem styles_unbalanced_witness :
  Forall (fun st : style => scan 0 (st plain_props) = None) [Fp; Xg; Zg; Aw].
Proof. apply (styles_unbalanced plain_props plain_tame). Defined.
