(* ===== verification/Theme.v ===== *)
(** * The light and dark theme of the pages (static/theme.js) and the docs page's script

    The browser state the scripts touch: the saved theme in localStorage, the [data-theme]
    attribute of the document, and on the documentation page the theme attribute of its
    redoc element.  Loading a page runs theme.js from the saved state; the documentation
    page's [updateRedocTheme] reloads the page. *)

From S2P Require Import Prelude GoStrings.

Module Theme.

(** The page a script runs on: only docs.html defines [window.updateRedocTheme]. *)
Inductive page := Plain | Docs.

Record browser := Browser {
  (** [localStorage.getItem('theme')] *)
  stored : option string;
  (** the [data-theme] attribute of the root element *)
  data_theme : option string;
  (** the [theme] attribute of docs.html's redoc element: the leaves it sets *)
  redoc_theme : option (list (string * string)) }.

(** [x || 'dark'] on what getItem returns. *)
Definition savedTheme (s : option string) : string :=
  match s with
  | Some v => if is_empty v then "dark" else v
  | None => "dark"
  end.

Definition darkTheme : list (string * string) :=
  [("colors.primary.main", "#0cf"); ("colors.text.primary", "#eee"); ("colors.text.secondary", "#aaa");
   ("colors.http.get", "#0f0"); ("colors.http.post", "#0cf"); ("colors.sidebar.background", "#111");
   ("colors.sidebar.text", "#eee"); ("colors.sidebar.activeText", "#0cf"); ("colors.border", "#444")]%string.

Definition lightTheme : list (string * string) :=
  [("colors.primary.main", "#0072ff"); ("colors.text.primary", "#333"); ("colors.text.secondary", "#666");
   ("colors.http.get", "#10b981"); ("colors.http.post", "#0072ff"); ("colors.sidebar.background", "#f4f4f5");
   ("colors.sidebar.text", "#333"); ("colors.sidebar.activeText", "#0072ff"); ("colors.border", "#e4e4e7")]%string.

(** docs.html: the redoc element's theme follows the attribute theme.js has set. *)
Definition docs_script (b : browser) : browser :=
  {| stored := stored b; data_theme := data_theme b;
     redoc_theme := Some (if decide (data_theme b = Some "light"%string) then lightTheme else darkTheme) |}.

(** Loading a page: a new document, theme.js's immediate function, then the page's script. *)
Definition load (pg : page) (b : browser) : browser :=
  let b' := {| stored := stored b; data_theme := Some (savedTheme (stored b)); redoc_theme := None |} in
  match pg with Plain => b' | Docs => docs_script b' end.

(** [window.updateRedocTheme], defined on docs.html only: [location.reload()]. *)
Definition updateRedocTheme (pg : page) (b : browser) : browser :=
  match pg with Plain => b | Docs => load Docs b end.

Definition toggleTheme (pg : page) (b : browser) : browser :=
  let current := data_theme b in
  let next := (if decide (current = Some "dark") then "light" else "dark")%string in
  updateRedocTheme pg {| stored := Some next; data_theme := Some next; redoc_theme := redoc_theme b |}.

(** What a visitor does: open pages and press the button, in any order. *)
Inductive act := Open (pg : page) | Toggle.

(** The browser and the page it shows. *)
Definition visit (st : page * browser) (a : act) : page * browser :=
  match a with
  | Open pg => (pg, load pg (snd st))
  | Toggle => (fst st, toggleTheme (fst st) (snd st))
  end.

Definition visits (st : page * browser) (l : list act) : page * browser := fold_left visit l st.

(** ** What every page shows *)

(** The page agrees with what is saved, and the documentation's colours with the page. *)
Definition shown (st : page * browser) : Prop :=
  data_theme (snd st) = Some (savedTheme (stored (snd st))) /\
  match fst st with
  | Plain => redoc_theme (snd st) = None
  | Docs => redoc_theme (snd st) =
              Some (if decide (savedTheme (stored (snd st)) = "light"%string) then lightTheme else darkTheme)
  end.

Lemma shown_load pg b : shown (pg, load pg b).
Proof. destruct pg; split; simpl; try done. set (t := savedTheme (stored b)). do 2 case_decide; congruence. Qed.

Lemma shown_visit st a : shown st -> shown (visit st a).
Proof.
  intros Hs. destruct a as [pg|]; [apply shown_load|]. destruct st as [pg b]. destruct Hs as [Hd Hr].
  simpl in *. unfold toggleTheme. destruct pg; [|apply shown_load]. split; simpl; [by case_decide|done].
Qed.

Lemma load_stored pg b : stored (load pg b) = stored b.
Proof. by destruct pg. Qed.

Lemma toggle_stored pg b :
  stored (toggleTheme pg b) = Some (if decide (data_theme b = Some "dark") then "light" else "dark")%string.
Proof. unfold toggleTheme. by destruct pg. Qed.

(** C39: whatever pages a visitor opens and however often the theme is toggled, every page shows
    the saved theme, the documentation's colours included. *)
Theorem pages_agree b pg l : shown (visits (pg, load pg b) l).
Proof.
  unfold visits. generalize (shown_load pg b). generalize (pg, load pg b).
  induction l as [|a l IH]; intros st Hs; simpl; [done|]. by apply IH, shown_visit.
Qed.

(** On a page that shows what is saved, pressing the button twice brings back either theme,
    and one press always changes the theme shown. *)
Theorem toggle_twice pg b (Hs : shown (pg, b)) (Hk : savedTheme (stored b) ∈ ["dark"; "light"]%string) :
  data_theme (toggleTheme pg (toggleTheme pg b)) = data_theme b /\
  data_theme (toggleTheme pg b) <> data_theme b.
Proof.
  pose proof (shown_visit _ Toggle Hs) as H1. pose proof (shown_visit _ Toggle H1) as H2.
  destruct Hs as [Hd _], H1 as [Hd1 _], H2 as [Hd2 _]. cbn [visit fst snd] in *.
  rewrite Hd2, toggle_stored, Hd1, !toggle_stored, Hd.
  rewrite !elem_of_cons, elem_of_nil in Hk. destruct Hk as [->|[->|[]]]; vm_compute; split; congruence.
Qed.

Theorem toggle_twice_witness :
  let b := load Docs (Browser None None None) in
  data_theme (toggleTheme Docs (toggleTheme Docs b)) = data_theme b /\
  data_theme (toggleTheme Docs b) <> data_theme b.
Proof. apply (toggle_twice Docs); [apply (shown_load Docs)|vm_compute; left]. Defined.

End Theme.
